(* ===== verification/_CoqProject ===== *)
-Q . S2P
Prelude.v
GF256.v
Word.v
Memory.v
Syndrome.v
Cstring.v
Service.v
Vanilla.v
Smp.v
Validator.v
MultiRs.v
Conf.v
Marshal.v
Driver.v
Messages.v
Transport.v
Protocol.v
Refine.v
Atomic.v
Hazards.v
NetlinkFailures.v
Locks.v
Signals.v
Failures.v
Module.v
Testbed.v
KernelMode.v
Deamon.v
System.v
SmpGs.v
MmapExample.v
Types.v
CudaApi.v
Cuda.v
CudaAsync.v
RsKernel.v
TypesGpu.v
RsEncoder.v
PingProc.v
PingIoctl.v
PingNlKsp.v
PingNlUsp.v
MemCheck.v
Benchmarks.v
CopyMarshal.v
