(* ===== verification/Prelude.v ===== *)
(** * Barracuda: a verification development

    Barracuda is a RAID 6 driver stack: a Linux kernel module receives requests
    to compute the check disks P and Q of a stripe and hands them to a daemon in
    user space, which computes them with one of several implementations, on the
    CPU or the GPU.  This library models the C and CUDA sources under src/ as
    executable definitions and proves what they do, right or wrong.

    ** Conventions

    A statement that can fault returns a [result]; [fault] lists the ways.  A
    buffer is a list of bytes in the memory [mem] of Memory.v, reached by its
    address ([loc]), so aliasing is visible and every access checks its bounds.
    Integers are [Z], wrapped or checked where the C type is: [int] arithmetic
    that overflows is [Err IntOverflow], conversions are [to_int], [to_u8] and
    explicit remainders.  The word size is the class [Native] (Word.v).
    Concurrent code is a step relation over shared state whose steps are single
    statements, in every interleaving; theorems about it are by invariants and
    measures.  External services (CUDA runtime, clocks, allocation failures,
    kernel registration) are arguments or type classes with their documented
    laws; each class has an instance, used by the witnesses.  A theorem named
    [t_witness] applies [t] to concrete inputs.

    ** The parts and their files

    Foundations
    - Prelude.v: faults, the [result] monad, machine integers, loop rules.
    - GF256.v: GF(2^8) and the RAID 6 code as mathematics ([gen_p], [gen_q],
      [raid6_distance]: any two erasures are recoverable).
    - Word.v (global_def.h): words and their byte lanes.
    - Memory.v: buffers, accesses, malloc.  Cstring.v: C strings.
    - Syndrome.v (definitions.h): the type [syndrome_func] and the contract
      [PqGenerator], against which all clients are verified.

    Implementations of gen_syndrome (barracuda_deamon/)
    - Vanilla.v (vanilla/raid6vanilla.cu), Smp.v (smp/raid6smp.cu; threads),
      Validator.v (dummy/raid6dummy.cu), MultiRs.v and RsKernel.v
      (multrs/raid6multrs.cu; CPU and GPU), Cuda.v (cuda/raid6cuda.cu) and
      CudaAsync.v (the same with ASYNC: streams and page-locked buffers), with
      the CUDA runtime as the classes [CudaRuntime] and [CudaLaws] of CudaApi.v
      and [CudaStreams] of CudaAsync.v.
    - Types.v, TypesGpu.v: what all of them keep on every run.

    The daemon (barracuda_deamon/)
    - Deamon.v (baracuda_deamon.cu, benchmarker.cu): the command line.
    - Driver.v (userspace_driver.cu): taking and returning requests, payloads,
      signal handlers, start-up.  Messages.v (userspace_driver.cu): the netlink
      messages as blocks of the heap.  Service.v (service.cu): test arrays.
    - Validator.v (validator.cu), Benchmarks.v (bench/).

    The kernel module (barracuda_kernel_module/)
    - Module.v (raid6cuda.c, raid6cuda_tst.c): loading and unloading.
    - Conf.v (raid6cuda.c): /proc/barracuda/conf.
    - Marshal.v (raid6cuda.c): containers, read, write, mmap.
    - Testbed.v and KernelMode.v (raid6cuda_tst.c): its thread, with and without
      BENCHMARK, and its own generators.

    Kernel module and daemon together
    - Transport.v: any number of kernel threads calling raid6_cuda_gen_syndrome
      (raid6cuda.c) against the server loops of userspace_driver.cu, for the
      three connection methods, statement by statement.
    - Protocol.v: its finite control skeleton, explored exhaustively.
    - Refine.v, Atomic.v: it refines an atomic service, ends, and answers.
    - Hazards.v: what happens when a sleep is interrupted.
    - NetlinkFailures.v: what happens when a socket buffer cannot be had,
      delivered or copied.
    - Locks.v: both mutexes on the way, in every run with all of the above.
    - Signals.v, Failures.v: what a signal to a sleeper and a failing netlink
      service lead to, in every state the system can reach.
    - CopyMarshal.v: requests that are copied instead of mapped
      (COPY_MARSHALLING, an option of userspace_driver.cu).
    - System.v: from the command line of the daemon to the check disks.

    Prototypes and tools
    - SmpGs.v (prototypes/smp_gs), MmapExample.v (prototypes/mmap_example),
      RsEncoder.v (prototypes/multi_rs_cuda), PingProc.v, PingIoctl.v,
      PingNlKsp.v and PingNlUsp.v (the ping_pong directories there), MemCheck.v
      (tools/cuda_memcheck).

    ** What the theorems show

    - Functional correctness: [vanilla_correct], [smp_correct] (every
      interleaving), [smp_refines_vanilla], [multi_rs_correct], [cuda_parity],
      [async_outcome] (every order of streams and threads);
      [vanilla_two_erasures] recovers any two disks of a processed array.
    - The service as a whole: [transport_refines], [transport_terminates],
      [transport_parity] for every method, implementation and interleaving;
      [system_serves] adds the start by a command line;
      [driver_configures_kernel] and [conf_handshake] for the set-up;
      [get_unget_roundtrip], [pack_smc_roundtrip], [mmap_mmap_disk] for the way
      the buffers travel, [message_containers] for the messages of the daemon.
    - Whatever goes wrong: [locks_hold] accounts for the permits of the mutexes
      under signals and failing services; [signal_returns_early] and
      [netlink_failure_outcome] say what each of these leads to from every
      reachable state, for callers and data; [smp_overrun] shows that the length
      [smp_correct] asks of the buffers is exact.
    - Equivalences: [gpu_mult_equiv], [gpu_check_symbols] (GPU against CPU),
      [async_q_is_sync_p] (asynchronous against synchronous copies),
      [setup_tables_generates] (the generator against the tables),
      [copy_marshalling_equiv] (copied against mapped requests).
    - Type safety: [generators_type_safe], [gpu_generators_type_safe].
    - Handshakes: [ping_pong_proc], [ping_pong_ioctl], [ping_pong_nl_ksp],
      [ping_pong_nl_usp], for every order of their steps.
    - Programs that end and give back their memory: [thread_code_ends],
      [sample_thread_runs],
      [dryrun_correct], [rs_encoder_main], [smp_gs_main], [memcheck_verdict].
    - Errors: theorems such as [mult_gf_correct], [cuda_q_garbage],
      [conf_write_wedges],
      [cuda_after_release], [gpu_benchmarks_fault] state exactly
      when the code does something else than it means to.

    ** Fuel and bounds

    [for_lt] runs a C loop with fuel for the whole range: [for_lt_inv] shows that
    every loop with a positive step ends within it.  Loops on the clock and
    retry loops take fuel explicitly, and a theorem says how much is enough
    ([thread_code_ends], [xor_measurement], [rs_encoder_main],
    [memcheck_terminates]: 4097 requests for memory); their [Err OutOfFuel] is
    never a result below that bound.  Step relations have no fuel; their
    theorems bound the length of every execution.

    ** Not modelled

    - Messages, logging and help texts; times are clock
      parameters, in exact units where the code uses doubles.
    - Code behind debug macros that are not defined, and the SINGLETHREADED
      branch of mmap_example/pong.c, which passes an uninitialised thread number.
    - cuda/raid6cuda.cu: the cudaFree of the page-locked buffers with ASYNC,
      which belong to cudaFreeHost; the runtime refuses such pointers.
    - Socket set-up and the netlink library of the kernel.
    - malloc of the host never fails except in MemCheck.v, where the size can be
      negative.  The CPUs are sequentially consistent.
    - The shared pointers [local_accu] and [local_fetch_tmp] of rs_kernel, on
      which all threads of a block race, are read as private (RsKernel.v). *)

From Stdlib Require Export ZArith Lia.
From stdpp Require Export base numbers list gmap strings relations.

#[export] Set Default Goal Selector "!".
Declare Scope bcu_scope.
Delimit Scope bcu_scope with bcu.
Local Open Scope Z_scope.

(** ** Faults and fallible computations

    Every way in which the C code leaves the behaviour its text describes. *)
Inductive fault :=
  | OutOfBounds      (* access outside a live buffer, or through a wild pointer *)
  | NullDeref        (* access through NULL *)
  | IntOverflow      (* signed [int] overflow *)
  | DivByZero
  | ReadOnly         (* store to a [PROT_READ] mapping *)
  | OutOfFuel.       (* never the result of a run with the fuel used below *)

#[export] Instance fault_eq_dec : EqDecision fault.
Proof. solve_decision. Defined.

Inductive result (A : Type) :=
  | Ok (a : A)
  | Err (f : fault).
Arguments Ok {A} _.
Arguments Err {A} _.

#[export] Instance result_eq_dec `{EqDecision A} : EqDecision (result A).
Proof. solve_decision. Defined.

#[export] Instance result_ret : MRet result := λ A a, Ok a.
#[export] Instance result_bind : MBind result := λ A B k m,
  match m with Ok a => k a | Err f => Err f end.
#[export] Instance result_fmap : FMap result := λ A B g m,
  match m with Ok a => Ok (g a) | Err f => Err f end.

Definition require (b : bool) (f : fault) : result unit :=
  if b then Ok tt else Err f.

Definition of_option {A} (f : fault) (o : option A) : result A :=
  match o with Some a => Ok a | None => Err f end.

Definition is_ok {A} (r : result A) : bool :=
  match r with Ok _ => true | Err _ => false end.

Lemma bind_Ok {A B} (k : A → result B) m b :
  m ≫= k = Ok b ↔ ∃ a, m = Ok a ∧ k a = Ok b.
Proof. destruct m; cbn; naive_solver. Qed.

Lemma require_Ok b f u : require b f = Ok u ↔ b = true.
Proof. destruct b, u; cbn; naive_solver. Qed.

Lemma of_option_Ok {A} f (o : option A) a : of_option f o = Ok a ↔ o = Some a.
Proof. destruct o; cbn; naive_solver. Qed.

(** Split every successful bind of the context. *)
Ltac inv_ok :=
  repeat match goal with
  | H : _ ≫= _ = Ok _ |- _ =>
      apply bind_Ok in H; let x := fresh "x" in let E := fresh "E" in
      destruct H as (x & E & H)
  | H : require _ _ = Ok _ |- _ => apply require_Ok in H
  | H : of_option _ _ = Ok _ |- _ => apply of_option_Ok in H
  | H : Ok _ = Ok _ |- _ => injection H as H
  | H : Err _ = Ok _ |- _ => discriminate H
  end.

(** Two outcomes of one computation are equal. *)
Ltac simplify_ok :=
  repeat match goal with
  | H1 : ?x = Ok ?a, H2 : ?x = Ok ?b |- _ =>
      rewrite H1 in H2; injection H2 as H2; first [subst b | subst a | idtac]
  end.

(** Advance a computation whose first step is known to succeed. *)
Ltac bind_step := cbn [mbind result_bind fmap result_fmap].
Tactic Notation "run" uconstr(E) := rewrite E; bind_step.
Tactic Notation "run" uconstr(E) "by" tactic3(tac) := rewrite E by tac; bind_step.

(** ** Machine integers *)
Definition INT_MIN : Z := -2147483648.
Definition INT_MAX : Z := 2147483647.
Definition SIZE_MAX : Z := 18446744073709551615.

Definition int_ok (z : Z) : bool := (INT_MIN <=? z) && (z <=? INT_MAX).

(** [a + b] on C's [int]: signed overflow is undefined. *)
Definition int_add (a b : Z) : result Z :=
  if int_ok (a + b) then Ok (a + b) else Err IntOverflow.

(** Conversion of an arbitrary integer to [int] (two's complement). *)
Definition to_int (z : Z) : Z := (z + 2147483648) mod 4294967296 - 2147483648.

Lemma to_int_small z : INT_MIN ≤ z ≤ INT_MAX → to_int z = z.
Proof. unfold INT_MIN, INT_MAX, to_int. intros H. rewrite Z.mod_small by lia. lia. Qed.

(** Conversion of an arbitrary integer to [unsigned char]. *)
Definition to_u8 (z : Z) : Z := z mod 256.

Lemma int_add_ok a b : INT_MIN ≤ a + b ≤ INT_MAX → int_add a b = Ok (a + b).
Proof.
  intros H. unfold int_add, int_ok.
  destruct (Z.leb_spec INT_MIN (a + b)), (Z.leb_spec (a + b) INT_MAX); cbn; lia || done.
Qed.

(** ** C loops

    [for (i = start; i < stop; i += step) body], the state threaded through
    the body.  [for_lt] supplies fuel for [stop - start] iterations, which is
    enough whenever [0 < step] (lemma [for_lt_inv]). *)
Fixpoint for_fuel {S} (fuel : nat) (i stop step : Z)
    (body : Z → S → result S) (s : S) : result S :=
  match fuel with
  | O => Err OutOfFuel
  | Datatypes.S fuel =>
      if i <? stop then
        s' ← body i s;
        i' ← int_add i step;
        for_fuel fuel i' stop step body s'
      else Ok s
  end.

Definition for_lt {S} (start stop step : Z) (body : Z → S → result S) (s : S) : result S :=
  for_fuel (Datatypes.S (Z.to_nat (stop - start))) start stop step body s.

(** The value of the loop counter when the loop is left. *)
Definition loop_end (start stop step : Z) : Z :=
  if start <? stop then start + step * ((stop - start + step - 1) / step) else start.

Lemma loop_end_done i stop step : stop ≤ i → loop_end i stop step = i.
Proof. intros H. unfold loop_end. destruct (Z.ltb_spec i stop); lia. Qed.

Lemma loop_end_step i stop step :
  0 < step → i < stop → loop_end i stop step = loop_end (i + step) stop step.
Proof.
  intros Hs Hi. unfold loop_end.
  destruct (Z.ltb_spec i stop); [|lia].
  replace (stop - i + step - 1) with ((stop - (i + step) + step - 1) + 1 * step) by lia.
  rewrite Z.div_add by lia.
  destruct (Z.ltb_spec (i + step) stop); [lia|].
  rewrite Z.div_small by lia. lia.
Qed.

Lemma loop_end_ge start stop step : 0 < step → stop ≤ loop_end start stop step.
Proof.
  intros Hs. unfold loop_end. destruct (Z.ltb_spec start stop); [|lia].
  pose proof (Z.div_mod (stop - start + step - 1) step ltac:(lia)).
  pose proof (Z.mod_pos_bound (stop - start + step - 1) step Hs). lia.
Qed.

Lemma loop_end_lt start stop step :
  0 < step → start < stop → loop_end start stop step < stop + step.
Proof.
  intros Hs Hlt. unfold loop_end. destruct (Z.ltb_spec start stop); [|lia].
  pose proof (Z.div_mod (stop - start + step - 1) step ltac:(lia)).
  pose proof (Z.mod_pos_bound (stop - start + step - 1) step Hs). lia.
Qed.

Lemma loop_end_le_start start stop step :
  0 < step → start ≤ loop_end start stop step.
Proof.
  intros Hs. unfold loop_end. destruct (Z.ltb_spec start stop); [|lia].
  pose proof (Z.div_pos (stop - start + step - 1) step ltac:(lia) Hs). nia.
Qed.

(** The exit value is the first multiple of the step past the bound. *)
Lemma loop_end_unique start stop step x k :
  0 < step → start ≤ stop → x = start + step * k → stop ≤ x < stop + step →
  loop_end start stop step = x.
Proof.
  intros Hs Hle -> Hx. unfold loop_end. destruct (Z.ltb_spec start stop).
  - assert ((stop - start + step - 1) / step = k) as ->; [|done].
    symmetry. apply (Z.div_unique _ _ _ (stop - start + step - 1 - step * k)); lia.
  - assert (k = 0) as -> by nia. lia.
Qed.

Lemma loop_end_mult start stop step :
  0 < step → ∃ k, 0 ≤ k ∧ loop_end start stop step = start + step * k.
Proof.
  intros Hs. unfold loop_end. destruct (Z.ltb_spec start stop).
  - eexists. split; [|reflexivity]. apply Z.div_pos; lia.
  - exists 0. lia.
Qed.

(** The proof rule of loops: an invariant of the counter and the state that
    every iteration re-establishes holds at the exit, and the loop ends. *)
Section loop_rule.
Context {S : Type} (Inv : Z → S → Prop) (body : Z → S → result S).
Context (start stop step : Z) (Hstep : 0 < step) (Hlo : INT_MIN ≤ start)
  (Hhi : stop - 1 + step ≤ INT_MAX).
Hypothesis Hbody : ∀ i s, start ≤ i < stop → i + step ≤ loop_end start stop step →
  Inv i s → ∃ s', body i s = Ok s' ∧ Inv (i + step) s'.

Lemma for_fuel_inv fuel i s :
  start ≤ i → loop_end i stop step = loop_end start stop step →
  stop - i < Z.of_nat fuel → (0 < fuel)%nat → Inv i s →
  ∃ s', for_fuel fuel i stop step body s = Ok s' ∧ Inv (loop_end i stop step) s'.
Proof using All.
  revert i s. induction fuel as [|fuel IH]; intros i s Hi He Hf Hpos HI; [lia|].
  cbn [for_fuel]. destruct (Z.ltb_spec i stop) as [Hlt|Hge].
  - rewrite (loop_end_step i) in He by lia.
    pose proof (loop_end_le_start (i + step) stop step Hstep).
    destruct (Hbody i s) as (s' & -> & HI'); [lia..|done|]. cbn [mbind result_bind].
    rewrite int_add_ok by lia. cbn [mbind result_bind].
    rewrite loop_end_step by lia.
    by apply IH; [lia| |lia..|].
  - exists s. rewrite loop_end_done by lia. done.
Qed.

Lemma for_lt_inv s :
  Inv start s →
  ∃ s', for_lt start stop step body s = Ok s' ∧ Inv (loop_end start stop step) s'.
Proof using All. intros HI. unfold for_lt. apply for_fuel_inv; [lia|done|lia..|done]. Qed.
End loop_rule.

(** A loop that does not start, and one whose first iteration fails. *)
Lemma for_lt_done {S} (body : Z → S → result S) start stop step s : stop ≤ start → for_lt start stop step body s = Ok s.
Proof. intros H. unfold for_lt. cbn [for_fuel]. by rewrite (proj2 (Z.ltb_ge start stop)). Qed.

Lemma for_lt_err {S} (body : Z → S → result S) start stop step s e : start < stop → body start s = Err e →
  for_lt start stop step body s = Err e.
Proof. intros H E. unfold for_lt. cbn [for_fuel]. rewrite (proj2 (Z.ltb_lt start stop)) by done. by rewrite E. Qed.

(** What a loop that ended tells about its last iteration. *)
Lemma for_lt_last {S} (P : S → Prop) (body : Z → S → result S) start stop step s s' :
  0 < step → start < stop →
  (∀ i s s', body i s = Ok s' → P s → P s') → P s →
  for_lt start stop step body s = Ok s' →
  P s' ∧ ∃ s1 s2, P s1 ∧ body (loop_end start stop step - step) s1 = Ok s2.
Proof.
  intros Hstep Hlt HP. unfold for_lt.
  generalize (Datatypes.S (Z.to_nat (stop - start))). intros fuel.
  revert start s Hlt. induction fuel as [|fuel IH]; intros i s Hlt Hs H; [done|].
  cbn [for_fuel] in H. destruct (Z.ltb_spec i stop); [|lia].
  apply bind_Ok in H as (s1 & E1 & H). apply bind_Ok in H as (i' & Ei & H).
  unfold int_add in Ei. destruct (int_ok (i + step)); [|done]. injection Ei as <-.
  pose proof (HP _ _ _ E1 Hs) as Hs1. rewrite loop_end_step by lia.
  destruct (decide (i + step < stop)) as [Hl|Hl].
  - by apply (IH (i + step) s1).
  - destruct fuel; [done|]. cbn [for_fuel] in H. destruct (Z.ltb_spec (i + step) stop); [lia|].
    injection H as <-. split; [done|]. exists s, s1.
    rewrite loop_end_done by lia. by replace (i + step - step) with i by lia.
Qed.

(** ... and about any iteration it went through. *)
Lemma for_lt_visits {S} (P : Z → S → Prop) n (body : Z → S → result S) start stop s s' :
  (∀ i s s', body i s = Ok s' → P i s → P (i + 1) s') → P start s →
  for_lt start stop 1 body s = Ok s' → start + Z.of_nat n < stop →
  ∃ s1 s2, P (start + Z.of_nat n) s1 ∧ body (start + Z.of_nat n) s1 = Ok s2.
Proof.
  intros HP. unfold for_lt. generalize (Datatypes.S (Z.to_nat (stop - start))). intros fuel.
  revert fuel start s. induction n as [|n IH]; intros [|fuel] i s Hs H Hn; try discriminate H;
    cbn [for_fuel] in H; (destruct (Z.ltb_spec i stop); [|lia]);
    apply bind_Ok in H as (s1 & E1 & H).
  - exists s, s1. by rewrite Z.add_0_r.
  - apply bind_Ok in H as (i' & Ei & H). unfold int_add in Ei.
    destruct (int_ok (i + 1)); [|done]. injection Ei as <-.
    destruct (IH fuel (i + 1) s1) as (s2 & s3 & Hs2 & E2); [by eapply HP|done|lia|].
    exists s2, s3. by replace (i + Z.of_nat (Datatypes.S n)) with (i + 1 + Z.of_nat n) by lia.
Qed.

(** ** Results that fail in one way only *)
Definition fails_by {A} (f : fault) (r : result A) : Prop := ∀ e, r = Err e → e = f.

Lemma fails_by_ok {A} f (x : A) : fails_by f (Ok x).
Proof. by intros e. Qed.

Lemma fails_by_err {A} f : @fails_by A f (Err f).
Proof. by intros e [= <-]. Qed.

Lemma fails_by_bind {A B} f (r : result A) (k : A → result B) :
  fails_by f r → (∀ x, fails_by f (k x)) → fails_by f (r ≫= k).
Proof. intros Hr Hk e. destruct r as [x|e1]; cbn; [apply Hk|]. intros [= <-]. by apply Hr. Qed.

Lemma fails_by_of_option {A} f (o : option A) : fails_by f (of_option f o).
Proof. destruct o; [apply fails_by_ok|apply fails_by_err]. Qed.

Create HintDb oob.
#[export] Hint Resolve fails_by_ok fails_by_bind fails_by_of_option : oob.

(** A loop whose counter stays an [int] fails as its body does. *)
Lemma fails_by_for_lt {S} f (body : Z → S → result S) start stop s : INT_MIN ≤ start → stop ≤ INT_MAX →
  (∀ i s, fails_by f (body i s)) → fails_by f (for_lt start stop 1 body s).
Proof.
  intros Hlo Hhi HB. unfold for_lt. assert (stop - start < Z.of_nat (Datatypes.S (Z.to_nat (stop - start)))) as Hf by lia.
  revert Hf. generalize (Z.to_nat (stop - start)). intros fuel. revert start s Hlo.
  induction fuel as [|fuel IH]; intros i s Hlo Hf; cbn [for_fuel];
    (destruct (Z.ltb_spec i stop); [|apply fails_by_ok]); apply fails_by_bind; [done| |done|]; intros s1;
    rewrite int_add_ok by lia; cbn [mbind result_bind].
  - cbn [for_fuel]. lia.
  - apply IH; lia.
Qed.

(** [for (z = n - 1; z >= 0; z--) body] *)
Fixpoint for_down {S} (n : nat) (body : Z → S → result S) (s : S) : result S :=
  match n with
  | O => Ok s
  | Datatypes.S n => s' ← body (Z.of_nat n) s; for_down n body s'
  end.

Lemma for_down_inv {S} (Inv : nat → S → Prop) (body : Z → S → result S) n s :
  (∀ z s, (z < n)%nat → Inv (Datatypes.S z) s →
     ∃ s', body (Z.of_nat z) s = Ok s' ∧ Inv z s') →
  Inv n s → ∃ s', for_down n body s = Ok s' ∧ Inv O s'.
Proof.
  revert s. induction n as [|n IH]; intros s Hb HI; cbn [for_down]; [by eauto|].
  destruct (Hb n s) as (s' & -> & HI'); [lia|done|]. cbn [mbind result_bind].
  apply IH; [|done]. intros z s1 Hz. apply Hb. lia.
Qed.

(** ** Runs of step relations
    A measure that every step lowers bounds the length of runs; a progress that
    every step raises does, too. *)
Section runs.
Context {A : Type} (R : relation A) (Inv : A → Prop) (m : A → nat).

Lemma nsteps_lowers k s s' : (∀ s s', Inv s → R s s' → Inv s' ∧ (m s' < m s)%nat) →
  Inv s → nsteps R k s s' → Inv s' ∧ (k + m s' ≤ m s)%nat.
Proof.
  intros Hstep Hinv Hk. revert Hinv. induction Hk as [s|k s1 s2 s3 H12 _ IH]; intros Hinv; [split; [done|lia]|].
  destruct (Hstep _ _ Hinv H12) as [Hinv2 Hl]. destruct (IH Hinv2) as [Hinv3 Hl3]. split; [done|lia].
Qed.

Lemma nsteps_raises k s s' : (∀ s s', Inv s → R s s' → Inv s' ∧ (m s < m s')%nat) →
  Inv s → nsteps R k s s' → Inv s' ∧ (k + m s ≤ m s')%nat.
Proof.
  intros Hstep Hinv Hk. revert Hinv. induction Hk as [s|k s1 s2 s3 H12 _ IH]; intros Hinv; [split; [done|lia]|].
  destruct (Hstep _ _ Hinv H12) as [Hinv2 Hl]. destruct (IH Hinv2) as [Hinv3 Hl3]. split; [done|lia].
Qed.
End runs.

(** ** Bytes *)
Definition is_byte (b : Z) : Prop := 0 ≤ b < 256.
#[export] Instance is_byte_dec b : Decision (is_byte b).
Proof. unfold is_byte. apply _. Defined.

Create HintDb bcu.

Lemma is_byte_0 : is_byte 0.
Proof. unfold is_byte. lia. Qed.

Lemma is_byte_bounded b : is_byte b ↔ 0 ≤ b ∧ ∀ i, 8 ≤ i → Z.testbit b i = false.
Proof.
  unfold is_byte. change 256 with (2 ^ 8). split.
  - intros [H1 H2]. split; [done|]. intros i Hi.
    apply (Z.bounded_iff_bits_nonneg' 8); lia.
  - intros [H1 H2]. apply Z.bounded_iff_bits_nonneg'; [lia|done|].
    intros l Hl. apply H2. lia.
Qed.

Lemma is_byte_lxor a b : is_byte a → is_byte b → is_byte (Z.lxor a b).
Proof.
  rewrite !is_byte_bounded. intros [Ha Ha'] [Hb Hb']. split.
  - apply Z.lxor_nonneg. lia.
  - intros i Hi. rewrite Z.lxor_spec, Ha', Hb' by done. done.
Qed.

Lemma is_byte_land a b : is_byte a → is_byte b → is_byte (Z.land a b).
Proof.
  rewrite !is_byte_bounded. intros [Ha Ha'] [Hb Hb']. split.
  - apply Z.land_nonneg. lia.
  - intros i Hi. rewrite Z.land_spec, Ha', Hb' by done. done.
Qed.

Lemma is_byte_to_u8 z : is_byte (to_u8 z).
Proof. apply Z.mod_pos_bound. lia. Qed.

#[export] Hint Resolve is_byte_0 is_byte_lxor is_byte_land is_byte_to_u8 : bcu.

Definition all_bytes : list Z := seqZ 0 256.

Lemma elem_all_bytes b : is_byte b → b ∈ all_bytes.
Proof. intros H. apply elem_of_seqZ. unfold is_byte in H. lia. Qed.

(** A decidable statement about every byte, settled by evaluation. *)
Lemma forall_byte (P : Z → Prop) `{∀ b, Decision (P b)} :
  forallb (λ b, bool_decide (P b)) all_bytes = true → ∀ b, is_byte b → P b.
Proof.
  intros Hf b Hb. rewrite forallb_forall in Hf.
  specialize (Hf b). apply bool_decide_eq_true in Hf; [done|].
  apply list_elem_of_In, elem_all_bytes, Hb.
Qed.

Ltac by_bytes :=
  match goal with
  | |- ∀ b, is_byte b → @?P b => apply (forall_byte P); vm_compute; reflexivity
  end.

(** Bitwise extensionality with both indices known to be nonnegative. *)
Ltac bitwise i :=
  apply Z.bits_inj_iff'; intros i ?.

(** ** Lists *)
(** Reduce [default] and [<$>] on known options and nothing else. *)
Ltac simp_default := cbn [fmap option_fmap option_map from_option id].

Lemma Forall_lookup_default {A} (P : A → Prop) d l i :
  P d → Forall P l → P (default d (l !! i)).
Proof.
  intros Hd Hl. destruct (l !! i) eqn:E; cbn; [|done].
  by eapply Forall_lookup_1.
Qed.

Lemma lookup_take_drop {A} (l : list A) i n k :
  (k < n)%nat → take n (drop i l) !! k = l !! (i + k)%nat.
Proof. intros H. rewrite lookup_take_lt by done. apply lookup_drop. Qed.

Lemma list_eq_default {A} (d : A) l1 l2 :
  length l1 = length l2 →
  (∀ i, (i < length l1)%nat → default d (l1 !! i) = default d (l2 !! i)) → l1 = l2.
Proof.
  intros Hlen H. apply list_eq. intros i.
  destruct (decide (i < length l1)%nat) as [Hi|Hi].
  - specialize (H i Hi).
    destruct (lookup_lt_is_Some_2 l1 i Hi) as [x Hx].
    destruct (lookup_lt_is_Some_2 l2 i ltac:(lia)) as [y Hy].
    rewrite Hx, Hy in *. cbn in H. by subst.
  - rewrite !lookup_ge_None_2 by lia. done.
Qed.

Lemma sum_list_insert {A} (f : A → nat) (l : list A) i x y : l !! i = Some x →
  (sum_list_with f (<[i:=y]> l) + f x = sum_list_with f l + f y)%nat.
Proof.
  revert i. induction l as [|a l IH]; intros [|i] H; simpl in H |- *; try discriminate H.
  - injection H as ->. lia.
  - specialize (IH i H). lia.
Qed.
