(* ===== verification/GF256.v ===== *)
(** * The field GF(2^8) and the RAID 6 code, as specifications

    No code of the repository is translated in this file: it fixes the
    mathematics the implementations are compared with.  The field is
    GF(2)[x] / (x^8 + x^4 + x^3 + x^2 + 1) (0x11d), the one the Linux RAID 6
    code and the tables of raid6multrs.cu use, with generator [x].  [gen_p] and
    [gen_q] are the P (XOR) and Q (Reed-Solomon) check bytes of one byte column
    of the array, and [raid6_distance] says that the code they form survives
    any two erasures. *)
From S2P Require Import Prelude.
Local Open Scope Z_scope.

(** ** Multiplication by the generator *)
Definition xtime (a : Z) : Z :=
  Z.lxor (to_u8 (2 * a)) (if Z.testbit a 7 then 0x1d else 0).

(** Multiplication: the sum of [a * x^i] over the bits [i] of [b]. *)
Fixpoint gmul_n (n : nat) (a b : Z) : Z :=
  match n with
  | O => 0
  | S n => Z.lxor (if Z.testbit b 0 then a else 0) (gmul_n n (xtime a) (Z.shiftr b 1))
  end.
Definition gmul (a b : Z) : Z := gmul_n 8 a b.

(** [x^k * a] *)
Definition xpow (k : nat) (a : Z) : Z := Nat.iter k xtime a.

Lemma to_u8_double_spec a i : 0 ≤ i →
  Z.testbit (to_u8 (2 * a)) i = (0 <? i) && (i <? 8) && Z.testbit a (i - 1).
Proof.
  intros Hi. unfold to_u8. change 256 with (2 ^ 8). rewrite <-Z.land_ones by lia.
  rewrite Z.land_spec, (Z.ones_spec 8) by lia.
  replace (2 * a) with (a ≪ 1) by (rewrite Z.shiftl_mul_pow2; lia).
  rewrite Z.shiftl_spec by lia.
  destruct (Z.ltb_spec i 8); [rewrite bool_decide_true by lia|rewrite bool_decide_false by lia].
  - rewrite andb_true_r. destruct (Z.ltb_spec 0 i); cbn; [done|].
    by rewrite Z.testbit_neg_r by lia.
  - by rewrite !andb_false_r.
Qed.

Lemma xtime_spec a i : 0 ≤ i →
  Z.testbit (xtime a) i =
    xorb ((0 <? i) && (i <? 8) && Z.testbit a (i - 1)) (Z.testbit a 7 && Z.testbit 0x1d i).
Proof.
  intros Hi. unfold xtime. rewrite Z.lxor_spec, to_u8_double_spec by done.
  destruct (Z.testbit a 7); cbn [andb]; [done|]. by rewrite Z.testbit_0_l.
Qed.

Lemma xtime_lxor a b : xtime (Z.lxor a b) = Z.lxor (xtime a) (xtime b).
Proof.
  bitwise i. rewrite Z.lxor_spec, !xtime_spec, !Z.lxor_spec by done.
  destruct (0 <? i), (i <? 8), (Z.testbit a (i - 1)), (Z.testbit b (i - 1)),
    (Z.testbit a 7), (Z.testbit b 7), (Z.testbit 0x1d i); done.
Qed.

Lemma xtime_0 : xtime 0 = 0.
Proof. reflexivity. Qed.

Lemma is_byte_xtime a : is_byte (xtime a).
Proof.
  unfold xtime. apply is_byte_lxor; [apply is_byte_to_u8|].
  destruct (Z.testbit a 7); unfold is_byte; lia.
Qed.
#[export] Hint Resolve is_byte_xtime : bcu.

Lemma xpow_O a : xpow 0 a = a.
Proof. reflexivity. Qed.

Lemma xpow_S k a : xpow (S k) a = xtime (xpow k a).
Proof. reflexivity. Qed.

Lemma xpow_lxor k a b : xpow k (Z.lxor a b) = Z.lxor (xpow k a) (xpow k b).
Proof. induction k as [|k IH]; [done|]. by rewrite !xpow_S, IH, xtime_lxor. Qed.

Lemma xpow_0 k : xpow k 0 = 0.
Proof. induction k as [|k IH]; [done|]. by rewrite xpow_S, IH, xtime_0. Qed.

Lemma xpow_add j k a : xpow (j + k) a = xpow j (xpow k a).
Proof. unfold xpow. by rewrite Nat.iter_add. Qed.

Lemma xpow_S_r k a : xpow (S k) a = xpow k (xtime a).
Proof. replace (S k) with (k + 1)%nat by lia. by rewrite xpow_add. Qed.

Lemma xpow_comm j k a : xpow j (xpow k a) = xpow k (xpow j a).
Proof. by rewrite <-!xpow_add, Nat.add_comm. Qed.

Lemma is_byte_xpow k a : is_byte a → is_byte (xpow k a).
Proof. destruct k; rewrite ?xpow_S; intros; eauto with bcu. Qed.
#[export] Hint Resolve is_byte_xpow : bcu.

(** ** The generator has order 255 *)
Lemma is_byte_1 : is_byte 1.
Proof. unfold is_byte. lia. Qed.
#[export] Hint Resolve is_byte_1 : bcu.

Lemma xtime_inj_byte : ∀ a, is_byte a → xtime a = 0 → a = 0.
Proof.
  apply (forall_byte (λ a, xtime a = 0 → a = 0)). vm_compute. reflexivity.
Qed.

Lemma xpow_eq_0 k a : is_byte a → xpow k a = 0 → a = 0.
Proof.
  intros Ha. induction k as [|k IH]; [done|]. rewrite xpow_S.
  intros H. apply IH, xtime_inj_byte; eauto with bcu.
Qed.

Lemma xpow_inj k a b : is_byte a → is_byte b → xpow k a = xpow k b → a = b.
Proof.
  intros Ha Hb H. apply Z.lxor_eq, (xpow_eq_0 k); [auto with bcu|].
  by rewrite xpow_lxor, H, Z.lxor_nilpotent.
Qed.

Lemma xpow_255 a : is_byte a → xpow 255 a = a.
Proof.
  revert a. apply (forall_byte (λ a, xpow 255 a = a)). vm_compute. reflexivity.
Qed.

(** Every nonzero byte is a power of the generator. *)
Fixpoint find_log (fuel k : nat) (cur a : Z) : nat :=
  match fuel with
  | O => k
  | S fuel => if cur =? a then k else find_log fuel (S k) (xtime cur) a
  end.
Definition glog (a : Z) : nat := find_log 255 0 1 a.

Lemma glog_spec : ∀ a, is_byte a → a ≠ 0 → (glog a < 255)%nat ∧ xpow (glog a) 1 = a.
Proof.
  apply (forall_byte (λ a, a ≠ 0 → (glog a < 255)%nat ∧ xpow (glog a) 1 = a)).
  vm_compute. reflexivity.
Qed.

Lemma xpow_1_ne_1 k : (0 < k < 255)%nat → xpow k 1 ≠ 1.
Proof.
  intros Hk. apply (Forall_lookup_1 (λ k, xpow k 1 ≠ 1) (seq 1 254) (k - 1) k).
  - apply (bool_decide_unpack _). vm_compute. exact I.
  - apply lookup_seq. lia.
Qed.

Lemma xpow_fixpoint k a : is_byte a → (0 < k < 255)%nat → xpow k a = a → a = 0.
Proof.
  intros Ha Hk H. destruct (decide (a = 0)) as [|Hne]; [done|exfalso].
  destruct (glog_spec a Ha Hne) as [_ Hlog].
  apply (xpow_1_ne_1 k Hk). apply (xpow_inj (glog a)); [auto with bcu..|].
  by rewrite xpow_comm, Hlog.
Qed.

(** ** Multiplication *)
Lemma gmul_n_xtime n a b : gmul_n n (xtime a) b = xtime (gmul_n n a b).
Proof.
  revert a b. induction n as [|n IH]; intros a b; cbn [gmul_n]; [done|].
  rewrite xtime_lxor, IH. destruct (Z.testbit b 0); [done|]. by rewrite xtime_0.
Qed.

Lemma gmul_xpow k a b : gmul (xpow k a) b = xpow k (gmul a b).
Proof.
  induction k as [|k IH]; [done|]. unfold gmul in *. by rewrite !xpow_S, gmul_n_xtime, IH.
Qed.

Lemma gmul_1_l : ∀ b, is_byte b → gmul 1 b = b.
Proof. apply (forall_byte (λ b, gmul 1 b = b)). vm_compute. reflexivity. Qed.

Lemma gmul_n_0_l n b : gmul_n n 0 b = 0.
Proof.
  revert b. induction n as [|n IH]; intros b; cbn [gmul_n]; [done|].
  rewrite xtime_0, IH. by destruct (Z.testbit b 0).
Qed.

Lemma gmul_0_l b : gmul 0 b = 0.
Proof. apply gmul_n_0_l. Qed.

Lemma gmul_0_r a : gmul a 0 = 0.
Proof.
  unfold gmul. generalize 8%nat. intros n. revert a.
  induction n as [|n IH]; intros a; cbn [gmul_n]; [done|]. cbn. apply IH.
Qed.

Lemma gmul_xpow_1 k b : is_byte b → gmul (xpow k 1) b = xpow k b.
Proof. intros Hb. by rewrite gmul_xpow, gmul_1_l. Qed.

(** Multiplication is addition of logarithms. *)
Lemma gmul_log a b : is_byte a → is_byte b → a ≠ 0 → b ≠ 0 →
  gmul a b = xpow (glog a + glog b) 1.
Proof.
  intros Ha Hb Ha0 Hb0.
  destruct (glog_spec a Ha Ha0) as [_ Ea], (glog_spec b Hb Hb0) as [_ Eb].
  rewrite <-Ea at 1. rewrite gmul_xpow_1 by done. rewrite <-Eb at 1.
  by rewrite <-xpow_add.
Qed.

Lemma gmul_comm a b : is_byte a → is_byte b → gmul a b = gmul b a.
Proof.
  intros Ha Hb. destruct (decide (a = 0)) as [->|Ha0].
  { by rewrite gmul_0_l, gmul_0_r. }
  destruct (decide (b = 0)) as [->|Hb0].
  { by rewrite gmul_0_l, gmul_0_r. }
  rewrite !gmul_log by done. by rewrite Nat.add_comm.
Qed.

Lemma gmul_n_lxor_l n a a' b :
  gmul_n n (Z.lxor a a') b = Z.lxor (gmul_n n a b) (gmul_n n a' b).
Proof.
  revert a a' b. induction n as [|n IH]; intros a a' b; cbn [gmul_n]; [done|].
  rewrite xtime_lxor, IH. bitwise i. rewrite !Z.lxor_spec.
  destruct (Z.testbit b 0); rewrite ?Z.testbit_0_l, ?Z.lxor_spec;
    repeat (destruct (Z.testbit _ i)); done.
Qed.

Lemma gmul_lxor_l a a' b : gmul (Z.lxor a a') b = Z.lxor (gmul a b) (gmul a' b).
Proof. apply gmul_n_lxor_l. Qed.

Lemma is_byte_gmul a b : is_byte a → is_byte b → is_byte (gmul a b).
Proof.
  intros Ha Hb. destruct (decide (a = 0)) as [->|Ha0].
  { rewrite gmul_0_l. auto with bcu. }
  destruct (decide (b = 0)) as [->|Hb0].
  { rewrite gmul_0_r. auto with bcu. }
  rewrite gmul_log by done. apply is_byte_xpow. unfold is_byte. lia.
Qed.
#[export] Hint Resolve is_byte_gmul : bcu.

(** ** One byte column of a RAID 6 array

    [col] lists the bytes of the data disks, disk 0 first. *)
Definition gen_p (col : list Z) : Z := foldr Z.lxor 0 col.
Definition gen_q (col : list Z) : Z := foldr (λ d acc, Z.lxor (xtime acc) d) 0 col.

Lemma is_byte_gen_p col : Forall is_byte col → is_byte (gen_p col).
Proof. induction 1; cbn; auto with bcu. Qed.

Lemma is_byte_gen_q col : Forall is_byte col → is_byte (gen_q col).
Proof. induction 1; cbn; auto with bcu. Qed.
#[export] Hint Resolve is_byte_gen_p is_byte_gen_q : bcu.

(** Both codes are linear. *)
Lemma gen_p_lxor c1 c2 : length c1 = length c2 →
  gen_p (zip_with Z.lxor c1 c2) = Z.lxor (gen_p c1) (gen_p c2).
Proof.
  revert c2. induction c1 as [|a c1 IH]; intros [|b c2] H; try discriminate H; cbn; [done|].
  rewrite IH by (injection H; auto). bitwise i. rewrite !Z.lxor_spec.
  repeat (destruct (Z.testbit _ i)); done.
Qed.

Lemma gen_q_lxor c1 c2 : length c1 = length c2 →
  gen_q (zip_with Z.lxor c1 c2) = Z.lxor (gen_q c1) (gen_q c2).
Proof.
  revert c2. induction c1 as [|a c1 IH]; intros [|b c2] H; try discriminate H; cbn; [done|].
  rewrite IH by (injection H; auto). rewrite xtime_lxor. bitwise i. rewrite !Z.lxor_spec.
  repeat (destruct (Z.testbit _ i)); done.
Qed.

Lemma gen_p_cons d col : gen_p (d :: col) = Z.lxor d (gen_p col).
Proof. reflexivity. Qed.
Lemma gen_q_cons d col : gen_q (d :: col) = Z.lxor (xtime (gen_q col)) d.
Proof. reflexivity. Qed.

Lemma gen_p_zero n : gen_p (replicate n 0) = 0.
Proof. induction n as [|n IH]; [done|]. cbn [replicate]. by rewrite gen_p_cons, IH. Qed.

Lemma gen_q_zero n : gen_q (replicate n 0) = 0.
Proof. induction n as [|n IH]; [done|]. cbn [replicate]. by rewrite gen_q_cons, IH. Qed.

(** A column that is zero except for [d] at [x] contributes [d] to P and
    [2^x * d] to Q. *)
Definition unit_col (n x : nat) (d : Z) : list Z := <[x:=d]> (replicate n 0).

Lemma length_unit_col n x d : length (unit_col n x d) = n.
Proof. unfold unit_col. by rewrite length_insert, length_replicate. Qed.

Lemma unit_col_lookup n x d k : (k < n)%nat →
  unit_col n x d !! k = Some (if decide (k = x) then d else 0).
Proof.
  intros Hk. unfold unit_col. case_decide as Hx.
  - subst. apply list_lookup_insert_eq. by rewrite length_replicate.
  - rewrite list_lookup_insert_ne by done. by apply lookup_replicate_2.
Qed.

Lemma unit_col_0 n d : unit_col (S n) 0 d = d :: replicate n 0.
Proof. reflexivity. Qed.
Lemma unit_col_S n x d : unit_col (S n) (S x) d = 0 :: unit_col n x d.
Proof. reflexivity. Qed.

Lemma gen_pq_unit n x d : (x < n)%nat →
  gen_p (unit_col n x d) = d ∧ gen_q (unit_col n x d) = xpow x d.
Proof.
  revert n. induction x as [|x IH]; intros [|n] H; try lia.
  - rewrite unit_col_0, gen_p_cons, gen_q_cons, gen_p_zero, gen_q_zero, xtime_0, Z.lxor_0_r.
    done.
  - destruct (IH n) as [Hp Hq]; [lia|].
    by rewrite unit_col_S, gen_p_cons, gen_q_cons, Z.lxor_0_r, Z.lxor_0_l, Hp, Hq, xpow_S.
Qed.

(** *** Any two erasures are recoverable *)
Definition codeword (col : list Z) : list Z := col ++ [gen_p col; gen_q col].

Lemma length_codeword col : length (codeword col) = (length col + 2)%nat.
Proof. unfold codeword. by rewrite length_app. Qed.

Lemma codeword_data col k : (k < length col)%nat → codeword col !! k = col !! k.
Proof. intros. unfold codeword. by rewrite lookup_app_l. Qed.

Lemma codeword_p col : codeword col !! length col = Some (gen_p col).
Proof. unfold codeword. by rewrite lookup_app_r, Nat.sub_diag by lia. Qed.

Lemma codeword_q col : codeword col !! S (length col) = Some (gen_q col).
Proof. unfold codeword. by rewrite lookup_app_r, Nat.sub_succ_l, Nat.sub_diag by lia. Qed.

Lemma unit_col_eq (v : list Z) x :
  (∀ k, k ≠ x → (k < length v)%nat → v !! k = Some 0) →
  v = unit_col (length v) x (default 0 (v !! x)).
Proof.
  intros H. apply (list_eq_default 0); [by rewrite length_unit_col|]. intros k Hk.
  rewrite unit_col_lookup by done. case_decide as Hx; cbn; [by subst|].
  by rewrite H.
Qed.

Lemma unit_cols_eq (v : list Z) x y : x ≠ y →
  (∀ k, k ≠ x → k ≠ y → (k < length v)%nat → v !! k = Some 0) →
  v = zip_with Z.lxor (unit_col (length v) x (default 0 (v !! x)))
                      (unit_col (length v) y (default 0 (v !! y))).
Proof.
  intros Hxy H. apply (list_eq_default 0).
  { rewrite length_zip_with, !length_unit_col. lia. }
  intros k Hk. rewrite lookup_zip_with, !unit_col_lookup by done. cbn.
  repeat case_decide; subst; try done; cbn; rewrite ?Z.lxor_0_r; try done.
  by rewrite H.
Qed.

(** A difference column supported on two data disks that changes neither P nor
    Q is zero; likewise one supported on one data disk that leaves P or Q. *)
Lemma pair_zero x y a b : is_byte a → is_byte b → (x < y)%nat → (y < 255)%nat →
  Z.lxor a b = 0 → Z.lxor (xpow x a) (xpow y b) = 0 → a = 0.
Proof.
  intros Ha Hb Hxy Hy Hp%Z.lxor_eq Hq%Z.lxor_eq. subst b.
  apply (xpow_fixpoint (y - x) a Ha); [lia|].
  apply (xpow_inj x); [auto with bcu..|].
  rewrite <-xpow_add. by replace (x + (y - x))%nat with y by lia.
Qed.

Section distance.
Context (v : list Z) (Hv : Forall is_byte v) (Hn : (length v ≤ 255)%nat).

Lemma is_byte_nth k : is_byte (default 0 (v !! k)).
Proof using Hv. apply Forall_lookup_default; auto with bcu. Qed.

Lemma diff_zero1 x : (∀ k, k ≠ x → (k < length v)%nat → v !! k = Some 0) →
  gen_p v = 0 ∨ gen_q v = 0 → v = replicate (length v) 0.
Proof using Hv.
  clear Hn. intros H Hpq. destruct (decide (x < length v)%nat) as [Hx|Hx].
  - pose proof (unit_col_eq v x H) as E.
    destruct (gen_pq_unit (length v) x (default 0 (v !! x)) Hx) as [Ep Eq].
    rewrite <-E in Ep, Eq. pose proof (is_byte_nth x).
    assert (default 0 (v !! x) = 0) as Hd.
    { destruct Hpq as [Hpq|Hpq]; [congruence|].
      apply (xpow_eq_0 x); [done|congruence]. }
    rewrite E at 1. rewrite Hd. unfold unit_col.
    by rewrite insert_replicate.
  - apply (list_eq_default 0); [by rewrite length_replicate|]. intros k Hk.
    rewrite lookup_replicate_2 by done. by rewrite H by lia.
Qed.

Lemma diff_zero2_lt x y : (x < y)%nat → (y < length v)%nat →
  (∀ k, k ≠ x → k ≠ y → (k < length v)%nat → v !! k = Some 0) →
  gen_p v = 0 → gen_q v = 0 → v = replicate (length v) 0.
Proof using Hv Hn.
  intros Hxy Hy H Hp Hq.
  pose proof (unit_cols_eq v x y ltac:(lia) H) as E.
  destruct (gen_pq_unit (length v) x (default 0 (v !! x)) ltac:(lia)) as [Epx Eqx].
  destruct (gen_pq_unit (length v) y (default 0 (v !! y)) Hy) as [Epy Eqy].
  rewrite E, gen_p_lxor, Epx, Epy in Hp by by rewrite !length_unit_col.
  rewrite E, gen_q_lxor, Eqx, Eqy in Hq by by rewrite !length_unit_col.
  assert (default 0 (v !! x) = 0) as Hx0.
  { eapply (pair_zero x y); eauto using is_byte_nth. lia. }
  apply (diff_zero1 y); [|left].
  - intros k Hk Hlen. destruct (decide (k = x)) as [->|]; [|by apply H].
    destruct (lookup_lt_is_Some_2 v x Hlen) as [d Hd]. rewrite Hd in *.
    cbn in Hx0. by subst.
  - by rewrite E, gen_p_lxor, Epx, Epy by by rewrite !length_unit_col.
Qed.

Lemma diff_zero2 x y :
  (∀ k, k ≠ x → k ≠ y → (k < length v)%nat → v !! k = Some 0) →
  gen_p v = 0 → gen_q v = 0 → v = replicate (length v) 0.
Proof using Hv Hn.
  intros H Hp Hq.
  destruct (decide (x < length v)%nat) as [Hx|Hx]; [destruct (decide (y < length v)%nat) as [Hy|Hy]|].
  - destruct (Nat.lt_trichotomy x y) as [Hlt|[->|Hlt]].
    + by apply (diff_zero2_lt x y).
    + apply (diff_zero1 y); [intros; by apply H|by left].
    + apply (diff_zero2_lt y x); auto.
  - apply (diff_zero1 x); [intros; apply H; [done|lia|done]|by left].
  - apply (diff_zero1 y); [intros; apply H; [lia|done|done]|by left].
Qed.
End distance.

Lemma zip_lxor_zero (c c' : list Z) : length c = length c' →
  zip_with Z.lxor c c' = replicate (length c) 0 → c = c'.
Proof.
  revert c'. induction c as [|a c IH]; intros [|b c'] Hl H; try discriminate; [done|].
  cbn in H. injection H as H1 H2. apply Z.lxor_eq in H1. f_equal; [done|].
  apply IH; [by injection Hl|done].
Qed.

Lemma Forall_byte_lxor c c' :
  Forall is_byte c → Forall is_byte c' → Forall is_byte (zip_with Z.lxor c c').
Proof.
  intros Hc. revert c'. induction Hc; intros c' [|]; cbn; constructor; auto with bcu.
Qed.

Lemma raid6_distance (c c' : list Z) i j :
  length c = length c' → (length c ≤ 255)%nat →
  Forall is_byte c → Forall is_byte c' →
  (∀ k, k ≠ i → k ≠ j → codeword c !! k = codeword c' !! k) →
  codeword c = codeword c'.
Proof.
  intros Hl Hn Hc Hc' H. set (n := length c) in *.
  enough (c = c') as -> by done. apply zip_lxor_zero; [done|]. fold n.
  assert (length (zip_with Z.lxor c c') = n) as Hlen.
  { rewrite length_zip_with. lia. }
  assert (Forall is_byte (zip_with Z.lxor c c')) as Hb.
  { apply Forall_byte_lxor; done. }
  assert (∀ k, k ≠ i → k ≠ j → (k < length (zip_with Z.lxor c c'))%nat →
    zip_with Z.lxor c c' !! k = Some 0) as Hz.
  { intros k Hi Hj Hk. rewrite Hlen in Hk. specialize (H k Hi Hj).
    rewrite !codeword_data in H by lia.
    destruct (lookup_lt_is_Some_2 c k ltac:(lia)) as [d Hd].
    rewrite lookup_zip_with, <-H, Hd. cbn. by rewrite Z.lxor_nilpotent. }
  assert (n ≠ i → n ≠ j → gen_p (zip_with Z.lxor c c') = 0) as Hp.
  { intros Hi Hj. specialize (H n Hi Hj).
    rewrite gen_p_lxor by done. subst n. rewrite codeword_p, Hl, codeword_p in H.
    injection H as ->. apply Z.lxor_nilpotent. }
  assert (S n ≠ i → S n ≠ j → gen_q (zip_with Z.lxor c c') = 0) as Hq.
  { intros Hi Hj. specialize (H (S n) Hi Hj).
    rewrite gen_q_lxor by done. subst n. rewrite codeword_q, Hl, codeword_q in H.
    injection H as ->. apply Z.lxor_nilpotent. }
  rewrite <-Hlen.
  destruct (decide (i < n)%nat) as [Hi|Hi], (decide (j < n)%nat) as [Hj|Hj].
  - apply (diff_zero2 _ Hb ltac:(lia) i j Hz); [apply Hp|apply Hq]; lia.
  - apply (diff_zero1 _ Hb i); [intros; apply Hz; [done|lia|done]|].
    destruct (decide (j = n)); [right; apply Hq|left; apply Hp]; lia.
  - apply (diff_zero1 _ Hb j); [intros; apply Hz; [lia|done|done]|].
    destruct (decide (i = n)); [right; apply Hq|left; apply Hp]; lia.
  - apply (list_eq_default 0); [by rewrite length_replicate|]. intros k Hk.
    rewrite lookup_replicate_2 by done. by rewrite Hz by lia.
Qed.
