(* ===== verification/Word.v ===== *)
(** * Native words: [unative_t] of global_def.h

    A word is a [Z] below [2 ^ (8 * NSIZE)]; the class [Native] carries the
    choice global_def.h makes on [BITS_PER_LONG].  [LE] reads a word off its
    little-endian bytes.  The lemmas say that the word-parallel arithmetic of
    the syndrome loops acts on every byte of the word independently. *)
From S2P Require Import Prelude GF256.
Local Open Scope Z_scope.

Class Native := {
  NSIZE : nat;
  NSIZE_cases : NSIZE = 4%nat ∨ NSIZE = 8%nat
}.

(** The two branches of [#if BITS_PER_LONG == 64]. *)
Definition native64 : Native := {| NSIZE := 8; NSIZE_cases := or_intror eq_refl |}.
Definition native32 : Native := {| NSIZE := 4; NSIZE_cases := or_introl eq_refl |}.

(** The word with the bytes [bs], lowest first. *)
Abbreviation LE := (little_endian_to_Z 8).

Lemma LE_nil : LE [] = 0.
Proof. reflexivity. Qed.

Lemma LE_cons b bs : is_byte b → LE (b :: bs) = b + 256 * LE bs.
Proof.
  intros Hb. cbn [little_endian_to_Z]. rewrite Z.shiftl_mul_pow2 by lia.
  rewrite (Z.mul_comm _ (2 ^ 8)). change (2 ^ 8) with 256.
  rewrite <-Z.lxor_lor, <-Z.add_nocarry_lxor; [lia|..].
  all: replace (256 * LE bs) with (LE bs ≪ 8)
    by (rewrite Z.shiftl_mul_pow2 by lia; change (2 ^ 8) with 256; lia).
  all: bitwise i; rewrite Z.land_spec, Z.testbit_0_l;
    apply is_byte_bounded in Hb as [_ Hb]; destruct (Z.ltb_spec i 8);
    [rewrite Z.shiftl_spec_low by lia; by rewrite andb_false_r|by rewrite Hb].
Qed.

Lemma LE_testbit bs i : Forall is_byte bs → 0 ≤ i →
  Z.testbit (LE bs) i = Z.testbit (default 0 (bs !! Z.to_nat (i / 8))) (i mod 8).
Proof.
  intros Hbs Hi. destruct (bs !! Z.to_nat (i / 8)) as [b|] eqn:E; simp_default.
  - by apply (little_endian_to_Z_spec 8 bs i b).
  - rewrite Z.testbit_0_l. apply lookup_ge_None_1 in E.
    pose proof (little_endian_to_Z_bound 8 bs ltac:(lia) Hbs) as Hb.
    apply (Z.bounded_iff_bits_nonneg' (Z.of_nat (length bs) * 8)); [lia..|].
    pose proof (Z.div_mod i 8 ltac:(lia)). pose proof (Z.mod_pos_bound i 8 ltac:(lia)). lia.
Qed.

Lemma LE_bound bs : Forall is_byte bs → 0 ≤ LE bs < 2 ^ (8 * Z.of_nat (length bs)).
Proof.
  intros Hbs. pose proof (little_endian_to_Z_bound 8 bs ltac:(lia) Hbs) as H.
  by rewrite (Z.mul_comm 8).
Qed.

(** Words agree when their bytes do. *)
Lemma LE_ext w bs : 0 ≤ w → Forall is_byte bs →
  (∀ k r, 0 ≤ k → 0 ≤ r < 8 →
    Z.testbit w (8 * k + r) = Z.testbit (default 0 (bs !! Z.to_nat k)) r) →
  w = LE bs.
Proof.
  intros Hw Hbs H. bitwise i. rewrite LE_testbit by done.
  pose proof (Z.mod_pos_bound i 8 ltac:(lia)). pose proof (Z.div_pos i 8 ltac:(done) ltac:(lia)).
  rewrite <-H by done. f_equal. apply Z.div_mod. lia.
Qed.

Lemma LE_testbit' bs k r : Forall is_byte bs → 0 ≤ k → 0 ≤ r < 8 →
  Z.testbit (LE bs) (8 * k + r) = Z.testbit (default 0 (bs !! Z.to_nat k)) r.
Proof.
  intros Hbs Hk Hr. rewrite LE_testbit by (done || lia).
  replace ((8 * k + r) / 8) with k by (Z.to_euclidean_division_equations; lia).
  by replace ((8 * k + r) mod 8) with r by (Z.to_euclidean_division_equations; lia).
Qed.

Lemma LE_lxor xs ys : Forall is_byte xs → Forall is_byte ys → length xs = length ys →
  Z.lxor (LE xs) (LE ys) = LE (zip_with Z.lxor xs ys).
Proof.
  intros Hx Hy Hl. apply LE_ext; [|by apply Forall_byte_lxor|].
  - pose proof (LE_bound xs Hx). pose proof (LE_bound ys Hy).
    apply Z.lxor_nonneg. lia.
  - intros k r Hk Hr. rewrite Z.lxor_spec, !LE_testbit' by done.
    rewrite lookup_zip_with.
    destruct (xs !! Z.to_nat k) eqn:Ex, (ys !! Z.to_nat k) eqn:Ey; cbn;
      rewrite ?Z.lxor_spec, ?Z.testbit_0_l; try done.
    + apply lookup_lt_Some in Ex. apply lookup_ge_None_1 in Ey. lia.
    + apply lookup_lt_Some in Ey. apply lookup_ge_None_1 in Ex. lia.
Qed.

Lemma Forall_byte_replicate n b : is_byte b → Forall is_byte (replicate n b).
Proof. intros Hb. by apply Forall_replicate. Qed.

Lemma LE_land_replicate xs c : Forall is_byte xs → is_byte c →
  Z.land (LE xs) (LE (replicate (length xs) c)) = LE ((λ b, Z.land b c) <$> xs).
Proof.
  intros Hx Hc. assert (Forall is_byte (replicate (length xs) c)) as Hr
    by by apply Forall_byte_replicate.
  apply LE_ext.
  - pose proof (LE_bound xs Hx). apply Z.land_nonneg. lia.
  - apply Forall_fmap. eapply Forall_impl; [exact Hx|]. cbn. auto with bcu.
  - intros k r Hk Hr'. rewrite Z.land_spec, !LE_testbit' by done.
    rewrite list_lookup_fmap.
    destruct (xs !! Z.to_nat k) eqn:Ex; cbn; [|by rewrite Z.testbit_0_l].
    rewrite lookup_replicate_2 by (by eapply lookup_lt_Some). cbn.
    by rewrite Z.land_spec.
Qed.

(** Scaling by a constant, when no byte overflows. *)
Lemma LE_scale c xs : Forall is_byte xs → Forall is_byte (Z.mul c <$> xs) →
  LE (Z.mul c <$> xs) = c * LE xs.
Proof.
  induction xs as [|b xs IH]; cbn [fmap list_fmap]; intros Hx Hc; [rewrite !LE_nil; lia|].
  inversion_clear Hx. inversion_clear Hc. rewrite !LE_cons, IH by done. lia.
Qed.

Section native.
Context `{N : Native}.

Definition word_bits : Z := 8 * Z.of_nat NSIZE.

(** Arithmetic on [unative_t] is modulo [2 ^ word_bits]. *)
Definition wwrap (z : Z) : Z := z mod 2 ^ word_bits.
Definition wshl (v k : Z) : Z := wwrap (Z.shiftl v k).
Definition wsub (a b : Z) : Z := wwrap (a - b).

(** [NBYTES(x)]: the byte [x] in every byte of a word. *)
Definition NBYTES (x : Z) : Z :=
  wwrap (x * (if (NSIZE =? 8)%nat then 0x0101010101010101 else 0x01010101)).

Lemma NSIZE_pos : (0 < NSIZE)%nat.
Proof using Type. destruct NSIZE_cases; lia. Qed.

Lemma NSIZE_posZ : 0 < Z.of_nat NSIZE ≤ 8.
Proof using Type. destruct NSIZE_cases; lia. Qed.

Lemma wwrap_small z : 0 ≤ z < 2 ^ word_bits → wwrap z = z.
Proof using Type. apply Z.mod_small. Qed.

Lemma wwrap_LE bs : Forall is_byte bs → length bs = NSIZE → wwrap (LE bs) = LE bs.
Proof using Type.
  intros Hbs Hl. apply wwrap_small. unfold word_bits. rewrite <-Hl. by apply LE_bound.
Qed.

Lemma NBYTES_LE x : is_byte x → NBYTES x = LE (replicate NSIZE x).
Proof using Type.
  intros Hx. unfold NBYTES.
  rewrite <-(wwrap_LE (replicate NSIZE x))
    by (auto using Forall_byte_replicate, length_replicate). f_equal.
  destruct NSIZE_cases as [E|E]; rewrite E; cbn [Nat.eqb replicate];
    rewrite !LE_cons, LE_nil by done; cbn; lia.
Qed.

Lemma wwrap_spec z i : 0 ≤ i → Z.testbit (wwrap z) i = (i <? word_bits) && Z.testbit z i.
Proof using Type.
  intros Hi. unfold wwrap.
  rewrite <-Z.land_ones by (unfold word_bits; lia).
  rewrite Z.land_spec, Z.ones_spec by (unfold word_bits; lia).
  rewrite andb_comm. f_equal. destruct (Z.ltb_spec i word_bits);
    [by rewrite bool_decide_true|by rewrite bool_decide_false by lia].
Qed.

(** *** [SHLBYTE] shifts each byte on its own *)
Lemma shl_bytes bs : Forall is_byte bs → length bs = NSIZE →
  Z.land (wshl (LE bs) 1) (NBYTES 0xfe) = LE ((λ b, to_u8 (2 * b)) <$> bs).
Proof using Type.
  intros Hbs Hl. apply LE_ext.
  - apply Z.land_nonneg. left. apply Z.mod_pos_bound. unfold word_bits. lia.
  - apply Forall_fmap, Forall_true. intros. cbn. auto with bcu.
  - intros k r Hk Hr. unfold wshl. rewrite Z.land_spec, wwrap_spec, Z.shiftl_spec by lia.
    rewrite NBYTES_LE, LE_testbit' by
      (rewrite ?NSIZE_pos; try apply Forall_byte_replicate; unfold is_byte; lia).
    rewrite list_lookup_fmap. rewrite <-Hl.
    destruct (bs !! Z.to_nat k) eqn:Ek; simp_default.
    + apply lookup_lt_Some in Ek as Hlt.
      rewrite lookup_replicate_2 by done. simp_default.
      rewrite to_u8_double_spec by lia.
      destruct (Z.ltb_spec (8 * k + r) word_bits) as [_|Hge];
        [|unfold word_bits in Hge; lia].
      destruct (Z.ltb_spec r 8); [|lia]. rewrite andb_true_r.
      destruct (Z.ltb_spec 0 r).
      * replace (8 * k + r - 1) with (8 * k + (r - 1)) by lia.
        rewrite LE_testbit', Ek by (done || lia). cbn.
        assert (Z.testbit 254 r = true) as ->; [|by rewrite andb_true_r].
        assert (r = 1 ∨ r = 2 ∨ r = 3 ∨ r = 4 ∨ r = 5 ∨ r = 6 ∨ r = 7) as Hc by lia.
        by destruct_or! Hc; subst.
      * replace r with 0 by lia. cbn. by rewrite andb_false_r.
    + apply lookup_ge_None_1 in Ek. rewrite Z.testbit_0_l.
      rewrite (lookup_ge_None_2 (replicate _ _)) by (rewrite length_replicate; lia).
      cbn. by rewrite Z.testbit_0_l, andb_false_r.
Qed.

(** *** [MASK] spreads the top bit of each byte over the byte *)
Definition mask_byte (b : Z) : Z := 255 * Z.b2z (Z.testbit b 7).

Lemma land_0x80 b : is_byte b → Z.land b 0x80 = 128 * Z.b2z (Z.testbit b 7).
Proof using Type.
  revert b. apply (forall_byte (λ b, Z.land b 0x80 = 128 * Z.b2z (Z.testbit b 7))).
  vm_compute. reflexivity.
Qed.

Lemma mask_bytes bs : Forall is_byte bs → length bs = NSIZE →
  let vv := Z.land (LE bs) (NBYTES 0x80) in
  wsub (wshl vv 1) (Z.shiftr vv 7) = LE (mask_byte <$> bs).
Proof using Type.
  intros Hbs Hl vv. set (bits := (λ b, Z.b2z (Z.testbit b 7)) <$> bs).
  assert (∀ c, 0 ≤ c < 256 → Forall is_byte (Z.mul c <$> bits)) as Hc.
  { intros c Hc. unfold bits. apply Forall_fmap, Forall_fmap, Forall_true.
    intros b. unfold compose, is_byte. destruct (Z.testbit b 7); cbn [Z.b2z]; lia. }
  assert (Forall is_byte bits) as Hbits.
  { unfold bits. apply Forall_fmap, Forall_true. intros b. unfold compose, is_byte.
    destruct (Z.testbit b 7); cbn [Z.b2z]; lia. }
  assert (vv = 128 * LE bits) as Evv.
  { unfold vv. rewrite NBYTES_LE, <-Hl, LE_land_replicate by (done || (unfold is_byte; lia)).
    rewrite <-LE_scale by (done || (apply Hc; lia)). f_equal. unfold bits.
    rewrite <-list_fmap_compose. apply list_fmap_ext. intros i b Hb.
    apply land_0x80, (Forall_lookup_1 _ _ _ _ Hbs Hb). }
  assert (LE (mask_byte <$> bs) = 255 * LE bits) as Em.
  { rewrite <-LE_scale by (done || (apply Hc; lia)). f_equal. unfold bits.
    by rewrite <-list_fmap_compose. }
  rewrite Evv, Em. unfold wsub, wshl, wwrap.
  replace (Z.shiftl (128 * LE bits) 1) with (256 * LE bits)
    by (rewrite Z.shiftl_mul_pow2 by lia; lia).
  replace (Z.shiftr (128 * LE bits) 7) with (LE bits)
    by (rewrite Z.shiftr_div_pow2 by lia; change (2 ^ 7) with 128;
        rewrite Z.mul_comm, Z.div_mul; lia).
  rewrite Zminus_mod_idemp_l. replace (256 * LE bits - LE bits) with (255 * LE bits) by lia.
  rewrite <-Em. apply wwrap_LE; [|by rewrite length_fmap].
  apply Forall_fmap, Forall_true. intros b. unfold compose, is_byte, mask_byte.
  destruct (Z.testbit b 7); cbn [Z.b2z]; lia.
Qed.
End native.

(** The body of the inner syndrome loop on one word: [2 * q + d] in every byte. *)
Lemma xtime_mask b : xtime b = Z.lxor (to_u8 (2 * b)) (Z.land (mask_byte b) 0x1d).
Proof. unfold xtime, mask_byte. by destruct (Z.testbit b 7). Qed.

Lemma is_byte_mask_byte b : is_byte (mask_byte b).
Proof. unfold is_byte, mask_byte. destruct (Z.testbit b 7); cbn [Z.b2z]; lia. Qed.
#[export] Hint Resolve is_byte_mask_byte : bcu.

Definition horner (q d : Z) : Z := Z.lxor (xtime q) d.

Lemma is_byte_horner q d : is_byte d → is_byte (horner q d).
Proof. intros. unfold horner. auto with bcu. Qed.
#[export] Hint Resolve is_byte_horner : bcu.

Lemma Forall_byte_fmap {A} (f : A → Z) (xs : list A) : (∀ b, is_byte (f b)) → Forall is_byte (f <$> xs).
Proof. intros Hf. apply Forall_fmap, Forall_true. intros. apply Hf. Qed.

Lemma Forall_byte_zip (f : Z → Z → Z) (qs ds : list Z) :
  (∀ q d, is_byte q → is_byte d → is_byte (f q d)) →
  Forall is_byte qs → Forall is_byte ds → Forall is_byte (zip_with f qs ds).
Proof.
  intros Hf Hq. revert ds. induction Hq; intros ds Hd; [constructor|].
  destruct Hd; constructor; auto.
Qed.

Lemma horner_word `{N : Native} qs ds :
  Forall is_byte qs → Forall is_byte ds → length qs = NSIZE → length ds = NSIZE →
  let wq0 := LE qs in
  let w20 := let vv := Z.land wq0 (NBYTES 0x80) in wsub (wshl vv 1) (Z.shiftr vv 7) in
  let w10 := Z.land (wshl wq0 1) (NBYTES 0xfe) in
  let w20 := Z.land w20 (NBYTES 0x1d) in
  let w10 := Z.lxor w10 w20 in
  Z.lxor w10 (LE ds) = LE (zip_with horner qs ds).
Proof.
  intros Hq Hd Lq Ld. cbv zeta.
  pose proof (mask_bytes qs Hq Lq) as Em. cbv zeta in Em. rewrite Em.
  rewrite shl_bytes by done.
  rewrite NBYTES_LE by (unfold is_byte; lia).
  replace NSIZE with (length (mask_byte <$> qs)) by by rewrite length_fmap.
  assert (is_byte 0x1d) as H1d by (unfold is_byte; lia).
  assert (Forall is_byte ((λ b, to_u8 (2 * b)) <$> qs)) as Hs
    by (apply Forall_byte_fmap; auto with bcu).
  assert (Forall is_byte ((λ b, Z.land b 0x1d) <$> (mask_byte <$> qs))) as Hm.
  { rewrite <-list_fmap_compose. apply Forall_byte_fmap. intros b. unfold compose.
    auto with bcu. }
  rewrite LE_land_replicate by (done || (apply Forall_byte_fmap; auto with bcu)).
  rewrite !LE_lxor by (rewrite ?length_zip_with, ?length_fmap; auto using Forall_byte_lxor; lia).
  f_equal. apply list_eq. intros i. rewrite !lookup_zip_with, !list_lookup_fmap.
  destruct (qs !! i), (ds !! i); cbn; try done. unfold horner. by rewrite xtime_mask.
Qed.
