(* ===== verification/Memory.v ===== *)
(** * Memory: buffers, pointers and disk arrays

    A buffer is a block of bytes; [mem] maps the address of a live buffer to
    its contents, so two pointers may alias and a store through one is seen
    through the other.  Accesses check the bounds of the block, and every
    access outside a live block is [Err OutOfBounds].  [dptr]-style arrays
    ([void **ptrs]) are lists of addresses. *)
From S2P Require Import Prelude GF256 Word.
Local Open Scope Z_scope.

Abbreviation loc := positive.
Abbreviation mem := (gmap positive (list Z)).

(** ** Access *)
Definition in_range (off n len : Z) : bool := (0 <=? off) && (off + n <=? len).

Definition load_bytes (m : mem) (b : loc) (off : Z) (n : nat) : result (list Z) :=
  buf ← of_option OutOfBounds (m !! b);
  require (in_range off (Z.of_nat n) (Z.of_nat (length buf))) OutOfBounds;;
  Ok (take n (drop (Z.to_nat off) buf)).

Definition store_bytes (m : mem) (b : loc) (off : Z) (bs : list Z) : result mem :=
  buf ← of_option OutOfBounds (m !! b);
  require (in_range off (Z.of_nat (length bs)) (Z.of_nat (length buf))) OutOfBounds;;
  Ok (<[b := list_inserts (Z.to_nat off) bs buf]> m).

(** [ptrs[i]] *)
Definition nth_ptr (ptrs : list loc) (i : Z) : result loc :=
  if 0 <=? i then of_option OutOfBounds (ptrs !! Z.to_nat i) else Err OutOfBounds.

(** [((u8 * )b)[off]] *)
Definition load_u8 (m : mem) (b : loc) (off : Z) : result Z :=
  bs ← load_bytes m b off 1;
  of_option OutOfBounds (head bs).

Definition store_u8 (m : mem) (b : loc) (off v : Z) : result mem :=
  store_bytes m b off [to_u8 v].

(** [*(unative_t * )&b[off]] *)
Definition load_word `{Native} (m : mem) (b : loc) (off : Z) : result Z :=
  LE <$> load_bytes m b off NSIZE.

Definition store_word `{Native} (m : mem) (b : loc) (off w : Z) : result mem :=
  store_bytes m b off (Z_to_little_endian (Z.of_nat NSIZE) 8 w).

(** [memcpy(dst, src, n)] and [memset(b, c, n)] *)
Definition memcpy (m : mem) (dst src : loc) (n : Z) : result mem :=
  bs ← load_bytes m src 0 (Z.to_nat n);
  store_bytes m dst 0 bs.

Definition memset (m : mem) (b : loc) (c n : Z) : result mem :=
  store_bytes m b 0 (replicate (Z.to_nat n) (to_u8 c)).

(** ** Specification-level reads *)
Definition peek (m : mem) (b : loc) (k : nat) : Z := default 0 (m !! b ≫= lookup k).

Definition buf_len (m : mem) (b : loc) : Z := Z.of_nat (length (default [] (m !! b))).

(** A live buffer of at least [len] bytes. *)
Definition buf_ok (m : mem) (len : Z) (b : loc) : Prop :=
  match m !! b with
  | Some buf => len ≤ Z.of_nat (length buf) ∧ Forall is_byte buf
  | None => False
  end.
#[export] Instance buf_ok_dec m len b : Decision (buf_ok m len b).
Proof. unfold buf_ok. destruct (m !! b); apply _. Defined.

(** The first [n] entries of [ptrs] are distinct live buffers of [len] bytes. *)
Definition array_ok (m : mem) (ptrs : list loc) (n : nat) (len : Z) : Prop :=
  length (take n ptrs) = n ∧ NoDup (take n ptrs) ∧ Forall (buf_ok m len) (take n ptrs).
#[export] Instance array_ok_dec m ptrs n len : Decision (array_ok m ptrs n len).
Proof. unfold array_ok. apply _. Defined.

(** Byte [k] of each of the first [n] disks. *)
Definition column (m : mem) (ptrs : list loc) (n k : nat) : list Z :=
  (λ b, peek m b k) <$> take n ptrs.

(** ** Properties of accesses *)
Lemma in_range_true off n len : in_range off n len = true ↔ 0 ≤ off ∧ off + n ≤ len.
Proof. unfold in_range. rewrite andb_true_iff, !Z.leb_le. done. Qed.

Lemma buf_ok_Some m len b : buf_ok m len b ↔
  ∃ buf, m !! b = Some buf ∧ len ≤ Z.of_nat (length buf) ∧ Forall is_byte buf.
Proof. unfold buf_ok. destruct (m !! b); naive_solver. Qed.

Lemma buf_ok_mono m len len' b : len' ≤ len → buf_ok m len b → buf_ok m len' b.
Proof. rewrite !buf_ok_Some. naive_solver lia. Qed.

Lemma is_byte_peek m len b k : buf_ok m len b → is_byte (peek m b k).
Proof.
  intros (buf & Hb & _ & Hbuf)%buf_ok_Some. unfold peek. rewrite Hb. cbn.
  apply Forall_lookup_default; auto with bcu.
Qed.

(** The bytes [off .. off + n) of a buffer. *)
Definition slice (m : mem) (b : loc) (off : Z) (n : nat) : list Z :=
  (λ i, peek m b (Z.to_nat off + i)) <$> seq 0 n.

Lemma length_slice m b off n : length (slice m b off n) = n.
Proof. unfold slice. by rewrite length_fmap, length_seq. Qed.

Lemma slice_lookup m b off n i : (i < n)%nat →
  slice m b off n !! i = Some (peek m b (Z.to_nat off + i)).
Proof. intros Hi. unfold slice. rewrite list_lookup_fmap, lookup_seq_lt by done. done. Qed.

Lemma Forall_byte_slice m len b off n : buf_ok m len b → Forall is_byte (slice m b off n).
Proof.
  intros Hb. unfold slice. apply Forall_byte_fmap. intros i. by eapply is_byte_peek.
Qed.

Lemma load_bytes_ok m b off n len :
  buf_ok m len b → 0 ≤ off → off + Z.of_nat n ≤ len →
  load_bytes m b off n = Ok (slice m b off n).
Proof.
  intros (buf & Hb & Hlen & _)%buf_ok_Some Hoff Hn. unfold load_bytes. rewrite Hb. cbn.
  assert (in_range off (Z.of_nat n) (Z.of_nat (length buf)) = true) as ->
    by (apply in_range_true; lia). cbn. f_equal.
  apply (list_eq_default 0).
  - rewrite length_slice, length_take, length_drop. lia.
  - intros i Hi. rewrite length_take in Hi.
    rewrite slice_lookup, lookup_take_drop by lia. unfold peek. rewrite Hb. done.
Qed.

Lemma store_bytes_ok m b off bs len :
  buf_ok m len b → 0 ≤ off → off + Z.of_nat (length bs) ≤ len →
  ∃ buf, m !! b = Some buf ∧
    store_bytes m b off bs = Ok (<[b := list_inserts (Z.to_nat off) bs buf]> m).
Proof.
  intros (buf & Hb & Hlen & _)%buf_ok_Some Hoff Hn. exists buf. split; [done|].
  unfold store_bytes. rewrite Hb. cbn.
  assert (in_range off (Z.of_nat (length bs)) (Z.of_nat (length buf)) = true) as ->
    by (apply in_range_true; lia). done.
Qed.

Lemma nth_ptr_ok ptrs i b : 0 ≤ i → ptrs !! Z.to_nat i = Some b → nth_ptr ptrs i = Ok b.
Proof.
  intros Hi Hb. unfold nth_ptr. destruct (Z.leb_spec 0 i); [|lia]. by rewrite Hb.
Qed.

Lemma nth_ptr_nat ptrs i n b : i = Z.of_nat n → ptrs !! n = Some b → nth_ptr ptrs i = Ok b.
Proof. intros -> Hb. apply nth_ptr_ok; [lia|]. by rewrite Nat2Z.id. Qed.

(** *** Memories that agree up to stores *)
Lemma peek_store_eq m b buf off bs k :
  m !! b = Some buf → (off + length bs ≤ length buf)%nat →
  peek (<[b := list_inserts off bs buf]> m) b k =
    if decide (off ≤ k ∧ k < off + length bs)%nat then default 0 (bs !! (k - off)%nat)
    else peek m b k.
Proof.
  intros Hb Hlen. unfold peek. rewrite lookup_insert_eq, Hb. cbn.
  case_decide as Hk.
  - by rewrite list_lookup_inserts by lia.
  - f_equal. destruct (decide (k < off)%nat).
    + by apply list_lookup_inserts_lt.
    + apply list_lookup_inserts_ge. lia.
Qed.

Lemma peek_insert_ne m b b' buf k : b ≠ b' → peek (<[b := buf]> m) b' k = peek m b' k.
Proof. intros Hne. unfold peek. by rewrite lookup_insert_ne. Qed.

Lemma buf_ok_store m b buf off bs len b' :
  m !! b = Some buf → Forall is_byte bs → buf_ok m len b' →
  buf_ok (<[b := list_inserts off bs buf]> m) len b'.
Proof.
  intros Hb Hbs Hb'. rewrite buf_ok_Some in *. destruct Hb' as (buf' & Hb' & Hlen & Hbuf).
  destruct (decide (b = b')) as [<-|Hne].
  - simplify_eq. eexists. rewrite lookup_insert_eq, length_inserts. split_and!; [done..|].
    apply Forall_lookup_2. intros i x. rewrite list_lookup_inserts_Some.
    rewrite Forall_lookup in Hbs, Hbuf. naive_solver.
  - exists buf'. by rewrite lookup_insert_ne.
Qed.

Lemma buf_len_store m b buf off bs b' :
  m !! b = Some buf → buf_len (<[b := list_inserts off bs buf]> m) b' = buf_len m b'.
Proof.
  intros Hb. unfold buf_len. destruct (decide (b = b')) as [<-|Hne].
  - by rewrite lookup_insert_eq, Hb; cbn; rewrite length_inserts.
  - by rewrite lookup_insert_ne.
Qed.

(** ** Arrays *)
Section array.
Context {m : mem} {ptrs : list loc} {n : nat} {len : Z} (Ha : array_ok m ptrs n len).

Lemma array_disk i : (i < n)%nat → ∃ b, ptrs !! i = Some b ∧ buf_ok m len b.
Proof using Ha.
  intros Hi. destruct Ha as (Hlen & _ & Hall).
  destruct (lookup_lt_is_Some_2 (take n ptrs) i ltac:(lia)) as [b Hb].
  exists b. split; [by rewrite lookup_take_lt in Hb|]. by eapply Forall_lookup_1.
Qed.

Lemma array_inj i j b : (i < n)%nat → (j < n)%nat →
  ptrs !! i = Some b → ptrs !! j = Some b → i = j.
Proof using Ha.
  intros Hi Hj Hbi Hbj. destruct Ha as (_ & Hnd & _).
  eapply (NoDup_lookup _ _ _ b Hnd); by rewrite lookup_take_lt.
Qed.

Lemma array_ptr i b : (i < n)%nat → ptrs !! i = Some b → buf_ok m len b.
Proof using Ha.
  intros Hi Hb. destruct (array_disk i Hi) as (b' & Hb' & Hok). by simplify_eq.
Qed.

Lemma array_length : (n ≤ length ptrs)%nat.
Proof using Ha. destruct Ha as (Hlen & _). rewrite length_take in Hlen. lia. Qed.
End array.

Lemma array_ok_mono m ptrs n len n' len' :
  (n' ≤ n)%nat → len' ≤ len → array_ok m ptrs n len → array_ok m ptrs n' len'.
Proof.
  intros Hn Hlen (Hl & Hnd & Hall). rewrite length_take in Hl.
  assert (take n' ptrs = take n' (take n ptrs)) as E by (rewrite take_take; f_equal; lia).
  split_and!.
  - rewrite length_take. lia.
  - rewrite E. rewrite <-(take_drop n' (take n ptrs)) in Hnd.
    by apply NoDup_app in Hnd as [? _].
  - rewrite E. apply Forall_take. eapply Forall_impl; [done|]. intros b.
    by apply buf_ok_mono.
Qed.

Lemma array_ok_frame m m' ptrs n len :
  (∀ b, buf_ok m len b → buf_ok m' len b) → array_ok m ptrs n len → array_ok m' ptrs n len.
Proof.
  intros H (Hl & Hnd & Hall). split_and!; [done..|]. eapply Forall_impl; [done|apply H].
Qed.

Lemma length_column m ptrs n k : (n ≤ length ptrs)%nat → length (column m ptrs n k) = n.
Proof. intros. unfold column. rewrite length_fmap, length_take. lia. Qed.

Lemma column_lookup m ptrs n k i b : (i < n)%nat → ptrs !! i = Some b →
  column m ptrs n k !! i = Some (peek m b k).
Proof.
  intros Hi Hb. unfold column. rewrite list_lookup_fmap, lookup_take_lt, Hb by done. done.
Qed.

Lemma Forall_byte_column m ptrs n len k :
  array_ok m ptrs n len → Forall is_byte (column m ptrs n k).
Proof.
  intros (_ & _ & Hall). unfold column. apply Forall_fmap.
  eapply Forall_impl; [done|]. intros b Hb. by eapply is_byte_peek.
Qed.

Lemma column_S m ptrs n k b : ptrs !! n = Some b →
  column m ptrs (S n) k = column m ptrs n k ++ [peek m b k].
Proof.
  intros Hb. unfold column. rewrite (take_S_r _ _ _ Hb), fmap_app. done.
Qed.

(** Storing to a disk outside the first [n] does not change their column. *)
Lemma column_frame m m' ptrs n k :
  (∀ b, b ∈ take n ptrs → peek m' b k = peek m b k) → column m' ptrs n k = column m ptrs n k.
Proof.
  intros H. unfold column. apply list_fmap_ext. intros i b Hb.
  apply H. by eapply list_elem_of_lookup_2.
Qed.

(** Words and the bytes they are stored as. *)
Lemma load_word_ok `{Native} m b off len :
  buf_ok m len b → 0 ≤ off → off + Z.of_nat NSIZE ≤ len →
  load_word m b off = Ok (LE (slice m b off NSIZE)).
Proof. intros. unfold load_word. by rewrite (load_bytes_ok m b off NSIZE len). Qed.

Lemma store_word_LE `{Native} m b off bs : Forall is_byte bs → length bs = NSIZE →
  store_word m b off (LE bs) = store_bytes m b off bs.
Proof.
  intros Hbs Hl. unfold store_word. rewrite Z_to_little_endian_to_Z by (done || lia). done.
Qed.

(** What a successful access tells about its buffer. *)
Lemma buf_len_Some m b buf : m !! b = Some buf → buf_len m b = Z.of_nat (length buf).
Proof. intros Hb. unfold buf_len. by rewrite Hb. Qed.

Lemma load_bytes_Ok m b off n bs : load_bytes m b off n = Ok bs →
  0 ≤ off ∧ off + Z.of_nat n ≤ buf_len m b.
Proof.
  unfold load_bytes. intros H. inv_ok. rewrite (buf_len_Some _ _ _ E).
  by apply in_range_true.
Qed.

Lemma store_bytes_Ok m b off bs m' : store_bytes m b off bs = Ok m' →
  0 ≤ off ∧ off + Z.of_nat (length bs) ≤ buf_len m b ∧ ∀ b', buf_len m' b' = buf_len m b'.
Proof.
  unfold store_bytes. intros H. inv_ok. subst. rewrite (buf_len_Some _ _ _ E).
  apply in_range_true in E0 as [? ?]. split_and!; [done..|]. intros b'. by apply buf_len_store.
Qed.

Lemma load_word_Ok `{Native} m b off w : load_word m b off = Ok w →
  0 ≤ off ∧ off + Z.of_nat NSIZE ≤ buf_len m b.
Proof.
  unfold load_word. intros Hl. destruct (load_bytes m b off NSIZE) eqn:E; [|done].
  by apply load_bytes_Ok in E.
Qed.

Lemma store_word_Ok `{Native} m b off w m' : store_word m b off w = Ok m' →
  0 ≤ off ∧ off + Z.of_nat NSIZE ≤ buf_len m b ∧ ∀ b', buf_len m' b' = buf_len m b'.
Proof.
  intros (? & Hl & ?)%store_bytes_Ok. rewrite length_Z_to_little_endian in Hl by lia.
  split_and!; [done|lia|done].
Qed.

Lemma load_u8_ok m b i len : buf_ok m len b → 0 ≤ i < len → load_u8 m b i = Ok (peek m b (Z.to_nat i)).
Proof.
  intros Hb Hi. unfold load_u8. rewrite (load_bytes_ok m b i 1 len) by (done || lia).
  cbn [mbind result_bind]. unfold slice. cbn. by rewrite Nat.add_0_r.
Qed.

(** Storing a word whose bytes are given by position. *)
Lemma store_word_fun `{Native} m b d (f : nat → Z) len :
  buf_ok m len b → 0 ≤ d → d + Z.of_nat NSIZE ≤ len → (∀ k, is_byte (f k)) →
  ∃ m', store_word m b d (LE ((λ i, f (Z.to_nat d + i)%nat) <$> seq 0 NSIZE)) = Ok m' ∧
    (∀ b', b' ≠ b → m' !! b' = m !! b') ∧
    (∀ b', buf_len m' b' = buf_len m b') ∧
    (∀ b' l, buf_ok m l b' → buf_ok m' l b') ∧
    ∀ k, peek m' b k =
      if decide (Z.to_nat d ≤ k < Z.to_nat d + NSIZE)%nat then f k else peek m b k.
Proof.
  intros Hb Hd Hlen Hf. set (bs := (λ i, f (Z.to_nat d + i)%nat) <$> seq 0 NSIZE).
  assert (length bs = NSIZE) as Hl by (unfold bs; by rewrite length_fmap, length_seq).
  assert (Forall is_byte bs) as Hbs by (apply Forall_byte_fmap; intros; apply Hf).
  destruct (store_bytes_ok m b d bs len) as (buf & Hbuf & E); [done..|by rewrite Hl|].
  exists (<[b:=list_inserts (Z.to_nat d) bs buf]> m).
  rewrite store_word_LE by done. split_and!; [done|..].
  - intros b' Hb'. by rewrite lookup_insert_ne.
  - intros b'. by apply buf_len_store.
  - intros b' l Hb'. by apply buf_ok_store.
  - intros k. apply buf_ok_Some in Hb as (buf' & Hb' & Hlen' & _). simplify_eq.
    rewrite peek_store_eq, Hl by (rewrite ?Hl; done || lia).
    case_decide; [|done]. unfold bs.
    rewrite list_lookup_fmap, lookup_seq_lt by lia. simp_default. f_equal. lia.
Qed.

Lemma load_bytes_length m b off n bs : load_bytes m b off n = Ok bs → length bs = n.
Proof.
  intros E. pose proof (load_bytes_Ok _ _ _ _ _ E) as [H1 H2]. unfold load_bytes in E. inv_ok. subst.
  match goal with Hb : m !! b = Some _ |- _ => rewrite (buf_len_Some _ _ _ Hb) in H2 end. rewrite length_take, length_drop. lia.
Qed.

Lemma memcpy_Ok m dst src n m' : 0 ≤ n → memcpy m dst src n = Ok m' →
  n ≤ buf_len m src ∧ n ≤ buf_len m dst.
Proof.
  unfold memcpy. intros Hn E. apply bind_Ok in E as (bs & E & Es).
  pose proof (load_bytes_length _ _ _ _ _ E) as Hl.
  apply load_bytes_Ok in E. apply store_bytes_Ok in Es as (_ & Es & _). lia.
Qed.

(** Every access fault of the memory is [OutOfBounds]. *)
Lemma load_bytes_Err m b off n f : load_bytes m b off n = Err f → f = OutOfBounds.
Proof. unfold load_bytes, require, of_option, mbind, result_bind. repeat case_match; congruence. Qed.

Lemma store_bytes_Err m b off bs f : store_bytes m b off bs = Err f → f = OutOfBounds.
Proof. unfold store_bytes, require, of_option, mbind, result_bind. repeat case_match; congruence. Qed.

Lemma memcpy_Err m dst src n f : memcpy m dst src n = Err f → f = OutOfBounds.
Proof.
  unfold memcpy, load_bytes, store_bytes, require, of_option, mbind, result_bind.
  repeat case_match; congruence.
Qed.

Lemma nth_ptr_fails ptrs i : fails_by OutOfBounds (nth_ptr ptrs i).
Proof. unfold nth_ptr. destruct (0 <=? i); [apply fails_by_of_option|apply fails_by_err]. Qed.
Lemma load_u8_fails m b off : fails_by OutOfBounds (load_u8 m b off).
Proof. apply fails_by_bind; [intros f; apply load_bytes_Err|intros bs; apply fails_by_of_option]. Qed.
Lemma store_u8_fails m b off v : fails_by OutOfBounds (store_u8 m b off v).
Proof. intros f. apply store_bytes_Err. Qed.
#[export] Hint Resolve nth_ptr_fails load_u8_fails store_u8_fails : oob.

(** *** The effect of a store, as a client sees it *)
Record stored (m : mem) (b : loc) (off : nat) (bs : list Z) (m' : mem) : Prop := {
  st_frame : ∀ b', b' ≠ b → m' !! b' = m !! b';
  st_len : ∀ b', buf_len m' b' = buf_len m b';
  st_ok : ∀ b' l, buf_ok m l b' → buf_ok m' l b';
  st_peek : ∀ k, peek m' b k =
    if decide (off ≤ k < off + length bs)%nat then default 0 (bs !! (k - off)%nat) else peek m b k
}.

Lemma store_bytes_spec m b off bs len : buf_ok m len b → 0 ≤ off →
  off + Z.of_nat (length bs) ≤ len → Forall is_byte bs →
  ∃ m', store_bytes m b off bs = Ok m' ∧ stored m b (Z.to_nat off) bs m'.
Proof.
  intros Hb Hoff Hlen Hbs. destruct (store_bytes_ok m b off bs len) as (buf & Hbuf & E); [done..|].
  exists (<[b:=list_inserts (Z.to_nat off) bs buf]> m). split; [done|]. split.
  - intros b' Hb'. by rewrite lookup_insert_ne.
  - intros b'. by apply buf_len_store.
  - intros b' l. by apply buf_ok_store.
  - intros k. apply buf_ok_Some in Hb as (buf' & Hb' & Hlen' & _). simplify_eq.
    by rewrite peek_store_eq by (done || lia).
Qed.

Lemma memset_spec m b c n len : buf_ok m len b → 0 ≤ n ≤ len →
  ∃ m', memset m b c n = Ok m' ∧ stored m b 0 (replicate (Z.to_nat n) (to_u8 c)) m'.
Proof.
  intros Hb Hn. apply (store_bytes_spec m b 0 _ len); [done|done| |].
  - rewrite length_replicate. lia.
  - apply Forall_byte_replicate. auto with bcu.
Qed.

Lemma stored_peek_ne m b off bs m' b' k : stored m b off bs m' → b' ≠ b → peek m' b' k = peek m b' k.
Proof. intros [Hf _ _ _] Hne. unfold peek. by rewrite Hf. Qed.

(** ** The heap: [malloc] and [free]

    [malloc] returns a block that is not live yet, with arbitrary contents;
    the code never checks its result, so exhaustion is not modelled. *)
Definition fresh_loc (m : mem) : loc := (map_fold (λ b _ a, Pos.max b a) 1 m + 1)%positive.

Lemma fresh_loc_bound m b : is_Some (m !! b) → (b < fresh_loc m)%positive.
Proof.
  intros Hb. unfold fresh_loc.
  rewrite Pos.add_1_r. apply Pos.lt_succ_r. revert Hb.
  apply (map_fold_weak_ind (λ a m, is_Some (m !! b) → (b ≤ a)%positive)).
  - rewrite lookup_empty. by intros [].
  - intros b' x m' a Hb' IH. rewrite lookup_insert_is_Some. intros [->|[_ H]]; [lia|].
    specialize (IH H). lia.
Qed.

Lemma fresh_loc_fresh m : m !! fresh_loc m = None.
Proof.
  destruct (m !! fresh_loc m) eqn:E; [|done].
  pose proof (fresh_loc_bound m (fresh_loc m) ltac:(by rewrite E)). lia.
Qed.

Definition malloc (junk : loc → nat → Z) (m : mem) (n : Z) : loc * mem :=
  let b := fresh_loc m in
  (b, <[b := (λ k, to_u8 (junk b k)) <$> seq 0 (Z.to_nat n)]> m).

Definition free (m : mem) (b : loc) : result mem :=
  match m !! b with Some _ => Ok (delete b m) | None => Err OutOfBounds end.
