(* ===== verification/Syndrome.v ===== *)
(** * The contract of a gen_syndrome function

    Every implementation has the type [syndrome_func] of definitions.h:
    [void gen_syndrome(int disks, size_t bytes, void **ptrs)], where the last
    two of the [disks] buffers receive P and Q and the others are data.
    [computes_pq] is what the rest of the system relies on; [writes_pq] adds
    exactly how many bytes are written. *)
From S2P Require Import Prelude GF256 Word Memory.
Local Open Scope Z_scope.

(** [syndrome_func]: a function of the arguments and the memory. *)
Definition syndrome_func : Type := Z → Z → list loc → mem → result mem.

Section contract.
Context (m : mem) (ptrs : list loc) (disks : nat).

(** Byte [k] of the two check disks, as the code defines them. *)
Definition p_byte (k : nat) : Z := gen_p (column m ptrs (disks - 2) k).
Definition q_byte (k : nat) : Z := gen_q (column m ptrs (disks - 2) k).

(** [m'] is [m] with P and Q of the first [len] bytes in place; no other
    buffer is changed and none is resized. *)
Record computes_pq (len : Z) (m' : mem) : Prop := {
  cpq_frame : ∀ b, ptrs !! (disks - 2)%nat ≠ Some b → ptrs !! (disks - 1)%nat ≠ Some b →
    m' !! b = m !! b;
  cpq_len : ∀ b, buf_len m' b = buf_len m b;
  cpq_p : ∀ p k, ptrs !! (disks - 2)%nat = Some p → Z.of_nat k < len → peek m' p k = p_byte k;
  cpq_q : ∀ q k, ptrs !! (disks - 1)%nat = Some q → Z.of_nat k < len → peek m' q k = q_byte k
}.

(** ... and nothing past [len] is written either. *)
Record writes_pq (len : Z) (m' : mem) : Prop := {
  wpq_computes : computes_pq len m';
  wpq_rest : ∀ b k, len ≤ Z.of_nat k → peek m' b k = peek m b k;
  wpq_ok : ∀ b l, buf_ok m l b → buf_ok m' l b
}.

Lemma computes_pq_mono len len' m' : len' ≤ len → computes_pq len m' → computes_pq len' m'.
Proof using Type. intros Hl [H1 H2 H3 H4]. split; [done|done|..]; intros; [apply H3|apply H4]; done || lia. Qed.

Lemma writes_pq_refl : writes_pq 0 m.
Proof using Type. split; [split|..]; intros; done || lia. Qed.
End contract.

(** [gen_p] and [gen_q] peel the highest disk first, as the loops do. *)
Lemma gen_p_snoc c x : gen_p (c ++ [x]) = foldr Z.lxor x c.
Proof. unfold gen_p. rewrite foldr_app. cbn. by rewrite Z.lxor_0_r. Qed.

Lemma gen_q_snoc c x : gen_q (c ++ [x]) = foldr (λ d acc, horner acc d) x c.
Proof. unfold gen_q. rewrite foldr_app. cbn [foldr]. by rewrite xtime_0, Z.lxor_0_l. Qed.

(** ** Advancing the contract by one word *)
Section advance.
Context (m : mem) (ptrs : list loc) (disks : nat) (len : Z).
Context (Hdisks : (3 ≤ disks)%nat) (Ha : array_ok m ptrs disks len).

Lemma p_is_byte k : is_byte (p_byte m ptrs disks k).
Proof using Hdisks Ha.
  apply is_byte_gen_p, Forall_byte_column with len.
  eapply array_ok_mono; [|reflexivity|done]. lia.
Qed.
Lemma q_is_byte k : is_byte (q_byte m ptrs disks k).
Proof using Hdisks Ha.
  apply is_byte_gen_q, Forall_byte_column with len.
  eapply array_ok_mono; [|reflexivity|done]. lia.
Qed.

(** The words [wp0] and [wq0] hold, lane by lane. *)
Definition p_lanes (d : Z) (n : nat) : list Z := (λ i, p_byte m ptrs disks (Z.to_nat d + i)) <$> seq 0 n.
Definition q_lanes (d : Z) (n : nat) : list Z := (λ i, q_byte m ptrs disks (Z.to_nat d + i)) <$> seq 0 n.

Lemma length_p_lanes d n : length (p_lanes d n) = n.
Proof using Type. unfold p_lanes. by rewrite length_fmap, length_seq. Qed.
Lemma length_q_lanes d n : length (q_lanes d n) = n.
Proof using Type. unfold q_lanes. by rewrite length_fmap, length_seq. Qed.
Lemma p_lanes_lookup d n i : (i < n)%nat →
  p_lanes d n !! i = Some (p_byte m ptrs disks (Z.to_nat d + i)).
Proof using Type. intros. unfold p_lanes. by rewrite list_lookup_fmap, lookup_seq_lt. Qed.
Lemma q_lanes_lookup d n i : (i < n)%nat →
  q_lanes d n !! i = Some (q_byte m ptrs disks (Z.to_nat d + i)).
Proof using Type. intros. unfold q_lanes. by rewrite list_lookup_fmap, lookup_seq_lt. Qed.
Lemma p_lanes_byte d n : Forall is_byte (p_lanes d n).
Proof using Hdisks Ha. apply Forall_byte_fmap. intros. apply p_is_byte. Qed.
Lemma q_lanes_byte d n : Forall is_byte (q_lanes d n).
Proof using Hdisks Ha. apply Forall_byte_fmap. intros. apply q_is_byte. Qed.

(** P and Q are stored to two further, distinct buffers. *)
Lemma check_disks : ∃ p q, ptrs !! (disks - 2)%nat = Some p ∧ ptrs !! (disks - 1)%nat = Some q ∧ p ≠ q
  ∧ buf_ok m len p ∧ buf_ok m len q.
Proof using Hdisks Ha.
  destruct (array_disk Ha (disks - 2)) as (p & Hp & Hpo); [lia|].
  destruct (array_disk Ha (disks - 1)) as (q & Hq & Hqo); [lia|].
  exists p, q. split_and!; try done. intros ->.
  pose proof (array_inj Ha (disks - 2) (disks - 1) q ltac:(lia) ltac:(lia) Hp Hq). lia.
Qed.

Lemma writes_pq_step d n m1 p q :
  ptrs !! (disks - 2)%nat = Some p → ptrs !! (disks - 1)%nat = Some q →
  0 ≤ d → d + Z.of_nat n ≤ len → writes_pq m ptrs disks d m1 →
  ∃ m2 m3, store_bytes m1 p d (p_lanes d n) = Ok m2 ∧ store_bytes m2 q d (q_lanes d n) = Ok m3 ∧
    writes_pq m ptrs disks (d + Z.of_nat n) m3.
Proof using Hdisks Ha.
  intros Hp Hq Hd Hlen [[Hf Hl HP HQ] Hrest Hok].
  destruct check_disks as (p' & q' & Hp' & Hq' & Hpq & Hpo & Hqo). simplify_eq.
  destruct (store_bytes_ok m1 p d (p_lanes d n) len) as (pb & Hpb & E2);
    [by apply Hok|done|by rewrite length_p_lanes|].
  set (m2 := <[p:=list_inserts (Z.to_nat d) (p_lanes d n) pb]> m1) in *.
  assert (∀ b l, buf_ok m l b → buf_ok m2 l b) as Hok2.
  { intros b l Hb. apply buf_ok_store; [done|apply p_lanes_byte|by apply Hok]. }
  destruct (store_bytes_ok m2 q d (q_lanes d n) len) as (qb & Hqb & E3);
    [by apply Hok2|done|by rewrite length_q_lanes|].
  set (m3 := <[q:=list_inserts (Z.to_nat d) (q_lanes d n) qb]> m2) in *.
  assert (buf_ok m1 len p) as Hp1 by by apply Hok.
  assert (buf_ok m2 len q) as Hq2 by by apply Hok2.
  apply buf_ok_Some in Hp1 as (pb' & Hpb' & Hplen & _).
  apply buf_ok_Some in Hq2 as (qb' & Hqb' & Hqlen & _). simplify_eq.
  assert (∀ b k, peek m3 b k =
    if decide (b = p ∧ Z.to_nat d ≤ k < Z.to_nat d + n)%nat then p_byte m ptrs disks k
    else if decide (b = q ∧ Z.to_nat d ≤ k < Z.to_nat d + n)%nat then q_byte m ptrs disks k
    else peek m1 b k) as Hpeek.
  { intros b k. unfold m3, m2.
    destruct (decide (b = p)) as [Eb|Hbp], (decide (b = q)) as [Eb'|Hbq]; [congruence|..].
    all: subst.
    all: destruct (decide (Z.to_nat d ≤ k < Z.to_nat d + n)%nat) as [Hk|Hk].
    all: repeat first [rewrite (decide_True (P := _ ∧ _)) by done
                      |rewrite (decide_False (P := _ ∧ _)) by (intros [? ?]; done)].
    all: repeat first [rewrite peek_insert_ne by done
      |rewrite peek_store_eq by (rewrite ?length_q_lanes, ?length_p_lanes; done || lia)].
    all: rewrite ?length_p_lanes, ?length_q_lanes, ?(decide_True _ _ Hk), ?(decide_False _ _ Hk).
    all: try done.
    - rewrite p_lanes_lookup by lia. cbn. f_equal. lia.
    - rewrite q_lanes_lookup by lia. cbn. f_equal. lia. }
  exists m2, m3. split_and!; [done..|]. split; [split|..].
  - intros b Hb1 Hb2. unfold m3, m2. rewrite !lookup_insert_ne by congruence. by apply Hf.
  - intros b. unfold m3, m2. rewrite !buf_len_store by done. apply Hl.
  - intros p' k Hp'' Hk. simplify_eq. rewrite Hpeek.
    case_decide as H1; [done|]. rewrite decide_False by (intros [? _]; done).
    apply HP; [done|]. apply Z.nle_gt. intros ?. apply H1. split; [done|lia].
  - intros q' k Hq'' Hk. simplify_eq. rewrite Hpeek.
    rewrite (decide_False (P := q = p ∧ _)) by (intros [? _]; done).
    case_decide as H1; [done|].
    apply HQ; [done|]. apply Z.nle_gt. intros ?. apply H1. split; [done|lia].
  - intros b k Hk. rewrite Hpeek. rewrite !decide_False by (intros [_ ?]; lia). apply Hrest. lia.
  - intros b l Hb. apply buf_ok_store; [done|apply q_lanes_byte|by apply Hok2].
Qed.
End advance.

(** Reading a data disk of a memory that satisfies the contract. *)
Lemma writes_pq_peek_data m ptrs disks len len' m' i b k :
  (3 ≤ disks)%nat → array_ok m ptrs disks len' → writes_pq m ptrs disks len m' →
  (i < disks - 2)%nat → ptrs !! i = Some b → m' !! b = m !! b ∧ peek m' b k = peek m b k.
Proof.
  intros Hd Ha [[Hf _ _ _] _ _] Hi Hb.
  assert (m' !! b = m !! b) as E.
  { apply Hf; intros Hb'.
    - pose proof (array_inj Ha i (disks - 2) b ltac:(lia) ltac:(lia) Hb Hb'). lia.
    - pose proof (array_inj Ha i (disks - 1) b ltac:(lia) ltac:(lia) Hb Hb'). lia. }
  split; [done|]. unfold peek. by rewrite E.
Qed.

Lemma array_ok_writes m ptrs disks len n l m' d :
  writes_pq m ptrs disks len m' → array_ok m d n l → array_ok m' d n l.
Proof. intros Hw. apply array_ok_frame. intros b. apply (wpq_ok _ _ _ _ _ Hw). Qed.

Lemma column_writes m ptrs disks len len' m' k :
  (3 ≤ disks)%nat → array_ok m ptrs disks len' → writes_pq m ptrs disks len m' →
  column m' ptrs (disks - 2) k = column m ptrs (disks - 2) k.
Proof.
  intros Hd Ha Hw. apply column_frame. intros b (i & Hi & Hlt)%elem_of_take.
  by eapply writes_pq_peek_data.
Qed.

(** ** The loop over the data disks

    All word implementations share this shape: the word of the highest data
    disk, then every lower disk folded in by [upd]. *)
Section data_loop.
Context `{N : Native} (m : mem) (ptrs : list loc) (disks : nat) (len : Z).
Context (Hdisks : (3 ≤ disks)%nat) (Ha : array_ok m ptrs disks len).
Context (d : Z) (Hd : 0 ≤ d) (Hlen : d + Z.of_nat NSIZE ≤ len).
Context (upd : Z → Z * Z → Z * Z).
Hypothesis Hupd : ∀ ps qs ds, Forall is_byte ps → Forall is_byte qs → Forall is_byte ds →
  length ps = NSIZE → length qs = NSIZE → length ds = NSIZE →
  upd (LE ds) (LE ps, LE qs) = (LE (zip_with Z.lxor ps ds), LE (zip_with horner qs ds)).

(** Partial P and Q: the disks [z ..] are folded in. *)
Definition part (f : list Z → Z) (z : nat) : list Z :=
  (λ i, f (drop z (column m ptrs (disks - 2) (Z.to_nat d + i)))) <$> seq 0 NSIZE.

Lemma part_step f (g : Z → Z → Z) z b : (z < disks - 2)%nat → ptrs !! z = Some b →
  (∀ x c, f (x :: c) = g (f c) x) →
  zip_with g (part f (S z)) (slice m b d NSIZE) = part f z.
Proof using Type.
  intros Hz Hb Hf. unfold part, slice. rewrite zip_with_fmap_l, zip_with_fmap_r.
  rewrite zip_with_diag. apply list_fmap_ext. intros k i Hi.
  by rewrite (drop_S _ _ z (column_lookup m ptrs _ _ z b Hz Hb)), Hf.
Qed.

Lemma length_part f z : length (part f z) = NSIZE.
Proof using Type. unfold part. by rewrite length_fmap, length_seq. Qed.

Lemma part_byte f z : (∀ c, Forall is_byte c → is_byte (f c)) → Forall is_byte (part f z).
Proof using Hdisks Ha.
  intros Hf. apply Forall_byte_fmap. intros i. apply Hf, Forall_drop.
  apply (Forall_byte_column _ _ _ len). eapply array_ok_mono; [|done..]. lia.
Qed.

(** The highest data disk alone. *)
Lemma part_top f b : (∀ x, is_byte x → f [x] = x) → ptrs !! (disks - 3)%nat = Some b →
  part f (disks - 3) = slice m b d NSIZE.
Proof using Hdisks Ha.
  intros Hf Hb. apply list_fmap_ext. intros k i Hi.
  replace (disks - 2)%nat with (S (disks - 3)) by lia.
  rewrite (column_S _ _ _ _ b Hb), drop_app_length', Hf; [done|..].
  - eapply is_byte_peek, (array_ptr Ha (disks - 3)); [lia|done].
  - pose proof (array_length Ha). rewrite length_column; lia.
Qed.

Lemma data_loop_ok : ∃ b, ptrs !! (disks - 3)%nat = Some b ∧
  load_word m b d = Ok (LE (slice m b d NSIZE)) ∧
  for_down (disks - 3) (λ z acc,
    b ← nth_ptr ptrs z; wd0 ← load_word m b d; Ok (upd wd0 acc))
    (LE (slice m b d NSIZE), LE (slice m b d NSIZE)) =
  Ok (LE (p_lanes m ptrs disks d NSIZE), LE (q_lanes m ptrs disks d NSIZE)).
Proof using Hdisks Ha Hd Hlen Hupd.
  destruct (array_disk Ha (disks - 3)) as (b & Hb & Hbo); [lia|]. exists b.
  split_and!; [done|by eapply load_word_ok|].
  rewrite <-(part_top gen_p b) at 1 by (done || (intros; apply Z.lxor_0_r)).
  rewrite <-(part_top gen_q b) by done.
  edestruct (for_down_inv (λ z acc, acc = (LE (part gen_p z), LE (part gen_q z))))
    as (acc & -> & ->); [|reflexivity|reflexivity].
  intros z acc Hz ->. destruct (array_disk Ha z) as (bz & Hbz & Hbzo); [lia|].
  rewrite (nth_ptr_ok ptrs (Z.of_nat z) bz) by (rewrite ?Nat2Z.id; done || lia).
  cbn [mbind result_bind]. rewrite (load_word_ok m bz d len) by done.
  cbn [mbind result_bind]. eexists. split; [reflexivity|].
  rewrite Hupd by (rewrite ?length_part, ?length_slice;
    eauto using part_byte, is_byte_gen_p, is_byte_gen_q, Forall_byte_slice).
  f_equal; f_equal; apply part_step; try done; try lia.
  intros x c. by rewrite gen_p_cons, Z.lxor_comm.
Qed.
End data_loop.

(** The update every word implementation performs, in the terms of horner_word. *)
Section update.
Context `{N : Native} (SHLBYTE MASK : Z → Z).
Hypothesis HSHL : ∀ v, SHLBYTE v = Z.land (wshl v 1) (NBYTES 0xfe).
Hypothesis HMASK : ∀ v, MASK v =
  let vv := Z.land v (NBYTES 0x80) in wsub (wshl vv 1) (Z.shiftr vv 7).

Lemma update_ok ps qs ds : Forall is_byte ps → Forall is_byte qs → Forall is_byte ds →
  length ps = NSIZE → length qs = NSIZE → length ds = NSIZE →
  (Z.lxor (LE ps) (LE ds),
   Z.lxor (Z.lxor (SHLBYTE (LE qs)) (Z.land (MASK (LE qs)) (NBYTES 0x1d))) (LE ds)) =
  (LE (zip_with Z.lxor ps ds), LE (zip_with horner qs ds)).
Proof using HSHL HMASK.
  intros Hp Hq Hd Lp Lq Ld. rewrite HSHL, HMASK, LE_lxor by (done || congruence).
  pose proof (horner_word qs ds Hq Hd Lq Ld) as E. cbv zeta in E |- *. by rewrite E.
Qed.
End update.

(** The two stores that end an iteration. *)
Lemma word_stores `{N : Native} m ptrs disks len d m1 p q :
  (3 ≤ disks)%nat → array_ok m ptrs disks len →
  ptrs !! (disks - 2)%nat = Some p → ptrs !! (disks - 1)%nat = Some q →
  0 ≤ d → d + Z.of_nat NSIZE ≤ len → writes_pq m ptrs disks d m1 →
  ∃ m2 m3, store_word m1 p d (LE (p_lanes m ptrs disks d NSIZE)) = Ok m2 ∧
    store_word m2 q d (LE (q_lanes m ptrs disks d NSIZE)) = Ok m3 ∧
    writes_pq m ptrs disks (d + Z.of_nat NSIZE) m3.
Proof.
  intros. destruct (writes_pq_step m ptrs disks len ltac:(done) ltac:(done) d NSIZE m1 p q)
    as (m2 & m3 & E2 & E3 & Hw); [done..|].
  exists m2, m3. rewrite !store_word_LE by
    (eauto using p_lanes_byte, q_lanes_byte, length_p_lanes, length_q_lanes). done.
Qed.

Lemma p_lanes_writes m ptrs disks len len' m1 d n :
  (3 ≤ disks)%nat → array_ok m ptrs disks len' → writes_pq m ptrs disks len m1 →
  p_lanes m1 ptrs disks d n = p_lanes m ptrs disks d n ∧
  q_lanes m1 ptrs disks d n = q_lanes m ptrs disks d n.
Proof.
  intros Hd Ha Hw. split; apply list_fmap_ext; intros k i _; unfold p_byte, q_byte;
    by erewrite column_writes.
Qed.

(** ** What the contract is for: two lost disks can be rebuilt

    Two memories that satisfy the contract and agree on all but two disks
    agree on every disk, so the lost contents are determined by the others. *)
Section recover.
Context (m m' : mem) (ptrs : list loc) (disks : nat) (len : Z).
Context (Hdisks : (3 ≤ disks)%nat) (Ha : array_ok m ptrs disks len).
Context (Hc : computes_pq m ptrs disks len m').

Definition disk_byte (z k : nat) : option Z := (λ b, peek m' b k) <$> ptrs !! z.

Lemma computes_pq_data z b k : (z < disks - 2)%nat → ptrs !! z = Some b → peek m' b k = peek m b k.
Proof using All.
  intros Hz Hb. destruct Hc as [Hf _ _ _]. unfold peek. rewrite Hf; [done|intros Hb'..].
  - pose proof (array_inj Ha z (disks - 2) b ltac:(lia) ltac:(lia) Hb Hb'). lia.
  - pose proof (array_inj Ha z (disks - 1) b ltac:(lia) ltac:(lia) Hb Hb'). lia.
Qed.

Lemma computes_pq_codeword z k : (z < disks)%nat → Z.of_nat k < len →
  codeword (column m ptrs (disks - 2) k) !! z = disk_byte z k.
Proof using All.
  intros Hz Hk. pose proof (array_length Ha) as Hl.
  pose proof (length_column m ptrs (disks - 2) k ltac:(lia)) as Hlc.
  destruct (array_disk Ha z Hz) as (b & Hb & _). unfold disk_byte. rewrite Hb. simp_default.
  destruct Hc as [_ _ Hp Hq]. destruct (decide (z < disks - 2)%nat).
  - rewrite codeword_data, (column_lookup _ _ _ _ _ b) by (done || lia).
    by rewrite (computes_pq_data z).
  - destruct (decide (z = disks - 2)%nat) as [->|].
    + pose proof (codeword_p (column m ptrs (disks - 2) k)) as E. rewrite Hlc in E.
      by rewrite E, (Hp b k).
    + assert (z = disks - 1)%nat as -> by lia.
      pose proof (codeword_q (column m ptrs (disks - 2) k)) as E. rewrite Hlc in E.
      replace (S (disks - 2)) with (disks - 1)%nat in E by lia. by rewrite E, (Hq b k).
Qed.
End recover.

Lemma computes_pq_recover m1 m1' m2 m2' ptrs disks len i j z k :
  (3 ≤ disks ≤ 257)%nat → array_ok m1 ptrs disks len → array_ok m2 ptrs disks len →
  computes_pq m1 ptrs disks len m1' → computes_pq m2 ptrs disks len m2' →
  (z < disks)%nat → Z.of_nat k < len →
  (∀ y, y ≠ i → y ≠ j → (y < disks)%nat → disk_byte m1' ptrs y k = disk_byte m2' ptrs y k) →
  disk_byte m1' ptrs z k = disk_byte m2' ptrs z k.
Proof.
  intros Hd Ha1 Ha2 Hc1 Hc2 Hz Hk H.
  pose proof (array_length Ha1) as Hl.
  assert (∀ m, length (column m ptrs (disks - 2) k) = disks - 2)%nat as Hlc
    by (intros; apply length_column; lia).
  rewrite <-(computes_pq_codeword m1 m1' ptrs disks len) by (done || lia).
  rewrite <-(computes_pq_codeword m2 m2' ptrs disks len) by (done || lia).
  rewrite (raid6_distance (column m1 ptrs (disks - 2) k) (column m2 ptrs (disks - 2) k) i j);
    rewrite ?Hlc; [done|done|lia|..].
  1,2: eapply Forall_byte_column, array_ok_mono; [..|done]; [lia|done].
  intros y Hi Hj. destruct (decide (y < disks)%nat).
  - rewrite (computes_pq_codeword m1 m1' ptrs disks len), (computes_pq_codeword m2 m2' ptrs disks len)
      by (done || lia). by apply H.
  - rewrite !lookup_ge_None_2; [done|..]; rewrite length_codeword, Hlc; lia.
Qed.

(** The contract determines the resulting memory. *)
Lemma writes_pq_unique m m1 m2 ptrs disks len :
  (3 ≤ disks)%nat → array_ok m ptrs disks len →
  writes_pq m ptrs disks len m1 → writes_pq m ptrs disks len m2 → m1 = m2.
Proof.
  intros Hd Ha [[Hf1 Hl1 Hp1 Hq1] Hr1 Ho1] [[Hf2 Hl2 Hp2 Hq2] Hr2 Ho2].
  destruct (check_disks _ _ _ _ Hd Ha) as (p & q & Hp & Hq & _ & Hpo & Hqo).
  assert (∀ b, buf_ok m len b → (∀ k, peek m1 b k = peek m2 b k) → m1 !! b = m2 !! b) as Heq.
  { intros b Hb Hk. specialize (Hl1 b). specialize (Hl2 b).
    apply Ho1 in Hb as Hb1. apply Ho2, buf_ok_Some in Hb as (c2 & E2 & _).
    apply buf_ok_Some in Hb1 as (c1 & E1 & _).
    rewrite (buf_len_Some _ _ _ E1) in Hl1. rewrite (buf_len_Some _ _ _ E2) in Hl2.
    rewrite E1, E2. f_equal. apply (list_eq_default 0); [lia|]. intros i _.
    specialize (Hk i). unfold peek in Hk. rewrite E1, E2 in Hk. done. }
  apply map_eq. intros b.
  destruct (decide (b = p)) as [->|Hbp]; [|destruct (decide (b = q)) as [->|Hbq]].
  - apply Heq; [done|]. intros k. destruct (decide (Z.of_nat k < len)) as [Hk|Hk].
    + by rewrite (Hp1 p k Hp Hk), (Hp2 p k Hp Hk).
    + rewrite Hr1, Hr2 by lia. done.
  - apply Heq; [done|]. intros k. destruct (decide (Z.of_nat k < len)) as [Hk|Hk].
    + by rewrite (Hq1 q k Hq Hk), (Hq2 q k Hq Hk).
    + rewrite Hr1, Hr2 by lia. done.
  - rewrite Hf1, Hf2; congruence.
Qed.

(** ** A sample array: three data disks and two check disks of 16 bytes *)
Definition sample_mem : mem := list_to_map
  [(1%positive, seqZ 0 16); (2%positive, seqZ 100 16); (3%positive, seqZ 240 16);
   (4%positive, replicate 16 0); (5%positive, replicate 16 0)].
Definition sample_ptrs : list loc := [1; 2; 3; 4; 5]%positive.

(** Settle a decidable hypothesis at a concrete input. *)
Ltac by_decide := apply (bool_decide_unpack _); vm_compute; exact I.

(** ** The interface

    What the rest of the system may assume of a registered implementation: on
    distinct live buffers of [pad bytes] bytes it terminates and leaves P and
    Q.  [pad] is the implementation's own padding requirement. *)
Class PqGenerator (gen : syndrome_func) (pad : Z → Z) := {
  pad_ge : ∀ bytes, 0 ≤ bytes → bytes + 7 ≤ INT_MAX → bytes ≤ pad bytes;
  pq_run : ∀ m ptrs disks bytes,
    (3 ≤ disks)%nat → Z.of_nat disks ≤ INT_MAX → 0 ≤ bytes → bytes + 7 ≤ INT_MAX →
    array_ok m ptrs disks (pad bytes) →
    ∃ m', gen (Z.of_nat disks) bytes ptrs m = Ok m' ∧ writes_pq m ptrs disks (pad bytes) m'
}.
