(* ===== verification/Cstring.v ===== *)
(** * C strings

    The C library and kernel functions on strings that the sources use, on
    Rocq strings: a C string is what precedes the first NUL. *)
From S2P Require Import Prelude.
From Stdlib Require Export Ascii.
From stdpp Require Export pretty.
Local Open Scope Z_scope.

Definition NUL : ascii := Ascii.zero.
Definition digit (c : ascii) : option Z :=
  let k := Z.of_N (N_of_ascii c) - 48 in
  if (0 <=? k) && (k <=? 9) then Some k else None.

(** The characters up to the first NUL. *)
Fixpoint c_str (s : string) : string :=
  match s with
  | EmptyString => EmptyString
  | String c s => if decide (c = NUL) then EmptyString else String c (c_str s)
  end.

(** [strcmp(a, b) == 0] *)
Definition strcmp_eq (a b : string) : bool := bool_decide (c_str a = c_str b).

(** [strsep(&s, "=")]: the token and what [s] points to afterwards. *)
Fixpoint strsep (d : ascii) (s : string) : string * option string :=
  match s with
  | EmptyString => (EmptyString, None)
  | String c s =>
      if decide (c = d) then (EmptyString, Some s)
      else let '(t, r) := strsep d s in (String c t, r)
  end.

(** [strtok]: skip separators, then a token up to the next separator; [None]
    when no token is left. *)
Fixpoint skip (d : ascii) (s : string) : string :=
  match s with
  | EmptyString => EmptyString
  | String c s' => if decide (c = d) then skip d s' else s
  end.
Definition strtok (d : ascii) (s : string) : option (string * string) :=
  match skip d s with
  | EmptyString => None
  | s => let '(t, r) := strsep d s in Some (t, default EmptyString r)
  end.

(** Decimal digits, read left to right. *)
Fixpoint digits_from (acc : Z) (s : string) : Z :=
  match s with
  | EmptyString => acc
  | String c s => match digit c with
                  | Some k => digits_from (10 * acc + k) s
                  | None => acc
                  end
  end.

(** [simple_strtoul(s, _, 10)]: wraps modulo the width of [unsigned long]. *)
Definition simple_strtoul (s : string) : Z := digits_from 0 (c_str s) mod 2 ^ 64.

(** [atoi]: the sources only hand it a string of digits or a newline. *)
Definition atoi (s : string) : Z := to_int (digits_from 0 (c_str s)).

(** [sprintf(buf, "%d", n)] *)
Abbreviation decimal := (pretty (A := Z)).

(** ** Lemmas *)
Fixpoint str_all (P : ascii → Prop) (s : string) : Prop :=
  match s with EmptyString => True | String c s => P c ∧ str_all P s end.

Lemma str_all_impl (P Q : ascii → Prop) s : (∀ c, P c → Q c) → str_all P s → str_all Q s.
Proof. intros HPQ. induction s as [|c s IH]; cbn; [done|]. intros [? ?]. auto. Qed.

Lemma str_all_app P s t : str_all P (s +:+ t) ↔ str_all P s ∧ str_all P t.
Proof.
  induction s as [|c s IH]; [cbn; tauto|].
  change (String c s +:+ t) with (String c (s +:+ t)). cbn [str_all]. rewrite IH. tauto.
Qed.

Lemma c_str_id s : str_all (λ c, c ≠ NUL) s → c_str s = s.
Proof.
  induction s as [|c s IH]; cbn [str_all c_str]; [done|]. intros [Hc Hs].
  rewrite decide_False by done. f_equal. auto.
Qed.

Lemma strsep_app d s t : str_all (λ c, c ≠ d) s → strsep d (s +:+ String d t) = (s, Some t).
Proof.
  induction s as [|c s IH]; cbn [str_all]; intros Hs.
  - change (EmptyString +:+ String d t) with (String d t). cbn [strsep]. by rewrite decide_True.
  - destruct Hs as [Hc Hs]. change (String c s +:+ String d t) with (String c (s +:+ String d t)).
    cbn [strsep]. by rewrite decide_False, IH.
Qed.

Lemma digit_pretty x : (x < 10)%N → digit (pretty_N_char x) = Some (Z.of_N x).
Proof.
  intros Hx. assert (x = 0 ∨ x = 1 ∨ x = 2 ∨ x = 3 ∨ x = 4 ∨ x = 5 ∨ x = 6 ∨ x = 7 ∨ x = 8 ∨ x = 9)%N
    as Hc by lia. by destruct_or! Hc; subst.
Qed.

Lemma digits_from_pretty x s : digits_from 0 (pretty_N_go x s) = digits_from (Z.of_N x) s.
Proof.
  revert s. induction (N.lt_wf_0 x) as [x _ IH]; intros s.
  destruct (decide (x = 0%N)) as [->|Hx]; [by rewrite pretty_N_go_0|].
  rewrite pretty_N_go_step by lia. rewrite IH by (apply N.div_lt; lia).
  cbn [digits_from]. rewrite digit_pretty by (apply N.mod_lt; lia). f_equal.
  pose proof (N.div_mod x 10). lia.
Qed.

(** Reading back a printed number. *)
Lemma digits_from_decimal n : 0 ≤ n → digits_from 0 (decimal n) = n.
Proof.
  intros Hn. destruct n as [|x|x]; [done| |lia].
  unfold pretty, pretty_Z, pretty, pretty_positive, pretty, pretty_N.
  rewrite decide_False by done. by rewrite digits_from_pretty.
Qed.

Lemma str_all_pretty P x s : (∀ y, (y < 10)%N → P (pretty_N_char y)) →
  str_all P s → str_all P (pretty_N_go x s).
Proof.
  intros HP. revert s. induction (N.lt_wf_0 x) as [x _ IH]; intros s Hs.
  destruct (decide (x = 0%N)) as [->|Hx]; [by rewrite pretty_N_go_0|].
  rewrite pretty_N_go_step by lia. apply IH; [apply N.div_lt; lia|].
  split; [apply HP, N.mod_lt; lia|done].
Qed.

(** A printed number consists of digits. *)
Lemma str_all_decimal P n : 0 ≤ n → (∀ y, (y < 10)%N → P (pretty_N_char y)) → str_all P (decimal n).
Proof.
  intros Hn HP. destruct n as [|x|x]; [|..|lia].
  - split; [by apply (HP 0%N)|done].
  - unfold pretty, pretty_Z, pretty, pretty_positive, pretty, pretty_N.
    rewrite decide_False by done. by apply str_all_pretty.
Qed.

Lemma pretty_char_ne c y : (y < 10)%N → digit c = None → pretty_N_char y ≠ c.
Proof. intros Hy Hc <-. by rewrite digit_pretty in Hc. Qed.

Lemma length_pretty_go k x s : (x < 10 ^ N.of_nat k)%N →
  (String.length (pretty_N_go x s) ≤ k + String.length s)%nat.
Proof.
  revert x s. induction k as [|k IH]; intros x s Hx.
  - change (10 ^ N.of_nat 0)%N with 1%N in Hx. replace x with 0%N by lia. rewrite pretty_N_go_0. lia.
  - destruct (decide (x = 0%N)) as [->|Hx0]; [rewrite pretty_N_go_0; lia|].
    rewrite pretty_N_go_step by lia.
    specialize (IH (x `div` 10)%N (String (pretty_N_char (x `mod` 10)) s)).
    cbn [String.length] in IH.
    assert (x `div` 10 < 10 ^ N.of_nat k)%N as Hd.
    { apply N.Div0.div_lt_upper_bound. replace (N.of_nat (S k)) with (N.succ (N.of_nat k)) in Hx by lia.
      by rewrite N.pow_succ_r' in Hx. }
    specialize (IH Hd). lia.
Qed.

Lemma length_decimal n : 0 ≤ n < 10 ^ 10 → (String.length (decimal n) ≤ 10)%nat.
Proof.
  intros Hn. destruct n as [|x|x]; [cbn; lia| |lia].
  unfold pretty, pretty_Z, pretty, pretty_positive, pretty, pretty_N.
  rewrite decide_False by done. pose proof (length_pretty_go 10 (N.pos x) EmptyString) as H.
  cbn [String.length] in H. rewrite Nat.add_0_r in H. apply H.
  change (10 ^ N.of_nat 10)%N with 10000000000%N. lia.
Qed.

(** A token that is the whole string. *)
Lemma strsep_none d s : str_all (λ c, c ≠ d) s → strsep d s = (s, None).
Proof.
  induction s as [|c s IH]; cbn [str_all strsep]; [done|]. intros [Hc Hs].
  by rewrite decide_False, IH.
Qed.

Lemma strtok_whole d s : str_all (λ c, c ≠ d) s → s ≠ EmptyString → strtok d s = Some (s, EmptyString).
Proof.
  intros Hs Hne. unfold strtok. assert (skip d s = s) as ->.
  { destruct s as [|c s]; [done|]. destruct Hs as [Hc _]. cbn. by rewrite decide_False. }
  destruct s as [|c s]; [done|]. by rewrite strsep_none.
Qed.

(** Reading stops at the first character that is no digit. *)
Lemma digits_from_app acc s c t : digit c = None → digits_from acc (s +:+ String c t) = digits_from acc s.
Proof.
  intros Hc. revert acc. induction s as [|x s IH]; intros acc.
  - change (EmptyString +:+ String c t) with (String c t). cbn. by rewrite Hc.
  - change (String x s +:+ String c t) with (String x (s +:+ String c t)). cbn.
    destruct (digit x); [apply IH|done].
Qed.
