(* ===== verification/Service.v ===== *)
(** * barracuda_deamon/service.cu: test buffers and the number of CPUs *)
From S2P Require Import Prelude GF256 Word Memory Syndrome Cstring.
Local Open Scope Z_scope.

(** ** Test arrays *)
Section service.
Context (junk : loc → nat → Z).

(** [allocate_host_example_dpointer]: the pointer array and the memory with
    the [number_of_disks] blocks of [bytes] bytes. *)
Fixpoint alloc_disks (bytes : Z) (n : nat) (m : mem) : list loc * mem :=
  match n with
  | O => ([], m)
  | S n =>
      let '(b, m) := malloc junk m bytes in
      let '(dptrs, m) := alloc_disks bytes n m in
      (b :: dptrs, m)
  end.
Definition allocate_host_example_dpointer (bytes number_of_disks : Z) (m : mem) : list loc * mem :=
  alloc_disks bytes (Z.to_nat number_of_disks) m.

(** [deallocate_host_example_dpointer] *)
Definition deallocate_host_example_dpointer (number_of_disks : Z) (dptrs : list loc) (m : mem) : result mem :=
  for_lt 0 number_of_disks 1 (λ i m, b ← nth_ptr dptrs i; free m b) m.

Lemma malloc_bytes m n : Forall is_byte ((λ k, to_u8 (junk (fresh_loc m) k)) <$> seq 0 n).
Proof using Type. apply Forall_byte_fmap. auto with bcu. Qed.

(** What allocation gives: new, distinct, live buffers, and nothing else. *)
Lemma alloc_disks_spec bytes n m dptrs m' : 0 ≤ bytes → alloc_disks bytes n m = (dptrs, m') →
  length dptrs = n ∧ NoDup dptrs ∧ Forall (λ b, m !! b = None) dptrs ∧
  Forall (λ b, buf_ok m' bytes b ∧ buf_len m' b = bytes) dptrs ∧
  (∀ b, b ∉ dptrs → m' !! b = m !! b).
Proof using Type.
  intros Hb. revert m dptrs m'. induction n as [|n IH]; intros m dptrs m' E; cbn in E.
  { injection E as <- <-. split_and!; try done; constructor. }
  set (m1 := <[fresh_loc m:=(λ k, to_u8 (junk (fresh_loc m) k)) <$> seq 0 (Z.to_nat bytes)]> m) in *.
  destruct (alloc_disks bytes n m1) as [d m2] eqn:E1. injection E as <- <-.
  destruct (IH m1 d m2 E1) as (Hl & Hnd & Hnone & Hok & Hf). pose proof (fresh_loc_fresh m) as Hfr.
  assert (fresh_loc m ∉ d) as Hni.
  { intros Hin. rewrite Forall_forall in Hnone. specialize (Hnone _ Hin).
    unfold m1 in Hnone. by rewrite lookup_insert_eq in Hnone. }
  split_and!.
  - cbn. by rewrite Hl.
  - by constructor.
  - constructor; [done|]. rewrite Forall_forall in Hnone |- *. intros b Hin.
    specialize (Hnone b Hin). unfold m1 in Hnone.
    destruct (decide (b = fresh_loc m)) as [->|]; [done|]. by rewrite lookup_insert_ne in Hnone.
  - constructor; [|done]. rewrite buf_ok_Some. unfold buf_len. rewrite (Hf _ Hni).
    unfold m1. rewrite !lookup_insert_eq. split.
    + eexists. split; [done|]. rewrite length_fmap, length_seq. split; [lia|apply malloc_bytes].
    + simp_default. rewrite length_fmap, length_seq. lia.
  - intros b Hnin. rewrite not_elem_of_cons in Hnin. destruct Hnin as [Hne Hnin].
    rewrite (Hf b Hnin). unfold m1. by rewrite lookup_insert_ne.
Qed.

Lemma alloc_array_ok bytes n m dptrs m' : 0 ≤ bytes → alloc_disks bytes n m = (dptrs, m') →
  array_ok m' dptrs n bytes.
Proof using Type.
  intros Hb E. destruct (alloc_disks_spec _ _ _ _ _ Hb E) as (Hl & Hnd & _ & Hok & _).
  unfold array_ok. rewrite take_ge by lia. split_and!; [done..|].
  eapply Forall_impl; [done|]. by intros ? [? _].
Qed.

(** Freeing live, distinct buffers removes exactly them. *)
Lemma dealloc_spec dptrs m : Z.of_nat (length dptrs) ≤ INT_MAX → NoDup dptrs →
  Forall (λ b, is_Some (m !! b)) dptrs →
  ∃ m', deallocate_host_example_dpointer (Z.of_nat (length dptrs)) dptrs m = Ok m' ∧
    (∀ b, b ∈ dptrs → m' !! b = None) ∧ (∀ b, b ∉ dptrs → m' !! b = m !! b).
Proof using Type.
  intros Hl Hnd Hlive. rewrite Forall_forall in Hlive.
  destruct (for_lt_inv (λ i m', 0 ≤ i ∧ (∀ b, b ∈ take (Z.to_nat i) dptrs → m' !! b = None) ∧
      (∀ b, b ∉ take (Z.to_nat i) dptrs → m' !! b = m !! b))
    (λ i m, b ← nth_ptr dptrs i; free m b) 0 (Z.of_nat (length dptrs)) 1) with (s := m)
    as (m' & E & _ & Hin & Hout).
  - lia.
  - done.
  - lia.
  - intros i m1 Hi _ (H0 & Hin & Hout).
    destruct (lookup_lt_is_Some_2 dptrs (Z.to_nat i) ltac:(lia)) as [b Hb].
    run (nth_ptr_nat dptrs i (Z.to_nat i) b) by (done || lia). unfold free.
    assert (b ∉ take (Z.to_nat i) dptrs) as Hb'.
    { intros (j & Hj & Hlt)%elem_of_take. pose proof (NoDup_lookup _ _ _ _ Hnd Hb Hj). lia. }
    rewrite (Hout b Hb'). destruct (Hlive b) as [x ->]; [by eapply list_elem_of_lookup_2|].
    eexists. split; [done|]. replace (Z.to_nat (i + 1)) with (S (Z.to_nat i)) by lia.
    rewrite (take_S_r _ _ _ Hb). split_and!; [lia|..].
    + intros b1 [Hb1|Hb1]%elem_of_app; [|apply list_elem_of_singleton in Hb1 as ->; apply lookup_delete_eq].
      rewrite lookup_delete_ne by congruence. by apply Hin.
    + intros b1 Hb1. rewrite not_elem_of_app, list_elem_of_singleton in Hb1. destruct Hb1 as [Hb1 Hne].
      rewrite lookup_delete_ne by congruence. by apply Hout.
  - split_and!; [lia| |done]. intros b Hb. by apply elem_of_nil in Hb.
  - rewrite (loop_end_unique _ _ _ (Z.of_nat (length dptrs)) (Z.of_nat (length dptrs))) in Hin, Hout by lia.
    rewrite Nat2Z.id, firstn_all in Hin, Hout. by exists m'.
Qed.

(** ... so freeing what was allocated leaves the memory outside as it is. *)
Lemma dealloc_alloc bytes n m dptrs m1 m2 : 0 ≤ bytes → Z.of_nat n ≤ INT_MAX →
  alloc_disks bytes n m = (dptrs, m1) → (∀ b, is_Some (m1 !! b) → is_Some (m2 !! b)) →
  ∃ m3, deallocate_host_example_dpointer (Z.of_nat n) dptrs m2 = Ok m3 ∧
    (∀ b, b ∈ dptrs → m3 !! b = None) ∧ (∀ b, b ∉ dptrs → m3 !! b = m2 !! b).
Proof using Type.
  intros Hb Hn E Hlive. destruct (alloc_disks_spec _ _ _ _ _ Hb E) as (<- & Hnd & _ & Hok & _).
  apply dealloc_spec; [done..|]. eapply Forall_impl; [exact Hok|]. cbn. intros b [Hbo _].
  apply Hlive. apply buf_ok_Some in Hbo as (c & -> & _). done.
Qed.

(** Allocating a test array gives distinct, live buffers of the
    size that were not in use, and deallocating it gives the memory back as it
    was: the pair neither leaks nor frees anything else. *)
Theorem test_array_roundtrip bytes n m : 0 ≤ bytes → Z.of_nat n ≤ INT_MAX →
  ∃ dptrs m', allocate_host_example_dpointer bytes (Z.of_nat n) m = (dptrs, m') ∧
    array_ok m' dptrs n bytes ∧ length dptrs = n ∧ Forall (λ b, m !! b = None) dptrs ∧
    deallocate_host_example_dpointer (Z.of_nat n) dptrs m' = Ok m.
Proof using Type.
  intros Hb Hn. unfold allocate_host_example_dpointer. rewrite Nat2Z.id.
  destruct (alloc_disks bytes n m) as [dptrs m1] eqn:E. exists dptrs, m1.
  destruct (alloc_disks_spec _ _ _ _ _ Hb E) as (Hl & _ & Hnone & _ & Hf).
  split_and!; [done|by eapply alloc_array_ok|done..|].
  destruct (dealloc_alloc _ _ _ _ _ m1 Hb Hn E ltac:(done)) as (m3 & -> & Hin & Hout). f_equal.
  apply map_eq. intros b. destruct (decide (b ∈ dptrs)) as [Hbd|Hbd].
  - rewrite Hin by done. rewrite Forall_forall in Hnone. symmetry. by apply Hnone.
  - by rewrite Hout, Hf by done.
Qed.
End service.

(** ** Printing an array *)
(** [print_dpointer]: the pairs it prints.  [disks] counts the data disks. *)
Definition print_dpointer (disks bytes : Z) (ptrs : list loc) (m : mem) : result (list (Z * Z)) :=
  xor_d ← nth_ptr ptrs disks;
  disks1 ← int_add disks 1;
  syn_d ← nth_ptr ptrs disks1;
  for_lt 0 bytes 1 (λ i out, x ← load_u8 m xor_d i; s ← load_u8 m syn_d i; Ok (out ++ [(x, s)])) [].

(** With the number of data disks it prints P and Q, byte by byte; with the
    number of all disks, as the call for DEBUG_LEVEL_2 has it, it follows a
    pointer behind the array. *)
Theorem print_dpointer_shows m ptrs n bytes p q : (2 ≤ n)%nat → Z.of_nat n ≤ INT_MAX → length ptrs = n →
  0 ≤ bytes ≤ INT_MAX → ptrs !! (n - 2)%nat = Some p → ptrs !! (n - 1)%nat = Some q →
  buf_ok m bytes p → buf_ok m bytes q →
  print_dpointer (Z.of_nat n - 2) bytes ptrs m = Ok ((λ i, (peek m p i, peek m q i)) <$> seq 0 (Z.to_nat bytes)) ∧
  print_dpointer (Z.of_nat n) bytes ptrs m = Err OutOfBounds.
Proof.
  intros Hn Hmax Hl Hb Hp Hq Hpo Hqo. unfold print_dpointer. split.
  - run (nth_ptr_nat ptrs (Z.of_nat n - 2) (n - 2) p) by (done || lia).
    run int_add_ok by (unfold INT_MIN, INT_MAX in *; lia).
    run (nth_ptr_nat ptrs (Z.of_nat n - 2 + 1) (n - 1) q) by (done || lia).
    destruct (for_lt_inv (λ i out, 0 ≤ i ∧ out = (λ i, (peek m p i, peek m q i)) <$> seq 0 (Z.to_nat i))
      (λ i out, x ← load_u8 m p i; s ← load_u8 m q i; Ok (out ++ [(x, s)])) 0 bytes 1) with (s := @nil (Z * Z))
      as (out & -> & _ & ->); [lia|done|lia| |done|].
    + intros i out Hi _ [Hi0 ->]. run (load_u8_ok m p i bytes) by (done || lia). run (load_u8_ok m q i bytes) by (done || lia).
      eexists. split; [done|]. split; [lia|]. replace (Z.to_nat (i + 1)) with (S (Z.to_nat i)) by lia. by rewrite seq_S, fmap_app.
    + by rewrite (loop_end_unique _ _ _ bytes bytes) by lia.
  - assert (nth_ptr ptrs (Z.of_nat n) = Err OutOfBounds) as ->; [|done]. unfold nth_ptr.
    destruct (Z.leb_spec 0 (Z.of_nat n)); [by rewrite Nat2Z.id, lookup_ge_None_2 by lia|done].
Qed.

(** ** The clocks *)
(** The two clocks as exact fractions of a second: gettimeofday gives seconds
    and microseconds, clock() a count.  A pair is numerator and denominator. *)
Definition gtd_second (t : Z * Z) : Z * Z := (t.1 * 1000000 + t.2, 1000000).
Definition second (CLOCKS_PER_SEC Time : Z) : Z * Z := (Time, CLOCKS_PER_SEC).

(** ** The number of CPUs *)
(** [fgets(buffer, 256, f)] on a file with the contents [s]. *)
Fixpoint fgets (n : nat) (s : string) : string :=
  match n, s with
  | S n, String c s => String c (if decide (c = "010"%char) then EmptyString else fgets n s)
  | _, _ => EmptyString
  end.

(** [set_internal_vars]: [online] is /sys/devices/system/cpu/online, [None]
    when it cannot be opened; the result is NUMBER_OF_CPUS_INSTALLED. *)
Definition set_internal_vars (online : option string) : result Z :=
  match online with
  | None => Ok 1
  | Some contents =>
      let buffer := fgets 255 contents in
      '(_, rest) ← of_option NullDeref (strtok "-"%char buffer);
      '(n_buffer, _) ← of_option NullDeref (strtok "-"%char rest);
      int_add (atoi n_buffer) 1
  end.

(** [get_number_of_phys_cpus] *)
Definition get_number_of_phys_cpus (NUMBER_OF_CPUS_INSTALLED : Z) : Z := NUMBER_OF_CPUS_INSTALLED.

(** The contents of the file for the CPUs 0 to [last]. *)
Definition online_file (last : Z) : string := "0-" +:+ decimal last +:+ String "010"%char EmptyString.

Lemma fgets_line n s : str_all (λ c, c ≠ "010"%char) s → (String.length s < n)%nat →
  fgets n (s +:+ String "010"%char EmptyString) = s +:+ String "010"%char EmptyString.
Proof.
  revert n. induction s as [|c s IH]; intros [|n] Hs Hn; cbn in Hn; try lia.
  - done.
  - destruct Hs as [Hc Hs]. change (String c s +:+ ?t) with (String c (s +:+ t)). cbn [fgets].
    rewrite decide_False by done. f_equal. apply IH; [done|lia].
Qed.

(** The number of CPUs is one more than the number after the first dash
    of the sysfs file; without the file it is one; a machine with one CPU has no
    dash in the file, and atoi gets a null pointer. *)
Theorem cpu_count :
  (∀ last, 0 ≤ last < INT_MAX → set_internal_vars (Some (online_file last)) = Ok (last + 1)) ∧
  set_internal_vars None = Ok 1 ∧
  set_internal_vars (Some (String "0"%char (String "010"%char EmptyString))) = Err NullDeref.
Proof.
  split; [|split; reflexivity]. unfold INT_MAX. intros last Hl.
  assert (Hdec : ∀ c, digit c = None → str_all (λ x, x ≠ c) (decimal last)).
  { intros c Hc. apply str_all_decimal; [lia|]. intros y Hy. by apply pretty_char_ne. }
  pose proof (length_decimal last ltac:(lia)) as Hlen.
  assert (fgets 255 (online_file last) = online_file last) as E.
  { change (online_file last) with (("0-" +:+ decimal last) +:+ String "010"%char EmptyString).
    apply fgets_line.
    - split; [done|]. split; [done|]. by apply Hdec.
    - change (String.length ("0-" +:+ decimal last)) with (2 + String.length (decimal last))%nat. lia. }
  unfold set_internal_vars. rewrite E. unfold online_file.
  set (t := decimal last +:+ String "010"%char EmptyString).
  assert (strtok "-"%char ("0-" +:+ t) = Some ("0"%string, t)) as -> by done. cbn [of_option]. bind_step.
  assert (strtok "-"%char t = Some (t, EmptyString)) as ->.
  { apply strtok_whole; [|by destruct (decimal last)]. unfold t. rewrite str_all_app.
    split; [by apply Hdec|by split]. }
  cbn [of_option]. bind_step. unfold atoi, t. rewrite c_str_id.
  - rewrite digits_from_app by done. rewrite digits_from_decimal, to_int_small by (unfold INT_MIN, INT_MAX; lia).
    apply int_add_ok. unfold INT_MIN, INT_MAX. lia.
  - rewrite str_all_app. split; [by apply Hdec|by split].
Qed.

Lemma test_array_roundtrip_witness :
  ∃ dptrs m', allocate_host_example_dpointer (λ _ k, Z.of_nat k) 16 5 sample_mem = (dptrs, m') ∧
    array_ok m' dptrs 5 16 ∧ length dptrs = 5%nat ∧ Forall (λ b, sample_mem !! b = None) dptrs ∧
    deallocate_host_example_dpointer 5 dptrs m' = Ok sample_mem.
Proof. apply (test_array_roundtrip (λ _ k, Z.of_nat k) 16 5 sample_mem); by_decide. Defined.

Lemma print_dpointer_shows_witness :
  print_dpointer 3 16 sample_ptrs sample_mem = Ok ((λ i, (peek sample_mem 4 i, peek sample_mem 5 i)) <$> seq 0 16) ∧
  print_dpointer 5 16 sample_ptrs sample_mem = Err OutOfBounds.
Proof. apply (print_dpointer_shows sample_mem sample_ptrs 5 16 4%positive 5%positive); [lia|by_decide|done|by_decide|done|done|by_decide..]. Defined.
