(* ===== verification/Vanilla.v ===== *)
(** * barracuda_deamon/vanilla/raid6vanilla.cu

    The sequential implementation: for every word of the stripe, P and Q of
    that word, from the highest data disk down to disk 0. *)
From S2P Require Import Prelude GF256 Word Memory Syndrome.
Local Open Scope Z_scope.

Section vanilla.
  Context `{N : Native}.

Definition SHLBYTE (v : Z) : Z :=
  let vv := Z.land (wshl v 1) (NBYTES 0xfe) in
  vv.

Definition MASK (v : Z) : Z :=
  let vv := Z.land v (NBYTES 0x80) in
  let vv := wsub (wshl vv 1) (Z.shiftr vv 7) in
  vv.

(** [(wp0, wq0)] after the inner loop's body for the word [wd0]. *)
Definition vanilla_update (wd0 : Z) (acc : Z * Z) : Z * Z :=
  let '(wp0, wq0) := acc in
  let wp0 := Z.lxor wp0 wd0 in
  let w20 := MASK wq0 in
  let w10 := SHLBYTE wq0 in
  let w20 := Z.land w20 (NBYTES 0x1d) in
  let w10 := Z.lxor w10 w20 in
  let wq0 := Z.lxor w10 wd0 in
  (wp0, wq0).

(** One iteration of the outer loop. *)
Definition vanilla_word (z0 : Z) (ptrs : list loc) (p q : loc) (d : Z) (m : mem) : result mem :=
  b ← nth_ptr ptrs z0;
  w ← load_word m b d;
  '(wp0, wq0) ← for_down (Z.to_nat z0) (λ z acc,
    b ← nth_ptr ptrs z;
    wd0 ← load_word m b d;
    Ok (vanilla_update wd0 acc)) (w, w);
  m ← store_word m p d wp0;
  store_word m q d wq0.

Definition raid6_vanilla_gen_syndrome : syndrome_func := λ disks bytes ptrs m,
  z0 ← int_add disks (-3);
  p ← nth_ptr ptrs (z0 + 1);
  q ← nth_ptr ptrs (z0 + 2);
  for_lt 0 bytes (Z.of_nat NSIZE) (vanilla_word z0 ptrs p q) m.

Lemma vanilla_word_ok m ptrs disks len d m1 p q :
  (3 ≤ disks)%nat → array_ok m ptrs disks len →
  ptrs !! (disks - 2)%nat = Some p → ptrs !! (disks - 1)%nat = Some q →
  0 ≤ d → d + Z.of_nat NSIZE ≤ len → writes_pq m ptrs disks d m1 →
  ∃ m2, vanilla_word (Z.of_nat (disks - 3)) ptrs p q d m1 = Ok m2 ∧
    writes_pq m ptrs disks (d + Z.of_nat NSIZE) m2.
Proof.
  intros Hd Ha Hp Hq H0 Hlen Hw.
  destruct (data_loop_ok m1 ptrs disks len Hd (array_ok_writes _ _ _ _ _ _ _ _ Hw Ha) d H0 Hlen
    vanilla_update) as (b & Hb & Eb & Eloop).
  { apply (update_ok SHLBYTE MASK); reflexivity. }
  destruct (p_lanes_writes m ptrs disks d len m1 d NSIZE Hd Ha Hw) as [Ep Eq].
  destruct (word_stores m ptrs disks len d m1 p q) as (m2 & m3 & E2 & E3 & Hw'); [done..|].
  exists m3. split; [|done]. unfold vanilla_word.
  run (nth_ptr_nat ptrs _ (disks - 3) b) by done. run Eb.
  rewrite Nat2Z.id, Eloop, Ep, Eq. bind_step. by run E2.
Qed.

Lemma vanilla_run m ptrs disks bytes :
  (3 ≤ disks)%nat → Z.of_nat disks ≤ INT_MAX → bytes + 7 ≤ INT_MAX →
  array_ok m ptrs disks (loop_end 0 bytes (Z.of_nat NSIZE)) →
  ∃ m', raid6_vanilla_gen_syndrome (Z.of_nat disks) bytes ptrs m = Ok m' ∧
    writes_pq m ptrs disks (loop_end 0 bytes (Z.of_nat NSIZE)) m'.
Proof.
  intros Hd Hmax Hb Ha. unfold raid6_vanilla_gen_syndrome.
  pose proof NSIZE_pos. pose proof NSIZE_cases as HN.
  run int_add_ok by (unfold INT_MIN; lia).
  destruct (check_disks _ _ _ _ Hd Ha) as (p & q & Hp & Hq & _).
  replace (Z.of_nat disks + -3) with (Z.of_nat (disks - 3)) by lia.
  run (nth_ptr_nat ptrs (Z.of_nat (disks - 3) + 1) (disks - 2) p) by (done || lia).
  run (nth_ptr_nat ptrs (Z.of_nat (disks - 3) + 2) (disks - 1) q) by (done || lia).
  apply for_lt_inv; [lia|done|lia| |apply writes_pq_refl].
  intros d m1 Hdr Hend Hw.
  apply (vanilla_word_ok m ptrs disks (loop_end 0 bytes (Z.of_nat NSIZE))); done || lia.
Qed.
(** C9: with at least three disks, live distinct buffers and sizes an [int]
    can count, the vanilla implementation terminates without a fault and
    stores exactly P and Q of every byte column into the last two buffers, up
    to the word boundary at or after [bytes]; no other byte changes. *)
Theorem vanilla_correct m ptrs disks bytes :
  (3 ≤ disks)%nat → Z.of_nat disks ≤ INT_MAX → bytes + 7 ≤ INT_MAX →
  array_ok m ptrs disks (loop_end 0 bytes (Z.of_nat NSIZE)) →
  ∃ m', raid6_vanilla_gen_syndrome (Z.of_nat disks) bytes ptrs m = Ok m' ∧
    writes_pq m ptrs disks (loop_end 0 bytes (Z.of_nat NSIZE)) m'.
Proof. apply vanilla_run. Qed.

(** C10: the contents of any two lost disks are determined by the others: two
    arrays of at most 257 disks that went through the vanilla implementation
    and agree, in a byte column, on all disks but [i] and [j] agree on [i] and
    [j] as well. *)
Theorem vanilla_two_erasures m1 m2 m1' m2' ptrs disks bytes i j z k :
  (3 ≤ disks ≤ 257)%nat → bytes + 7 ≤ INT_MAX → 0 ≤ bytes →
  array_ok m1 ptrs disks (loop_end 0 bytes (Z.of_nat NSIZE)) →
  array_ok m2 ptrs disks (loop_end 0 bytes (Z.of_nat NSIZE)) →
  raid6_vanilla_gen_syndrome (Z.of_nat disks) bytes ptrs m1 = Ok m1' →
  raid6_vanilla_gen_syndrome (Z.of_nat disks) bytes ptrs m2 = Ok m2' →
  (z < disks)%nat → Z.of_nat k < bytes →
  (∀ y, y ≠ i → y ≠ j → (y < disks)%nat → disk_byte m1' ptrs y k = disk_byte m2' ptrs y k) →
  disk_byte m1' ptrs z k = disk_byte m2' ptrs z k.
Proof.
  intros Hd Hb Hb0 Ha1 Ha2 E1 E2 Hz Hk H.
  destruct NSIZE_posZ as [HN _]. pose proof (loop_end_ge 0 bytes _ HN).
  destruct (vanilla_run m1 ptrs disks bytes) as (m & Em & [Hc1 _ _]); [lia|unfold INT_MAX; lia|done..|].
  destruct (vanilla_run m2 ptrs disks bytes) as (m' & Em' & [Hc2 _ _]); [lia|unfold INT_MAX; lia|done..|].
  simplify_ok.
  eapply (computes_pq_recover m1 _ m2 _ ptrs disks _ i j z k Hd Ha1 Ha2 Hc1 Hc2);
    done || lia.
Qed.

Lemma vanilla_word_lengths z0 ptrs p q d m m' : vanilla_word z0 ptrs p q d m = Ok m' →
  0 ≤ d ∧ d + Z.of_nat NSIZE ≤ buf_len m p ∧ d + Z.of_nat NSIZE ≤ buf_len m q ∧
  ∀ b, buf_len m' b = buf_len m b.
Proof.
  unfold vanilla_word. intros H. inv_ok. destruct x1 as [wp0 wq0]. inv_ok.
  apply store_word_Ok in E2 as (? & ? & HE). apply store_word_Ok in H as (? & ? & HE').
  rewrite HE in *. split_and!; [done..|]. intros b. by rewrite HE', HE.
Qed.

(** The check buffers must be padded to whole words: a run that succeeds
    shows that both hold [loop_end 0 bytes NSIZE] bytes, which exceeds [bytes]
    unless [bytes] is a multiple of the word size. *)
Theorem vanilla_padding m m' ptrs disks bytes p q :
  0 < bytes →
  raid6_vanilla_gen_syndrome disks bytes ptrs m = Ok m' →
  nth_ptr ptrs (disks - 2) = Ok p → nth_ptr ptrs (disks - 1) = Ok q →
  loop_end 0 bytes (Z.of_nat NSIZE) ≤ buf_len m p ∧
  loop_end 0 bytes (Z.of_nat NSIZE) ≤ buf_len m q ∧
  (bytes mod Z.of_nat NSIZE ≠ 0 → bytes < loop_end 0 bytes (Z.of_nat NSIZE)).
Proof.
  intros Hb H Hp Hq. destruct NSIZE_posZ as [HN _]. unfold raid6_vanilla_gen_syndrome in H. inv_ok.
  unfold int_add in E. destruct (int_ok _); [|done]. injection E as <-.
  replace (disks + -3 + 1) with (disks - 2) in E0 by lia.
  replace (disks + -3 + 2) with (disks - 1) in E1 by lia. simplify_ok.
  apply (for_lt_last (λ m1, ∀ b, buf_len m1 b = buf_len m b)) in H
    as (_ & m1 & m2 & Hm1 & Hlast%vanilla_word_lengths); [|lia..| |done].
  - rewrite !Hm1 in Hlast. destruct Hlast as (? & ? & ? & _). split_and!; [lia..|].
    intros Hmod. pose proof (loop_end_ge 0 bytes _ HN).
    destruct (loop_end_mult 0 bytes _ HN) as (k & _ & Hk).
    destruct (decide (bytes = loop_end 0 bytes (Z.of_nat NSIZE))) as [E|]; [|lia].
    exfalso. apply Hmod. rewrite E, Hk, Z.add_0_l, Z.mul_comm. apply Z.mod_mul. lia.
  - intros i s s' (_ & _ & _ & HE)%vanilla_word_lengths Hs b. by rewrite HE.
Qed.

#[global] Instance vanilla_pq :
  PqGenerator raid6_vanilla_gen_syndrome (λ bytes, loop_end 0 bytes (Z.of_nat NSIZE)).
Proof.
  destruct NSIZE_posZ. split; [intros; by apply loop_end_ge|]. intros. by apply vanilla_run.
Qed.
End vanilla.

(** ** Witnesses *)
Lemma vanilla_correct_witness : array_ok sample_mem sample_ptrs 5 16 ∧
  ∃ m', raid6_vanilla_gen_syndrome (N := native64) 5 16 sample_ptrs sample_mem = Ok m' ∧
    writes_pq sample_mem sample_ptrs 5 16 m'.
Proof.
  split; [by_decide|].
  apply (vanilla_correct (N := native64) sample_mem sample_ptrs 5 16); [lia|done|done|by_decide].
Defined.

Definition sample_out : mem :=
  match raid6_vanilla_gen_syndrome (N := native64) 5 16 sample_ptrs sample_mem with
  | Ok m => m | Err _ => ∅ end.

Lemma vanilla_two_erasures_witness :
  raid6_vanilla_gen_syndrome (N := native64) 5 16 sample_ptrs sample_mem = Ok sample_out ∧
  disk_byte sample_out sample_ptrs 1 3 = disk_byte sample_out sample_ptrs 1 3.
Proof.
  split; [vm_compute; reflexivity|].
  apply (vanilla_two_erasures (N := native64) sample_mem sample_mem sample_out sample_out
    sample_ptrs 5 16 1 3); try lia; try done; try by_decide; vm_compute; reflexivity.
Defined.

Lemma vanilla_padding_witness : loop_end 0 13 8 ≤ buf_len sample_mem 4 ∧
  loop_end 0 13 8 ≤ buf_len sample_mem 5 ∧ (13 mod 8 ≠ 0 → 13 < loop_end 0 13 8).
Proof.
  apply (vanilla_padding (N := native64) sample_mem sample_out sample_ptrs 5 13);
    [lia|vm_compute; reflexivity..].
Defined.
