(* ===== verification/Smp.v ===== *)
(** * barracuda_deamon/smp/raid6smp.cu

    The multi-threaded implementation.  The stripe is cut into one chunk per
    CPU; every chunk is processed by a POSIX thread.  The threads run
    concurrently: a step of the machine below is one access of one thread to
    the shared buffers (or one action of the main thread), in any order. *)
From S2P Require Import Prelude GF256 Word Memory Syndrome Vanilla.
Local Open Scope Z_scope.

Section smp.
Context `{N : Native}.

Definition SHLBYTE (v : Z) : Z :=
  let vv := Z.land (wshl v 1) (NBYTES 0xfe) in
  vv.

Definition MASK (v : Z) : Z :=
  let vv := Z.land v (NBYTES 0x80) in
  let vv := wsub (wshl vv 1) (Z.shiftr vv 7) in
  vv.

(** [struct thread_data] *)
Record thread_data := {
  td_disks : Z;
  td_bytes : Z;
  td_ptrs : list loc;
  thread_id : Z;
  number_of_threads : Z
}.

(** [start] and [stop] of a thread: the [size_t] quotient, converted to [int]. *)
Definition thread_start (bytes n tid : Z) : Z := to_int (bytes / n * tid).
Definition thread_stop (bytes n tid : Z) : Z :=
  if tid + 1 =? n then to_int bytes else to_int (thread_start bytes n tid + bytes / n).

Record thread_locals := { l_z0 : Z; l_p : loc; l_q : loc; l_start : Z; l_stop : Z }.

(** The prologue of [proc_thread_dep_syndrome]. *)
Definition thread_prologue (data : thread_data) : result thread_locals :=
  z0 ← int_add (td_disks data) (-3);
  p ← nth_ptr (td_ptrs data) (z0 + 1);
  q ← nth_ptr (td_ptrs data) (z0 + 2);
  Ok {| l_z0 := z0; l_p := p; l_q := q;
        l_start := thread_start (td_bytes data) (number_of_threads data) (thread_id data);
        l_stop := thread_stop (td_bytes data) (number_of_threads data) (thread_id data) |}.

(** Where a thread is: before the prologue, at the loop head, in the inner loop
    with [z] disks left, before the store to [q], or after [pthread_exit]. *)
Inductive pc :=
  | PStart
  | PLoop (d : Z)
  | PInner (d : Z) (z : nat) (wp0 wq0 : Z)
  | PStoreQ (d wq0 : Z)
  | PDone.

#[global] Instance pc_eq_dec : EqDecision pc.
Proof. solve_decision. Defined.

(** One access of [proc_thread_dep_syndrome] to the shared memory. *)
Definition proc_thread_dep_syndrome (data : thread_data) (c : pc) (m : mem) : result (pc * mem) :=
  l ← thread_prologue data;
  match c with
  | PStart => Ok (PLoop (l_start l), m)
  | PLoop d =>
      if d <? l_stop l then
        b ← nth_ptr (td_ptrs data) (l_z0 l);
        w ← load_word m b d;
        Ok (PInner d (Z.to_nat (l_z0 l)) w w, m)
      else Ok (PDone, m)
  | PInner d (S z) wp0 wq0 =>
      b ← nth_ptr (td_ptrs data) (Z.of_nat z);
      wd0 ← load_word m b d;
      let wp0 := Z.lxor wp0 wd0 in
      let w20 := MASK wq0 in
      let w10 := SHLBYTE wq0 in
      let w20 := Z.land w20 (NBYTES 0x1d) in
      let w10 := Z.lxor w10 w20 in
      let wq0 := Z.lxor w10 wd0 in
      Ok (PInner d z wp0 wq0, m)
  | PInner d O wp0 wq0 =>
      m ← store_word m (l_p l) d wp0;
      Ok (PStoreQ d wq0, m)
  | PStoreQ d wq0 =>
      m ← store_word m (l_q l) d wq0;
      d' ← int_add d (Z.of_nat NSIZE);
      Ok (PLoop d', m)
  | PDone => Ok (PDone, m)
  end.

(** The main thread: creating thread [i], joining thread [i], returned, or
    terminated by [exit(-1)]. *)
Inductive main_pc := MCreate (i : Z) | MJoin (i : Z) | MReturn | MExit.

Record machine := { s_main : main_pc; s_threads : list (thread_data * pc); s_mem : mem }.

(** [raid6_smp_gen_syndrome] with [n] CPUs, and the threads it created. *)
Inductive raid6_smp_gen_syndrome (n disks bytes : Z) (ptrs : list loc) : machine → machine → Prop :=
  | smp_create i ts m : i < n →
      let data := {| td_disks := disks; td_bytes := bytes; td_ptrs := ptrs;
                     thread_id := i; number_of_threads := n |} in
      raid6_smp_gen_syndrome n disks bytes ptrs
        {| s_main := MCreate i; s_threads := ts; s_mem := m |}
        {| s_main := MCreate (i + 1); s_threads := ts ++ [(data, PStart)]; s_mem := m |}
  | smp_create_fails i ts m : i < n →
      raid6_smp_gen_syndrome n disks bytes ptrs
        {| s_main := MCreate i; s_threads := ts; s_mem := m |}
        {| s_main := MExit; s_threads := ts; s_mem := m |}
  | smp_created i ts m : n ≤ i →
      raid6_smp_gen_syndrome n disks bytes ptrs
        {| s_main := MCreate i; s_threads := ts; s_mem := m |}
        {| s_main := MJoin 0; s_threads := ts; s_mem := m |}
  | smp_join i ts m data : i < n → ts !! Z.to_nat i = Some (data, PDone) →
      raid6_smp_gen_syndrome n disks bytes ptrs
        {| s_main := MJoin i; s_threads := ts; s_mem := m |}
        {| s_main := MJoin (i + 1); s_threads := ts; s_mem := m |}
  | smp_joined i ts m : n ≤ i →
      raid6_smp_gen_syndrome n disks bytes ptrs
        {| s_main := MJoin i; s_threads := ts; s_mem := m |}
        {| s_main := MReturn; s_threads := ts; s_mem := m |}
  | smp_thread mp ts m t data c c' m' : mp ≠ MExit → c ≠ PDone →
      ts !! t = Some (data, c) → proc_thread_dep_syndrome data c m = Ok (c', m') →
      raid6_smp_gen_syndrome n disks bytes ptrs
        {| s_main := mp; s_threads := ts; s_mem := m |}
        {| s_main := mp; s_threads := <[t := (data, c')]> ts; s_mem := m' |}.

Definition smp_init (m : mem) : machine :=
  {| s_main := MCreate 0; s_threads := []; s_mem := m |}.

(** A thread that makes an access outside its buffers. *)
Definition smp_faults (s : machine) : Prop :=
  ∃ t data c f, s_threads s !! t = Some (data, c) ∧
    proc_thread_dep_syndrome data c (s_mem s) = Err f.

(** How far the threads write. *)
Definition thread_end (bytes n tid : Z) : Z :=
  loop_end (thread_start bytes n tid) (thread_stop bytes n tid) (Z.of_nat NSIZE).
Definition smp_end (bytes n : Z) : Z :=
  foldr Z.max 0 (thread_end bytes n <$> seqZ 0 n).
End smp.

(** ** A schedule that can be executed

    Threads run to completion one after the other. *)
Fixpoint run_thread `{N : Native} (fuel : nat) (data : thread_data) (c : pc) (m : mem) : result mem :=
  match fuel with
  | O => Err OutOfFuel
  | S fuel =>
      if decide (c = PDone) then Ok m else
      '(c', m') ← proc_thread_dep_syndrome data c m;
      run_thread fuel data c' m'
  end.

(** [raid6_smp_gen_syndrome] under that schedule, as a function. *)
Definition smp_run `{N : Native} (n : Z) : syndrome_func := λ disks bytes ptrs m,
  foldl (λ r i, m ← r;
    run_thread (4 + Z.to_nat bytes * Z.to_nat disks)
      {| td_disks := disks; td_bytes := bytes; td_ptrs := ptrs;
         thread_id := i; number_of_threads := n |} PStart m) (Ok m) (seqZ 0 n).

(** ** The chunks *)
Section chunks.
Context `{N : Native} (bytes n : Z).
Context (Hn : 0 < n) (Hb : 0 ≤ bytes) (Hmax : bytes + 7 ≤ INT_MAX).

Lemma chunk_bounds tid : 0 ≤ tid < n →
  0 ≤ bytes / n * tid ∧ bytes / n * tid + bytes / n ≤ bytes.
Proof using All.
  intros Ht. pose proof (Z.div_pos bytes n Hb Hn). pose proof (Z.mul_div_le bytes n Hn). nia.
Qed.

Lemma thread_start_eq tid : 0 ≤ tid < n → thread_start bytes n tid = bytes / n * tid.
Proof using All.
  intros Ht. pose proof (chunk_bounds tid Ht). pose proof (Z.div_pos bytes n Hb Hn).
  apply to_int_small. unfold INT_MIN. lia.
Qed.

Lemma thread_stop_eq tid : 0 ≤ tid < n →
  thread_stop bytes n tid = if tid + 1 =? n then bytes else bytes / n * (tid + 1).
Proof using All.
  intros Ht. pose proof (chunk_bounds tid Ht). pose proof (Z.div_pos bytes n Hb Hn).
  unfold thread_stop. rewrite thread_start_eq by done.
  destruct (tid + 1 =? n); rewrite to_int_small; unfold INT_MIN; lia.
Qed.

Lemma thread_range tid : 0 ≤ tid < n →
  0 ≤ thread_start bytes n tid ≤ thread_stop bytes n tid ∧ thread_stop bytes n tid ≤ bytes.
Proof using All.
  intros Ht. pose proof (chunk_bounds tid Ht). pose proof (Z.div_pos bytes n Hb Hn).
  rewrite thread_start_eq, thread_stop_eq by done. destruct (tid + 1 =? n); lia.
Qed.

(** Together the threads cover the stripe. *)
Lemma chunk_cover k : 0 ≤ k < bytes →
  ∃ tid, 0 ≤ tid < n ∧ thread_start bytes n tid ≤ k < thread_stop bytes n tid.
Proof using All.
  intros Hk. pose proof (Z.div_pos bytes n Hb Hn) as Hc.
  assert (Hlast : bytes / n * (n - 1) ≤ k → ∃ tid, 0 ≤ tid < n ∧
    thread_start bytes n tid ≤ k < thread_stop bytes n tid).
  { intros Hl. exists (n - 1). rewrite thread_start_eq, thread_stop_eq by lia.
    destruct (Z.eqb_spec (n - 1 + 1) n); lia. }
  destruct (decide (bytes / n * (n - 1) ≤ k)) as [Hl|Hl]; [by apply Hlast|].
  assert (0 < bytes / n) as Hc' by nia.
  pose proof (Z.div_mod k (bytes / n) ltac:(lia)). pose proof (Z.mod_pos_bound k (bytes / n) Hc').
  assert (0 ≤ k / (bytes / n) < n - 1) as Ht.
  { split; [by apply Z.div_pos; lia|]. apply Z.div_lt_upper_bound; lia. }
  exists (k / (bytes / n)). rewrite thread_start_eq, thread_stop_eq by lia.
  destruct (Z.eqb_spec (k / (bytes / n) + 1) n); lia.
Qed.

Lemma thread_end_le_smp_end tid : 0 ≤ tid < n → thread_end bytes n tid ≤ smp_end bytes n.
Proof using Type.
  intros Ht. unfold smp_end.
  assert (thread_end bytes n tid ∈ thread_end bytes n <$> seqZ 0 n) as Hin.
  { apply list_elem_of_fmap. exists tid. split; [done|]. apply elem_of_seqZ. lia. }
  induction Hin; cbn [foldr]; lia.
Qed.

Lemma smp_end_inv k : bytes ≤ k < smp_end bytes n → ∃ tid, 0 ≤ tid < n ∧ k < thread_end bytes n tid.
Proof using All.
  intros Hk. enough (∃ e, e ∈ thread_end bytes n <$> seqZ 0 n ∧ k < e) as (e & He & Hke).
  { apply list_elem_of_fmap in He as (tid & -> & Ht%elem_of_seqZ). exists tid. split; [lia|done]. }
  unfold smp_end in Hk. destruct Hk as [Hk0 Hk].
  induction (thread_end bytes n <$> seqZ 0 n) as [|e l IH]; cbn [foldr] in Hk; [lia|].
  destruct (decide (k < e)); [exists e; split; [left|done]|].
  destruct IH as (e' & He' & ?); [lia|]. exists e'. split; [by right|done].
Qed.

Lemma bytes_le_smp_end : bytes ≤ smp_end bytes n.
Proof using All.
  pose proof (thread_end_le_smp_end (n - 1) ltac:(lia)) as H.
  unfold thread_end in H. destruct NSIZE_posZ as [HN _].
  pose proof (loop_end_ge (thread_start bytes n (n - 1)) (thread_stop bytes n (n - 1)) _ HN).
  rewrite thread_stop_eq in * by lia. destruct (Z.eqb_spec (n - 1 + 1) n); lia.
Qed.

(** When the chunks are whole words the threads write exactly what the
    sequential loop writes. *)
Lemma smp_end_aligned : (bytes / n) mod Z.of_nat NSIZE = 0 →
  smp_end bytes n = loop_end 0 bytes (Z.of_nat NSIZE).
Proof using All.
  intros Hmod. destruct NSIZE_posZ as [HN _]. pose proof (Z.div_pos bytes n Hb Hn) as Hc0.
  set (w := Z.of_nat NSIZE) in *. apply Z.div_exact in Hmod; [|lia].
  set (c := bytes / n / w) in *. clearbody c.
  assert (∀ t, bytes / n * t = w * (c * t)) as Hct by (intros; rewrite Hmod; ring).
  pose proof (loop_end_ge 0 bytes w HN) as Hge.
  destruct (loop_end_mult 0 bytes w HN) as (k & Hk & HkE).
  assert (Hlt : loop_end 0 bytes w < bytes + w).
  { destruct (decide (0 < bytes)); [by apply loop_end_lt|]. rewrite loop_end_done; lia. }
  assert (∀ tid, 0 ≤ tid < n → thread_end bytes n tid ≤ loop_end 0 bytes w) as Hall.
  { intros tid Ht. pose proof (chunk_bounds tid Ht). unfold thread_end. fold w.
    rewrite thread_start_eq, thread_stop_eq by done.
    destruct (Z.eqb_spec (tid + 1) n).
    - rewrite (loop_end_unique _ _ w (loop_end 0 bytes w) (k - c * tid));
        pose proof (Hct tid); lia.
    - rewrite (loop_end_unique _ _ w (bytes / n * (tid + 1)) c);
        pose proof (Hct tid); pose proof (Hct (tid + 1)); lia. }
  apply Z.le_antisymm.
  - unfold smp_end. assert (0 ≤ loop_end 0 bytes w) by lia.
    assert (Forall (λ e, e ≤ loop_end 0 bytes w) (thread_end bytes n <$> seqZ 0 n)) as HF.
    { apply Forall_fmap, Forall_forall. intros tid Ht%elem_of_seqZ. apply Hall. lia. }
    induction HF; cbn [foldr]; lia.
  - pose proof (thread_end_le_smp_end (n - 1) ltac:(lia)) as H.
    pose proof (chunk_bounds (n - 1) ltac:(lia)).
    unfold thread_end in H. fold w in H. rewrite thread_start_eq, thread_stop_eq in H by lia.
    destruct (Z.eqb_spec (n - 1 + 1) n); [|lia].
    rewrite (loop_end_unique _ _ w (loop_end 0 bytes w) (k - c * (n - 1))) in H;
      pose proof (Hct (n - 1)); lia.
Qed.
End chunks.

(** ** One thread *)
Section thread.
Context `{N : Native} (m : mem) (ptrs : list loc) (disks : nat) (bytes n : Z) (p q : loc).
Context (Hdisks : (3 ≤ disks)%nat) (Hdmax : Z.of_nat disks ≤ INT_MAX).
Context (Hn : 0 < n) (Hb : 0 ≤ bytes) (Hmax : bytes + 7 ≤ INT_MAX).
Context (Ha : array_ok m ptrs disks (smp_end bytes n)).
Context (Hp : ptrs !! (disks - 2)%nat = Some p) (Hq : ptrs !! (disks - 1)%nat = Some q).

Local Abbreviation w := (Z.of_nat NSIZE).
Local Abbreviation start := (thread_start bytes n).
Local Abbreviation stop := (thread_stop bytes n).
Local Abbreviation good_p m1 k := (peek m1 p k = p_byte m ptrs disks k).
Local Abbreviation good_q m1 k := (peek m1 q k = q_byte m ptrs disks k).

Definition mk_data (tid : Z) : thread_data :=
  {| td_disks := Z.of_nat disks; td_bytes := bytes; td_ptrs := ptrs;
     thread_id := tid; number_of_threads := n |}.

(** What every reachable memory has in common with the initial one. *)
Record shared_ok (m1 : mem) : Prop := {
  so_frame : ∀ b, b ≠ p → b ≠ q → m1 !! b = m !! b;
  so_len : ∀ b, buf_len m1 b = buf_len m b;
  so_ok : ∀ b l, buf_ok m l b → buf_ok m1 l b;
  so_rest : ∀ b k, smp_end bytes n ≤ Z.of_nat k → peek m1 b k = peek m b k
}.

Definition covered (m1 : mem) (lo hi : Z) : Prop :=
  ∀ k, lo ≤ Z.of_nat k < hi → good_p m1 k ∧ good_q m1 k.

(** The invariant of a thread at [d]. *)
Definition at_word (tid d : Z) : Prop :=
  start tid ≤ d < stop tid ∧ loop_end d (stop tid) w = thread_end bytes n tid.

Definition pc_ok (m1 : mem) (tid : Z) (c : pc) : Prop :=
  match c with
  | PStart => True
  | PLoop d => start tid ≤ d ∧ loop_end d (stop tid) w = thread_end bytes n tid ∧
      covered m1 (start tid) d
  | PInner d z wp0 wq0 => at_word tid d ∧ covered m1 (start tid) d ∧ (z ≤ disks - 3)%nat ∧
      wp0 = LE (part m ptrs disks d gen_p z) ∧ wq0 = LE (part m ptrs disks d gen_q z)
  | PStoreQ d wq0 => at_word tid d ∧ covered m1 (start tid) d ∧
      (∀ k, d ≤ Z.of_nat k < d + w → good_p m1 k) ∧ wq0 = LE (q_lanes m ptrs disks d NSIZE)
  | PDone => covered m1 (start tid) (thread_end bytes n tid)
  end.

(** Steps left, at most. *)
Definition iters (tid d : Z) : nat := Z.to_nat (stop tid - d).
Definition pc_measure (tid : Z) (c : pc) : nat :=
  match c with
  | PStart => 2 + iters tid (start tid) * disks
  | PLoop d => 1 + iters tid d * disks
  | PInner d z _ _ => 3 + iters tid (d + w) * disks + z
  | PStoreQ d _ => 2 + iters tid (d + w) * disks
  | PDone => 0
  end.

Definition grows (m1 m2 : mem) : Prop :=
  ∀ k, (good_p m1 k → good_p m2 k) ∧ (good_q m1 k → good_q m2 k).

Lemma covered_grows m1 m2 lo hi : grows m1 m2 → covered m1 lo hi → covered m2 lo hi.
Proof using Type. intros Hg Hc k Hk. destruct (Hc k Hk), (Hg k). auto. Qed.

Lemma pc_ok_grows m1 m2 tid c : grows m1 m2 → pc_ok m1 tid c → pc_ok m2 tid c.
Proof using Type.
  intros Hg. destruct c; cbn [pc_ok]; [done|..|by apply covered_grows].
  - intros (? & ? & ?). eauto using covered_grows.
  - intros (? & ? & ?). eauto using covered_grows.
  - intros (? & ? & Hk & ?). split_and!; [done|eauto using covered_grows| |done].
    intros k Hk'. destruct (Hg k). auto.
Qed.

Lemma shared_ok_init : shared_ok m.
Proof using Type. by split. Qed.

Lemma p_ne_q : p ≠ q.
Proof using All. destruct (check_disks _ _ _ _ Hdisks Ha) as (? & ? & ? & ? & ? & _). by simplify_eq. Qed.

Lemma prologue_ok tid : 0 ≤ tid < n → thread_prologue (mk_data tid) =
  Ok {| l_z0 := Z.of_nat (disks - 3); l_p := p; l_q := q; l_start := start tid; l_stop := stop tid |}.
Proof using Hdisks Hdmax Hp Hq.
  intros Ht. unfold thread_prologue. cbn [mk_data td_disks td_ptrs].
  run int_add_ok by (unfold INT_MIN; lia).
  replace (Z.of_nat disks + -3) with (Z.of_nat (disks - 3)) by lia.
  run (nth_ptr_nat ptrs (Z.of_nat (disks - 3) + 1) (disks - 2) p) by (done || lia).
  by run (nth_ptr_nat ptrs (Z.of_nat (disks - 3) + 2) (disks - 1) q) by (done || lia).
Qed.

Lemma data_disk z : (z < disks - 2)%nat → ∃ b, ptrs !! z = Some b ∧ b ≠ p ∧ b ≠ q ∧
  buf_ok m (smp_end bytes n) b.
Proof using All.
  intros Hz. destruct (array_disk Ha z) as (b & Hbz & Hbo); [lia|]. exists b.
  split_and!; [done|intros ->|intros ->|done].
  - pose proof (array_inj Ha z (disks - 2) p ltac:(lia) ltac:(lia) Hbz Hp). lia.
  - pose proof (array_inj Ha z (disks - 1) q ltac:(lia) ltac:(lia) Hbz Hq). lia.
Qed.

Lemma at_word_bounds tid d : 0 ≤ tid < n → at_word tid d →
  0 ≤ d ∧ d < bytes ∧ d + w ≤ smp_end bytes n ∧ loop_end (d + w) (stop tid) w = thread_end bytes n tid.
Proof using All.
  intros Ht [Hd He]. destruct NSIZE_posZ as [HN _].
  pose proof (thread_range bytes n Hn Hb Hmax tid Ht).
  rewrite loop_end_step in He by lia.
  pose proof (loop_end_le_start (d + w) (stop tid) w HN).
  pose proof (thread_end_le_smp_end bytes n tid Ht). lia.
Qed.

Lemma data_load tid d z m1 : 0 ≤ tid < n → at_word tid d → shared_ok m1 → (z < disks - 2)%nat →
  ∃ b, ptrs !! z = Some b ∧ nth_ptr ptrs (Z.of_nat z) = Ok b ∧
    load_word m1 b d = Ok (LE (slice m b d NSIZE)).
Proof using All.
  intros Ht Hat Hs Hz. destruct (at_word_bounds tid d Ht Hat) as (H1 & _ & H2 & _).
  destruct (data_disk z Hz) as (b & Hbz & Hbp & Hbq & Hbo). exists b.
  split; [done|]. split; [by apply (nth_ptr_nat _ _ z)|].
  rewrite <-(load_word_ok m b d (smp_end bytes n)) by done.
  unfold load_word, load_bytes. by rewrite (so_frame _ Hs) by done.
Qed.

(** A store of the right bytes to a check disk. *)
Lemma check_store m1 b d f : shared_ok m1 → b = p ∨ b = q → 0 ≤ d → d + w ≤ smp_end bytes n →
  (∀ k, is_byte (f k)) →
  ∃ m2, store_word m1 b d (LE ((λ i, f (Z.to_nat d + i)%nat) <$> seq 0 NSIZE)) = Ok m2 ∧
    shared_ok m2 ∧ (∀ b', b' ≠ b → m2 !! b' = m1 !! b') ∧
    ∀ k, peek m2 b k =
      if decide (Z.to_nat d ≤ k < Z.to_nat d + NSIZE)%nat then f k else peek m1 b k.
Proof using All.
  intros [H1 H2 H3 H4] Hbpq Hd Hlen Hf.
  destruct (check_disks _ _ _ _ Hdisks Ha) as (p' & q' & ? & ? & _ & Hpo & Hqo). simplify_eq.
  assert (buf_ok m1 (smp_end bytes n) b) as Hbo by (destruct Hbpq; subst; auto).
  destruct (store_word_fun m1 b d f _ Hbo Hd Hlen Hf) as (m2 & E & Hfr & Hl & Hok & Hpk).
  exists m2. split_and!; [done| |done|done]. split.
  - intros b' ? ?. rewrite Hfr by (destruct Hbpq; congruence). auto.
  - intros b'. by rewrite Hl.
  - auto.
  - intros b' k Hk. rewrite <-H4 by done. destruct (decide (b' = b)) as [->|Hne].
    + rewrite Hpk, decide_False by lia. done.
    + unfold peek. by rewrite Hfr.
Qed.

(** What one step of a thread establishes. *)
Definition advances (m1 : mem) (tid : Z) (c c' : pc) (m2 : mem) : Prop :=
  shared_ok m2 ∧ grows m1 m2 ∧ pc_ok m2 tid c' ∧ (pc_measure tid c' < pc_measure tid c)%nat.

Lemma iters_step tid d : at_word tid d → (iters tid (d + w) + 1 ≤ iters tid d)%nat.
Proof using All. intros [Hd _]. unfold iters. pose proof NSIZE_pos. lia. Qed.

Lemma step_loop m1 tid d : 0 ≤ tid < n → shared_ok m1 → pc_ok m1 tid (PLoop d) →
  ∃ c', proc_thread_dep_syndrome (mk_data tid) (PLoop d) m1 = Ok (c', m1) ∧
    advances m1 tid (PLoop d) c' m1.
Proof using All.
  intros Ht Hs (Hd & He & Hc). unfold proc_thread_dep_syndrome.
  run prologue_ok by done. cbn [l_stop l_z0 td_ptrs mk_data].
  destruct (Z.ltb_spec d (stop tid)) as [Hlt|Hge].
  - assert (at_word tid d) as Hat by done.
    destruct (data_load tid d (disks - 3) m1 Ht Hat Hs ltac:(lia)) as (b & Hbz & -> & E).
    bind_step. run E. eexists. split; [reflexivity|].
    split_and!; [done|by split| |].
    + cbn. split_and!; [done..|lia| |]; rewrite Nat2Z.id; f_equal; symmetry.
      1,2: eapply (part_top m ptrs disks _ Hdisks Ha); [|done]; try done.
      intros. apply Z.lxor_0_r.
    + pose proof (iters_step tid d Hat). cbn. rewrite Nat2Z.id. nia.
  - eexists. split; [reflexivity|]. split_and!; [done|by split| |cbn; lia].
    cbn. rewrite <-He. by rewrite loop_end_done.
Qed.

Lemma step_inner m1 tid d z wp0 wq0 : 0 ≤ tid < n → shared_ok m1 →
  pc_ok m1 tid (PInner d (S z) wp0 wq0) →
  ∃ c', proc_thread_dep_syndrome (mk_data tid) (PInner d (S z) wp0 wq0) m1 = Ok (c', m1) ∧
    advances m1 tid (PInner d (S z) wp0 wq0) c' m1.
Proof using All.
  intros Ht Hs (Hat & Hc & Hz & -> & ->). unfold proc_thread_dep_syndrome.
  run prologue_ok by done. cbn [td_ptrs mk_data].
  destruct (data_load tid d z m1 Ht Hat Hs ltac:(lia)) as (b & Hbz & -> & E).
  bind_step. run E. eexists. split; [reflexivity|].
  destruct (data_disk z ltac:(lia)) as (b' & ? & _ & _ & Hbo). simplify_eq.
  pose proof (update_ok SHLBYTE MASK (λ _, eq_refl) (λ _, eq_refl)
    (part m ptrs disks d gen_p (S z)) (part m ptrs disks d gen_q (S z)) (slice m b d NSIZE)) as Eu.
  rewrite !length_part, length_slice in Eu.
  specialize (Eu ltac:(eapply part_byte; eauto using is_byte_gen_p)
    ltac:(eapply part_byte; eauto using is_byte_gen_q)
    ltac:(by eapply Forall_byte_slice) eq_refl eq_refl eq_refl).
  injection Eu as Ep Eq. rewrite Ep, Eq.
  split_and!; [done|by split| |cbn; lia].
  cbn. split_and!; [done..|lia| |]; f_equal; apply part_step; try done; try lia.
  intros x c. by rewrite gen_p_cons, Z.lxor_comm.
Qed.

Lemma step_store_p m1 tid d wp0 wq0 : 0 ≤ tid < n → shared_ok m1 →
  pc_ok m1 tid (PInner d 0 wp0 wq0) →
  ∃ c' m2, proc_thread_dep_syndrome (mk_data tid) (PInner d 0 wp0 wq0) m1 = Ok (c', m2) ∧
    advances m1 tid (PInner d 0 wp0 wq0) c' m2.
Proof using All.
  intros Ht Hs (Hat & Hc & Hz & -> & ->). unfold proc_thread_dep_syndrome.
  run prologue_ok by done. cbn [l_p]. destruct (at_word_bounds tid d Ht Hat) as (H1 & _ & H2 & _).
  destruct (check_store m1 p d (p_byte m ptrs disks) Hs ltac:(by left) H1 H2) as (m2 & E & Hs2 & Hfr & Hpk).
  { intros k. by eapply p_is_byte. }
  change (part m ptrs disks d gen_p 0) with (p_lanes m ptrs disks d NSIZE). unfold p_lanes. run E.
  eexists _, m2. split; [reflexivity|].
  assert (grows m1 m2) as Hg.
  { intros k. split; [rewrite Hpk; by case_decide|]. unfold peek.
    rewrite Hfr by (apply not_eq_sym, p_ne_q). done. }
  split_and!; [done|done| |cbn; lia]. cbn.
  split_and!; [done|by eapply covered_grows| |done]. intros k Hk.
  rewrite Hpk, decide_True by lia. done.
Qed.

Lemma step_store_q m1 tid d wq0 : 0 ≤ tid < n → shared_ok m1 → pc_ok m1 tid (PStoreQ d wq0) →
  ∃ c' m2, proc_thread_dep_syndrome (mk_data tid) (PStoreQ d wq0) m1 = Ok (c', m2) ∧
    advances m1 tid (PStoreQ d wq0) c' m2.
Proof using All.
  intros Ht Hs (Hat & Hc & HpP & ->). unfold proc_thread_dep_syndrome.
  run prologue_ok by done. cbn [l_q].
  destruct (at_word_bounds tid d Ht Hat) as (H1 & Hdb & H2 & He).
  destruct (check_store m1 q d (q_byte m ptrs disks) Hs ltac:(by right) H1 H2) as (m2 & E & Hs2 & Hfr & Hpk).
  { intros k. by eapply q_is_byte. }
  unfold q_lanes. run E. destruct NSIZE_posZ.
  run int_add_ok by (unfold INT_MIN; lia).
  eexists _, m2. split; [reflexivity|].
  assert (∀ k, peek m2 p k = peek m1 p k) as Hpp
    by (intros k; unfold peek; rewrite Hfr by (apply p_ne_q); done).
  assert (grows m1 m2) as Hg.
  { intros k. split; [by rewrite Hpp|rewrite Hpk; by case_decide]. }
  split_and!; [done|done| |cbn; lia]. destruct Hat as [[? ?] _]. cbn.
  split_and!; [lia|done|]. intros k Hk. destruct (decide (Z.of_nat k < d)) as [Hkd|Hkd].
  - destruct (Hc k) as [Hc1 Hc2]; [lia|]. destruct (Hg k). auto.
  - rewrite Hpp. split; [apply HpP; lia|]. by rewrite Hpk, decide_True by lia.
Qed.

Lemma thread_step_ok m1 tid c : 0 ≤ tid < n → shared_ok m1 → pc_ok m1 tid c → c ≠ PDone →
  ∃ c' m2, proc_thread_dep_syndrome (mk_data tid) c m1 = Ok (c', m2) ∧ advances m1 tid c c' m2.
Proof using All.
  intros Ht Hs Hc Hne. destruct c as [|d|d [|z] wp0 wq0|d wq0|]; [..|done].
  - exists (PLoop (start tid)), m1. unfold proc_thread_dep_syndrome. run prologue_ok by done.
    split; [done|]. split_and!; [done|by split| |cbn; lia].
    cbn. split_and!; [lia|done|]. intros k Hk. lia.
  - destruct (step_loop m1 tid d) as (c' & ? & ?); eauto.
  - by apply step_store_p.
  - destruct (step_inner m1 tid d z wp0 wq0) as (c' & ? & ?); eauto.
  - by apply step_store_q.
Qed.

(** ** All threads and the main thread *)
Local Abbreviation step := (raid6_smp_gen_syndrome n (Z.of_nat disks) bytes ptrs).

Definition main_ok (mp : main_pc) (ts : list (thread_data * pc)) : Prop :=
  match mp with
  | MCreate i => i = Z.of_nat (length ts) ∧ i ≤ n
  | MJoin i => Z.of_nat (length ts) = n ∧ 0 ≤ i ≤ n ∧
      ∀ t, Z.of_nat t < i → ∃ data, ts !! t = Some (data, PDone)
  | MReturn => Z.of_nat (length ts) = n ∧ ∀ t, Z.of_nat t < n → ∃ data, ts !! t = Some (data, PDone)
  | MExit => Z.of_nat (length ts) ≤ n
  end.

Record machine_ok (s : machine) : Prop := {
  mo_shared : shared_ok (s_mem s);
  mo_len : Z.of_nat (length (s_threads s)) ≤ n;
  mo_threads : ∀ t data c, s_threads s !! t = Some (data, c) →
    data = mk_data (Z.of_nat t) ∧ pc_ok (s_mem s) (Z.of_nat t) c;
  mo_main : main_ok (s_main s) (s_threads s)
}.

Definition main_measure (mp : main_pc) : nat :=
  match mp with
  | MCreate i => Z.to_nat (n - i) * (3 + Z.to_nat bytes * disks) + Z.to_nat n + 2
  | MJoin i => Z.to_nat (n - i) + 1
  | MReturn | MExit => 0
  end.
Definition machine_measure (s : machine) : nat :=
  main_measure (s_main s) + sum_list_with (λ tc, pc_measure (thread_id tc.1) tc.2) (s_threads s).

Lemma machine_init_ok : machine_ok (smp_init m).
Proof using All.
  split; cbn; [apply shared_ok_init|lia|done|lia].
Qed.

Lemma main_ok_step mp ts t data c c' : mp ≠ MExit → c ≠ PDone → ts !! t = Some (data, c) →
  main_ok mp ts → main_ok mp (<[t:=(data, c')]> ts).
Proof using All.
  intros Hne Hc Ht. assert (∀ t', (∃ data', ts !! t' = Some (data', PDone)) →
    ∃ data', <[t:=(data, c')]> ts !! t' = Some (data', PDone)) as Hdone.
  { intros t' [data' H']. exists data'. rewrite list_lookup_insert_ne; [done|congruence]. }
  destruct mp; cbn [main_ok]; rewrite ?length_insert; naive_solver.
Qed.

Lemma thread_of s t data c : machine_ok s → s_threads s !! t = Some (data, c) →
  data = mk_data (Z.of_nat t) ∧ 0 ≤ Z.of_nat t < n ∧ pc_ok (s_mem s) (Z.of_nat t) c.
Proof using All.
  intros Hok Ht. pose proof (mo_threads _ Hok _ _ _ Ht) as [-> Hpc].
  pose proof (mo_len _ Hok). pose proof (lookup_lt_Some _ _ _ Ht). split_and!; [done|lia|lia|done].
Qed.

Lemma create_measure i : 0 ≤ i < n →
  (main_measure (MCreate (i + 1)) + pc_measure i PStart < main_measure (MCreate i))%nat.
Proof using All.
  intros Hi. pose proof (thread_range bytes n Hn Hb Hmax i Hi) as [? ?].
  assert (iters i (start i) ≤ Z.to_nat bytes)%nat as Hit by (unfold iters; lia).
  cbn [main_measure pc_measure]. replace (Z.to_nat (n - i)) with (S (Z.to_nat (n - (i + 1)))) by lia.
  nia.
Qed.

Lemma create_measure_pos i : (main_measure (MJoin 0) < main_measure (MCreate i))%nat.
Proof using Type. clear. cbn [main_measure]. generalize (Z.to_nat (n - i) * (3 + Z.to_nat bytes * disks))%nat. lia. Qed.

Lemma machine_step s s' : machine_ok s → step s s' →
  machine_ok s' ∧ (machine_measure s' < machine_measure s)%nat.
Proof using All.
  intros Hok Hst. pose proof Hok as [Hs Hlen Hts Hm].
  destruct Hst as [i ts m1 Hi|i ts m1 Hi|i ts m1 Hi|i ts m1 data Hi Hd|i ts m1 Hi
    |mp ts m1 t data c c' m2 Hmp Hc Ht E];
    unfold machine_measure; cbn [s_main s_threads s_mem] in *.
  - destruct Hm as [-> _]. split; [split; cbn [s_main s_threads s_mem]; [done|..]|].
    + rewrite length_app. cbn. lia.
    + intros t d' c [H|(Hge & H)]%lookup_app_Some; [by apply Hts|].
      apply list_lookup_singleton_Some in H as [H E]. injection E as <- <-.
      replace t with (length ts) by lia. done.
    + cbn. rewrite length_app. cbn. lia.
    + rewrite sum_list_with_app. cbn [sum_list_with fst snd thread_id].
      pose proof (create_measure (Z.of_nat (length ts)) ltac:(lia)).
      change (thread_id data) with (Z.of_nat (length ts)). lia.
  - split; [by split|]. pose proof (create_measure_pos i) as Hi'. cbn [main_measure] in *. lia.
  - destruct Hm as [-> ?].
    split; [split; cbn; [done..|]|pose proof (create_measure_pos (Z.of_nat (length ts))); cbn [main_measure] in *; lia].
    split_and!; [lia..|]. intros; lia.
  - destruct Hm as (? & ? & Hall). split; [split; cbn; [done..|]|cbn [main_measure]; lia].
    split_and!; [done|lia..|]. intros t Ht. destruct (decide (Z.of_nat t < i)); [by apply Hall|].
    exists data. by replace t with (Z.to_nat i) by lia.
  - destruct Hm as (? & ? & Hall). split; [split; cbn; [done..|]|cbn [main_measure]; lia].
    split; [done|]. intros t Ht. apply Hall. lia.
  - destruct (thread_of _ _ _ _ Hok Ht) as (-> & Htn & Hpc). cbn [s_mem] in Hpc.
    destruct (thread_step_ok m1 (Z.of_nat t) c Htn Hs Hpc Hc) as (c2 & m3 & E' & Hs3 & Hg & Hpc' & Hlt).
    rewrite E in E'. injection E' as <- <-. split.
    + split; cbn [s_main s_threads s_mem]; [done|by rewrite length_insert| |by eapply main_ok_step].
      intros t' d2 c3 H3. apply list_lookup_insert_Some in H3 as [(<- & E3 & _)|[Hne H3]].
      * injection E3 as <- <-. done.
      * destruct (Hts _ _ _ H3) as [-> ?]. split; [done|]. by eapply pc_ok_grows.
    + pose proof (sum_list_insert (λ tc, pc_measure (thread_id tc.1) tc.2) ts t _
        (mk_data (Z.of_nat t), c') Ht) as Hsum. cbn [fst snd] in Hsum.
      cbn [mk_data thread_id] in Hsum. lia.
Qed.

Lemma machine_reachable s : rtc step (smp_init m) s → machine_ok s.
Proof using All.
  apply (rtc_ind_r machine_ok); [apply machine_init_ok|]. intros s1 s2 _ H12 H.
  by eapply machine_step.
Qed.

Lemma machine_sn s : machine_ok s → sn step s.
Proof using All.
  remember (machine_measure s) as k eqn:Hk. revert s Hk.
  induction (lt_wf k) as [k _ IH]. intros s -> Hok. constructor. intros s' Hst.
  destruct (machine_step _ _ Hok Hst) as [Hok' Hlt]. by eapply IH.
Qed.

Lemma machine_progress s : machine_ok s → nf step s → s_main s = MReturn ∨ s_main s = MExit.
Proof using All.
  intros Hok Hnf. destruct s as [mp ts m1]. cbn. destruct mp as [i|i| |]; [..|by left|by right];
    exfalso; apply Hnf.
  - destruct (decide (i < n)).
    + eexists. by apply smp_create.
    + eexists. apply smp_created. lia.
  - destruct (mo_main _ Hok) as (Hlen & Hi & _). cbn in Hlen.
    destruct (decide (i < n)) as [Hin|]; [|eexists; apply smp_joined; lia].
    destruct (lookup_lt_is_Some_2 ts (Z.to_nat i) ltac:(lia)) as [[data c] Ht].
    destruct (decide (c = PDone)) as [->|Hne]; [eexists; by eapply smp_join|].
    destruct (thread_of _ _ _ _ Hok Ht) as (-> & Htn & Hpc). cbn [s_mem] in Hpc.
    destruct (thread_step_ok m1 _ c Htn (mo_shared _ Hok) Hpc Hne) as (c' & m2 & E & _).
    eexists. by eapply smp_thread.
Qed.

Lemma machine_no_fault s : machine_ok s → ¬ smp_faults s.
Proof using All.
  intros Hok (t & data & c & f & Ht & E).
  destruct (thread_of _ _ _ _ Hok Ht) as (-> & Htn & Hpc).
  destruct (decide (c = PDone)) as [->|Hne].
  - unfold proc_thread_dep_syndrome in E. rewrite prologue_ok in E by done. done.
  - destruct (thread_step_ok _ _ c Htn (mo_shared _ Hok) Hpc Hne) as (? & ? & E' & _). congruence.
Qed.

Lemma machine_result s : machine_ok s → s_main s = MReturn →
  writes_pq m ptrs disks (smp_end bytes n) (s_mem s).
Proof using All.
  intros Hok Hret. pose proof Hok as [Hs _ Hts Hm]. rewrite Hret in Hm. destruct Hm as [_ Hdone].
  assert (Hcov : ∀ tid k, 0 ≤ tid < n → start tid ≤ Z.of_nat k < thread_end bytes n tid →
    good_p (s_mem s) k ∧ good_q (s_mem s) k).
  { intros tid k Ht Hk. destruct (Hdone (Z.to_nat tid)) as (data & Hd); [lia|].
    destruct (Hts _ _ _ Hd) as [_ Hpc]. rewrite Z2Nat.id in Hpc by lia. by apply Hpc. }
  assert (Hall : ∀ k, Z.of_nat k < smp_end bytes n → good_p (s_mem s) k ∧ good_q (s_mem s) k).
  { intros k Hk. destruct NSIZE_posZ as [HN _]. destruct (decide (Z.of_nat k < bytes)) as [Hkb|Hkb].
    - destruct (chunk_cover bytes n Hn Hb Hmax (Z.of_nat k)) as (tid & Ht & Hr); [lia|].
      apply (Hcov tid); [done|]. pose proof (loop_end_ge (start tid) (stop tid) w HN).
      unfold thread_end. lia.
    - destruct (smp_end_inv bytes n Hn Hb Hmax (Z.of_nat k)) as (tid & Ht & Hr); [lia|].
      apply (Hcov tid); [done|]. pose proof (thread_range bytes n Hn Hb Hmax tid Ht). lia. }
  destruct Hs as [Hf Hl Hok' Hr]. split; [split|done..].
  - intros b H1 H2. apply Hf; congruence.
  - done.
  - intros p' k Hp' Hk. simplify_eq. by apply Hall.
  - intros q' k Hq' Hk. simplify_eq. by apply Hall.
Qed.

(** *** The sequential schedule *)
Lemma run_thread_ok fuel m1 tid c : 0 ≤ tid < n → shared_ok m1 → pc_ok m1 tid c →
  (pc_measure tid c < fuel)%nat →
  ∃ m2, run_thread fuel (mk_data tid) c m1 = Ok m2 ∧ shared_ok m2 ∧ grows m1 m2 ∧
    pc_ok m2 tid PDone.
Proof using All.
  intros Ht. revert m1 c. induction fuel as [|fuel IH]; intros m1 c Hs Hc Hf; [lia|].
  cbn [run_thread]. case_decide as Hd; [subst c; by exists m1|].
  destruct (thread_step_ok m1 tid c Ht Hs Hc Hd) as (c' & m2 & -> & Hs2 & Hg & Hc2 & Hlt).
  bind_step. destruct (IH m2 c' Hs2 Hc2) as (m3 & E & Hs3 & Hg3 & Hc3); [lia|].
  exists m3. split_and!; [done..| |done]. intros k. destruct (Hg k), (Hg3 k). auto.
Qed.

Lemma run_threads_ok j : Z.of_nat j ≤ n →
  ∃ m', foldl (λ r i, m ← r; run_thread (4 + Z.to_nat bytes * disks) (mk_data i) PStart m)
      (Ok m) (seqZ 0 (Z.of_nat j)) = Ok m' ∧ shared_ok m' ∧
    ∀ i, 0 ≤ i < Z.of_nat j → pc_ok m' i PDone.
Proof using All.
  induction j as [|j IH]; intros Hj; [exists m; split_and!; [done|apply shared_ok_init|lia]|].
  destruct IH as (m1 & E & Hs & Hc); [lia|].
  replace (Z.of_nat (S j)) with (Z.of_nat j + 1) by lia.
  rewrite seqZ_app, foldl_app, E by lia. cbn [seqZ foldl]. bind_step.
  pose proof (thread_range bytes n Hn Hb Hmax (Z.of_nat j) ltac:(lia)) as [? ?].
  destruct (run_thread_ok (4 + Z.to_nat bytes * disks) m1 (Z.of_nat j) PStart)
    as (m2 & E2 & Hs2 & Hg & Hc2); [lia|done|done| |].
  { cbn [pc_measure]. unfold iters. nia. }
  change (seqZ (0 + Z.of_nat j) 1) with [0 + Z.of_nat j]. cbn [foldl]. bind_step.
  exists m2. split_and!; [done|done|]. intros i Hi.
  destruct (decide (i = Z.of_nat j)) as [->|]; [done|].
  eapply pc_ok_grows; [done|]. apply Hc. lia.
Qed.

Lemma smp_run_ok : ∃ m', smp_run n (Z.of_nat disks) bytes ptrs m = Ok m' ∧
  writes_pq m ptrs disks (smp_end bytes n) m'.
Proof using All.
  destruct (run_threads_ok (Z.to_nat n)) as (m' & E & Hs & Hc); [lia|].
  rewrite Z2Nat.id in E, Hc by lia. exists m'.
  split; [unfold smp_run; by rewrite Nat2Z.id|].
  set (s := {| s_main := MReturn; s_mem := m';
    s_threads := (λ i, (mk_data i, PDone)) <$> seqZ 0 n |}).
  assert (Hts : ∀ t data c, s_threads s !! t = Some (data, c) →
    data = mk_data (Z.of_nat t) ∧ c = PDone ∧ Z.of_nat t < n).
  { intros t data c Ht. cbn in Ht. apply list_lookup_fmap_Some in Ht as (i & Ei & Ht).
    apply lookup_seqZ in Ht as [-> Ht]. injection Ei as -> ->. by rewrite Z.add_0_l. }
  apply (machine_result s); [|done]. split; [done|..].
  - cbn. rewrite length_fmap, length_seqZ. lia.
  - intros t data c Ht. destruct (Hts _ _ _ Ht) as (-> & -> & ?). split; [done|].
    apply Hc. lia.
  - cbn. rewrite length_fmap, length_seqZ. split; [lia|]. intros t Ht.
    exists (mk_data (Z.of_nat t)). rewrite list_lookup_fmap.
    assert (seqZ 0 n !! t = Some (Z.of_nat t)) as ->; [|done]. apply lookup_seqZ. lia.
Qed.
End thread.

(** ** What the machine guarantees *)
Section smp_theorems.
Context `{N : Native}.

(** The arguments the implementation is written for: at least one CPU and one
    data disk, sizes an [int] can count, distinct live buffers that reach as
    far as the last thread writes. *)
Definition smp_pre (m : mem) (ptrs : list loc) (disks : nat) (bytes n : Z) : Prop :=
  (3 ≤ disks)%nat ∧ Z.of_nat disks ≤ INT_MAX ∧ 0 < n ∧ 0 ≤ bytes ∧ bytes + 7 ≤ INT_MAX ∧
  array_ok m ptrs disks (smp_end bytes n).

#[global] Instance smp_pre_dec m ptrs disks bytes n : Decision (smp_pre m ptrs disks bytes n).
Proof using Type. unfold smp_pre. apply _. Defined.

Lemma smp_reach m ptrs disks bytes n s : smp_pre m ptrs disks bytes n →
  rtc (raid6_smp_gen_syndrome n (Z.of_nat disks) bytes ptrs) (smp_init m) s →
  ∃ p q, (3 ≤ disks)%nat ∧ ptrs !! (disks - 2)%nat = Some p ∧ ptrs !! (disks - 1)%nat = Some q ∧
    machine_ok m ptrs disks bytes n p q s.
Proof using Type.
  intros (Hd & Hdm & Hn & Hb & Hmax & Ha) Hs.
  destruct (check_disks _ _ _ _ Hd Ha) as (p & q & Hp & Hq & _).
  exists p, q. split_and!; [done..|]. by eapply machine_reachable.
Qed.

(** C6: whatever the interleaving of the threads, no thread ever makes an
    access outside its buffers, and when the call returns P and Q of every
    byte column are in place and nothing else has changed. *)
Theorem smp_correct m ptrs disks bytes n s :
  smp_pre m ptrs disks bytes n →
  rtc (raid6_smp_gen_syndrome n (Z.of_nat disks) bytes ptrs) (smp_init m) s →
  ¬ smp_faults s ∧
  (s_main s = MReturn → bytes ≤ smp_end bytes n ∧
     writes_pq m ptrs disks (smp_end bytes n) (s_mem s)).
Proof using Type.
  intros Hpre Hs. destruct (smp_reach _ _ _ _ _ _ Hpre Hs) as (p & q & _ & Hp & Hq & Hok).
  destruct Hpre as (Hd & Hdm & Hn & Hb & Hmax & Ha). split.
  - by eapply machine_no_fault.
  - intros Hret. split; [by apply bytes_le_smp_end|]. by eapply machine_result.
Qed.

(** C7: every execution is finite, and it can only end with the call having
    returned or, when a thread could not be created, with the process
    terminated: there is no deadlock. *)
Theorem smp_terminates m ptrs disks bytes n s :
  smp_pre m ptrs disks bytes n →
  rtc (raid6_smp_gen_syndrome n (Z.of_nat disks) bytes ptrs) (smp_init m) s →
  sn (raid6_smp_gen_syndrome n (Z.of_nat disks) bytes ptrs) s ∧
  (nf (raid6_smp_gen_syndrome n (Z.of_nat disks) bytes ptrs) s →
     s_main s = MReturn ∨ s_main s = MExit).
Proof using Type.
  intros Hpre Hs. destruct (smp_reach _ _ _ _ _ _ Hpre Hs) as (p & q & _ & Hp & Hq & Hok).
  destruct Hpre as (Hd & Hdm & Hn & Hb & Hmax & Ha). split.
  - by eapply machine_sn.
  - by eapply machine_progress.
Qed.

(** C8: when the chunk of a thread is a whole number of words, every
    interleaving leaves exactly the memory the sequential implementation
    leaves. *)
Theorem smp_refines_vanilla m ptrs disks bytes n s m' :
  smp_pre m ptrs disks bytes n → (bytes / n) mod Z.of_nat NSIZE = 0 →
  rtc (raid6_smp_gen_syndrome n (Z.of_nat disks) bytes ptrs) (smp_init m) s →
  s_main s = MReturn →
  raid6_vanilla_gen_syndrome (Z.of_nat disks) bytes ptrs m = Ok m' → s_mem s = m'.
Proof using Type.
  intros Hpre Hmod Hs Hret E. destruct (smp_reach _ _ _ _ _ _ Hpre Hs) as (p & q & _ & Hp & Hq & Hok).
  destruct Hpre as (Hd & Hdm & Hn & Hb & Hmax & Ha).
  destruct (vanilla_run m ptrs disks bytes) as (m1 & E1 & Hw); [done..| |].
  { by rewrite <-(smp_end_aligned bytes n). }
  rewrite <-(smp_end_aligned bytes n) in Hw by done. simplify_ok.
  eapply writes_pq_unique; [done|done| |done]. by eapply machine_result.
Qed.

#[global] Instance smp_pq (n : positive) : PqGenerator (smp_run (Z.pos n)) (λ bytes, smp_end bytes (Z.pos n)).
Proof using Type.
  split.
  - intros. by apply bytes_le_smp_end.
  - intros m ptrs disks bytes Hd Hdm Hb Hmax Ha.
    destruct (check_disks _ _ _ _ Hd Ha) as (p & q & Hp & Hq & _). by eapply smp_run_ok.
Qed.
End smp_theorems.

Lemma run_thread_rtc `{N : Native} n disks bytes ptrs fuel t data c m m' mp ts :
  run_thread fuel data c m = Ok m' → mp ≠ MExit → ts !! t = Some (data, c) →
  rtc (raid6_smp_gen_syndrome n disks bytes ptrs)
    {| s_main := mp; s_threads := ts; s_mem := m |}
    {| s_main := mp; s_threads := <[t:=(data, PDone)]> ts; s_mem := m' |}.
Proof.
  revert c m ts. induction fuel as [|fuel IH]; intros c m ts; [done|].
  cbn [run_thread]. case_decide as Hc.
  - intros [= <-] _ Ht. subst c. by rewrite list_insert_id.
  - intros H Hmp Ht. apply bind_Ok in H as ([c' m1] & E & H).
    eapply rtc_l; [eapply smp_thread; [exact Hmp|exact Hc|exact Ht|exact E]|].
    rewrite <-(list_insert_insert_eq ts t (data, PDone) (data, c')).
    eapply IH; [exact H|done|]. apply list_lookup_insert_eq. by eapply lookup_lt_Some.
Qed.

Definition cpu (n i : Z) : thread_data :=
  {| td_disks := 5; td_bytes := 16; td_ptrs := sample_ptrs; thread_id := i; number_of_threads := n |}.

Lemma create_two `{N : Native} : rtc (raid6_smp_gen_syndrome 2 5 16 sample_ptrs) (smp_init sample_mem)
  {| s_main := MJoin 0; s_threads := [(cpu 2 0, PStart); (cpu 2 1, PStart)]; s_mem := sample_mem |}.
Proof.
  eapply rtc_l; [by apply smp_create|]. eapply rtc_l; [by apply smp_create|].
  eapply rtc_l; [by apply smp_created|]. apply rtc_refl.
Qed.

(** Thread 1 first, then thread 0. *)
Definition two_cpus_out : mem :=
  match (m ← run_thread (N := native64) 50 (cpu 2 1) PStart sample_mem;
         run_thread (N := native64) 50 (cpu 2 0) PStart m) with
  | Ok m => m | Err _ => ∅ end.
Definition two_cpus_final : machine :=
  {| s_main := MReturn; s_threads := [(cpu 2 0, PDone); (cpu 2 1, PDone)]; s_mem := two_cpus_out |}.

Lemma two_cpus_run :
  rtc (raid6_smp_gen_syndrome (N := native64) 2 5 16 sample_ptrs) (smp_init sample_mem) two_cpus_final.
Proof.
  etrans; [apply create_two|].
  destruct (run_thread (N := native64) 50 (cpu 2 1) PStart sample_mem) as [m1|] eqn:E1;
    [|vm_compute in E1; discriminate].
  etrans; [by apply (run_thread_rtc _ _ _ _ 50 1 (cpu 2 1) PStart sample_mem m1)|].
  destruct (run_thread (N := native64) 50 (cpu 2 0) PStart m1) as [m2|] eqn:E2;
    [|vm_compute in E1; injection E1 as <-; vm_compute in E2; discriminate].
  etrans; [by apply (run_thread_rtc _ _ _ _ 50 0 (cpu 2 0) PStart m1 m2)|].
  assert (two_cpus_out = m2) as <- by (unfold two_cpus_out; rewrite E1; bind_step; by rewrite E2).
  cbn [insert list_insert].
  eapply rtc_l; [by eapply smp_join|]. eapply rtc_l; [by eapply smp_join|].
  eapply rtc_l; [by apply smp_joined|]. apply rtc_refl.
Qed.

(** ** Buffers that are too short *)
Section overrun.
Context `{N : Native} (m : mem) (ptrs : list loc) (disks : nat) (bytes n L : Z).
Context (Hdisks : (3 ≤ disks)%nat) (Hdmax : Z.of_nat disks ≤ INT_MAX).
Context (Hn : 0 < n) (Hb : 0 ≤ bytes) (Hmax : bytes + 7 ≤ INT_MAX).
Context (Ha : array_ok m ptrs disks L) (HL : Forall (λ b, buf_len m b = L) (take disks ptrs)) (HbL : bytes ≤ L).
Local Abbreviation w := (Z.of_nat NSIZE).
Local Abbreviation data := (mk_data ptrs disks bytes n).

Definition same_lens (m1 : mem) : Prop := ∀ b, buf_len m1 b = buf_len m b.

(** A thread that has only touched words inside the buffers. *)
Definition inside (tid : Z) (c : pc) : Prop :=
  let rest d := thread_start bytes n tid ≤ d ∧ loop_end d (thread_stop bytes n tid) w = thread_end bytes n tid in
  match c with
  | PStart => True
  | PLoop d => rest d ∧ d ≤ L
  | PInner d z _ _ => rest d ∧ d < thread_stop bytes n tid ∧ d + w ≤ L ∧ (z ≤ disks - 3)%nat
  | PStoreQ d _ => rest d ∧ d < thread_stop bytes n tid ∧ d + w ≤ L
  | PDone => thread_end bytes n tid ≤ L
  end.

Lemma disk_len i b : (i < disks)%nat → ptrs !! i = Some b → buf_len m b = L.
Proof using HL. intros Hi Hl. rewrite Forall_lookup in HL. apply (HL i). by rewrite lookup_take_lt. Qed.

Lemma load_word_Err m1 b off f : load_word m1 b off = Err f → f = OutOfBounds.
Proof using Type. unfold load_word. destruct (load_bytes m1 b off NSIZE) eqn:E; intros [=]; subst. by eapply load_bytes_Err. Qed.

(** A step of such a thread runs off a buffer, or leads to one with less to do. *)
Lemma inside_step tid m1 c : 0 ≤ tid < n → same_lens m1 → inside tid c → c ≠ PDone →
  proc_thread_dep_syndrome (data tid) c m1 = Err OutOfBounds ∨
  ∃ c' m2, proc_thread_dep_syndrome (data tid) c m1 = Ok (c', m2) ∧ same_lens m2 ∧ inside tid c' ∧
    (pc_measure disks bytes n tid c' < pc_measure disks bytes n tid c)%nat.
Proof using All.
  intros Ht Hs Hi Hc. destruct (check_disks _ _ _ _ Hdisks Ha) as (p & q & Hp & Hq & _).
  pose proof (thread_range bytes n Hn Hb Hmax tid Ht) as Hr. destruct NSIZE_posZ as [HN HN8].
  unfold proc_thread_dep_syndrome. run (prologue_ok ptrs disks bytes n p q) by done.
  cbn [l_start l_stop l_z0 l_p l_q td_ptrs mk_data].
  destruct c as [|d|d [|z] wp0 wq0|d wq0|]; [| | | | |done]; cbn [inside] in Hi.
  - right. eexists _, _. split; [done|]. split; [done|]. split; [cbn; repeat split; lia|cbn; lia].
  - destruct Hi as [[Hd He] HdL]. destruct (Z.ltb_spec d (thread_stop bytes n tid)) as [Hlt|Hge].
    + destruct (array_disk Ha (disks - 3)) as (b & Hbz & _); [lia|]. rewrite (nth_ptr_nat ptrs _ (disks - 3) b) by done.
      bind_step. destruct (load_word m1 b d) as [v|f] eqn:E; [right|left; by rewrite (load_word_Err _ _ _ _ E)].
      apply load_word_Ok in E as [_ E]. rewrite Hs, (disk_len (disks - 3) b ltac:(lia) Hbz) in E.
      eexists _, _. split; [done|]. split; [done|]. split; [cbn; repeat split; (done || lia)|]. cbn. unfold iters. rewrite Nat2Z.id. nia.
    + right. eexists _, _. split; [done|]. split; [done|]. split; [|cbn; lia]. cbn. rewrite <-He. by rewrite loop_end_done.
  - destruct (store_word m1 p d wp0) as [m2|f] eqn:E; [right|left; by rewrite (store_bytes_Err _ _ _ _ _ E)].
    apply store_word_Ok in E as (_ & _ & El). eexists _, _. split; [done|].
    split; [intros b; by rewrite El|]. split; [by destruct Hi as (? & ? & ? & ?)|]. cbn. lia.
  - destruct Hi as (Hd & Hlt & HdL & Hz). destruct (array_disk Ha z) as (b & Hbz & _); [lia|].
    rewrite (nth_ptr_nat ptrs _ z b) by done. bind_step.
    destruct (load_word m1 b d) as [v|f] eqn:E; [right|left; by rewrite (load_word_Err _ _ _ _ E)].
    eexists _, _. split; [done|]. split; [done|]. split; [cbn; repeat split; (done || lia)|cbn; lia].
  - destruct (store_word m1 q d wq0) as [m2|f] eqn:E; [right|left; by rewrite (store_bytes_Err _ _ _ _ _ E)].
    apply store_word_Ok in E as (_ & _ & El). bind_step. destruct Hi as ([Hd He] & Hlt & HdL).
    run int_add_ok by (unfold INT_MIN; lia). eexists _, _. split; [done|].
    split; [intros b; by rewrite El|]. rewrite loop_end_step in He by lia. split; [cbn; repeat split; lia|]. cbn. lia.
Qed.

(** Thread by thread to the one that needs more than there is. *)
Lemma create_threads k : Z.of_nat k ≤ n → rtc (raid6_smp_gen_syndrome n (Z.of_nat disks) bytes ptrs) (smp_init m)
  {| s_main := MCreate (Z.of_nat k); s_threads := (λ i, (data i, PStart)) <$> seqZ 0 (Z.of_nat k); s_mem := m |}.
Proof using All.
  induction k as [|k IH]; intros Hk; [apply rtc_refl|]. eapply rtc_r; [apply IH; lia|].
  replace (Z.of_nat (S k)) with (Z.of_nat k + 1) by lia. rewrite seqZ_app by lia. rewrite fmap_app. cbn [fmap list_fmap seqZ].
  apply smp_create. lia.
Qed.

Lemma runs_off tid mp ts m1 c : 0 ≤ tid < n → L < thread_end bytes n tid → mp ≠ MExit →
  ts !! Z.to_nat tid = Some (data tid, c) → same_lens m1 → inside tid c →
  ∃ s c', rtc (raid6_smp_gen_syndrome n (Z.of_nat disks) bytes ptrs) {| s_main := mp; s_threads := ts; s_mem := m1 |} s ∧
    s_threads s !! Z.to_nat tid = Some (data tid, c') ∧ proc_thread_dep_syndrome (data tid) c' (s_mem s) = Err OutOfBounds.
Proof using All.
  intros Ht He Hmp. revert ts m1 c.
  assert (∀ k ts m1 c, (pc_measure disks bytes n tid c < k)%nat → ts !! Z.to_nat tid = Some (data tid, c) →
    same_lens m1 → inside tid c → ∃ s c', rtc (raid6_smp_gen_syndrome n (Z.of_nat disks) bytes ptrs)
      {| s_main := mp; s_threads := ts; s_mem := m1 |} s ∧
      s_threads s !! Z.to_nat tid = Some (data tid, c') ∧
      proc_thread_dep_syndrome (data tid) c' (s_mem s) = Err OutOfBounds) as Hk; [|intros ts m1 c; by eapply (Hk _ ts m1 c (Nat.lt_succ_diag_r _))].
  induction k as [|k IH]; intros ts m1 c Hk Hts Hs Hi; [lia|].
  assert (c ≠ PDone) as Hc by (intros ->; cbn in Hi; lia).
  destruct (inside_step tid m1 c Ht Hs Hi Hc) as [E|(c' & m2 & E & Hs' & Hi' & Hm)].
  - eexists _, c. split; [apply rtc_refl|done].
  - destruct (IH (<[Z.to_nat tid := (data tid, c')]> ts) m2 c') as (s & c2 & H & Hf); [lia| |done|done|].
    + apply list_lookup_insert_eq. by eapply lookup_lt_Some.
    + exists s, c2. split; [|done]. eapply rtc_l; [by eapply smp_thread|done].
Qed.

(** C36: the exact need of the threads, from the other side: buffers as long
    as the call says, or longer, but shorter than the last word some thread
    touches, are overrun.  With [smp_correct] the threads are safe if and only if the
    buffers reach to [smp_end]: to [bytes] rounded up to words when the chunks
    are whole words ([smp_end_aligned]), and up to seven bytes further when not,
    where the sequential implementation needs no more than before. *)
Theorem smp_overrun : L < smp_end bytes n →
  ∃ s t c, rtc (raid6_smp_gen_syndrome n (Z.of_nat disks) bytes ptrs) (smp_init m) s ∧
    s_threads s !! t = Some (data (Z.of_nat t), c) ∧
    proc_thread_dep_syndrome (data (Z.of_nat t)) c (s_mem s) = Err OutOfBounds.
Proof using All.
  intros He. destruct (smp_end_inv bytes n Hn Hb Hmax L) as (tid & Ht & Hend); [lia|].
  pose proof (create_threads (Z.to_nat (tid + 1)) ltac:(lia)) as Hc.
  edestruct (runs_off tid) with (ts := (λ i, (data i, PStart)) <$> seqZ 0 (Z.of_nat (Z.to_nat (tid + 1))))
    (m1 := m) (c := PStart) (mp := MCreate (Z.of_nat (Z.to_nat (tid + 1)))) as (s & c & Hr & Hs & E); [done|done|done| |done|done|].
  - apply list_lookup_fmap_Some. exists tid. split; [done|]. apply lookup_seqZ. lia.
  - exists s, (Z.to_nat tid), c. rewrite Z2Nat.id by lia. split; [by etrans|done].
Qed.
End overrun.

(** ** Witnesses *)
Lemma smp_correct_witness :
  ¬ smp_faults (N := native64) two_cpus_final ∧
  (s_main two_cpus_final = MReturn → 16 ≤ smp_end (N := native64) 16 2 ∧
    writes_pq sample_mem sample_ptrs 5 (smp_end (N := native64) 16 2) (s_mem two_cpus_final)).
Proof.
  apply (smp_correct (N := native64) sample_mem sample_ptrs 5 16 2);
    [by_decide|apply two_cpus_run].
Defined.

Lemma smp_overrun_witness : 16 < smp_end (N := native64) 16 3 ∧
  ∃ s t c, rtc (raid6_smp_gen_syndrome (N := native64) 3 5 16 sample_ptrs) (smp_init sample_mem) s ∧
    s_threads s !! t = Some (mk_data sample_ptrs 5 16 3 (Z.of_nat t), c) ∧
    proc_thread_dep_syndrome (N := native64) (mk_data sample_ptrs 5 16 3 (Z.of_nat t)) c (s_mem s) = Err OutOfBounds.
Proof.
  split; [vm_compute; reflexivity|].
  apply (smp_overrun (N := native64) sample_mem sample_ptrs 5 16 3 16);
    [lia|unfold INT_MAX; lia|lia|lia|unfold INT_MAX; lia|by_decide|by_decide|lia|vm_compute; reflexivity].
Defined.

Lemma smp_terminates_witness :
  sn (raid6_smp_gen_syndrome (N := native64) 2 5 16 sample_ptrs) (smp_init sample_mem) ∧
  (nf (raid6_smp_gen_syndrome (N := native64) 2 5 16 sample_ptrs) (smp_init sample_mem) →
     s_main (smp_init sample_mem) = MReturn ∨ s_main (smp_init sample_mem) = MExit).
Proof.
  apply (smp_terminates (N := native64) sample_mem sample_ptrs 5 16 2); [by_decide|apply rtc_refl].
Defined.

Lemma smp_refines_vanilla_witness : two_cpus_out = sample_out.
Proof.
  apply (smp_refines_vanilla (N := native64) sample_mem sample_ptrs 5 16 2 two_cpus_final sample_out);
    [by_decide|reflexivity|apply two_cpus_run|reflexivity|vm_compute; reflexivity].
Defined.
