(* ===== verification/Validator.v ===== *)
(** * barracuda_deamon/validator.cu and dummy/raid6dummy.cu

    The validator runs an implementation next to the vanilla one on a small
    array and compares the check disks.  Its theorem is proved for every pair
    of implementations that keep the interface [PqGenerator]. *)
From S2P Require Import Prelude GF256 Word Memory Syndrome Vanilla Smp Service.
Local Open Scope Z_scope.

(** ** The dummy implementation *)
Definition raid6_dummy_gen_syndrome : syndrome_func := λ disks bytes ptrs m,
  last ← nth_ptr ptrs (disks - 1);
  first ← nth_ptr ptrs 0;
  m ← memcpy m last first bytes;
  prev ← nth_ptr ptrs (disks - 2);
  first ← nth_ptr ptrs 0;
  memcpy m prev first bytes.

(** ** The validator *)
Definition EXIT_SUCCESS : Z := 0.
Definition EXIT_FAILURE : Z := 1.

(** The loop of [compare_syndrome] from byte [i], [n] bytes left. *)
Fixpoint compare_bytes (n : nat) (i : Z) (xor_van xor_cho syn_van syn_cho : loc) (m : mem) : result Z :=
  match n with
  | O => Ok EXIT_SUCCESS
  | S n =>
      xv ← load_u8 m xor_van i;
      xc ← load_u8 m xor_cho i;
      if negb (xv =? xc) then Ok EXIT_FAILURE else
      sv ← load_u8 m syn_van i;
      sc ← load_u8 m syn_cho i;
      if negb (sv =? sc) then Ok EXIT_FAILURE else
      compare_bytes n (i + 1) xor_van xor_cho syn_van syn_cho m
  end.

Definition compare_syndrome (disks bytes : Z) (ptrs_van ptrs_cho : list loc) (m : mem) : result Z :=
  xor_van ← nth_ptr ptrs_van (disks - 2);
  xor_cho ← nth_ptr ptrs_cho (disks - 2);
  syn_van ← nth_ptr ptrs_van (disks - 1);
  syn_cho ← nth_ptr ptrs_cho (disks - 1);
  compare_bytes (Z.to_nat bytes) 0 xor_van xor_cho syn_van syn_cho m.

(** What [printf("%u ")] shows of a [char]: it is converted to [int] first. *)
Definition shown_char (b : Z) : Z := if b <? 128 then b else b - 256 + 2 ^ 32.

(** The loop over [tmp], and the two disks of both arrays: the numbers that are
    printed. *)
Definition print_disk (bytes : Z) (tmp : loc) (m : mem) : result (list Z) :=
  for_lt 0 bytes 1 (λ j out, b ← load_u8 m tmp j; Ok (out ++ [shown_char b])) [].

Definition explicit_output (vanilla_dptrs choosen_dptrs : list loc) (m : mem) : result (list Z) :=
  let bytes := 128 in
  for_lt 5 7 1 (λ i out,
    tmp ← nth_ptr choosen_dptrs i;
    cho ← print_disk bytes tmp m;
    tmp ← nth_ptr vanilla_dptrs i;
    van ← print_disk bytes tmp m;
    Ok (out ++ cho ++ van)) [].

Section validator.
Context (junk : loc → nat → Z).

(** The two [memset]s of the fill loop. *)
Definition fill_disk (bytes : Z) (vd cd : list loc) (i : Z) (m : mem) : result mem :=
  vb ← nth_ptr vd i;
  m ← memset m vb i bytes;
  cb ← nth_ptr cd i;
  memset m cb i bytes.

Definition validate_implemenataion (gen_syndrome : syndrome_func)
    (gen_syndrome_list : list syndrome_func) (m : mem) : result (Z * mem) :=
  let bytes := 512 in
  vanilla_gen_syndrome ← of_option OutOfBounds (gen_syndrome_list !! 0%nat);
  let '(vanilla_dptrs, m) := allocate_host_example_dpointer junk bytes 7 m in
  let '(choosen_dptrs, m) := allocate_host_example_dpointer junk bytes 7 m in
  m ← for_lt 0 7 1 (fill_disk bytes vanilla_dptrs choosen_dptrs) m;
  m ← vanilla_gen_syndrome 7 bytes vanilla_dptrs m;
  m ← gen_syndrome 7 bytes choosen_dptrs m;
  retval ← compare_syndrome 7 bytes vanilla_dptrs choosen_dptrs m;
  _ ← explicit_output vanilla_dptrs choosen_dptrs m;
  v0 ← nth_ptr vanilla_dptrs 0;
  m ← free m v0;
  c0 ← nth_ptr choosen_dptrs 0;
  m ← free m c0;
  Ok (retval, m).
End validator.

(** ** Printing *)
Definition shown_disk (m : mem) (n : nat) (b : loc) : list Z := (λ j, shown_char (peek m b j)) <$> seq 0 n.

Lemma print_disk_ok m len tmp n : buf_ok m len tmp → Z.of_nat n ≤ len → Z.of_nat n ≤ INT_MAX →
  print_disk (Z.of_nat n) tmp m = Ok (shown_disk m n tmp).
Proof.
  intros Hb Hn Hmax. unfold print_disk.
  destruct (for_lt_inv (λ i out, 0 ≤ i ∧ out = shown_disk m (Z.to_nat i) tmp)
    (λ j out, b ← load_u8 m tmp j; Ok (out ++ [shown_char b])) 0 (Z.of_nat n) 1) with (s := @nil Z)
    as (out & -> & _ & ->); [lia|done|lia| |done|].
  - intros j out Hj _ [Hj0 ->]. run (load_u8_ok m tmp j len) by (done || lia). eexists. split; [done|]. split; [lia|].
    replace (Z.to_nat (j + 1)) with (S (Z.to_nat j)) by lia. unfold shown_disk. by rewrite seq_S, fmap_app.
  - by rewrite (loop_end_unique _ _ _ (Z.of_nat n) (Z.of_nat n)), Nat2Z.id by lia.
Qed.

(** The explicit output shows the first 128 bytes of both check disks of the
    tested and of the reference implementation, a byte from 128 on as a number
    close to 2^32. *)
Theorem explicit_output_shows m vd cd cp cq vp vq : array_ok m vd 7 512 → array_ok m cd 7 512 →
  cd !! 5%nat = Some cp → vd !! 5%nat = Some vp → cd !! 6%nat = Some cq → vd !! 6%nat = Some vq →
  explicit_output vd cd m = Ok (concat (shown_disk m 128 <$> [cp; vp; cq; vq])).
Proof.
  intros Hv Hc Hcp Hvp Hcq Hvq. unfold explicit_output.
  assert (∀ b, buf_ok m 512 b → print_disk 128 b m = Ok (shown_disk m 128 b)) as Hp.
  { intros b Hb. change 128 with (Z.of_nat 128) at 1. apply (print_disk_ok m 512); [done|done|done]. }
  assert (∀ i c v out, (i < 7)%nat → cd !! i = Some c → vd !! i = Some v →
    (tmp ← nth_ptr cd (Z.of_nat i); cho ← print_disk 128 tmp m; tmp ← nth_ptr vd (Z.of_nat i); van ← print_disk 128 tmp m;
     Ok (out ++ cho ++ van)) = Ok (out ++ shown_disk m 128 c ++ shown_disk m 128 v)) as Hi.
  { intros i c v out Hi Hci Hvi. run (nth_ptr_nat cd (Z.of_nat i) i c) by done. run Hp by by eapply (array_ptr Hc).
    run (nth_ptr_nat vd (Z.of_nat i) i v) by done. run Hp by by eapply (array_ptr Hv). done. }
  unfold for_lt. change (S (Z.to_nat (7 - 5))) with 3%nat. cbn [for_fuel]. change (5 <? 7) with true. cbv iota.
  pose proof (Hi 5%nat cp vp [] ltac:(lia) Hcp Hvp) as E5. change (Z.of_nat 5) with 5 in E5. run E5. change (int_add 5 1) with (Ok 6). bind_step.
  change (6 <? 7) with true. cbv iota.
  pose proof (λ out, Hi 6%nat cq vq out ltac:(lia) Hcq Hvq) as E6. change (Z.of_nat 6) with 6 in E6. run E6.
  change (int_add 6 1) with (Ok 7). bind_step. change (7 <? 7) with false. cbv iota. f_equal.
Qed.

(** ** Comparing *)
Section compare.
Context (m : mem) (xv xc sv sc : loc) (len : Z).
Context (Hxv : buf_ok m len xv) (Hxc : buf_ok m len xc) (Hsv : buf_ok m len sv) (Hsc : buf_ok m len sc).

Definition same_at (k : nat) : Prop := peek m xv k = peek m xc k ∧ peek m sv k = peek m sc k.

Lemma compare_bytes_ok n i : 0 ≤ i → i + Z.of_nat n ≤ len →
  ∃ r, compare_bytes n i xv xc sv sc m = Ok r ∧
    (r = EXIT_SUCCESS ∧ (∀ k, i ≤ Z.of_nat k < i + Z.of_nat n → same_at k) ∨
     r = EXIT_FAILURE ∧ ∃ k, i ≤ Z.of_nat k < i + Z.of_nat n ∧ ¬ same_at k).
Proof using All.
  revert i. induction n as [|n IH]; intros i Hi Hn.
  { exists EXIT_SUCCESS. split; [done|]. left. split; [done|]. lia. }
  cbn [compare_bytes].
  rewrite (load_u8_ok m xv i len), (load_u8_ok m xc i len) by (done || lia). bind_step.
  rewrite (load_u8_ok m sv i len), (load_u8_ok m sc i len) by (done || lia). bind_step.
  destruct (Z.eqb_spec (peek m xv (Z.to_nat i)) (peek m xc (Z.to_nat i))) as [Ex|Ex]; cbn [negb].
  2: { eexists; split; [done|]; right; split; [done|].
       exists (Z.to_nat i). split; [lia|]. by intros [? _]. }
  destruct (Z.eqb_spec (peek m sv (Z.to_nat i)) (peek m sc (Z.to_nat i))) as [Es|Es]; cbn [negb].
  2: { eexists; split; [done|]; right; split; [done|].
       exists (Z.to_nat i). split; [lia|]. by intros [_ ?]. }
  destruct (IH (i + 1)) as (r & E & H); [lia..|]. exists r. split; [done|].
  destruct H as [[-> H]|[-> (k & Hk & H)]]; [left|right; split; [done|exists k; split; [lia|done]]].
  split; [done|]. intros k Hk. destruct (decide (Z.of_nat k = i)) as [<-|]; [|apply H; lia].
  rewrite Nat2Z.id in Ex, Es. done.
Qed.
End compare.

Lemma compare_syndrome_ok m vd cd disks bytes :
  (2 ≤ disks)%nat → 0 ≤ bytes → array_ok m vd disks bytes → array_ok m cd disks bytes →
  ∃ r, compare_syndrome (Z.of_nat disks) bytes vd cd m = Ok r ∧
    (r = EXIT_SUCCESS ∨ r = EXIT_FAILURE) ∧
    (r = EXIT_SUCCESS ↔ ∀ z k, z = (disks - 2)%nat ∨ z = (disks - 1)%nat → Z.of_nat k < bytes →
       disk_byte m vd z k = disk_byte m cd z k).
Proof.
  intros Hd Hb Hv Hc.
  destruct (array_disk Hv (disks - 2)) as (xv & Exv & Oxv); [lia|].
  destruct (array_disk Hc (disks - 2)) as (xc & Exc & Oxc); [lia|].
  destruct (array_disk Hv (disks - 1)) as (sv & Esv & Osv); [lia|].
  destruct (array_disk Hc (disks - 1)) as (sc & Esc & Osc); [lia|].
  destruct (compare_bytes_ok m xv xc sv sc bytes Oxv Oxc Osv Osc (Z.to_nat bytes) 0)
    as (r & E & H); [lia..|].
  exists r. split; [|split].
  - unfold compare_syndrome.
    run (nth_ptr_nat vd (Z.of_nat disks - 2) (disks - 2) xv) by (done || lia).
    run (nth_ptr_nat cd (Z.of_nat disks - 2) (disks - 2) xc) by (done || lia).
    run (nth_ptr_nat vd (Z.of_nat disks - 1) (disks - 1) sv) by (done || lia).
    by run (nth_ptr_nat cd (Z.of_nat disks - 1) (disks - 1) sc) by (done || lia).
  - naive_solver.
  - assert (∀ k, same_at m xv xc sv sc k ↔ ∀ z, z = (disks - 2)%nat ∨ z = (disks - 1)%nat →
      disk_byte m vd z k = disk_byte m cd z k) as Hs.
    { intros k. unfold same_at, disk_byte. split.
      - intros [H1 H2] z [->| ->]; rewrite ?Exv, ?Exc, ?Esv, ?Esc; simp_default; by f_equal.
      - intros Hz. pose proof (Hz _ (or_introl eq_refl)) as H1.
        pose proof (Hz _ (or_intror eq_refl)) as H2.
        rewrite Exv, Exc in H1. rewrite Esv, Esc in H2.
        injection H1 as ->. by injection H2 as ->. }
    destruct H as [[-> H]|[-> (k & Hk & H)]]; (split; [intros Hr|intros Hall]); try done.
    + intros z k Hz Hk. apply Hs; [apply H; lia|done].
    + exfalso. apply H, Hs. intros z Hz. apply Hall; [done|lia].
Qed.

(** C25: [compare_syndrome] answers EXIT_SUCCESS exactly when both check
    disks of the two arrays agree in all [bytes] positions. *)
Theorem compare_syndrome_correct m vd cd disks bytes :
  (2 ≤ disks)%nat → 0 ≤ bytes → array_ok m vd disks bytes → array_ok m cd disks bytes →
  ∃ r, compare_syndrome (Z.of_nat disks) bytes vd cd m = Ok r ∧
    (r = EXIT_SUCCESS ∨ r = EXIT_FAILURE) ∧
    (r = EXIT_SUCCESS ↔ ∀ z k, z = (disks - 2)%nat ∨ z = (disks - 1)%nat → Z.of_nat k < bytes →
       disk_byte m vd z k = disk_byte m cd z k).
Proof. apply compare_syndrome_ok. Qed.

(** ** Filling *)
(** After the fill loop has done [i] disks: they hold their own number. *)
Record filled (m0 : mem) (vd cd : list loc) (bytes : Z) (i : nat) (m : mem) : Prop := {
  fi_frame : ∀ b, b ∉ vd → b ∉ cd → m !! b = m0 !! b;
  fi_ok : ∀ b l, buf_ok m0 l b → buf_ok m l b;
  fi_val : ∀ j b k, (j < i)%nat → vd !! j = Some b ∨ cd !! j = Some b →
    Z.of_nat k < bytes → peek m b k = Z.of_nat j
}.

Section fill.
Context (m0 : mem) (vd cd : list loc) (bytes : Z) (n : nat).
Context (Hn : (n ≤ 256)%nat) (Hb : 0 ≤ bytes) (Hvl : length vd = n) (Hcl : length cd = n).
Context (Hnd : NoDup (vd ++ cd)) (Hok : Forall (buf_ok m0 bytes) (vd ++ cd)).

Lemma vd_inj i j b : vd !! i = Some b → vd !! j = Some b ∨ cd !! j = Some b → i = j.
Proof using All.
  apply NoDup_app in Hnd as (Hv & Hvc & _). intros Hi [Hj|Hj].
  - by eapply NoDup_lookup.
  - destruct (Hvc b); by eapply list_elem_of_lookup_2.
Qed.
Lemma cd_inj i j b : cd !! i = Some b → vd !! j = Some b ∨ cd !! j = Some b → i = j.
Proof using All.
  apply NoDup_app in Hnd as (_ & Hvc & Hc). intros Hi [Hj|Hj].
  - destruct (Hvc b); by eapply list_elem_of_lookup_2.
  - by eapply NoDup_lookup.
Qed.

(** One [memset] of a disk with its own number. *)
Lemma fill_one m b i : (i < n)%nat → vd !! i = Some b ∨ cd !! i = Some b →
  filled m0 vd cd bytes i m →
  ∃ m', memset m b (Z.of_nat i) bytes = Ok m' ∧ filled m0 vd cd bytes i m' ∧
    (∀ k, Z.of_nat k < bytes → peek m' b k = Z.of_nat i) ∧ ∀ b', b' ≠ b → m' !! b' = m !! b'.
Proof using All.
  intros Hi Hbi [Hf Ho Hv].
  assert (b ∈ vd ∨ b ∈ cd) as Hin by (destruct Hbi; [left|right]; by eapply list_elem_of_lookup_2).
  assert (buf_ok m bytes b) as Hbo.
  { apply Ho. rewrite Forall_forall in Hok. apply Hok, elem_of_app. done. }
  destruct (memset_spec m b (Z.of_nat i) bytes bytes Hbo ltac:(lia)) as (m' & E & Hst).
  exists m'. split_and!; [done| | |apply Hst].
  - destruct Hst as [Sf _ So Sp]. split.
    + intros b' H1 H2. rewrite Sf; [by apply Hf|]. intros ->. destruct Hin; done.
    + auto.
    + intros j b' k Hj Hbj Hk. unfold peek. rewrite Sf; [by apply (Hv j)|].
      intros ->. destruct Hbi as [H|H]; [pose proof (vd_inj _ _ _ H Hbj)|pose proof (cd_inj _ _ _ H Hbj)]; lia.
  - intros k Hk. rewrite (st_peek _ _ _ _ _ Hst), length_replicate.
    rewrite decide_True by lia. rewrite lookup_replicate_2 by lia. cbn.
    unfold to_u8. apply Z.mod_small. lia.
Qed.

Lemma fill_disk_ok m i : (i < n)%nat → filled m0 vd cd bytes i m →
  ∃ m', fill_disk bytes vd cd (Z.of_nat i) m = Ok m' ∧ filled m0 vd cd bytes (S i) m'.
Proof using All.
  intros Hi Hfi. unfold fill_disk.
  destruct (lookup_lt_is_Some_2 vd i ltac:(lia)) as [vb Hvb].
  destruct (lookup_lt_is_Some_2 cd i ltac:(lia)) as [cb Hcb].
  run (nth_ptr_nat vd _ i vb) by done. run (nth_ptr_nat cd _ i cb) by done.
  destruct (fill_one m vb i Hi (or_introl Hvb) Hfi) as (m1 & E1 & Hf1 & Hv1 & _). run E1.
  destruct (fill_one m1 cb i Hi (or_intror Hcb) Hf1) as (m2 & E2 & Hf2 & Hv2 & Hfr2).
  exists m2. split; [done|]. destruct Hf2 as [Ff Fo Fv]. split; [done..|].
  intros j b k Hj Hbj Hk. destruct (decide (j = i)) as [->|]; [|apply (Fv j b k); [lia|done..]].
  destruct Hbj as [Hbj|Hbj]; simplify_eq; [|by apply Hv2].
  unfold peek. rewrite Hfr2; [by apply Hv1|]. intros ->.
  destruct (proj1 (NoDup_app vd cd) Hnd) as (_ & Hvc & _). destruct (Hvc cb); by eapply list_elem_of_lookup_2.
Qed.

Lemma fill_ok : ∃ m', for_lt 0 (Z.of_nat n) 1 (fill_disk bytes vd cd) m0 = Ok m' ∧
  filled m0 vd cd bytes n m'.
Proof using All.
  destruct (for_lt_inv (λ i m, 0 ≤ i ∧ filled m0 vd cd bytes (Z.to_nat i) m)
    (fill_disk bytes vd cd) 0 (Z.of_nat n) 1) with (s := m0) as (m' & E & H0 & H).
  - lia.
  - done.
  - unfold INT_MAX. lia.
  - intros i m Hi _ [H0 Hm]. destruct (fill_disk_ok m (Z.to_nat i)) as (m' & E & Hm'); [lia|done|].
    rewrite Z2Nat.id in E by lia. exists m'. split; [done|]. split; [lia|].
    by replace (Z.to_nat (i + 1)) with (S (Z.to_nat i)) by lia.
  - split; [lia|]. split; [done..|]. intros j b k Hj. lia.
  - exists m'. split; [done|].
    rewrite (loop_end_unique _ _ _ (Z.of_nat n) (Z.of_nat n)), Nat2Z.id in H by lia. done.
Qed.
End fill.

(** ** Running the validator *)
Lemma array_live m d n len b : array_ok m d n len → length d = n → b ∈ d → is_Some (m !! b).
Proof.
  intros Ha Hl [i Hi]%list_elem_of_lookup_1. pose proof (lookup_lt_Some _ _ _ Hi).
  pose proof (array_ptr Ha i b ltac:(lia) Hi) as (buf & Hb & _)%buf_ok_Some. by exists buf.
Qed.

Section validate.
Context (junk : loc → nat → Z) (van cho : syndrome_func) (pv pc : Z → Z).
Context `{Hvan : !PqGenerator van pv} `{Hcho : !PqGenerator cho pc}.

(** P and Q of an array whose disks hold their own number. *)
Definition filled_col : list Z := [0; 1; 2; 3; 4].

Lemma filled_column m0 m vd cd k d : filled m0 vd cd 512 7 m → d = vd ∨ d = cd → length d = 7%nat →
  (k < 512)%nat → column m d 5 k = filled_col.
Proof using Type.
  intros [_ _ Hv] Hd Hl Hk.
  assert (∀ j b, (j < 7)%nat → d !! j = Some b → peek m b k = Z.of_nat j) as Hj.
  { intros j b Hj Hb. apply (Hv j); [done| |lia]. destruct Hd; subst; auto. }
  destruct d as [|b0 [|b1 [|b2 [|b3 [|b4 d]]]]]; try discriminate Hl.
  unfold column. cbn [take fmap list_fmap].
  rewrite (Hj 0%nat b0), (Hj 1%nat b1), (Hj 2%nat b2), (Hj 3%nat b3), (Hj 4%nat b4); done || lia.
Qed.

(** Running an implementation on one of two disjoint arrays. *)
Lemma run_on gen pad `{!PqGenerator gen pad} m d : pad 512 ≤ 512 → array_ok m d 7 512 →
  ∃ m', gen 7 512 d m = Ok m' ∧ writes_pq m d 7 512 m'.
Proof using Type.
  intros Hpad Ha. pose proof (pad_ge 512 ltac:(lia) ltac:(unfold INT_MAX; lia)) as Hge.
  replace 512 with (pad 512) in Ha by lia.
  destruct (pq_run m d 7 512 ltac:(lia) ltac:(done) ltac:(lia) ltac:(done) Ha) as (m' & E & Hw).
  exists m'. replace (pad 512) with 512 in Hw by lia. done.
Qed.

Lemma writes_other m d e len m' b : array_ok m d 7 512 → writes_pq m d 7 len m' →
  length d = 7%nat → NoDup (d ++ e) → b ∈ e → m' !! b = m !! b.
Proof using Type.
  intros Ha [[Hf _ _ _] _ _] Hl (_ & Hdis & _)%NoDup_app Hb.
  apply Hf; intros Hd; apply (Hdis b); try done; by eapply list_elem_of_lookup_2.
Qed.

(** The contents of a check disk after a run. *)
Lemma check_value m d m' z k : array_ok m d 7 512 → writes_pq m d 7 512 m' → (k < 512)%nat →
  column m d 5 k = filled_col → z = 5%nat ∨ z = 6%nat →
  disk_byte m' d z k = Some (if decide (z = 5%nat) then gen_p filled_col else gen_q filled_col).
Proof using Type.
  intros Ha [[_ _ Hp Hq] _ _] Hk Hc Hz. unfold disk_byte.
  destruct (array_disk Ha 5) as (p & Ep & _); [lia|]. destruct (array_disk Ha 6) as (q & Eq & _); [lia|].
  destruct Hz as [-> | ->]; [rewrite Ep|rewrite Eq]; simp_default; f_equal.
  - rewrite (Hp p k Ep) by lia. unfold p_byte. cbn [Nat.sub]. by rewrite Hc.
  - rewrite (Hq q k Eq) by lia. unfold q_byte. cbn [Nat.sub]. by rewrite Hc.
Qed.

(** Both runs leave the same P and Q. *)
Lemma compare_runs m2 m3 m4 m5 vd cd : filled m2 vd cd 512 7 m3 →
  length vd = 7%nat → length cd = 7%nat → NoDup (vd ++ cd) → NoDup (cd ++ vd) →
  array_ok m3 vd 7 512 → array_ok m4 vd 7 512 → array_ok m4 cd 7 512 →
  writes_pq m3 vd 7 512 m4 → writes_pq m4 cd 7 512 m5 →
  compare_syndrome 7 512 vd cd m5 = Ok EXIT_SUCCESS.
Proof using Type.
  intros Hfill Lv Lc Hnd Hnd' Ha3 Ha4 Ha4c Hw4 Hw5.
  destruct (compare_syndrome_ok m5 vd cd 7 512) as (r & E & _ & Hr); [lia|lia|by eapply array_ok_writes..|].
  change (Z.of_nat 7) with 7 in E. rewrite E.
  enough (r = EXIT_SUCCESS) as -> by done. apply Hr. intros z k Hz Hk.
  assert (Hk' : (k < 512)%nat) by lia. change (7 - 2)%nat with 5%nat in Hz. change (7 - 1)%nat with 6%nat in Hz.
  transitivity (disk_byte m4 vd z k).
  { unfold disk_byte. destruct (vd !! z) as [b|] eqn:Eb; [|done]. simp_default. apply (f_equal Some). unfold peek.
    rewrite (writes_other m4 cd vd 512 m5 b) by (done || by eapply list_elem_of_lookup_2). done. }
  rewrite (check_value m3 vd m4 z k), (check_value m4 cd m5 z k); try done.
  - rewrite <-(filled_column m2 m3 vd cd k cd Hfill (or_intror eq_refl) Lc Hk').
    apply column_frame. intros b Hb. unfold peek.
    rewrite (writes_other m3 vd cd 512 m4 b); try done.
    apply elem_of_take in Hb as (i & Hi & _). by eapply list_elem_of_lookup_2.
  - by apply (filled_column m2 m3 vd cd k vd Hfill (or_introl eq_refl)).
Qed.


(** The end of the validator: it frees the first buffer of each array, the
    others stay. *)
Lemma free_firsts m vd cd (r : Z) : NoDup (vd ++ cd) → (0 < length vd)%nat → (0 < length cd)%nat →
  (∀ b, b ∈ vd ++ cd → is_Some (m !! b)) →
  ∃ m', (v0 ← nth_ptr vd 0; m ← free m v0; c0 ← nth_ptr cd 0; m ← free m c0; Ok (r, m)) = Ok (r, m') ∧
    ∀ b, b ∈ drop 1 vd ++ drop 1 cd → is_Some (m' !! b).
Proof using Type.
  intros Hnd Lv Lc Hlive. destruct vd as [|v0 vd]; [cbn in Lv; lia|]. destruct cd as [|c0 cd]; [cbn in Lc; lia|].
  apply NoDup_app in Hnd as (Nv0 & Hvc & Nc0). apply NoDup_cons in Nv0 as [Hv0 _]. apply NoDup_cons in Nc0 as [Hc0 _].
  assert (Hne : c0 ≠ v0) by (intros ->; apply (Hvc v0); left).
  run (nth_ptr_nat (v0 :: vd) 0 0 v0) by done. unfold free. destruct (Hlive v0) as [? ->]; [left|]. bind_step.
  run (nth_ptr_nat (c0 :: cd) 0 0 c0) by done.
  rewrite lookup_delete_ne by done. destruct (Hlive c0) as [? ->]; [apply elem_of_app; right; left|]. bind_step.
  eexists. split; [reflexivity|]. intros b Hb. cbn [drop] in Hb. apply elem_of_app in Hb. rewrite !lookup_delete_ne.
  - apply Hlive, elem_of_app. destruct Hb; [left|right]; by right.
  - intros <-. destruct Hb as [Hb|Hb]; [done|]. apply (Hvc v0); [left|by right].
  - intros <-. destruct Hb as [Hb|Hb]; [|done]. apply (Hvc c0); [by right|left].
Qed.

Lemma validator_run rest m : pv 512 ≤ 512 → pc 512 ≤ 512 →
  ∃ vd cd m', validate_implemenataion junk cho (van :: rest) m = Ok (EXIT_SUCCESS, m') ∧
    length vd = 7%nat ∧ length cd = 7%nat ∧ NoDup (vd ++ cd) ∧
    Forall (λ b, m !! b = None) (vd ++ cd) ∧
    ∀ b, b ∈ drop 1 vd ++ drop 1 cd → is_Some (m' !! b).
Proof using Hvan Hcho.
  intros Hpv Hpc. unfold validate_implemenataion. cbn [lookup list_lookup of_option]. bind_step.
  unfold allocate_host_example_dpointer. change (Z.to_nat 7) with 7%nat.
  destruct (alloc_disks junk 512 7 m) as [vd m1] eqn:E1.
  destruct (alloc_disks junk 512 7 m1) as [cd m2] eqn:E2.
  destruct (alloc_disks_spec junk 512 7 m vd m1 ltac:(lia) E1) as (Lv & Nv & Fv & Ov & Rv).
  destruct (alloc_disks_spec junk 512 7 m1 cd m2 ltac:(lia) E2) as (Lc & Nc & Fc & Oc & Rc).
  rewrite Forall_forall in Fv, Ov, Fc, Oc.
  assert (∀ b, b ∈ vd → b ∉ cd) as Hdis.
  { intros b Hv Hc. pose proof (Fc b Hc) as H0. destruct (Ov b Hv) as [Hbo%buf_ok_Some _].
    destruct Hbo as (? & Hx & _). congruence. }
  assert (Hnd : NoDup (vd ++ cd)) by (apply NoDup_app; split_and!; done).
  assert (Hok2 : Forall (buf_ok m2 512) (vd ++ cd)).
  { apply Forall_forall. intros b [Hb|Hb]%elem_of_app; [|by apply Oc].
    destruct (Ov b Hb) as [Hbo _]. unfold buf_ok. rewrite Rc by (by apply Hdis). done. }
  destruct (fill_ok m2 vd cd 512 7 ltac:(lia) ltac:(lia) Lv Lc Hnd Hok2) as (m3 & E3 & Hfill).
  change (Z.of_nat 7) with 7 in E3. run E3.
  assert (∀ d, d = vd ∨ d = cd → array_ok m3 d 7 512) as Harr.
  { intros d Hd. apply (array_ok_frame m2); [intros; by apply (fi_ok _ _ _ _ _ _ Hfill)|].
    unfold array_ok. rewrite Forall_forall in Hok2.
    destruct Hd; subst d; rewrite take_ge by lia; (split_and!; [done|done|]);
      apply Forall_forall; intros b Hb; apply Hok2, elem_of_app; auto. }
  destruct (run_on van pv m3 vd Hpv (Harr vd (or_introl eq_refl))) as (m4 & E4 & Hw4). run E4.
  assert (Harr4 : ∀ d, d = vd ∨ d = cd → array_ok m4 d 7 512).
  { intros d Hd. eapply array_ok_writes; [done|by apply Harr]. }
  destruct (run_on cho pc m4 cd Hpc (Harr4 cd (or_intror eq_refl))) as (m5 & E5 & Hw5). run E5.
  assert (Harr5 : ∀ d, d = vd ∨ d = cd → array_ok m5 d 7 512).
  { intros d Hd. eapply array_ok_writes; [done|by apply Harr4]. }
  assert (Hnd' : NoDup (cd ++ vd)).
  { apply NoDup_app. split_and!; [done| |done]. intros b Hb Hb'. by apply (Hdis b). }
  run (compare_runs m2 m3 m4 m5 vd cd) by auto.
  destruct (lookup_lt_is_Some_2 cd 5 ltac:(lia)) as [cp Hcp]. destruct (lookup_lt_is_Some_2 vd 5 ltac:(lia)) as [vp Hvp].
  destruct (lookup_lt_is_Some_2 cd 6 ltac:(lia)) as [cq Hcq]. destruct (lookup_lt_is_Some_2 vd 6 ltac:(lia)) as [vq Hvq].
  run (explicit_output_shows m5 vd cd cp cq vp vq) by auto.
  assert (Hlive : ∀ b, b ∈ vd ++ cd → is_Some (m5 !! b)).
  { intros b [Hb|Hb]%elem_of_app; apply (array_live m5 _ 7 512 b) in Hb; auto. }
  destruct (free_firsts m5 vd cd EXIT_SUCCESS Hnd ltac:(lia) ltac:(lia) Hlive) as (m' & E6 & Hm').
  exists vd, cd, m'. split_and!; [exact E6|done..| |done].
  apply Forall_forall. intros b [Hb|Hb]%elem_of_app; [by apply Fv|].
  specialize (Fc b Hb). rewrite <-Rv; [done|]. intros Hb'. by apply (Hdis b).
Qed.
End validate.

(** C24: the validator accepts every implementation that keeps the interface
    and needs no padding past 512 bytes, whatever the heap contains; the run
    ends without a fault, and leaks the twelve buffers that are not freed. *)
Theorem validator_accepts junk van cho pv pc rest m :
  PqGenerator van pv → PqGenerator cho pc → pv 512 ≤ 512 → pc 512 ≤ 512 →
  ∃ leaked m', validate_implemenataion junk cho (van :: rest) m = Ok (EXIT_SUCCESS, m') ∧
    length leaked = 12%nat ∧ NoDup leaked ∧
    ∀ b, b ∈ leaked → m !! b = None ∧ is_Some (m' !! b).
Proof.
  intros Hvan Hcho Hpv Hpc.
  destruct (validator_run junk van cho pv pc rest m Hpv Hpc)
    as (vd & cd & m' & E & Lv & Lc & Hnd & Hnone & Hlive).
  exists (drop 1 vd ++ drop 1 cd), m'. split_and!; [done| | |].
  - rewrite length_app, !length_drop. lia.
  - destruct vd as [|v0 vd]; [done|]. destruct cd as [|c0 cd]; [done|].
    cbn [app drop] in *. apply NoDup_cons in Hnd as [_ Hnd].
    rewrite <-Permutation_middle in Hnd. by apply NoDup_cons in Hnd as [_ Hnd].
  - intros b Hb. split; [|by apply Hlive]. rewrite Forall_forall in Hnone. apply Hnone.
    apply elem_of_app in Hb as [Hb|Hb]; apply elem_of_app; [left|right];
      by apply (subseteq_drop 1).
Qed.

(** The validator rejects the dummy implementation, and on three CPUs
    the multi-threaded implementation makes it overflow its 512-byte buffers. *)
Theorem validator_rejects_dummy junk :
  fst <$> validate_implemenataion junk raid6_dummy_gen_syndrome
    [raid6_vanilla_gen_syndrome (N := native64)] ∅ = Ok EXIT_FAILURE ∧
  validate_implemenataion junk (smp_run (N := native64) 3)
    [raid6_vanilla_gen_syndrome (N := native64)] ∅ = Err OutOfBounds.
Proof. split; vm_compute; reflexivity. Qed.

(** ** Witnesses *)
Lemma compare_syndrome_correct_witness : ∃ r,
  compare_syndrome 5 16 sample_ptrs sample_ptrs sample_mem = Ok r ∧
  (r = EXIT_SUCCESS ∨ r = EXIT_FAILURE) ∧
  (r = EXIT_SUCCESS ↔ ∀ z k, z = (5 - 2)%nat ∨ z = (5 - 1)%nat → Z.of_nat k < 16 →
     disk_byte sample_mem sample_ptrs z k = disk_byte sample_mem sample_ptrs z k).
Proof.
  apply (compare_syndrome_correct sample_mem sample_ptrs sample_ptrs 5 16); [lia|lia|by_decide..].
Defined.

(** Four CPUs: the chunks of 128 bytes are whole words. *)
Lemma validator_accepts_witness : ∃ leaked m',
  validate_implemenataion (λ _ _, 0) (smp_run (N := native64) 4)
    [raid6_vanilla_gen_syndrome (N := native64)] ∅ = Ok (EXIT_SUCCESS, m') ∧
  length leaked = 12%nat ∧ NoDup leaked ∧
  ∀ b, b ∈ leaked → (∅ : mem) !! b = None ∧ is_Some (m' !! b).
Proof.
  apply (validator_accepts (λ _ _, 0) _ _ _ _ [] ∅ (vanilla_pq (N := native64))
    (smp_pq (N := native64) 4)); vm_compute; discriminate.
Defined.

Lemma explicit_output_shows_witness :
  explicit_output [1; 2; 3; 4; 5; 6; 7]%positive [1; 2; 3; 4; 5; 6; 7]%positive
    (list_to_map ((λ b, (b, replicate 512 200)) <$> [1; 2; 3; 4; 5; 6; 7]%positive)) = Ok (replicate 512 4294967240).
Proof.
  rewrite (explicit_output_shows _ _ _ 6%positive 7%positive 6%positive 7%positive); [vm_compute; reflexivity|by_decide|by_decide|done..].
Defined.
