(* ===== verification/MultiRs.v ===== *)
(** * barracuda_deamon/multrs/raid6multrs.cu, the software path

    The multi-failure code: check disk [y] (from 1) is the sum over the data
    disks [d] of [y^(d+1) * data_d], with multiplication by logarithm tables.
    The model keeps the width of the logarithm sum and the length of the
    tables, on which the behaviour turns. *)
From S2P Require Import Prelude GF256 Word Memory Syndrome.
Local Open Scope Z_scope.

Definition CHECK_SYMBOLS : Z := 4.
Definition NW : Z := 256.

(** The tables of the source, entry by entry. *)
Definition gflog : list Z := [
  0; 0; 1; 25; 2; 50; 26; 198; 3; 223; 51; 238; 27; 104; 199; 75; 4; 100; 224; 14; 52;
  141; 239; 129; 28; 193; 105; 248; 200; 8; 76; 113; 5; 138; 101; 47; 225; 36; 15; 33;
  53; 147; 142; 218; 240; 18; 130; 69; 29; 181; 194; 125; 106; 39; 249; 185; 201; 154; 9;
  120; 77; 228; 114; 166; 6; 191; 139; 98; 102; 221; 48; 253; 226; 152; 37; 179; 16; 145;
  34; 136; 54; 208; 148; 206; 143; 150; 219; 189; 241; 210; 19; 92; 131; 56; 70; 64; 30;
  66; 182; 163; 195; 72; 126; 110; 107; 58; 40; 84; 250; 133; 186; 61; 202; 94; 155; 159;
  10; 21; 121; 43; 78; 212; 229; 172; 115; 243; 167; 87; 7; 112; 192; 247; 140; 128; 99;
  13; 103; 74; 222; 237; 49; 197; 254; 24; 227; 165; 153; 119; 38; 184; 180; 124; 17; 68;
  146; 217; 35; 32; 137; 46; 55; 63; 209; 91; 149; 188; 207; 205; 144; 135; 151; 178;
  220; 252; 190; 97; 242; 86; 211; 171; 20; 42; 93; 158; 132; 60; 57; 83; 71; 109; 65;
  162; 31; 45; 67; 216; 183; 123; 164; 118; 196; 23; 73; 236; 127; 12; 111; 246; 108;
  161; 59; 82; 41; 157; 85; 170; 251; 96; 134; 177; 187; 204; 62; 90; 203; 89; 95; 176;
  156; 169; 160; 81; 11; 245; 22; 235; 122; 117; 44; 215; 79; 174; 213; 233; 230; 231;
  173; 232; 116; 214; 244; 234; 168; 80; 88].

Definition gfilog : list Z := [
  1; 2; 4; 8; 16; 32; 64; 128; 29; 58; 116; 232; 205; 135; 19; 38; 76; 152; 45; 90; 180;
  117; 234; 201; 143; 3; 6; 12; 24; 48; 96; 192; 157; 39; 78; 156; 37; 74; 148; 53; 106;
  212; 181; 119; 238; 193; 159; 35; 70; 140; 5; 10; 20; 40; 80; 160; 93; 186; 105; 210;
  185; 111; 222; 161; 95; 190; 97; 194; 153; 47; 94; 188; 101; 202; 137; 15; 30; 60; 120;
  240; 253; 231; 211; 187; 107; 214; 177; 127; 254; 225; 223; 163; 91; 182; 113; 226;
  217; 175; 67; 134; 17; 34; 68; 136; 13; 26; 52; 104; 208; 189; 103; 206; 129; 31; 62;
  124; 248; 237; 199; 147; 59; 118; 236; 197; 151; 51; 102; 204; 133; 23; 46; 92; 184;
  109; 218; 169; 79; 158; 33; 66; 132; 21; 42; 84; 168; 77; 154; 41; 82; 164; 85; 170;
  73; 146; 57; 114; 228; 213; 183; 115; 230; 209; 191; 99; 198; 145; 63; 126; 252; 229;
  215; 179; 123; 246; 241; 255; 227; 219; 171; 75; 150; 49; 98; 196; 149; 55; 110; 220;
  165; 87; 174; 65; 130; 25; 50; 100; 200; 141; 7; 14; 28; 56; 112; 224; 221; 167; 83;
  166; 81; 162; 89; 178; 121; 242; 249; 239; 195; 155; 43; 86; 172; 69; 138; 9; 18; 36;
  72; 144; 61; 122; 244; 245; 247; 243; 251; 235; 203; 139; 11; 22; 44; 88; 176; 125;
  250; 233; 207; 131; 27; 54; 108; 216; 173; 71; 142].

(** [t[i]]: reading past a table is out of bounds. *)
Definition entry (t : list Z) (i : Z) : result Z := of_option OutOfBounds (t !! Z.to_nat i).

(** [mult_gf]: [sum] is an [unsigned char]. *)
Definition mult_gf (a b : Z) : result Z :=
  if (a =? 0) || (b =? 0) then Ok 0 else
  la ← entry gflog a;
  lb ← entry gflog b;
  let sum := to_u8 (la + lb) in
  let sum := if NW - 1 <=? sum then to_u8 (sum - (NW - 1)) else sum in
  entry gfilog sum.

(** The loop over the data disks for check disk [j] and byte [i]: the state is
    [matrix_pos_x] and the memory. *)
Definition rs_data_step (dptrs : list loc) (i j matrix_pos_y d : Z) (s : Z * mem) : result (Z * mem) :=
  let '(matrix_pos_x, m) := s in
  src ← nth_ptr dptrs d;
  v ← load_u8 m src i;
  prod ← mult_gf matrix_pos_x v;
  dst ← nth_ptr dptrs j;
  old ← load_u8 m dst i;
  m ← store_u8 m dst i (Z.lxor old prod);
  matrix_pos_x ← mult_gf matrix_pos_x matrix_pos_y;
  Ok (matrix_pos_x, m).

(** The loop over the check disks: the state is [matrix_pos_y] and the memory. *)
Definition rs_check_step (dptrs : list loc) (high_disk i j : Z) (s : Z * mem) : result (Z * mem) :=
  let '(matrix_pos_y, m) := s in
  let matrix_pos_y := to_u8 (matrix_pos_y + 1) in
  let matrix_pos_x := matrix_pos_y in
  dst ← nth_ptr dptrs j;
  m ← store_u8 m dst i 0;
  '(_, m) ← for_lt 0 high_disk 1 (rs_data_step dptrs i j matrix_pos_y) (matrix_pos_x, m);
  Ok (matrix_pos_y, m).

(** The routine for [C] check symbols; the prototype RsEncoder.v has another
    number of them. *)
Definition rs_soft (C : Z) : syndrome_func := λ disks bytes dptrs m,
  high_disk ← int_add disks (- C);
  for_lt 0 bytes 1 (λ i m,
    '(_, m) ← for_lt high_disk disks 1 (rs_check_step dptrs high_disk i) (0, m);
    Ok m) m.

Definition multi_rs_soft_gen_syndrome : syndrome_func := rs_soft CHECK_SYMBOLS.

(** [multi_rs_gen_syndrome], built with NOCUDA. *)
Definition multi_rs_gen_syndrome : syndrome_func := multi_rs_soft_gen_syndrome.

(** ** Multiplication *)
Lemma gflog_entry : ∀ a, is_byte a → a ≠ 0 → a ≠ 255 → entry gflog a = Ok (Z.of_nat (glog a)).
Proof.
  apply (forall_byte (λ a, a ≠ 0 → a ≠ 255 → entry gflog a = Ok (Z.of_nat (glog a)))).
  vm_compute. reflexivity.
Qed.

Lemma gfilog_entry k : (k < 255)%nat → entry gfilog (Z.of_nat k) = Ok (xpow k 1).
Proof.
  intros Hk. apply (Forall_lookup_1 (λ k, entry gfilog (Z.of_nat k) = Ok (xpow k 1)) (seq 0 255) k k).
  - apply (bool_decide_unpack _). vm_compute. exact I.
  - by apply lookup_seq_lt.
Qed.

Lemma xpow_1_255 k : xpow (k + 255) 1 = xpow k 1.
Proof. rewrite xpow_add, xpow_255 by auto with bcu. done. Qed.

(** The product the code computes: right while the logarithms add up to less
    than 256, otherwise one power of the generator short. *)
Lemma mult_gf_eq a b : is_byte a → is_byte b → a ≠ 255 → b ≠ 255 →
  mult_gf a b = Ok (if (a =? 0) || (b =? 0) then 0
    else if (glog a + glog b <? 256)%nat then gmul a b else xpow (glog a + glog b - 256) 1).
Proof.
  intros Ha Hb Ha255 Hb255. unfold mult_gf.
  destruct (Z.eqb_spec a 0) as [->|Ha0]; [done|]. destruct (Z.eqb_spec b 0) as [->|Hb0]; [done|].
  cbn [orb]. destruct (glog_spec a Ha Ha0) as [La _], (glog_spec b Hb Hb0) as [Lb _].
  run gflog_entry by done. run gflog_entry by done. rewrite gmul_log by done.
  rewrite <-Nat2Z.inj_add. set (s := (glog a + glog b)%nat) in *. unfold NW, to_u8.
  destruct (Nat.ltb_spec s 256) as [Hs|Hs].
  - rewrite (Z.mod_small (Z.of_nat s)) by lia. destruct (Z.leb_spec (256 - 1) (Z.of_nat s)).
    + assert (s = 255)%nat as -> by lia. by rewrite (xpow_255 1) by auto with bcu.
    + by rewrite gfilog_entry by lia.
  - assert (Z.of_nat s mod 256 = Z.of_nat (s - 256)) as ->
      by (symmetry; apply (Z.mod_unique _ _ 1); lia).
    destruct (Z.leb_spec (256 - 1) (Z.of_nat (s - 256))); [lia|]. by rewrite gfilog_entry by lia.
Qed.

Lemma mult_wrap a b : is_byte a → is_byte b → a ≠ 0 → b ≠ 0 → (256 ≤ glog a + glog b)%nat →
  xtime (xpow (glog a + glog b - 256) 1) = gmul a b ∧ xpow (glog a + glog b - 256) 1 ≠ gmul a b.
Proof.
  intros Ha Hb Ha0 Hb0 Hs. rewrite gmul_log by done. set (s := (glog a + glog b)%nat) in *.
  assert (xtime (xpow (s - 256) 1) = xpow s 1) as E.
  { rewrite <-xpow_S, <-xpow_1_255. f_equal. lia. }
  split; [done|]. intros Heq. rewrite Heq in E.
  assert (xpow s 1 = 0) as Hz by (apply (xpow_fixpoint 1); [auto with bcu|lia|exact E]).
  apply xpow_eq_0 in Hz; [done|auto with bcu].
Qed.

Lemma mult_gf_byte a b r : mult_gf a b = Ok r → is_byte r.
Proof.
  unfold mult_gf. destruct (_ || _); [intros [= <-]; auto with bcu|]. intros H. inv_ok.
  unfold entry in H. inv_ok.
  assert (Forall is_byte gfilog) as HF by (apply (bool_decide_unpack _); vm_compute; exact I).
  by eapply Forall_lookup_1 in HF.
Qed.

(** ** The code as a function of a byte column *)
(** One check byte: coefficient [x], its base [y], the sum so far, the data
    bytes left. *)
Fixpoint rs_row (x y acc : Z) (data : list Z) : result Z :=
  match data with
  | [] => Ok acc
  | v :: data =>
      prod ← mult_gf x v;
      x ← mult_gf x y;
      rs_row x y (Z.lxor acc prod) data
  end.

(** Memories that differ only in byte [i] of the buffers in [P]. *)
Record touched (P : loc → Prop) (i : nat) (m0 m1 : mem) : Prop := {
  to_frame : ∀ b, ¬ P b → m1 !! b = m0 !! b;
  to_len : ∀ b, buf_len m1 b = buf_len m0 b;
  to_ok : ∀ b l, buf_ok m0 l b → buf_ok m1 l b;
  to_peek : ∀ b k, k ≠ i → peek m1 b k = peek m0 b k
}.

Lemma touched_refl P i m : touched P i m m.
Proof. by split. Qed.

Lemma touched_trans (P Q : loc → Prop) i m0 m1 m2 : (∀ b, Q b → P b) →
  touched P i m0 m1 → touched Q i m1 m2 → touched P i m0 m2.
Proof.
  intros HQ [F1 L1 O1 P1] [F2 L2 O2 P2]. split.
  - intros b Hb. rewrite F2 by auto. auto.
  - intros b. by rewrite L2.
  - auto.
  - intros b k Hk. rewrite P2 by done. auto.
Qed.

Lemma store_u8_touched m b i v len : buf_ok m len b → 0 ≤ i < len → is_byte v →
  ∃ m', store_u8 m b i v = Ok m' ∧ touched (eq b) (Z.to_nat i) m m' ∧ peek m' b (Z.to_nat i) = v.
Proof.
  intros Hb Hi Hv. unfold store_u8.
  assert (to_u8 v = v) as -> by (by apply Z.mod_small).
  destruct (store_bytes_spec m b i [v] len) as (m' & E & [F L O P]);
    [done|lia|cbn; lia|by apply Forall_singleton|].
  exists m'. split; [done|]. split; [split|].
  - intros b' Hb'. by apply F.
  - done.
  - done.
  - intros b' k Hk. destruct (decide (b' = b)) as [->|Hne].
    + rewrite P, decide_False; [done|]. cbn. lia.
    + unfold peek. by rewrite F.
  - rewrite P, decide_True by (cbn; lia). by rewrite Nat.sub_diag.
Qed.

Section rs.
Context (m : mem) (ptrs : list loc) (C H : nat) (bytes : Z).
Context (HC : (C ≤ 255)%nat) (Hpos : (0 < H)%nat) (HH : Z.of_nat H + Z.of_nat C ≤ INT_MAX) (Hb : 0 ≤ bytes) (Hmax : bytes + 7 ≤ INT_MAX).
Context (Ha : array_ok m ptrs (H + C) bytes).

(** Column [k] of the data disks. *)
Local Abbreviation col k := (column m ptrs H k).
Definition is_check (b : loc) : Prop := ∃ z, (H ≤ z < H + C)%nat ∧ ptrs !! z = Some b.

Lemma check_not_data z b d : is_check b → (d < H)%nat → ptrs !! d = Some z → z ≠ b.
Proof using All.
  intros (i & Hi & Hib) Hd Hz ->.
  pose proof (array_inj Ha i d b ltac:(lia) ltac:(lia) Hib Hz). lia.
Qed.

(** The loop over the data disks. *)
Lemma rs_data_loop m0 y x dst j k r : (H ≤ j < H + C)%nat → ptrs !! j = Some dst → Z.of_nat k < bytes →
  (∀ b l, buf_ok m l b → buf_ok m0 l b) → (∀ b, ¬ is_check b → m0 !! b = m !! b) →
  rs_row x y (peek m0 dst k) (col k) = Ok r →
  ∃ x' m1, for_lt 0 (Z.of_nat H) 1 (rs_data_step ptrs (Z.of_nat k) (Z.of_nat j) y) (x, m0) = Ok (x', m1) ∧
    touched (eq dst) k m0 m1 ∧ peek m1 dst k = r.
Proof using All.
  intros Hj Hdst Hk Hok Hfr Hrow.
  assert (Hcheck : is_check dst) by (by exists j).
  destruct (for_lt_inv (λ d s, 0 ≤ d ∧ touched (eq dst) k m0 s.2 ∧
      rs_row s.1 y (peek s.2 dst k) (drop (Z.to_nat d) (col k)) = Ok r)
    (rs_data_step ptrs (Z.of_nat k) (Z.of_nat j) y) 0 (Z.of_nat H) 1) with (s := (x, m0))
    as ([x' m1] & E & _ & Ht & Hr).
  - lia.
  - done.
  - lia.
  - intros d [x1 m1] Hd _ (_ & Ht & Hr). cbn [fst snd] in *.
    destruct (array_disk Ha (Z.to_nat d)) as (b & Hbd & Hbo); [lia|].
    rewrite (drop_S _ _ _ (column_lookup m ptrs H k (Z.to_nat d) b ltac:(lia) Hbd)) in Hr.
    cbn [rs_row] in Hr. apply bind_Ok in Hr as (prod & Ep & Hr).
    apply bind_Ok in Hr as (x2 & Ex & Hr).
    pose proof (check_not_data b dst (Z.to_nat d) Hcheck ltac:(lia) Hbd) as Hne.
    assert (m1 !! b = m !! b) as Hmb.
    { rewrite (to_frame _ _ _ _ Ht) by congruence. apply Hfr. intros Hc.
      by apply (check_not_data b b (Z.to_nat d) Hc ltac:(lia) Hbd). }
    assert (buf_ok m1 bytes dst) as Hdo.
    { apply (to_ok _ _ _ _ Ht), Hok. apply (array_ptr Ha j); [lia|done]. }
    unfold rs_data_step. run (nth_ptr_nat ptrs d (Z.to_nat d) b) by (done || lia).
    assert (peek m1 b k = peek m b k) as Epk by (unfold peek; by rewrite Hmb).
    run (load_u8_ok m1 b (Z.of_nat k) bytes) by (done || lia || (unfold buf_ok; rewrite Hmb; exact Hbo)).
    rewrite Nat2Z.id, Epk. run Ep. run (nth_ptr_nat ptrs (Z.of_nat j) j dst) by done.
    run (load_u8_ok m1 dst (Z.of_nat k) bytes) by (done || lia). rewrite Nat2Z.id.
    destruct (store_u8_touched m1 dst (Z.of_nat k) (Z.lxor (peek m1 dst k) prod) bytes)
      as (m2 & E2 & Ht2 & Hp2); [done|lia| |].
    { apply is_byte_lxor; [by eapply is_byte_peek|by eapply mult_gf_byte]. }
    rewrite Nat2Z.id in Ht2, Hp2. run E2. run Ex.
    eexists. split; [reflexivity|]. cbn [fst snd]. split_and!; [lia| |].
    + by eapply touched_trans.
    + rewrite Hp2. by replace (Z.to_nat (d + 1)) with (S (Z.to_nat d)) by lia.
  - cbn [fst snd]. split_and!; [lia|apply touched_refl|done].
  - exists x', m1. split_and!; [done..|]. cbn [fst snd] in Hr.
    rewrite (loop_end_unique _ _ _ (Z.of_nat H) (Z.of_nat H)), Nat2Z.id in Hr by lia.
    rewrite drop_ge in Hr; [by injection Hr|].
    rewrite length_column; [lia|]. pose proof (array_length Ha). lia.
Qed.

(** Check disk [z] holds the code's value at byte [k]. *)
Definition row_at (m1 : mem) (z k : nat) : Prop := ∀ b, ptrs !! z = Some b →
  rs_row (Z.of_nat (z - H + 1)) (Z.of_nat (z - H + 1)) 0 (col k) = Ok (peek m1 b k).

(** The loop over the check disks. *)
Lemma rs_check_loop m0 k : Z.of_nat k < bytes →
  (∀ b l, buf_ok m l b → buf_ok m0 l b) → (∀ b, ¬ is_check b → m0 !! b = m !! b) →
  (∀ y, 1 ≤ y ≤ Z.of_nat C → is_ok (rs_row y y 0 (col k)) = true) →
  ∃ y' m1, for_lt (Z.of_nat H) (Z.of_nat (H + C)) 1 (rs_check_step ptrs (Z.of_nat H) (Z.of_nat k)) (0, m0) =
      Ok (y', m1) ∧ touched is_check k m0 m1 ∧ ∀ z, (H ≤ z < H + C)%nat → row_at m1 z k.
Proof using All.
  intros Hk Hok Hfr Hrows.
  destruct (for_lt_inv (λ j s, Z.of_nat H ≤ j ∧ s.1 = j - Z.of_nat H ∧ touched is_check k m0 s.2 ∧
      ∀ z, (H ≤ z)%nat → Z.of_nat z < j → row_at s.2 z k)
    (rs_check_step ptrs (Z.of_nat H) (Z.of_nat k)) (Z.of_nat H) (Z.of_nat (H + C)) 1)
    with (s := (0, m0)) as ([y' m1] & E & _ & _ & Ht & Hr).
  - lia.
  - unfold INT_MIN. lia.
  - lia.
  - intros j [y m1] Hj _ (_ & Hy & Ht & Hr). cbn [fst snd] in *. subst y.
    destruct (array_disk Ha (Z.to_nat j)) as (dst & Hdst & Hdo); [lia|].
    assert (Hcheck : is_check dst) by (exists (Z.to_nat j); split; [lia|done]).
    unfold rs_check_step.
    assert (to_u8 (j - Z.of_nat H + 1) = j - Z.of_nat H + 1) as -> by (apply Z.mod_small; lia).
    run (nth_ptr_nat ptrs j (Z.to_nat j) dst) by (done || lia).
    assert (Ok1 : ∀ b l, buf_ok m l b → buf_ok m1 l b) by (intros; apply (to_ok _ _ _ _ Ht); auto).
    destruct (store_u8_touched m1 dst (Z.of_nat k) 0 bytes) as (m2 & E2 & Ht2 & Hp2);
      [by apply Ok1|lia|auto with bcu|].
    rewrite Nat2Z.id in Ht2, Hp2. run E2.
    set (y := j - Z.of_nat H + 1). pose proof (Hrows y ltac:(unfold y; lia)) as Hrow.
    destruct (rs_row y y 0 (col k)) as [r|] eqn:Er; [|done].
    assert (Ht12 : touched is_check k m0 m2).
    { eapply touched_trans; [|exact Ht|exact Ht2]. by intros b <-. }
    destruct (rs_data_loop m2 y y dst (Z.to_nat j) k r) as (x' & m3 & E3 & Ht3 & Hp3);
      [lia|done|done| | | |].
    { intros. apply (to_ok _ _ _ _ Ht12). auto. }
    { intros b Hb'. rewrite (to_frame _ _ _ _ Ht12) by done. auto. }
    { by rewrite Hp2. }
    rewrite Z2Nat.id in E3 by lia. run E3. eexists. split; [reflexivity|].
    assert (Ht13 : touched (eq dst) k m1 m3) by (by eapply touched_trans).
    cbn [fst snd]. split_and!; [lia|unfold y; lia| |].
    + eapply touched_trans; [|exact Ht|exact Ht13]. by intros b <-.
    + intros z Hz Hzj b Hbz. destruct (decide (z = Z.to_nat j)) as [->|Hne].
      * assert (b = dst) as -> by congruence. rewrite Hp3.
        replace (Z.of_nat (Z.to_nat j - H + 1)) with y by (unfold y; lia). done.
      * specialize (Hr z Hz ltac:(lia) b Hbz). rewrite Hr. f_equal. unfold peek.
        rewrite (to_frame _ _ _ _ Ht13); [done|]. intros ->.
        pose proof (array_inj Ha z (Z.to_nat j) b ltac:(lia) ltac:(lia) Hbz Hdst). lia.
  - cbn [fst snd]. split_and!; [lia|lia|apply touched_refl|]. lia.
  - exists y', m1. split_and!; [done..|]. cbn [fst snd] in Hr. intros z Hz. apply Hr; [lia|].
    rewrite (loop_end_unique _ _ _ (Z.of_nat (H + C)) (Z.of_nat C)); lia.
Qed.

(** All bytes. *)
Lemma rs_soft_ok : (∀ k y, Z.of_nat k < bytes → 1 ≤ y ≤ Z.of_nat C → is_ok (rs_row y y 0 (col k)) = true) →
  ∃ m', rs_soft (Z.of_nat C) (Z.of_nat (H + C)) bytes ptrs m = Ok m' ∧
    (∀ b, ¬ is_check b → m' !! b = m !! b) ∧ (∀ b l, buf_ok m l b → buf_ok m' l b) ∧
    (∀ b k, bytes ≤ Z.of_nat k → peek m' b k = peek m b k) ∧
    ∀ z k, (H ≤ z < H + C)%nat → Z.of_nat k < bytes → row_at m' z k.
Proof using All.
  intros Hrows. unfold rs_soft.
  run int_add_ok by (unfold INT_MIN; lia).
  replace (Z.of_nat (H + C) + - Z.of_nat C) with (Z.of_nat H) by lia.
  edestruct (for_lt_inv (λ i m1, 0 ≤ i ∧ (∀ b, ¬ is_check b → m1 !! b = m !! b) ∧
      (∀ b, buf_len m1 b = buf_len m b) ∧ (∀ b l, buf_ok m l b → buf_ok m1 l b) ∧
      (∀ b k, i ≤ Z.of_nat k → peek m1 b k = peek m b k) ∧
      ∀ z k, (H ≤ z < H + C)%nat → Z.of_nat k < i → row_at m1 z k))
    as (m' & E & _ & Hf & _ & Hl & Hp & Hr); [..|exists m'; split; [exact E|]].
  - lia.
  - done.
  - lia.
  - intros i m1 Hi _ (H0 & Hf & Hl & Hok & Hp & Hr). cbn beta.
    destruct (rs_check_loop m1 (Z.to_nat i)) as (y' & m2 & E & Ht & Hr2); [lia|done|done| |].
    { intros y Hy. apply Hrows; lia. }
    rewrite Z2Nat.id in E by lia. rewrite E. bind_step. exists m2. split; [done|].
    destruct Ht as [F L O P]. split_and!; [lia| | | | |].
    + intros b Hb'. rewrite F by done. auto.
    + intros b. by rewrite L.
    + auto.
    + intros b k Hk. rewrite P by lia. apply Hp. lia.
    + intros z k Hz Hk b Hbz. destruct (decide (k = Z.to_nat i)) as [->|]; [by apply Hr2|].
      rewrite P by done. apply (Hr z k); done || lia.
  - split_and!; [lia|done..|]. lia.
  - rewrite (loop_end_unique _ _ _ bytes bytes) in * by lia. split_and!; [done|done|done|].
    intros z k Hz Hk. by apply Hr.
Qed.
End rs.

(** ** Which arguments the tables can serve *)
(** What [mult_gf] computes, case by case. *)
Definition mult_gf_table (a b : Z) : result Z :=
  if (a =? 0) || (b =? 0) then Ok 0
  else if (a =? 255) || (b =? 255) then Err OutOfBounds
  else if (glog a + glog b <? 256)%nat then Ok (gmul a b)
  else Ok (xpow (glog a + glog b - 256) 1).

Lemma mult_gf_255 a b : a ≠ 0 → b ≠ 0 → is_byte a → is_byte b → a = 255 ∨ b = 255 →
  mult_gf a b = Err OutOfBounds.
Proof.
  intros Ha0 Hb0 Ha Hb H. unfold mult_gf.
  apply Z.eqb_neq in Ha0 as Ea, Hb0 as Eb. rewrite Ea, Eb. cbn [orb].
  destruct (decide (a = 255)) as [->|Hna]; [done|]. destruct H as [| ->]; [done|].
  rewrite (gflog_entry a) by done. done.
Qed.

(** The coefficients of a row stay inside the table for [n] data disks. *)
Fixpoint chain (x y : Z) (n : nat) : bool :=
  match n with
  | O => true
  | S n => (0 <=? x) && (x <? 255) &&
      match mult_gf x y with Ok x => chain x y n | Err _ => false end
  end.

Lemma rs_row_total x y acc data n : chain x y n = true → (length data ≤ n)%nat →
  Forall (λ v, 0 ≤ v < 255) data → is_ok (rs_row x y acc data) = true.
Proof.
  revert x acc data. induction n as [|n IH]; intros x acc data Hc Hl Hd;
    (destruct data as [|v data]; [done|]); [cbn in Hl; lia|].
  cbn [chain] in Hc. rewrite !andb_true_iff, Z.leb_le, Z.ltb_lt in Hc.
  destruct Hc as [Hx Hc]. apply Forall_cons in Hd as [Hv Hd]. cbn [rs_row].
  rewrite (mult_gf_eq x v) by (unfold is_byte; lia). bind_step.
  destruct (mult_gf x y) as [x'|]; [|done]. bind_step. apply IH; [done|cbn in Hl; lia|done].
Qed.

Lemma chain_six y : 1 ≤ y ≤ 4 → chain y y 6 = true.
Proof.
  intros Hy. assert (y = 1 ∨ y = 2 ∨ y = 3 ∨ y = 4) as Hc by lia.
  by destruct_or! Hc; subst; vm_compute.
Qed.

(** The first row is plain parity. *)
Lemma mult_gf_1 v : 0 ≤ v < 255 → mult_gf 1 v = Ok v.
Proof.
  intros Hv. assert (is_byte v) as Hb by (unfold is_byte; lia).
  rewrite (mult_gf_eq 1 v) by (auto with bcu; lia). f_equal. change (glog 1) with 0%nat.
  destruct (Z.eqb_spec v 0) as [->|Hv0]; [done|]. cbn [Z.eqb Pos.eqb orb Nat.add].
  pose proof (glog_spec v Hb Hv0) as [Hg _].
  destruct (Nat.ltb_spec (glog v) 256); [|lia]. by apply gmul_1_l.
Qed.

Lemma rs_row_1 acc data : Forall (λ v, 0 ≤ v < 255) data → rs_row 1 1 acc data = Ok (Z.lxor acc (gen_p data)).
Proof.
  intros Hd. revert acc. induction Hd as [|v data Hv Hd IH]; intros acc; cbn [rs_row].
  - by rewrite Z.lxor_0_r.
  - rewrite (mult_gf_1 v), (mult_gf_1 1) by lia. bind_step. by rewrite IH, gen_p_cons, Z.lxor_assoc.
Qed.

(** C19: [mult_gf] on all bytes: the field product when the logarithms add up
    to less than 256; beyond that the sum wraps in [unsigned char] and the
    result is the product divided by the generator; and an operand 255 reads
    past the 255 entries of [gflog]. *)
Theorem mult_gf_correct a b : is_byte a → is_byte b →
  mult_gf a b = mult_gf_table a b ∧
  (a ≠ 0 → b ≠ 0 → (256 ≤ glog a + glog b)%nat →
     xtime (xpow (glog a + glog b - 256) 1) = gmul a b ∧ xpow (glog a + glog b - 256) 1 ≠ gmul a b).
Proof.
  intros Ha Hb. unfold mult_gf_table. split.
  - destruct (Z.eqb_spec a 0) as [->|Ha0]; [done|]. destruct (Z.eqb_spec b 0) as [->|Hb0].
    { unfold mult_gf. by rewrite orb_true_r. }
    cbn [orb]. destruct (Z.eqb_spec a 255) as [Ea|Ea]; [by apply mult_gf_255; auto|].
    destruct (Z.eqb_spec b 255) as [Eb|Eb]; [by apply mult_gf_255; auto|]. cbn [orb].
    rewrite mult_gf_eq by done. apply Z.eqb_neq in Ha0 as ->, Hb0 as ->. cbn [orb].
    by destruct (_ <? _)%nat.
  - intros. by apply mult_wrap.
Qed.


(** *** Seven data disks and more *)
(** The coefficient of disk [d] in the row of base [y]. *)
Fixpoint coef (x y : Z) (d : nat) : result Z :=
  match d with O => Ok x | S d => x ← coef x y d; mult_gf x y end.

Lemma rs_data_step_coef ptrs i j y d x m x' m' :
  rs_data_step ptrs i j y d (x, m) = Ok (x', m') → mult_gf x y = Ok x'.
Proof. unfold rs_data_step. intros H. inv_ok. by subst. Qed.

Lemma coef_row3 : coef 3 3 6 = Ok 255.
Proof. vm_compute. reflexivity. Qed.

Lemma rs_data_loop_7 ptrs i j H m s' : 7 ≤ H →
  for_lt 0 H 1 (rs_data_step ptrs i j 3) (3, m) = Ok s' → False.
Proof.
  intros HH E.
  edestruct (for_lt_visits (λ d (s : Z * mem), 0 ≤ d ∧ coef 3 3 (Z.to_nat d) = Ok s.1) 6)
    as ([x m1] & [x' m2] & [_ Hx] & Es); [| |exact E|lia|]; [|done|].
  - intros d [x m1] [x' m2] Es [Hd Hx]. cbn [fst] in *. split; [lia|].
    replace (Z.to_nat (d + 1)) with (S (Z.to_nat d)) by lia. cbn [coef]. rewrite Hx. bind_step.
    by eapply rs_data_step_coef.
  - cbn [fst] in Hx. change (Z.to_nat (0 + Z.of_nat 6)) with 6%nat in Hx. rewrite coef_row3 in Hx.
    injection Hx as <-. apply rs_data_step_coef in Es. by vm_compute in Es.
Qed.

Lemma seven_data_disks m ptrs disks bytes m' : 11 ≤ disks → 0 < bytes →
  multi_rs_gen_syndrome disks bytes ptrs m ≠ Ok m'.
Proof.
  intros Hd Hb E. unfold multi_rs_gen_syndrome, multi_rs_soft_gen_syndrome, CHECK_SYMBOLS in E.
  apply bind_Ok in E as (H & EH & E). unfold int_add in EH. destruct (int_ok _); [|done].
  injection EH as <-.
  edestruct (for_lt_visits (λ _ (_ : mem), True) 0) as (m1 & m2 & _ & E1); [| |exact E|lia|]; [done..|].
  apply bind_Ok in E1 as ([y m3] & E1 & _).
  edestruct (for_lt_visits (λ j (s : Z * mem), s.1 = to_u8 (j - (disks + - (4)))) 2)
    as ([y2 m4] & s5 & Hy & E2); [| |exact E1|lia|].
  - intros j [y0 m0] [y4 m4] Es Hy. cbn [fst] in *. unfold rs_check_step in Es. inv_ok.
    destruct x1 as [x1 m5]. inv_ok. subst. unfold to_u8. rewrite Zplus_mod_idemp_l. f_equal. lia.
  - cbn. by rewrite Z.sub_diag.
  - cbn [fst] in Hy. replace (disks + - (4) + Z.of_nat 2 - (disks + - (4))) with 2 in Hy by lia.
    subst y2. unfold rs_check_step in E2. change (to_u8 (to_u8 2 + 1)) with 3 in E2.
    apply bind_Ok in E2 as (dst & _ & E2). apply bind_Ok in E2 as (m5 & _ & E2).
    apply bind_Ok in E2 as (s6 & E2 & _).
    eapply rs_data_loop_7; [|exact E2]. lia.
Qed.

(** Nothing but an access out of bounds can go wrong. *)
Lemma mult_gf_fails a b : fails_by OutOfBounds (mult_gf a b).
Proof. unfold mult_gf, entry. destruct (_ || _); auto 6 with oob. Qed.
#[local] Hint Resolve mult_gf_fails : oob.

Lemma rs_data_step_fails ptrs i j y d s : fails_by OutOfBounds (rs_data_step ptrs i j y d s).
Proof. destruct s as [x m]. unfold rs_data_step. auto 12 with oob. Qed.

Lemma rs_check_step_fails ptrs H i j s : H ≤ INT_MAX → fails_by OutOfBounds (rs_check_step ptrs H i j s).
Proof.
  intros HH. destruct s as [y m]. unfold rs_check_step. repeat (apply fails_by_bind; [by auto with oob|intros ?]).
  apply fails_by_bind; [|intros []; apply fails_by_ok].
  apply fails_by_for_lt; [done|done|]. intros. apply rs_data_step_fails.
Qed.

(** C37: with seven or more data disks the third row's coefficient becomes
    255, whose logarithm is missing from the table: whatever the contents of
    the disks, the run ends with an access out of bounds. *)
Theorem multi_rs_seven_data_disks m ptrs disks bytes : 11 ≤ disks ≤ INT_MAX → 0 < bytes ≤ INT_MAX →
  multi_rs_gen_syndrome disks bytes ptrs m = Err OutOfBounds.
Proof.
  intros Hd Hb. destruct (multi_rs_gen_syndrome disks bytes ptrs m) as [m'|e] eqn:E;
    [by destruct (seven_data_disks m ptrs disks bytes m' ltac:(lia) ltac:(lia) E)|]. f_equal. revert e E.
  unfold multi_rs_gen_syndrome, multi_rs_soft_gen_syndrome, rs_soft, CHECK_SYMBOLS.
  rewrite int_add_ok by (unfold INT_MIN, INT_MAX in *; lia). cbn [mbind result_bind].
  apply fails_by_for_lt; [done|lia|]. intros i m1. apply fails_by_bind; [|intros []; apply fails_by_ok].
  apply fails_by_for_lt; [unfold INT_MIN; lia|lia|]. intros j s. apply rs_check_step_fails. lia.
Qed.

(** Two data disks of one byte, [v] on the second, and four check disks. *)
Definition rs_sample (v : Z) : mem := list_to_map
  [(1%positive, [0]); (2%positive, [v]); (3%positive, [0]); (4%positive, [0]);
   (5%positive, [0]); (6%positive, [0])].
Definition rs_ptrs : list loc := [1; 2; 3; 4; 5; 6]%positive.
Definition rs_out (v : Z) : mem :=
  match multi_rs_gen_syndrome 6 1 rs_ptrs (rs_sample v) with Ok m => m | Err _ => ∅ end.

(** The four check symbols do not correct every four failures: because of
    the wrapped logarithm the bytes 71 and 142 of the second data disk leave
    the same second check symbol, so once that disk and the other three check
    disks are lost its contents cannot be recovered. *)
Theorem multi_rs_loses_data :
  multi_rs_gen_syndrome 6 1 rs_ptrs (rs_sample 71) = Ok (rs_out 71) ∧
  multi_rs_gen_syndrome 6 1 rs_ptrs (rs_sample 142) = Ok (rs_out 142) ∧
  (∀ z, z ∈ [0; 3]%nat → disk_byte (rs_out 71) rs_ptrs z 0 = disk_byte (rs_out 142) rs_ptrs z 0) ∧
  disk_byte (rs_out 71) rs_ptrs 1 0 ≠ disk_byte (rs_out 142) rs_ptrs 1 0.
Proof.
  split_and!; [vm_compute; reflexivity..| |vm_compute; discriminate].
  intros z Hz. repeat (apply elem_of_cons in Hz as [->|Hz]; [vm_compute; reflexivity|]).
  by apply elem_of_nil in Hz.
Qed.

(** ** Witnesses *)
Lemma mult_gf_correct_witness : mult_gf 16 142 = mult_gf_table 16 142 ∧
  (16 ≠ 0 → 142 ≠ 0 → (256 ≤ glog 16 + glog 142)%nat →
     xtime (xpow (glog 16 + glog 142 - 256) 1) = gmul 16 142 ∧
     xpow (glog 16 + glog 142 - 256) 1 ≠ gmul 16 142).
Proof. apply (mult_gf_correct 16 142); by_decide. Defined.


Definition rs_eleven_ptrs : list loc := [1; 2; 3; 4; 5; 6; 7; 8; 9; 10; 11]%positive.
Definition rs_eleven : mem := list_to_map ((λ b, (b, [1])) <$> rs_eleven_ptrs).

Lemma multi_rs_seven_data_disks_witness : array_ok rs_eleven rs_eleven_ptrs 11 1 ∧
  multi_rs_gen_syndrome 11 1 rs_eleven_ptrs rs_eleven = Err OutOfBounds.
Proof.
  split; [by_decide|]. apply (multi_rs_seven_data_disks rs_eleven rs_eleven_ptrs 11 1); unfold INT_MAX; lia.
Defined.
