(* ===== verification/Conf.v ===== *)
(** * barracuda_kernel_module/raid6cuda.c: the configuration file

    [/proc/barracuda/conf]: the daemon first writes "pid=<n>", then
    "con=<method>"; the second write selects the marshalling function and
    releases [gen_syndrome_mutex], on which every syndrome request waits.
    Semaphores are counts; [down] on zero blocks. *)
From S2P Require Import Prelude Cstring.
Local Open Scope Z_scope.

(** What [call_usp] can point to. *)
Inductive usp_method := CallNl | CallProc | CallIoctl.
#[export] Instance usp_method_eq_dec : EqDecision usp_method.
Proof. solve_decision. Defined.

Record conf_state := {
  PID : Z;
  configured : Z;
  conf_mutex : Z;
  call_usp : option usp_method;
  gen_syndrome_mutex : Z
}.

(** The module's static data after [barracuda_start] took [gen_syndrome_mutex]. *)
Definition conf_start : conf_state :=
  {| PID := 0; configured := 0; conf_mutex := 1; call_usp := None; gen_syndrome_mutex := 0 |}.

(** A call returns, or sleeps in [down] for good unless another call wakes it. *)
Inductive outcome := Blocked | Returns (ret : Z) (s : conf_state).

Definition EFAULT : Z := 14.
Definition EOVERFLOW : Z := 75.

Definition set_pid (v : Z) (s : conf_state) : conf_state :=
  {| PID := v; configured := configured s; conf_mutex := conf_mutex s;
     call_usp := call_usp s; gen_syndrome_mutex := gen_syndrome_mutex s |}.
Definition add_conf_mutex (k : Z) (s : conf_state) : conf_state :=
  {| PID := PID s; configured := configured s; conf_mutex := conf_mutex s + k;
     call_usp := call_usp s; gen_syndrome_mutex := gen_syndrome_mutex s |}.
(** [call_usp = f; configured = 1; up(&gen_syndrome_mutex)] *)
Definition select_method (f : usp_method) (s : conf_state) : conf_state :=
  {| PID := PID s; configured := 1; conf_mutex := conf_mutex s;
     call_usp := Some f; gen_syndrome_mutex := gen_syndrome_mutex s + 1 |}.

(** [strcmp(value, lit) == 0] where [value] may be NULL. *)
Definition value_is (value : option string) (lit : string) : result bool :=
  v ← of_option NullDeref value;
  Ok (strcmp_eq v lit).

(** The first step: "pid=<n>".  [PID] is an [unsigned int].  The end pointer that
    simple_strtoul stores over the first bytes of [input] is not read. *)
Definition conf_pid (input : string) (s : conf_state) : result conf_state :=
  let '(instruction, value) := strsep "="%char (c_str input) in
  if strcmp_eq instruction "pid" then
    v ← of_option NullDeref value;
    Ok (set_pid (simple_strtoul v mod 2 ^ 32) s)
  else Ok s.

(** The second step: "con=<method>". *)
Definition conf_con (input : string) (s : conf_state) : result conf_state :=
  let '(instruction, value) := strsep "="%char (c_str input) in
  if strcmp_eq instruction "con" then
    nl ← value_is value "NL";
    let s := if (nl : bool) then select_method CallNl s else s in
    pr ← value_is value "PROCFS";
    let s := if (pr : bool) then select_method CallProc s else s in
    io ← value_is value "IOCTL";
    Ok (if (io : bool) then select_method CallIoctl s else s)
  else Ok s.

(** [buffer] is the writer's memory, [None] when it is not readable. *)
Definition conf_write (buffer : option string) (count : Z) (s : conf_state) : result outcome :=
  let length := 40 in
  if conf_mutex s <=? 0 then Ok Blocked else
  let s := add_conf_mutex (-1) s in
  if configured s =? 1 then Ok (Returns count s) else
  if length <? count then Ok (Returns (- EOVERFLOW) s) else
  match buffer with
  | None => Ok (Returns (- EFAULT) s)
  | Some b =>
      require (count <? length) OutOfBounds;;   (* input[count] = '\0' *)
      let input := String.substring 0 (Z.to_nat count) b in
      s ← (if PID s =? 0 then conf_pid input s else conf_con input s);
      Ok (Returns count (add_conf_mutex 1 s))
  end.

(** [conf_read] leaves a C string of two bytes on the page and reports three. *)
Definition conf_read (page : list Z) : list Z * Z * Z :=
  (list_inserts 0 [110; 0] page, 1, 3).

(** The states any sequence of writes can lead to. *)
Definition conf_step (s s' : conf_state) : Prop :=
  ∃ buffer count ret, conf_write buffer count s = Ok (Returns ret s').

(** ** Writing a well-formed line *)
Lemma substring_full s : String.substring 0 (String.length s) s = s.
Proof. induction s as [|c s IH]; cbn; [done|]. by rewrite IH. Qed.

(** A complete line shorter than the buffer, in a state that accepts it. *)
Lemma conf_write_line line s : conf_mutex s = 1 → configured s = 0 →
  (String.length line < 40)%nat → str_all (λ c, c ≠ NUL) line →
  conf_write (Some line) (Z.of_nat (String.length line)) s =
    (s' ← (if PID s =? 0 then conf_pid line else conf_con line) (add_conf_mutex (-1) s);
     Ok (Returns (Z.of_nat (String.length line)) (add_conf_mutex 1 s'))).
Proof.
  intros Hm Hc Hl Hnul. unfold conf_write. rewrite Hm. cbn [add_conf_mutex configured PID Z.leb Z.compare].
  rewrite Hc. cbn [Z.eqb].
  destruct (Z.ltb_spec 40 (Z.of_nat (String.length line))); [lia|].
  destruct (Z.ltb_spec (Z.of_nat (String.length line)) 40); [|lia].
  cbn [require mbind result_bind]. rewrite Nat2Z.id, substring_full. by destruct (PID s =? 0).
Qed.

Definition method_name (f : usp_method) : string :=
  match f with CallNl => "NL" | CallProc => "PROCFS" | CallIoctl => "IOCTL" end.
Definition pid_line (pid : Z) : string := "pid=" +:+ decimal pid.
Definition con_line (f : usp_method) : string := "con=" +:+ method_name f.

Lemma conf_write_pid pid s : conf_mutex s = 1 → configured s = 0 → PID s = 0 → 0 ≤ pid < 2 ^ 32 →
  conf_write (Some (pid_line pid)) (Z.of_nat (String.length (pid_line pid))) s =
    Ok (Returns (Z.of_nat (String.length (pid_line pid))) (set_pid pid s)).
Proof.
  intros Hm Hc Hp Hpid.
  assert (∀ c, digit c = None → str_all (λ c', c' ≠ c) (decimal pid)) as Hd.
  { intros c Hc'. apply str_all_decimal; [lia|]. intros y Hy. by apply pretty_char_ne. }
  pose proof (length_decimal pid ltac:(lia)) as Hl.
  rewrite conf_write_line; [|done|done| |].
  - rewrite Hp. cbn [Z.eqb]. unfold conf_pid, pid_line.
    rewrite c_str_id by (apply str_all_app; split; [by cbn; split_and!|by apply Hd]).
    change ("pid=" +:+ decimal pid) with ("pid" +:+ String "="%char (decimal pid)).
    rewrite strsep_app by (cbn; split_and!; done). change (strcmp_eq "pid" "pid") with true. cbn [of_option]. bind_step. unfold simple_strtoul.
    rewrite c_str_id by (by apply Hd). rewrite digits_from_decimal by lia.
    rewrite (Z.mod_small pid (2 ^ 64)), (Z.mod_small pid) by lia.
    unfold add_conf_mutex, set_pid. cbn. by rewrite Hm.
  - change (S (S (S (S (String.length (decimal pid))))) < 40)%nat. lia.
  - apply str_all_app. split; [by cbn; split_and!|by apply Hd].
Qed.

(** A PID line when a PID is already known is read as a method and ignored. *)
Lemma conf_write_pid_again pid s : conf_mutex s = 1 → configured s = 0 → PID s ≠ 0 → 0 ≤ pid < 2 ^ 32 →
  conf_write (Some (pid_line pid)) (Z.of_nat (String.length (pid_line pid))) s =
    Ok (Returns (Z.of_nat (String.length (pid_line pid))) s).
Proof.
  intros Hm Hc Hp Hpid.
  assert (∀ c, digit c = None → str_all (λ c', c' ≠ c) (decimal pid)) as Hd.
  { intros c Hc'. apply str_all_decimal; [lia|]. intros y Hy. by apply pretty_char_ne. }
  pose proof (length_decimal pid ltac:(lia)) as Hl.
  rewrite conf_write_line; [|done|done| |].
  - apply Z.eqb_neq in Hp. rewrite Hp. unfold conf_con, pid_line.
    rewrite c_str_id by (apply str_all_app; split; [by cbn; split_and!|by apply Hd]).
    change ("pid=" +:+ decimal pid) with ("pid" +:+ String "="%char (decimal pid)).
    rewrite strsep_app by (cbn; split_and!; done). change (strcmp_eq "pid" "con") with false.
    cbn [mbind result_bind]. destruct s. unfold add_conf_mutex in *. cbn in *. by rewrite Hm.
  - change (S (S (S (S (String.length (decimal pid))))) < 40)%nat. lia.
  - apply str_all_app. split; [by cbn; split_and!|by apply Hd].
Qed.

Lemma conf_write_con f s : conf_mutex s = 1 → configured s = 0 → PID s ≠ 0 →
  conf_write (Some (con_line f)) (Z.of_nat (String.length (con_line f))) s =
    Ok (Returns (Z.of_nat (String.length (con_line f))) (select_method f s)).
Proof.
  intros Hm Hc Hp. rewrite conf_write_line; [|done|done| |].
  - apply Z.eqb_neq in Hp. rewrite Hp. unfold add_conf_mutex, select_method.
    destruct f; cbn; by rewrite Hm.
  - apply (bool_decide_unpack _). by destruct f.
  - by destruct f; cbn; split_and!.
Qed.

(** ** The handshake *)
(** What [raid6_cuda_gen_syndrome] may rely on: the semaphore it waits for is
    free only after the one configuration that set [call_usp]. *)
Record conf_ok (s : conf_state) : Prop := {
  co_mutex : conf_mutex s ≤ 1;
  co_pid : 0 ≤ PID s < 2 ^ 32;
  co_released : configured s = 1 ∧ gen_syndrome_mutex s = 1 ∧ call_usp s ≠ None ∧ PID s ≠ 0 ∨
    configured s = 0 ∧ gen_syndrome_mutex s = 0 ∧ call_usp s = None
}.

Lemma conf_start_ok : conf_ok conf_start.
Proof. split; cbn; [lia|lia|by right]. Qed.

Lemma conf_pid_ok input s s' : conf_ok s → configured s = 0 → conf_pid input s = Ok s' →
  conf_ok s' ∧ conf_mutex s' = conf_mutex s.
Proof.
  intros [Hm Hp Hr] Hc. unfold conf_pid. destruct (strsep _ _) as [i v].
  destruct (strcmp_eq i "pid"); intros H; inv_ok; subst; [|by split].
  split; [split; cbn|done].
  - done.
  - apply Z.mod_pos_bound. lia.
  - destruct Hr as [(? & _)|?]; [congruence|by right].
Qed.

(** [value] equals at most one of the three names. *)
Lemma value_is_Ok value lit b : value_is value lit = Ok b → ∃ v, value = Some v ∧ b = strcmp_eq v lit.
Proof. unfold value_is. intros H. inv_ok. subst. eauto. Qed.

Lemma strcmp_eq_trans v a b : strcmp_eq v a = true → strcmp_eq v b = true → c_str a = c_str b.
Proof. unfold strcmp_eq. intros H1%bool_decide_eq_true H2%bool_decide_eq_true. congruence. Qed.

Lemma conf_con_spec input s s' : conf_con input s = Ok s' →
  s' = s ∨ ∃ f, s' = select_method f s.
Proof.
  unfold conf_con. destruct (strsep _ _) as [i value].
  destruct (strcmp_eq i "con"); [|intros H; inv_ok; subst; by left].
  intros H. inv_ok. apply value_is_Ok in E as (v & -> & ->), E0 as (? & [= <-] & ->),
    E1 as (? & [= <-] & ->). subst s'.
  destruct (strcmp_eq v "NL") eqn:E1, (strcmp_eq v "PROCFS") eqn:E2, (strcmp_eq v "IOCTL") eqn:E3;
    try (by pose proof (strcmp_eq_trans _ _ _ E1 E2)); try (by pose proof (strcmp_eq_trans _ _ _ E1 E3));
    try (by pose proof (strcmp_eq_trans _ _ _ E2 E3)); eauto.
Qed.

Lemma select_method_ok f s : conf_ok s → configured s = 0 → PID s ≠ 0 → conf_ok (select_method f s).
Proof.
  intros [Hm Hp Hr] Hc Hpid. split; cbn; [done..|]. left.
  destruct Hr as [(? & _)|(_ & -> & _)]; [congruence|done].
Qed.

Lemma conf_write_ok buffer count ret s s' : conf_ok s →
  conf_write buffer count s = Ok (Returns ret s') → conf_ok s'.
Proof.
  intros Hok. unfold conf_write. destruct (Z.leb_spec (conf_mutex s) 0) as [_|Hpos]; [done|].
  set (s1 := add_conf_mutex (-1) s).
  assert (conf_ok s1) as Hok1.
  { destruct Hok as [Hm Hp Hr]. split; cbn; [lia|done..]. }
  assert (conf_mutex s1 ≤ 0) as Hm1 by (destruct Hok; cbn; lia).
  destruct (configured s1 =? 1) eqn:Ec; [by intros [= _ <-]|].
  destruct (40 <? count); [by intros [= _ <-]|].
  destruct buffer as [b|]; [|by intros [= _ <-]]. intros H. inv_ok. subst s'.
  assert (configured s1 = 0) as Hc.
  { apply Z.eqb_neq in Ec. destruct (co_released _ Hok1) as [(? & _)|(? & _)]; [congruence|done]. }
  assert (conf_ok x0 ∧ conf_mutex x0 ≤ 0) as [Hx Hxm].
  { destruct (Z.eqb_spec (PID s1) 0) as [Hp|Hp].
    - destruct (conf_pid_ok _ _ _ Hok1 Hc E0) as [? ->]. done.
    - destruct (conf_con_spec _ _ _ E0) as [->|[f ->]]; [done|].
      split; [by apply select_method_ok|done]. }
  destruct Hx as [_ Hp Hr]. split; cbn; [lia|done..].
Qed.

Lemma conf_steps_ok s : rtc conf_step conf_start s → conf_ok s.
Proof.
  apply (rtc_ind_r conf_ok); [apply conf_start_ok|]. intros s1 s2 _ (buffer & count & ret & H) Hok. by eapply conf_write_ok.
Qed.

(** C26: no sequence of writes, well-formed or not, lets a syndrome request
    through before a valid configuration: as long as [configured] is 0 the
    semaphore every request waits for is taken, and once it is free the daemon's
    PID is known and [call_usp] points to a marshalling function. *)
Theorem conf_guards_requests s : rtc conf_step conf_start s →
  (gen_syndrome_mutex s = 0 ∨ gen_syndrome_mutex s = 1) ∧
  (0 < gen_syndrome_mutex s → configured s = 1 ∧ PID s ≠ 0 ∧ call_usp s ≠ None).
Proof.
  intros [_ _ Hr]%conf_steps_ok. destruct Hr as [(? & ? & ? & ?)|(? & ? & ?)]; split; lia || tauto.
Qed.

(** C27: the daemon's two lines configure the module: the PID it printed is the
    PID the module reads back, the method it named is the one [call_usp] gets,
    requests are released exactly once, and the configuration lock is free. *)
Theorem conf_handshake pid f : 0 < pid < 2 ^ 31 →
  ∃ s1, conf_write (Some (pid_line pid)) (Z.of_nat (String.length (pid_line pid))) conf_start =
      Ok (Returns (Z.of_nat (String.length (pid_line pid))) s1) ∧
    conf_write (Some (con_line f)) (Z.of_nat (String.length (con_line f))) s1 =
      Ok (Returns (Z.of_nat (String.length (con_line f)))
        {| PID := pid; configured := 1; conf_mutex := 1; call_usp := Some f; gen_syndrome_mutex := 1 |}).
Proof.
  intros Hpid. exists (set_pid pid conf_start). split.
  - apply conf_write_pid; done || lia.
  - by rewrite conf_write_con by (cbn; lia).
Qed.

(** The returns of [conf_write] in front of its [up]. *)
Definition early (buffer : option string) (count : Z) (s : conf_state) : Prop :=
  configured s = 1 ∨ 40 < count ∨ buffer = None.

Lemma conf_write_early buffer count s : conf_mutex s = 1 → early buffer count s →
  ∃ ret, conf_write buffer count s = Ok (Returns ret (add_conf_mutex (-1) s)).
Proof.
  intros Hm He. unfold conf_write. rewrite Hm. cbn [Z.leb Z.compare]. set (s1 := add_conf_mutex (-1) s).
  destruct (Z.eqb_spec (configured s1) 1) as [E1|E1]; [by eauto|].
  destruct (Z.ltb_spec 40 count); [by eauto|]. destruct He as [?|[? | ->]]; [done|lia|by eauto].
Qed.

Lemma conf_write_late buffer count s ret s' : ¬ early buffer count s → conf_write buffer count s = Ok (Returns ret s') →
  conf_mutex s' = conf_mutex s.
Proof.
  intros He. unfold conf_write, early in *. destruct (conf_mutex s <=? 0); [done|]. cbn [add_conf_mutex configured].
  destruct (Z.eqb_spec (configured s) 1); [tauto|]. destruct (Z.ltb_spec 40 count); [tauto|].
  destruct buffer as [b|]; [|tauto]. intros H0. inv_ok. subst s'. destruct (_ =? 0).
  - revert E0. unfold conf_pid. destruct (strsep _ _) as [i v]. destruct (strcmp_eq i "pid"); intros E0; inv_ok; subst; cbn; lia.
  - destruct (conf_con_spec _ _ _ E0) as [->|[f ->]]; cbn; lia.
Qed.

Lemma blocked_stuck s : conf_mutex s ≤ 0 → (∀ buffer count, conf_write buffer count s = Ok Blocked) ∧
  ∀ s', rtc conf_step s s' → s' = s.
Proof.
  intros Hm. assert (∀ b c, conf_write b c s = Ok Blocked) as Hb.
  { intros b c. unfold conf_write. by rewrite (proj2 (Z.leb_le _ _) Hm). }
  split; [done|]. intros s' Hs. inversion Hs as [|? s1 ? H _]; subst; [done|]. destruct H as (b & c & ret & H). by rewrite Hb in H.
Qed.

(** C40: whatever was written before, when the lock is free: a
    write that returns early (the module is configured, the line is too long,
    the buffer unreadable) keeps [conf_mutex], from then on every write
    blocks and the state never changes again, so a module without its
    configuration never gets one and its requests wait for ever.  Every other
    write that returns gives the lock back. *)
Theorem conf_write_wedges s buffer count : rtc conf_step conf_start s → conf_mutex s = 1 →
  (early buffer count s → ∃ ret s', conf_write buffer count s = Ok (Returns ret s') ∧
     (∀ buffer' count', conf_write buffer' count' s' = Ok Blocked) ∧
     ∀ s'', rtc conf_step s' s'' → s'' = s' ∧ (configured s = 0 → gen_syndrome_mutex s'' = 0)) ∧
  (¬ early buffer count s → ∀ ret s', conf_write buffer count s = Ok (Returns ret s') → conf_mutex s' = 1).
Proof.
  intros Hs Hm. split; [|intros He ret s' H; by rewrite (conf_write_late _ _ _ _ _ He H)].
  intros He. destruct (conf_write_early _ _ _ Hm He) as [ret H]. exists ret, (add_conf_mutex (-1) s). split; [done|].
  destruct (blocked_stuck (add_conf_mutex (-1) s)) as [Hb Hstay]; [cbn; lia|]. split; [done|].
  intros s'' H2. rewrite (Hstay s'' H2). split; [done|]. intros Hc.
  destruct (co_released _ (conf_steps_ok _ Hs)) as [(? & _)|(_ & ? & _)]; [congruence|done].
Qed.

(** A write of exactly [length] bytes passes the size check and puts the
    terminating NUL one past the end of [input]; and a first line "pid" or a
    second line "con" without a value dereferences NULL. *)
Theorem conf_write_faults b s : conf_mutex s = 1 → configured s = 0 →
  conf_write (Some b) 40 s = Err OutOfBounds ∧
  conf_write (Some (if PID s =? 0 then "pid" else "con")) 3 s = Err NullDeref.
Proof.
  intros Hm Hc. unfold conf_write. cbn [add_conf_mutex configured PID]. rewrite Hm, Hc.
  cbn [Z.leb Z.compare Z.eqb]. split; [done|].
  destruct (Z.eqb_spec (PID s) 0) as [E|E].
  - unfold conf_pid. by rewrite ?E.
  - by unfold conf_con.
Qed.

(** ** Witnesses *)
Definition conf_done : conf_state :=
  {| PID := 4711; configured := 1; conf_mutex := 1; call_usp := Some CallIoctl;
     gen_syndrome_mutex := 1 |}.

Lemma conf_guards_requests_witness : 0 < gen_syndrome_mutex conf_done ∧
  configured conf_done = 1 ∧ PID conf_done ≠ 0 ∧ call_usp conf_done ≠ None.
Proof.
  split; [done|]. apply (conf_guards_requests conf_done); [|done].
  eapply rtc_l; [exists (Some "pid=4711"), 8; eexists; vm_compute; reflexivity|].
  eapply rtc_l; [exists (Some "con=IOCTL"), 9; eexists; vm_compute; reflexivity|]. apply rtc_refl.
Defined.

Lemma conf_handshake_witness : ∃ s1,
  conf_write (Some "pid=4711") 8 conf_start = Ok (Returns 8 s1) ∧
  conf_write (Some "con=IOCTL") 9 s1 = Ok (Returns 9 conf_done).
Proof. apply (conf_handshake 4711 CallIoctl). lia. Defined.

Lemma conf_write_wedges_witness :
  (∃ ret s', conf_write (Some "pid=1") 41 conf_start = Ok (Returns ret s') ∧
     (∀ buffer' count', conf_write buffer' count' s' = Ok Blocked) ∧
     ∀ s'', rtc conf_step s' s'' → s'' = s' ∧ (configured conf_start = 0 → gen_syndrome_mutex s'' = 0)) ∧
  conf_mutex (set_pid 1 conf_start) = 1.
Proof.
  split.
  - apply (conf_write_wedges conf_start (Some "pid=1") 41); [reflexivity|done|right; by left].
  - apply (conf_write_wedges conf_start (Some "pid=1") 5) with (ret := 5); [reflexivity|done| |by vm_compute].
    intros [?|[?|?]]; [done|lia|done].
Defined.

Lemma conf_write_faults_witness : conf_write (Some "pid=1") 40 conf_start = Err OutOfBounds ∧
  conf_write (Some "pid") 3 conf_start = Err NullDeref.
Proof. apply (conf_write_faults "pid=1" conf_start); done. Defined.
