(* ===== verification/Marshal.v ===== *)
(** * barracuda_kernel_module/raid6cuda.c: marshalling

    A request is packed into a [syndrome_container] whose pointer array lives
    on the kernel heap ([arrays]); the daemon reaches the disks' buffers through
    the device file, either by [read]/[write] (copies) or by [mmap] (the same
    pages, so the same [loc]). *)
From S2P Require Import Prelude GF256 Word Memory Syndrome.
Local Open Scope Z_scope.

(** Handles of [vmalloc]ed pointer arrays. *)
Abbreviation array_id := positive.

(** [syndrome_container] of global_def.h; [None] is NULL. *)
Record syndrome_container := {
  sc_disks : Z;
  sc_bytes : Z;
  sc_ptrs : option array_id
}.

(** The module's data: the live pointer arrays and [*actual_snc]. *)
Record kdata := {
  arrays : gmap array_id (list loc);
  actual_snc : syndrome_container
}.

Definition set_arrays (a : gmap array_id (list loc)) (k : kdata) : kdata :=
  {| arrays := a; actual_snc := actual_snc k |}.
Definition set_snc (c : syndrome_container) (k : kdata) : kdata :=
  {| arrays := arrays k; actual_snc := c |}.

Definition fresh_array (a : gmap array_id (list loc)) : array_id :=
  (map_fold (λ b _ x, Pos.max b x) 1 a + 1)%positive.

(** [pack_smc]; [vmalloc_ok] is whether the allocation succeeds. *)
Definition pack_smc (vmalloc_ok : bool) (disks bytes : Z) (ptrs : list loc) (k : kdata) :
    result (syndrome_container * kdata) :=
  if negb vmalloc_ok then Ok ({| sc_disks := 0; sc_bytes := 0; sc_ptrs := None |}, k) else
  int_dptrs ← for_lt 0 disks 1 (λ i acc, p ← nth_ptr ptrs i; Ok (acc ++ [p])) [];
  let id := fresh_array (arrays k) in
  Ok ({| sc_disks := disks; sc_bytes := bytes; sc_ptrs := Some id |},
      set_arrays (<[id := int_dptrs]> (arrays k)) k).

(** [kill_smc]: [vfree(NULL)] does nothing. *)
Definition kill_smc (c : syndrome_container) (k : kdata) : kdata :=
  match sc_ptrs c with
  | Some id => set_arrays (delete id (arrays k)) k
  | None => k
  end.

(** [actual_snc->ptrs[i]] *)
Definition snc_ptr (k : kdata) (i : Z) : result loc :=
  id ← of_option NullDeref (sc_ptrs (actual_snc k));
  ptrs ← of_option OutOfBounds (arrays k !! id);
  nth_ptr ptrs i.

(** ** The device file: [read] and [write]

    [copied] is how many of the [to_copy] bytes [copy_to_user] managed to
    copy; the result does not depend on it. *)
Definition copy_bytes (m : mem) (dst src : loc) (n : Z) : result mem := memcpy m dst src n.

Definition barracuda_read (k : kdata) (user : loc) (to_copy offset copied : Z) (m : mem) : result (Z * mem) :=
  let off := to_int offset in
  tmp ← snc_ptr k off;
  m ← copy_bytes m user tmp copied;
  Ok (to_copy, m).

Definition barracuda_write (k : kdata) (user : loc) (to_copy offset copied : Z) (m : mem) : result (Z * mem) :=
  let off := to_int offset in
  tmp ← snc_ptr k off;
  m ← copy_bytes m tmp user copied;
  Ok (to_copy, m).

(** ** The device file: [mmap] *)
Definition PAGE_SIZE : Z := 4096.
Definition PAGE_SHIFT : Z := 12.
Definition NPAGES : Z := 16.
Definition EIO : Z := 5.

(** A mapping of the caller's address space: user address, page frame, length. *)
Record mapping := { mp_start : Z; mp_pfn : Z; mp_length : Z }.

Section mmap.
(** Kernel services: whether an address is in the vmalloc area, the frame
    behind a virtual or a direct-mapped address, and the status of the n-th
    [remap_pfn_range] call. *)
Context (is_vmalloc_addr : Z → bool) (vmalloc_to_pfn virt_to_phys : Z → Z)
  (remap_status : mapping → Z).

(** [remap_pfn_range]: on success the pages are mapped. *)
Definition remap_pfn_range (maps : list mapping) (start pfn length : Z) : Z * list mapping :=
  let mp := {| mp_start := start; mp_pfn := pfn; mp_length := length |} in
  let st := remap_status mp in
  if st <? 0 then (st, maps) else (st, maps ++ [mp]).

(** The loop of [map_vmem]; each turn maps one page. *)
Fixpoint map_vmem_loop (fuel : nat) (start data length : Z) (maps : list mapping) : result (Z * list mapping) :=
  match fuel with
  | O => Err OutOfFuel
  | S fuel =>
      if 0 <? length then
        let pfn := vmalloc_to_pfn data in
        let '(ret, maps) := remap_pfn_range maps start pfn PAGE_SIZE in
        if ret <? 0 then Ok (ret, maps) else
        map_vmem_loop fuel (start + PAGE_SIZE) (data + PAGE_SIZE) (length - PAGE_SIZE) maps
      else Ok (0, maps)
  end.

Definition map_vmem (vm_start vm_end data : Z) (maps : list mapping) : result (Z * list mapping) :=
  let length := vm_end - vm_start in
  map_vmem_loop (S (Z.to_nat length)) vm_start data length maps.

Definition map_kmem (vm_start vm_end data : Z) (maps : list mapping) : Z * list mapping :=
  let length := vm_end - vm_start in
  if NPAGES * PAGE_SIZE <? length then (- EIO, maps) else
  let '(ret, maps) := remap_pfn_range maps vm_start (Z.shiftr (virt_to_phys data) PAGE_SHIFT) length in
  if ret <? 0 then (ret, maps) else (0, maps).

Definition map_mem (vm_start vm_end data : Z) (maps : list mapping) : result (Z * list mapping) :=
  if is_vmalloc_addr data then map_vmem vm_start vm_end data maps
  else Ok (map_kmem vm_start vm_end data maps).

(** [mmap_mmap]: page offset 0 is the container itself at [snc_addr], page
    offset [i] the buffer of disk [i - 1] ([addr_of] is its kernel address). *)
Definition mmap_mmap (k : kdata) (snc_addr : Z) (addr_of : loc → Z) (vm_pgoff vm_start vm_end : Z)
    (maps : list mapping) : result (Z * list mapping) :=
  if vm_pgoff =? 0 then map_mem vm_start vm_end snc_addr maps else
  if 0 <? vm_pgoff then
    p ← snc_ptr k (vm_pgoff - 1);
    map_mem vm_start vm_end (addr_of p) maps
  else Ok (- EIO, maps).
End mmap.

(** ** Packing *)
Lemma fresh_array_fresh a : a !! fresh_array a = None.
Proof.
  assert (∀ b, is_Some (a !! b) → (b ≤ map_fold (λ b _ x, Pos.max b x) 1 a)%positive) as H.
  { intros b. apply (map_fold_weak_ind (λ x a, is_Some (a !! b) → (b ≤ x)%positive)).
    - rewrite lookup_empty. by intros [].
    - intros b' l a' x Hb' IH. rewrite lookup_insert_is_Some. intros [->|[_ H]]; [lia|].
      specialize (IH H). lia. }
  destruct (a !! fresh_array a) eqn:E; [|done].
  specialize (H (fresh_array a) ltac:(by rewrite E)). unfold fresh_array in H. lia.
Qed.

Lemma copy_ptrs ptrs disks : (disks ≤ length ptrs)%nat → Z.of_nat disks ≤ INT_MAX →
  for_lt 0 (Z.of_nat disks) 1 (λ i acc, p ← nth_ptr ptrs i; Ok (acc ++ [p])) [] = Ok (take disks ptrs).
Proof.
  intros Hd Hmax.
  destruct (for_lt_inv (λ i acc, 0 ≤ i ∧ acc = take (Z.to_nat i) ptrs)
    (λ i acc, p ← nth_ptr ptrs i; Ok (acc ++ [p])) 0 (Z.of_nat disks) 1) with (s := @nil loc)
    as (acc & E & _ & Hacc).
  - lia.
  - done.
  - lia.
  - intros i acc Hi _ [_ ->]. destruct (lookup_lt_is_Some_2 ptrs (Z.to_nat i) ltac:(lia)) as [p Hp].
    run (nth_ptr_nat ptrs i (Z.to_nat i) p) by (done || lia). eexists. split; [done|].
    split; [lia|]. replace (Z.to_nat (i + 1)) with (S (Z.to_nat i)) by lia.
    by rewrite (take_S_r _ _ _ Hp).
  - split; [lia|done].
  - rewrite E, Hacc, (loop_end_unique _ _ _ (Z.of_nat disks) (Z.of_nat disks)), Nat2Z.id by lia.
    done.
Qed.

(** What packing gives: a live copy of the pointers under a new handle. *)
Lemma pack_smc_ok disks bytes ptrs k : (disks ≤ length ptrs)%nat → Z.of_nat disks ≤ INT_MAX →
  ∃ id, arrays k !! id = None ∧ pack_smc true (Z.of_nat disks) bytes ptrs k =
    Ok ({| sc_disks := Z.of_nat disks; sc_bytes := bytes; sc_ptrs := Some id |},
        set_arrays (<[id := take disks ptrs]> (arrays k)) k).
Proof.
  intros Hd Hmax. exists (fresh_array (arrays k)). split; [apply fresh_array_fresh|].
  unfold pack_smc. cbn [negb]. by rewrite copy_ptrs.
Qed.

(** C17: packing a request and publishing it as [actual_snc] makes every disk
    pointer available to the daemon under its index; an index outside the
    packed disks faults; releasing the container leaves the kernel heap as it
    was, and a daemon that still looks at it dereferences freed memory. *)
Theorem pack_smc_roundtrip disks bytes ptrs k c k' i :
  (disks ≤ length ptrs)%nat → Z.of_nat disks ≤ INT_MAX →
  pack_smc true (Z.of_nat disks) bytes ptrs k = Ok (c, k') →
  sc_disks c = Z.of_nat disks ∧ sc_bytes c = bytes ∧
  snc_ptr (set_snc c k') i =
    (if (0 <=? i) && (i <? Z.of_nat disks) then nth_ptr ptrs i else Err OutOfBounds) ∧
  arrays (kill_smc c k') = arrays k ∧
  snc_ptr (kill_smc c (set_snc c k')) i = Err OutOfBounds.
Proof.
  intros Hd Hmax E. destruct (pack_smc_ok disks bytes ptrs k Hd Hmax) as (id & Hid & E').
  rewrite E in E'. injection E' as -> ->. split_and!; [done|done|..].
  - unfold snc_ptr. cbn. rewrite lookup_insert_eq. cbn. unfold nth_ptr.
    destruct (Z.leb_spec 0 i); [|done]. destruct (Z.ltb_spec i (Z.of_nat disks)); cbn.
    + by rewrite lookup_take_lt by lia.
    + by rewrite lookup_take_ge by lia.
  - cbn. by rewrite delete_insert_id.
  - unfold snc_ptr. cbn. by rewrite lookup_delete_eq.
Qed.

(** ** Mapping *)
Section map_proofs.
Context (vmalloc_to_pfn : Z → Z) (remap_status : mapping → Z).

(** The page mappings a buffer of [n] pages needs. *)
Definition pages (start data : Z) (n : nat) : list mapping :=
  (λ i, {| mp_start := start + PAGE_SIZE * Z.of_nat i;
           mp_pfn := vmalloc_to_pfn (data + PAGE_SIZE * Z.of_nat i);
           mp_length := PAGE_SIZE |}) <$> seq 0 n.

Lemma pages_S start data n : pages start data (S n) =
  {| mp_start := start; mp_pfn := vmalloc_to_pfn data; mp_length := PAGE_SIZE |} ::
  pages (start + PAGE_SIZE) (data + PAGE_SIZE) n.
Proof using Type.
  unfold pages. cbn [seq fmap list_fmap]. f_equal; [f_equal; [lia|f_equal; lia]|].
  rewrite <-fmap_S_seq, <-list_fmap_compose. apply list_fmap_ext. intros i j _. unfold compose.
  f_equal; [lia|f_equal; lia].
Qed.

(** The status of the first page that cannot be mapped, and what is mapped
    when the loop stops. *)
Definition map_result (maps ps : list mapping) : Z * list mapping :=
  match list_find (λ mp, remap_status mp < 0) ps with
  | Some (j, mp) => (remap_status mp, maps ++ take j ps)
  | None => (0, maps ++ ps)
  end.

Lemma map_vmem_loop_ok fuel start data length maps n :
  (n < fuel)%nat → length ≤ PAGE_SIZE * Z.of_nat n →
  ((0 < n)%nat → PAGE_SIZE * (Z.of_nat n - 1) < length) →
  map_vmem_loop vmalloc_to_pfn remap_status fuel start data length maps =
    Ok (map_result maps (pages start data n)).
Proof using Type.
  revert fuel start data length maps. unfold PAGE_SIZE in *.
  induction n as [|n IH]; intros [|fuel] start data length maps Hf Hl Hl'; try lia; cbn [map_vmem_loop];
    destruct (Z.ltb_spec 0 length); try lia.
  - unfold map_result, pages. cbn. by rewrite app_nil_r.
  - rewrite pages_S. unfold remap_pfn_range, map_result. unfold PAGE_SIZE in *.
    set (mp := {| mp_start := start; mp_pfn := vmalloc_to_pfn data; mp_length := 4096 |}).
    cbn [list_find]. destruct (Z.ltb_spec (remap_status mp) 0) as [Hst|Hst].
    + rewrite decide_True by done. destruct (Z.ltb_spec (remap_status mp) 0); [|lia].
      cbn [take]. by rewrite app_nil_r.
    + rewrite decide_False by lia. destruct (Z.ltb_spec (remap_status mp) 0); [lia|].
      rewrite IH by lia. unfold map_result.
      destruct (list_find _ _) as [[j mp']|]; cbn [fmap option_fmap option_map prod_map take];
        by rewrite <-app_assoc.
Qed.
End map_proofs.

(** Pages a region of [length] bytes takes. *)
Definition page_count (length : Z) : nat := Z.to_nat ((length + PAGE_SIZE - 1) / PAGE_SIZE).

Lemma map_vmem_ok vpfn st vs ve data maps :
  map_vmem vpfn st vs ve data maps =
    Ok (map_result st maps (pages vpfn vs data (page_count (ve - vs)))).
Proof.
  unfold map_vmem. apply map_vmem_loop_ok; unfold page_count, PAGE_SIZE;
    Z.to_euclidean_division_equations; lia.
Qed.

(** C18: mapping page offset [i > 0] of the device maps the buffer of disk
    [i - 1]: a vmalloc buffer page by page, from its first page on, until all
    pages are mapped or the first one fails (its status is returned and the
    pages before it stay mapped); a direct-mapped buffer in one piece, unless
    it is longer than [NPAGES] pages, which is refused with -EIO. *)
Theorem mmap_mmap_disk isv vpfn vphys st k snc_addr addr_of i vs ve maps p :
  0 < i → snc_ptr k (i - 1) = Ok p →
  mmap_mmap isv vpfn vphys st k snc_addr addr_of i vs ve maps = Ok
    (if isv (addr_of p) then map_result st maps (pages vpfn vs (addr_of p) (page_count (ve - vs)))
     else if 65536 <? ve - vs then (-5, maps)
     else map_result st maps [{| mp_start := vs; mp_length := ve - vs;
            mp_pfn := Z.shiftr (vphys (addr_of p)) 12 |}]).
Proof.
  intros Hi Hp. unfold mmap_mmap. destruct (Z.eqb_spec i 0); [lia|].
  destruct (Z.ltb_spec 0 i); [|lia]. run Hp. unfold map_mem.
  destruct (isv (addr_of p)); [apply map_vmem_ok|]. f_equal.
  unfold map_kmem, NPAGES, PAGE_SIZE, EIO, PAGE_SHIFT. change (16 * 4096) with 65536.
  destruct (Z.ltb_spec 65536 (ve - vs)); [done|].
  unfold remap_pfn_range, map_result. set (mp := {| mp_start := vs; mp_pfn := _; mp_length := _ |}).
  cbn [list_find]. destruct (Z.ltb_spec (st mp) 0) as [Hst|Hst].
  - rewrite decide_True by done. destruct (Z.ltb_spec (st mp) 0); [|lia]. by rewrite app_nil_r.
  - rewrite decide_False by lia. destruct (Z.ltb_spec (st mp) 0); [lia|done].
Qed.

(** [read] on the device reports [to_copy] bytes however few of them
    were copied, and neither direction checks the size against the
    container: copying as many bytes as asked moves that much of the disk's
    buffer, and asking for more than the buffer holds faults. *)
Theorem device_copies k user off to_copy copied m tmp :
  INT_MIN ≤ off ≤ INT_MAX → 0 ≤ copied → snc_ptr k off = Ok tmp →
  (∀ r m', barracuda_read k user to_copy off copied m = Ok (r, m') →
     r = to_copy ∧ copied ≤ buf_len m tmp ∧ copied ≤ buf_len m user) ∧
  (buf_len m tmp < copied → barracuda_read k user to_copy off copied m = Err OutOfBounds) ∧
  (∀ r m', barracuda_write k user to_copy off copied m = Ok (r, m') →
     r = to_copy ∧ copied ≤ buf_len m tmp ∧ copied ≤ buf_len m user).
Proof.
  intros Hoff Hc Htmp. unfold barracuda_read, barracuda_write, copy_bytes.
  rewrite to_int_small, Htmp by done. bind_step. split_and!.
  - intros r m' H. inv_ok. subst. split; [done|]. by apply memcpy_Ok in E.
  - intros Hlen. destruct (memcpy m user tmp copied) as [m'|f] eqn:E.
    + apply memcpy_Ok in E as [? _]; [lia|done].
    + bind_step. by rewrite (memcpy_Err _ _ _ _ _ E).
  - intros r m' H. inv_ok. subst. split; [done|]. by apply memcpy_Ok in E as [? ?].
Qed.

(** ** Witnesses *)
Definition no_request : syndrome_container := {| sc_disks := 0; sc_bytes := 0; sc_ptrs := None |}.
Definition kdata0 : kdata := {| arrays := ∅; actual_snc := no_request |}.
(** Two disks packed and published. *)
Definition kdata1 : kdata :=
  {| arrays := {[ 2%positive := [10; 11]%positive ]};
     actual_snc := {| sc_disks := 2; sc_bytes := 4096; sc_ptrs := Some 2%positive |} |}.

Lemma pack_smc_roundtrip_witness :
  let c := actual_snc kdata1 in let k := set_snc no_request kdata1 in
  sc_disks c = 2 ∧ sc_bytes c = 4096 ∧
  snc_ptr (set_snc c k) 1 = nth_ptr [10; 11]%positive 1 ∧
  arrays (kill_smc c k) = arrays kdata0 ∧ snc_ptr (kill_smc c (set_snc c k)) 1 = Err OutOfBounds.
Proof.
  apply (pack_smc_roundtrip 2 4096 [10; 11]%positive kdata0 (actual_snc kdata1)
    (set_snc no_request kdata1) 1); [cbn; lia|done|vm_compute; reflexivity].
Defined.

Lemma mmap_mmap_disk_witness :
  mmap_mmap (λ _, true) (λ a, a / 4096) id (λ _, 0) kdata1 0 (λ p, 65536 * Z.pos p) 2 8192 16000 [] =
  Ok (map_result (λ _, 0) [] (pages (λ a, a / 4096) 8192 720896 (page_count 7808))).
Proof.
  apply (mmap_mmap_disk (λ _, true) (λ a, a / 4096) id (λ _, 0) kdata1 0 (λ p, 65536 * Z.pos p)
    2 8192 16000 [] 11%positive); [lia|reflexivity].
Defined.

(** Disk 0 of four bytes, and a user buffer of eight. *)
Definition copy_mem : mem := {[ 10%positive := [1; 2; 3; 4]; 20%positive := replicate 8 0 ]}.

Lemma device_copies_witness :
  (∀ r m', barracuda_read kdata1 20 4 0 2 copy_mem = Ok (r, m') →
     r = 4 ∧ 2 ≤ buf_len copy_mem 10 ∧ 2 ≤ buf_len copy_mem 20) ∧
  (buf_len copy_mem 10 < 2 → barracuda_read kdata1 20 4 0 2 copy_mem = Err OutOfBounds) ∧
  (∀ r m', barracuda_write kdata1 20 4 0 2 copy_mem = Ok (r, m') →
     r = 4 ∧ 2 ≤ buf_len copy_mem 10 ∧ 2 ≤ buf_len copy_mem 20).
Proof. apply (device_copies kdata1 20 0 4 2 copy_mem 10); [by_decide|lia|reflexivity]. Defined.
