(* ===== verification/Driver.v ===== *)
(** * barracuda_deamon/userspace_driver.cu

    The daemon's side of a connection: taking the current request from the
    kernel (by mapping or by copying), giving it back, the netlink payloads,
    the signal handlers and the start-up sequence. *)
From S2P Require Import Prelude GF256 Word Memory Syndrome Cstring Service Conf Marshal.
Local Open Scope Z_scope.

(** ** Taking and returning a request *)
(** The container as the daemon sees it: its [ptrs] are [global_dptrs]. *)
Record user_container := { uc_disks : Z; uc_bytes : Z; uc_ptrs : list loc }.

(** [malloc(255 * sizeof(void * ))] *)
Definition global_dptrs_len : Z := 255.

Section get.
(** Whether [mmap] of the container, and of a disk's buffer, succeeds. *)
Context (map_snc_ok : bool) (map_ok : loc → Z → bool).

(** The mapping loop from disk [i - 1], [n] disks left; [maps] are the disk
    mappings of the process.  [None]: a mapping failed. *)
Fixpoint map_disks (n : nat) (i bytes : Z) (k : kdata) (dptrs : list loc) (maps : list loc) :
    result (option (list loc) * list loc) :=
  match n with
  | O => Ok (Some dptrs, maps)
  | S n =>
      p ← snc_ptr k (i - 1);
      require (i - 1 <? global_dptrs_len) OutOfBounds;;
      if map_ok p bytes then map_disks n (i + 1) bytes k (dptrs ++ [p]) (p :: maps)
      else Ok (None, maps)
  end.

(** [get_act_syndrome_block]: [smc_flag] and the mappings are the state;
    [None] is the NULL result. *)
Definition get_act_syndrome_block (k : kdata) (smc_flag : Z) (maps : list loc) :
    result (option user_container * Z * list loc) :=
  if (smc_flag =? 0) && negb map_snc_ok then Ok (None, smc_flag, maps) else
  let disks := sc_disks (actual_snc k) in
  let bytes := sc_bytes (actual_snc k) in
  '(dptrs, maps) ← map_disks (Z.to_nat disks) 1 bytes k [] maps;
  Ok (match dptrs with
      | Some dptrs => Some {| uc_disks := disks; uc_bytes := bytes; uc_ptrs := dptrs |}
      | None => None
      end, 1, maps).
End get.

(** [munmap] removes one mapping of the buffer. *)
Fixpoint munmap (p : loc) (maps : list loc) : list loc :=
  match maps with
  | [] => []
  | q :: maps => if decide (p = q) then maps else q :: munmap p maps
  end.

Definition unget_act_syndrome_block (c : user_container) (maps : list loc) : result (list loc) :=
  for_lt 0 (uc_disks c) 1 (λ i maps, p ← nth_ptr (uc_ptrs c) i; Ok (munmap p maps)) maps.

(** *** The copying variant *)
Section copy.
Context (junk : loc → nat → Z).

(** [copy_act_syndrome_block] (the container is already mapped): buffers for
    all disks, contents for the data disks. *)
Definition copy_act_syndrome_block (k : kdata) (m : mem) : result (user_container * mem) :=
  let disks := sc_disks (actual_snc k) in
  let bytes := sc_bytes (actual_snc k) in
  require (disks <=? global_dptrs_len) OutOfBounds;;
  let '(dptrs, m) := alloc_disks junk bytes (Z.to_nat disks) m in
  m ← for_lt 0 (disks - 2) 1 (λ i m,
    d ← nth_ptr dptrs i;
    '(_, m) ← barracuda_read k d bytes i bytes m;
    Ok m) m;
  Ok ({| uc_disks := disks; uc_bytes := bytes; uc_ptrs := dptrs |}, m).

Definition copyback_act_syndrome_block (k : kdata) (smc : user_container) (m : mem) : result mem :=
  let disks := uc_disks smc in
  let bytes := uc_bytes smc in
  p ← nth_ptr (uc_ptrs smc) (disks - 2);
  '(_, m) ← barracuda_write k p bytes (disks - 2) bytes m;
  q ← nth_ptr (uc_ptrs smc) (disks - 1);
  '(_, m) ← barracuda_write k q bytes (disks - 1) bytes m;
  for_lt 0 disks 1 (λ i m, d ← nth_ptr (uc_ptrs smc) i; free m d) m.
End copy.

(** ** Netlink payloads *)
(** [strcpy] between byte arrays, up to and including the first NUL. *)
Definition strcpy (dst src : list Z) : result (list Z) :=
  '(n, _) ← of_option OutOfBounds (list_find (λ b, b = 0) src);
  require (n <? length dst)%nat OutOfBounds;;
  Ok (list_inserts 0 (take (S n) src) dst).

(** [NLMSG_DATA] of a message holds MAX_PAYLOAD bytes. *)
Definition MAX_PAYLOAD : nat := 1024.
Definition gen_message_container : list Z := replicate MAX_PAYLOAD 0.
Definition add_payload (msg payload : list Z) : result (list Z) := strcpy msg payload.
Definition get_payload (msg payload : list Z) : result (list Z) := strcpy payload msg.

(** The bytes of "init" with its NUL. *)
Definition init_payload : list Z := [105; 110; 105; 116; 0].

(** ** Signals *)
Definition SIGKILL : Z := 9.
Definition SIGTERM : Z := 15.
Definition SIGALRM : Z := 14.

(** [kill_handler] logs and stays registered: [keep_going] is untouched. *)
Definition kill_handler (signum keep_going : Z) : Z := keep_going.

(** [alarm_handler]: [conf] is the first byte of /proc/barracuda/conf, [None]
    when it cannot be opened. *)
Definition alarm_handler (signum : Z) (conf : option Z) (keep_going : Z) : Z :=
  if signum =? SIGALRM then
    match conf with
    | None => keep_going
    | Some flag => if flag =? 110 then 0 else keep_going
    end
  else keep_going.

(** ** Start-up *)
(** What the process does to the outside, in order. *)
Inductive effect :=
  | WritePidfile (pid : Z)
  | WriteConf (line : string)
  | Serve (m : usp_method)
  | RemovePidfile.

(** The outcome of the calls [userspace_driver_main] makes. *)
Record driver_env := {
  pidfile_exists : bool;
  pidfile_opens : bool;
  conf_opens_pid : bool;
  conf_opens_con : bool;
  device_opens : bool
}.

Definition mode_line (c_mode : Z) : option string :=
  match c_mode with
  | 1 => Some "con=NL"%string
  | 2 => Some "con=IOCTL"%string
  | 3 => Some "con=PROCFS"%string
  | _ => None
  end.
Definition mode_server (c_mode : Z) : list effect :=
  match c_mode with
  | 1 => [Serve CallNl]
  | 2 => [Serve CallIoctl]
  | 3 => [Serve CallProc]
  | _ => []
  end.

Definition EXIT_FAILURE : Z := 1.

Definition userspace_driver_main (pid c_mode : Z) (env : driver_env) : Z * list effect :=
  if pidfile_exists env then (EXIT_FAILURE, []) else
  if negb (pidfile_opens env) then (EXIT_FAILURE, []) else
  let eff := [WritePidfile pid] in
  if negb (conf_opens_pid env) then (EXIT_FAILURE, eff) else
  let eff := eff ++ [WriteConf ("pid=" +:+ decimal pid)] in
  if negb (conf_opens_con env) then (EXIT_FAILURE, eff) else
  match mode_line c_mode with
  | None => (EXIT_FAILURE, eff)
  | Some line =>
      let eff := eff ++ [WriteConf line] in
      if negb (device_opens env) then (-1, eff) else
      (0, eff ++ mode_server c_mode ++ [RemovePidfile])
  end.

(** ** Mapping and unmapping *)
Lemma munmap_perm p maps : p ∈ maps → maps ≡ₚ p :: munmap p maps.
Proof.
  induction maps as [|q maps IH]; intros Hin; [by apply elem_of_nil in Hin|].
  cbn [munmap]. destruct (decide (p = q)) as [->|Hne]; [done|].
  apply elem_of_cons in Hin as [->|Hin]; [done|]. rewrite Permutation_swap. by rewrite <-IH.
Qed.

(** The published request: its pointer array is live and complete. *)
Definition published (k : kdata) (l : list loc) : Prop :=
  ∃ id, sc_ptrs (actual_snc k) = Some id ∧ arrays k !! id = Some l ∧
    sc_disks (actual_snc k) = Z.of_nat (length l).

Lemma published_ptr k l i p : published k l → l !! i = Some p → snc_ptr k (Z.of_nat i) = Ok p.
Proof.
  intros (id & Hid & Hl & _) Hp. unfold snc_ptr. rewrite Hid. cbn [of_option]. bind_step.
  rewrite Hl. cbn [of_option]. bind_step. by apply (nth_ptr_nat _ _ i).
Qed.

Lemma map_disks_ok map_ok k l n i bytes dptrs maps : published k l → (length l ≤ 255)%nat →
  (n + i = length l)%nat → (∀ p, p ∈ l → map_ok p bytes = true) →
  map_disks map_ok n (Z.of_nat (S i)) bytes k dptrs maps =
    Ok (Some (dptrs ++ drop i l), reverse (drop i l) ++ maps).
Proof.
  intros Hpub Hl Hn Hok. revert i dptrs maps Hn. induction n as [|n IH]; intros i dptrs maps Hn; cbn [map_disks].
  - rewrite drop_ge by lia. by rewrite app_nil_r.
  - destruct (lookup_lt_is_Some_2 l i ltac:(lia)) as [p Hp].
    replace (Z.of_nat (S i) - 1) with (Z.of_nat i) by lia.
    run (published_ptr k l i p) by done. unfold global_dptrs_len.
    destruct (Z.ltb_spec (Z.of_nat i) 255); [|lia]. cbn [require]. bind_step.
    rewrite Hok by (by eapply list_elem_of_lookup_2).
    replace (Z.of_nat (S i) + 1) with (Z.of_nat (S (S i))) by lia. rewrite IH by lia.
    rewrite (drop_S l p i Hp), reverse_cons, <-!app_assoc. done.
Qed.

Lemma unget_ok c maps : uc_disks c = Z.of_nat (length (uc_ptrs c)) → uc_disks c ≤ INT_MAX →
  ∃ maps', unget_act_syndrome_block c (reverse (uc_ptrs c) ++ maps) = Ok maps' ∧ maps' ≡ₚ maps.
Proof.
  intros Hd Hmax. set (l := uc_ptrs c) in *. unfold unget_act_syndrome_block. fold l.
  destruct (for_lt_inv (λ i ms, 0 ≤ i ∧ ms ≡ₚ drop (Z.to_nat i) l ++ maps)
    (λ i maps, p ← nth_ptr l i; Ok (munmap p maps)) 0 (uc_disks c) 1) with (s := reverse l ++ maps)
    as (maps' & E & _ & Hp).
  - lia.
  - done.
  - lia.
  - intros i ms Hi _ [H0 Hms]. destruct (lookup_lt_is_Some_2 l (Z.to_nat i) ltac:(lia)) as [p Hp].
    run (nth_ptr_nat l i (Z.to_nat i) p) by (done || lia). eexists. split; [done|]. split; [lia|].
    replace (Z.to_nat (i + 1)) with (S (Z.to_nat i)) by lia. rewrite (drop_S l p _ Hp) in Hms.
    apply (Permutation_cons_inv (a := p)). rewrite <-Hms. symmetry. apply munmap_perm.
    rewrite Hms. by left.
  - split; [done|]. cbn. by rewrite reverse_Permutation.
  - exists maps'. split; [done|]. rewrite Hp, (loop_end_unique _ _ _ (uc_disks c) (uc_disks c)) by lia.
    by rewrite drop_ge by lia.
Qed.

(** C15: taking a published request of at most 255 disks whose buffers can
    all be mapped gives the daemon the very buffers of the kernel's request, in
    order, and returning it removes exactly the mappings it added. *)
Theorem get_unget_roundtrip map_ok k l smc_flag maps : published k l → (length l ≤ 255)%nat →
  (∀ p, p ∈ l → map_ok p (sc_bytes (actual_snc k)) = true) →
  ∃ c maps' maps'', get_act_syndrome_block true map_ok k smc_flag maps = Ok (Some c, 1, maps') ∧
    uc_disks c = Z.of_nat (length l) ∧ uc_bytes c = sc_bytes (actual_snc k) ∧ uc_ptrs c = l ∧
    maps' ≡ₚ l ++ maps ∧
    unget_act_syndrome_block c maps' = Ok maps'' ∧ maps'' ≡ₚ maps.
Proof.
  intros Hpub Hl Hok. pose proof Hpub as (id & _ & _ & Hd).
  set (c := {| uc_disks := Z.of_nat (length l); uc_bytes := sc_bytes (actual_snc k); uc_ptrs := l |}).
  destruct (unget_ok c maps) as (maps'' & E & Hp); [done|cbn; unfold INT_MAX; lia|].
  exists c, (reverse l ++ maps), maps''. split_and!; try done.
  - unfold get_act_syndrome_block. rewrite andb_false_r, Hd, Nat2Z.id.
    change 1 with (Z.of_nat 1) at 1. rewrite (map_disks_ok map_ok k l _ 0) by (done || lia). done.
  - by rewrite reverse_Permutation.
Qed.

(** ** Netlink: what the kernel gets back for the address it sent

    The daemon receives the eight bytes [addr] in [client], copies them to
    [buffer] and from there to [server], whose eight first bytes it returns. *)
Definition nl_echo (addr client buffer server : list Z) : result (list Z) :=
  let client := list_inserts 0 addr client in   (* recvmsg *)
  buffer ← get_payload client buffer;
  server ← add_payload server buffer;
  Ok (take 8 server).

Lemma strcpy_ok dst src n : list_find (λ b, b = 0) src = Some (n, 0) → (n < length dst)%nat →
  strcpy dst src = Ok (list_inserts 0 (take (S n) src) dst).
Proof.
  intros Hf Hn. unfold strcpy. rewrite Hf. cbn [of_option]. bind_step.
  destruct (Nat.ltb_spec n (length dst)); [done|lia].
Qed.

Lemma list_find_prefix (a b : list Z) n : list_find (λ b, b = 0) a = Some (n, 0) →
  list_find (λ b, b = 0) (a ++ b) = Some (n, 0).
Proof. apply list_find_app_l. Qed.

(** Copying a string that starts a buffer into another buffer of the size. *)
Lemma inserts_prefix (s d : list Z) : (length s ≤ length d)%nat →
  list_inserts 0 s d = s ++ drop (length s) d.
Proof.
  intros Hl. apply list_eq. intros i. destruct (decide (i < length s)%nat).
  - rewrite list_lookup_inserts by lia. rewrite lookup_app_l by done. by rewrite Nat.sub_0_r.
  - rewrite list_lookup_inserts_ge by lia. rewrite lookup_app_r, lookup_drop by lia. f_equal. lia.
Qed.

(** The acknowledgement repeats the kernel's address exactly when no
    byte of the address is zero, or the stale bytes of the message happen to
    complete it: with a zero byte at position [n] the kernel gets back the
    bytes before it, the NUL, and then what the message already contained. *)
Theorem nl_echo_correct addr client buffer server : length addr = 8%nat →
  length client = MAX_PAYLOAD → length buffer = MAX_PAYLOAD → length server = MAX_PAYLOAD →
  (Forall (λ b, b ≠ 0) addr → client !! 8%nat = Some 0 → nl_echo addr client buffer server = Ok addr) ∧
  (∀ n, list_find (λ b, b = 0) addr = Some (n, 0) →
     nl_echo addr client buffer server = Ok (take (S n) addr ++ drop (S n) (take 8 server))).
Proof.
  unfold MAX_PAYLOAD. intros La Lc Lb Ls.
  assert (Hecho : ∀ src n, list_inserts 0 addr client = src → (n < 1024)%nat →
    list_find (λ b, b = 0) src = Some (n, 0) → (n ≤ 8)%nat →
    nl_echo addr client buffer server =
      Ok (take 8 (take (S n) src) ++ drop (S n) (take 8 server))).
  { intros src n <- Hn Hf Hn8. set (src := list_inserts 0 addr client) in *.
    assert (Lsrc : length src = 1024%nat) by (unfold src; by rewrite length_inserts).
    apply list_find_Some in Hf as Hf'. destruct Hf' as (Hz & _ & Hbefore).
    assert (Hlen : length (take (S n) src) = S n) by (rewrite length_take; lia).
    unfold nl_echo, get_payload, add_payload. fold src. run (strcpy_ok buffer src n) by (done || lia).
    rewrite inserts_prefix by lia.
    assert (Hf2 : list_find (λ b, b = 0) (take (S n) src ++ drop (length (take (S n) src)) buffer) = Some (n, 0)).
    { apply list_find_prefix, list_find_Some. split_and!; [by rewrite lookup_take_lt by lia|done|].
      intros j y Hj Hjn. apply (Hbefore j y); [|done]. by rewrite lookup_take_lt in Hj by lia. }
    run (strcpy_ok server _ n) by (done || lia). f_equal.
    rewrite (inserts_prefix (take (S n) (_ ++ _))) by (rewrite length_take, length_app; lia).
    rewrite (take_app_le (take (S n) src)) by lia. rewrite take_take, Nat.min_id, Hlen.
    rewrite take_app, Hlen, skipn_firstn_comm. done. }
  split.
  - intros Hnz Hc8.
    assert (Hf : list_find (λ b, b = 0) (list_inserts 0 addr client) = Some (8%nat, 0)).
    { rewrite inserts_prefix by lia. apply list_find_Some. rewrite La. split_and!; [|done|].
      - rewrite lookup_app_r, lookup_drop by lia. by rewrite La.
      - intros j y Hj Hj8 ->. rewrite lookup_app_l in Hj by lia.
        rewrite Forall_lookup in Hnz. by apply (Hnz j 0 Hj). }
    rewrite (Hecho _ 8%nat eq_refl ltac:(lia) Hf ltac:(lia)). f_equal.
    rewrite take_take, (drop_ge (take 8 server)), app_nil_r by (rewrite length_take; lia).
    rewrite inserts_prefix by lia. by rewrite take_app_le, take_ge by lia.
  - intros n Hf. pose proof (proj1 (list_find_Some _ _ _ _) Hf) as (Hz & _ & _).
    pose proof (lookup_lt_Some _ _ _ Hz) as Hn.
    assert (Hf' : list_find (λ b, b = 0) (list_inserts 0 addr client) = Some (n, 0)).
    { rewrite inserts_prefix by lia. by apply list_find_prefix. }
    rewrite (Hecho _ n eq_refl ltac:(lia) Hf' ltac:(lia)). f_equal. f_equal.
    rewrite inserts_prefix by lia. rewrite take_app_le by lia.
    by rewrite (take_ge (take (S n) addr)) by (rewrite length_take; lia).
Qed.

(** ** Start-up against the kernel's configuration *)
(** The daemon's configuration lines as the kernel receives them, one
    [conf_write] per [fclose]; [None]: a write blocked. *)
Fixpoint feed_conf (effs : list effect) (s : conf_state) : result (option conf_state) :=
  match effs with
  | [] => Ok (Some s)
  | WriteConf line :: effs =>
      o ← conf_write (Some line) (Z.of_nat (String.length line)) s;
      match o with
      | Blocked => Ok None
      | Returns _ s => feed_conf effs s
      end
  | _ :: effs => feed_conf effs s
  end.

Definition all_ok : driver_env :=
  {| pidfile_exists := false; pidfile_opens := true; conf_opens_pid := true;
     conf_opens_con := true; device_opens := true |}.

Lemma mode_tables c_mode : 1 ≤ c_mode ≤ 3 →
  ∃ f, mode_line c_mode = Some (con_line f) ∧ mode_server c_mode = [Serve f].
Proof.
  intros Hm. assert (c_mode = 1 ∨ c_mode = 2 ∨ c_mode = 3) as Hc by lia.
  destruct_or! Hc; subst; [by exists CallNl|by exists CallIoctl|by exists CallProc].
Qed.

(** The daemon's table of connection modes agrees with the kernel's: in
    each of the modes 1 to 3 the start-up configures a fresh module with the
    daemon's PID and with the method whose server loop the daemon then runs, and
    the pid file is removed when that loop ends. *)
Theorem driver_configures_kernel pid c_mode : 0 < pid < 2 ^ 31 → 1 ≤ c_mode ≤ 3 →
  ∃ f s, userspace_driver_main pid c_mode all_ok =
      (0, [WritePidfile pid; WriteConf (pid_line pid); WriteConf (con_line f); Serve f; RemovePidfile]) ∧
    feed_conf (userspace_driver_main pid c_mode all_ok).2 conf_start = Ok (Some s) ∧
    PID s = pid ∧ configured s = 1 ∧ call_usp s = Some f ∧ gen_syndrome_mutex s = 1 ∧ conf_mutex s = 1.
Proof.
  intros Hpid Hm.
  destruct (mode_tables c_mode Hm) as (f & Hl & Hs).
  assert (E : userspace_driver_main pid c_mode all_ok =
    (0, [WritePidfile pid; WriteConf (pid_line pid); WriteConf (con_line f); Serve f; RemovePidfile])).
  { unfold userspace_driver_main. cbn [all_ok pidfile_exists pidfile_opens conf_opens_pid conf_opens_con
      device_opens negb]. by rewrite Hl, Hs. }
  exists f, (select_method f (set_pid pid conf_start)). rewrite E. split; [done|]. cbn [snd feed_conf].
  run conf_write_pid by (done || lia). run conf_write_con by (cbn; lia). done.
Qed.

(** An unknown mode still hands its PID to the kernel and leaves the pid
    file behind; the next daemon's PID is then ignored, and the module is
    configured for a process that no longer exists. *)
Theorem driver_stale_pid pid pid' c_mode c_mode' : 0 < pid < 2 ^ 31 → 0 < pid' < 2 ^ 31 →
  mode_line c_mode = None → 1 ≤ c_mode' ≤ 3 →
  userspace_driver_main pid c_mode all_ok =
    (EXIT_FAILURE, [WritePidfile pid; WriteConf (pid_line pid)]) ∧
  ∃ s s', feed_conf (userspace_driver_main pid c_mode all_ok).2 conf_start = Ok (Some s) ∧
    feed_conf (userspace_driver_main pid' c_mode' all_ok).2 s = Ok (Some s') ∧
    configured s' = 1 ∧ PID s' = pid.
Proof.
  intros Hpid Hpid' Hl Hm'.
  assert (E : userspace_driver_main pid c_mode all_ok =
    (EXIT_FAILURE, [WritePidfile pid; WriteConf (pid_line pid)])).
  { unfold userspace_driver_main. cbn [all_ok pidfile_exists pidfile_opens conf_opens_pid conf_opens_con
      device_opens negb]. by rewrite Hl. }
  split; [done|]. rewrite E. cbn [snd feed_conf]. run conf_write_pid by (done || lia).
  destruct (mode_tables c_mode' Hm') as (f & Hl' & Hs').
  exists (set_pid pid conf_start), (select_method f (set_pid pid conf_start)). split; [done|].
  unfold userspace_driver_main. cbn [all_ok pidfile_exists pidfile_opens conf_opens_pid conf_opens_con
      device_opens negb]. rewrite Hl', Hs'. cbn [snd app feed_conf].
  change ("pid=" +:+ decimal pid') with (pid_line pid').
  run conf_write_pid_again by (cbn; lia). run conf_write_con by (cbn; lia). done.
Qed.

(** A shutdown request is never refused: whatever the module is doing,
    the first byte the handler reads from the configuration file is 'n'. *)
Theorem shutdown_never_refused page keep_going : (2 ≤ length page)%nat →
  alarm_handler SIGALRM (head (conf_read page).1.1) keep_going = 0 ∧
  (∀ conf, alarm_handler SIGTERM conf keep_going = keep_going) ∧
  (∀ sig, kill_handler sig keep_going = keep_going).
Proof.
  intros Hl. destruct page as [|a [|b page]]; cbn in Hl; [lia|lia|]. done.
Qed.

(** ** Witnesses *)
Lemma get_unget_roundtrip_witness : ∃ c maps' maps'',
  get_act_syndrome_block true (λ _ _, true) kdata1 0 [] = Ok (Some c, 1, maps') ∧
  uc_disks c = 2 ∧ uc_bytes c = 4096 ∧ uc_ptrs c = [10; 11]%positive ∧
  maps' ≡ₚ [10; 11]%positive ++ [] ∧ unget_act_syndrome_block c maps' = Ok maps'' ∧ maps'' ≡ₚ [].
Proof.
  apply (get_unget_roundtrip (λ _ _, true) kdata1 [10; 11]%positive 0 []); [|cbn; lia|done].
  by exists 2%positive.
Defined.

(** The address 0xffffffffa0012340 has no zero byte, 0xffffffffa0002340 has one. *)
Definition nl_server : list Z := init_payload ++ replicate 1019 0.
Lemma nl_echo_correct_witness :
  nl_echo [64; 35; 1; 160; 255; 255; 255; 255] gen_message_container gen_message_container nl_server =
    Ok [64; 35; 1; 160; 255; 255; 255; 255] ∧
  nl_echo [64; 35; 0; 160; 255; 255; 255; 255] gen_message_container gen_message_container nl_server =
    Ok [64; 35; 0; 116; 0; 0; 0; 0].
Proof.
  split.
  - apply (nl_echo_correct [64; 35; 1; 160; 255; 255; 255; 255] gen_message_container
      gen_message_container nl_server); try reflexivity. by_decide.
  - apply (nl_echo_correct [64; 35; 0; 160; 255; 255; 255; 255] gen_message_container
      gen_message_container nl_server eq_refl eq_refl eq_refl eq_refl) with (n := 2%nat). reflexivity.
Defined.

Lemma driver_configures_kernel_witness : ∃ f s,
  userspace_driver_main 4711 2 all_ok =
    (0, [WritePidfile 4711; WriteConf (pid_line 4711); WriteConf (con_line f); Serve f; RemovePidfile]) ∧
  feed_conf (userspace_driver_main 4711 2 all_ok).2 conf_start = Ok (Some s) ∧
  PID s = 4711 ∧ configured s = 1 ∧ call_usp s = Some f ∧ gen_syndrome_mutex s = 1 ∧ conf_mutex s = 1.
Proof. apply (driver_configures_kernel 4711 2); lia. Defined.

Lemma driver_stale_pid_witness :
  userspace_driver_main 4711 0 all_ok =
    (EXIT_FAILURE, [WritePidfile 4711; WriteConf (pid_line 4711)]) ∧
  ∃ s s', feed_conf (userspace_driver_main 4711 0 all_ok).2 conf_start = Ok (Some s) ∧
    feed_conf (userspace_driver_main 4712 3 all_ok).2 s = Ok (Some s') ∧
    configured s' = 1 ∧ PID s' = 4711.
Proof. apply (driver_stale_pid 4711 4712 0 3); lia || reflexivity. Defined.

Lemma shutdown_never_refused_witness :
  alarm_handler SIGALRM (head (conf_read [0; 0; 0]).1.1) 1 = 0 ∧
  (∀ conf, alarm_handler SIGTERM conf 1 = 1) ∧ (∀ sig, kill_handler sig 1 = 1).
Proof. apply (shutdown_never_refused [0; 0; 0] 1). cbn. lia. Defined.
