(* ===== verification/Messages.v ===== *)
(** * barracuda_deamon/userspace_driver.cu: the netlink messages in memory

    A message container is three blocks of the heap: the netlink message (its
    header and 1024 bytes of payload), the [struct iovec] that points to it, and
    the address of the receiver.  Driver.v and Transport.v work on the payload
    as a list; this file has the containers themselves and shows that the lists
    are what is in memory. *)
From S2P Require Import Prelude GF256 Word Memory Syndrome Cstring Service Driver.
Local Open Scope Z_scope.

(** ** The structures *)
Definition NLMSG_HDRLEN : nat := 16.
(** [NLMSG_ALIGN(NLMSG_LENGTH(len))] of linux/netlink.h *)
Definition NLMSG_SPACE (len : Z) : Z := Z.land (len + 16 + 3) (Z.lnot 3).
Definition AF_NETLINK : Z := 16.
Definition NL_COMMAND : Z := 0x11.
(** [NLM_F_REQUEST | NLM_F_ECHO] *)
Definition nlm_flags : Z := Z.lor 1 8.
Definition sizeof_iovec : Z := 16.
Definition sizeof_sockaddr_nl : Z := 12.
Definition sizeof_pointer : Z := 8.

(** The pointers are kept beside the blocks: [msg_iov] is the block of the
    [struct iovec], whose contents are the next two fields. *)
Record msghdr := {
  msg_name : loc; msg_namelen : Z; msg_iov : loc; msg_iovlen : Z;
  iov_base : loc; iov_len : Z
}.

(** Storing an unsigned integer of [n] bytes. *)
Definition store_le (m : mem) (b : loc) (off : Z) (n : nat) (v : Z) : result mem :=
  store_bytes m b off (Z_to_little_endian (Z.of_nat n) 8 v).

Section container.
Context (junk : loc → nat → Z).

Definition gen_message_container (getpid : Z) (m : mem) : result (msghdr * mem) :=
  let size := NLMSG_SPACE (Z.of_nat MAX_PAYLOAD) in
  let '(nlh, m) := malloc junk m size in
  m ← memset m nlh 0 size;
  m ← store_le m nlh 0 4 size;           (* nlmsg_len *)
  m ← store_le m nlh 12 4 getpid;        (* nlmsg_pid *)
  m ← store_le m nlh 6 2 nlm_flags;      (* nlmsg_flags *)
  m ← store_le m nlh 4 2 NL_COMMAND;     (* nlmsg_type *)
  let '(iov, m) := malloc junk m sizeof_iovec in
  let '(dst_addr, m) := malloc junk m sizeof_sockaddr_nl in
  m ← memset m dst_addr 0 sizeof_pointer;
  m ← store_le m dst_addr 0 2 AF_NETLINK; (* nl_family *)
  m ← store_le m dst_addr 4 4 0;          (* nl_pid *)
  m ← store_le m dst_addr 8 4 0;          (* nl_groups *)
  Ok ({| msg_name := dst_addr; msg_namelen := sizeof_sockaddr_nl; msg_iov := iov; msg_iovlen := 1;
         iov_base := nlh; iov_len := size |}, m).
End container.

Definition destroy_message_container (msg : msghdr) (m : mem) : result mem :=
  m ← free m (iov_base msg);
  m ← free m (msg_iov msg);
  free m (msg_name msg).

(** [NLMSG_DATA] of the message, and a new one. *)
Definition nlmsg_data (msg : msghdr) (m : mem) : option (list Z) := drop NLMSG_HDRLEN <$> m !! iov_base msg.
Definition set_nlmsg_data (msg : msghdr) (d : list Z) (m : mem) : mem :=
  alter (λ buf, take NLMSG_HDRLEN buf ++ d) (iov_base msg) m.

Definition add_payload (msg : msghdr) (payload : list Z) (m : mem) : result mem :=
  d ← of_option OutOfBounds (nlmsg_data msg m);
  d ← strcpy d payload;
  Ok (set_nlmsg_data msg d m).

Definition get_payload (msg : msghdr) (payload : list Z) (m : mem) : result (list Z) :=
  d ← of_option OutOfBounds (nlmsg_data msg m);
  strcpy payload d.

(** ** Ownership: the blocks by which one memory exceeds another *)
Record owns (bs : list loc) (m0 m : mem) : Prop := {
  ow_nodup : NoDup bs;
  ow_new : ∀ b, b ∈ bs → m0 !! b = None ∧ is_Some (m !! b);
  ow_rest : ∀ b, b ∉ bs → m !! b = m0 !! b
}.

Lemma owns_nil m : owns [] m m.
Proof. split; [constructor|by intros b ?%elem_of_nil|done]. Qed.

Lemma owns_nil_eq m0 m : owns [] m0 m → m = m0.
Proof. intros [_ _ H]. apply map_eq. intros b. apply H, not_elem_of_nil. Qed.

Lemma owns_insert bs m0 m b buf : b ∈ bs → owns bs m0 m → owns bs m0 (<[b := buf]> m).
Proof.
  intros Hb [H1 H2 H3]. split; [done|..].
  - intros b' Hb'. split; [by apply H2|]. destruct (decide (b' = b)) as [->|];
      [rewrite lookup_insert_eq; by eexists|rewrite lookup_insert_ne by done; by apply H2].
  - intros b' Hb'. rewrite lookup_insert_ne by congruence. by apply H3.
Qed.

Lemma owns_malloc junk bs m0 m n : owns bs m0 m → owns (fresh_loc m :: bs) m0 (malloc junk m n).2.
Proof.
  intros [H1 H2 H3]. pose proof (fresh_loc_fresh m) as Hf. cbn [malloc snd].
  assert (fresh_loc m ∉ bs) as Hni by (intros Hb; destruct (H2 _ Hb) as [_ [? E]]; congruence).
  split; [by constructor|..].
  - intros b [->|Hb]%elem_of_cons; [rewrite lookup_insert_eq, <-H3 by done; split; [done|by eexists]|].
    rewrite lookup_insert_ne by congruence. by apply H2.
  - intros b [Hne Hb]%not_elem_of_cons. rewrite lookup_insert_ne by done. by apply H3.
Qed.

Lemma owns_free b bs m0 m : owns (b :: bs) m0 m → ∃ m', free m b = Ok m' ∧ owns bs m0 m'.
Proof.
  intros [[Hni H1]%NoDup_cons H2 H3]. destruct (H2 b) as [Hn [buf E]]; [by left|].
  exists (delete b m). unfold free. rewrite E. split; [done|]. split; [done|..].
  - intros b' Hb'. rewrite lookup_delete_ne by congruence. apply H2. by right.
  - intros b' Hb'. destruct (decide (b' = b)) as [->|Hne]; [by rewrite lookup_delete_eq|].
    rewrite lookup_delete_ne by done. apply H3. by apply not_elem_of_cons.
Qed.

Lemma owns_perm bs bs' m0 m : bs ≡ₚ bs' → owns bs m0 m → owns bs' m0 m.
Proof. intros E [H1 H2 H3]. split; [by rewrite <-E|..]; intros b Hb; rewrite <-E in Hb; auto. Qed.

(** ** A new container *)
Definition nl_header (pid : Z) : list Z :=
  Z_to_little_endian 4 8 1040 ++ Z_to_little_endian 2 8 NL_COMMAND ++ Z_to_little_endian 2 8 nlm_flags ++
  Z_to_little_endian 4 8 0 ++ Z_to_little_endian 4 8 pid.
Definition nl_address : list Z := 16 :: replicate 11 0.

Lemma store_block m b buf off bs : 0 ≤ off → (Z.to_nat off + length bs ≤ length buf)%nat →
  store_bytes (<[b := buf]> m) b off bs = Ok (<[b := list_inserts (Z.to_nat off) bs buf]> m).
Proof.
  intros Ho Hl. unfold store_bytes. rewrite lookup_insert_eq. cbn [of_option]. bind_step.
  unfold in_range. rewrite !(proj2 (Z.leb_le _ _)) by lia. cbn. by rewrite insert_insert_eq.
Qed.

Lemma store_le_block m b buf off n v : 0 ≤ off → (Z.to_nat off + n ≤ length buf)%nat →
  store_le (<[b := buf]> m) b off n v =
    Ok (<[b := list_inserts (Z.to_nat off) (Z_to_little_endian (Z.of_nat n) 8 v) buf]> m).
Proof. intros. unfold store_le. apply store_block; [done|]. pose proof (length_Z_to_little_endian (Z.of_nat n) 8 v). lia. Qed.

Lemma memset_block m b buf c n : (Z.to_nat n ≤ length buf)%nat →
  memset (<[b := buf]> m) b c n = Ok (<[b := list_inserts 0 (replicate (Z.to_nat n) (to_u8 c)) buf]> m).
Proof. intros. unfold memset. apply store_block; [done|]. by rewrite length_replicate. Qed.

Lemma malloc_insert junk m n : malloc junk m n =
  (fresh_loc m, <[fresh_loc m := (λ k, to_u8 (junk (fresh_loc m) k)) <$> seq 0 (Z.to_nat n)]> m).
Proof. done. Qed.

Lemma inserts_all (bs buf : list Z) : length bs = length buf → list_inserts 0 bs buf = bs.
Proof. intros Hl. rewrite inserts_prefix by lia. rewrite drop_ge by lia. apply app_nil_r. Qed.

Lemma header_bytes pid : list_inserts 4 (Z_to_little_endian 2 8 NL_COMMAND)
    (list_inserts 6 (Z_to_little_endian 2 8 nlm_flags)
      (list_inserts 12 (Z_to_little_endian 4 8 pid)
        (list_inserts 0 (Z_to_little_endian 4 8 1040) (replicate 1040 0)))) = nl_header pid ++ replicate 1024 0.
Proof.
  unfold nl_header. pose proof (length_Z_to_little_endian 4 8 pid ltac:(lia)) as Hl.
  destruct (Z_to_little_endian 4 8 pid) as [|a [|b [|c [|d [|? ?]]]]]; try (cbn in Hl; lia). reflexivity.
Qed.

Lemma gen_message_container_eq junk pid m :
  let nlh := fresh_loc m in let m1 := <[nlh := nl_header pid ++ replicate 1024 0]> m in
  let iov := fresh_loc m1 in let m2 := (malloc junk m1 sizeof_iovec).2 in let dst := fresh_loc m2 in
  gen_message_container junk pid m =
    Ok ({| msg_name := dst; msg_namelen := 12; msg_iov := iov; msg_iovlen := 1; iov_base := nlh; iov_len := 1040 |},
        <[dst := nl_address]> m2).
Proof.
  intros nlh m1 iov m2 dst. unfold gen_message_container. change (NLMSG_SPACE (Z.of_nat MAX_PAYLOAD)) with 1040.
  rewrite malloc_insert. fold nlh. cbv beta iota zeta.
  run memset_block by (by rewrite length_fmap, length_seq).
  rewrite inserts_all by (by rewrite length_replicate, length_fmap, length_seq). change (to_u8 0) with 0.
  do 4 run store_le_block by (rewrite ?length_inserts, ?length_replicate; lia).
  change (Z.to_nat 1040) with 1040%nat. rewrite header_bytes. fold m1. rewrite malloc_insert. fold iov.
  change (<[iov := _]> m1) with m2. cbv beta iota. rewrite malloc_insert. fold dst. cbv beta iota.
  run memset_block by (rewrite length_fmap, length_seq; unfold sizeof_pointer, sizeof_sockaddr_nl; lia).
  do 3 run store_le_block by (rewrite ?length_inserts, ?length_fmap, ?length_seq; unfold sizeof_sockaddr_nl; lia).
  done.
Qed.

(** ** The life of the two messages of the daemon *)
(** What [server_netlink] does to them: it fills the answer with a constant or
    with its buffer, receives into the other one and reads its string. *)
Inductive msg_op :=
  | AddPayload (payload : list Z)
  | AddBuffer
  | Receive (payload : list Z)
  | GetPayload.

Definition heap_op (client server : msghdr) (o : msg_op) (s : list Z * mem) : result (list Z * mem) :=
  let '(buffer, m) := s in
  match o with
  | AddPayload p => m ← add_payload server p m; Ok (buffer, m)
  | AddBuffer => m ← add_payload server buffer m; Ok (buffer, m)
  | Receive p =>
      d ← of_option OutOfBounds (nlmsg_data client m);
      Ok (buffer, set_nlmsg_data client (list_inserts 0 p d) m)
  | GetPayload => buffer ← get_payload client buffer m; Ok (buffer, m)
  end.

(** The same on lists: client, buffer and server as in Transport.v. *)
Definition list_op (o : msg_op) (s : list Z * list Z * list Z) : result (list Z * list Z * list Z) :=
  let '(cl, bu, se) := s in
  match o with
  | AddPayload p => se ← Driver.add_payload se p; Ok (cl, bu, se)
  | AddBuffer => se ← Driver.add_payload se bu; Ok (cl, bu, se)
  | Receive p => Ok (list_inserts 0 p cl, bu, se)
  | GetPayload => bu ← Driver.get_payload cl bu; Ok (cl, bu, se)
  end.

Fixpoint run_ops {S} (step : msg_op → S → result S) (ops : list msg_op) (s : S) : result S :=
  match ops with
  | [] => Ok s
  | o :: ops => s ← step o s; run_ops step ops s
  end.

Lemma length_nl_header pid : length (nl_header pid) = NLMSG_HDRLEN.
Proof. unfold nl_header. rewrite !length_app. pose proof (length_Z_to_little_endian 4 8 pid ltac:(lia)) as Hl.
  set (l := Z_to_little_endian 4 8 pid) in *. clearbody l. unfold NLMSG_HDRLEN. rewrite <-(Nat2Z.id (length l)), Hl. reflexivity.
Qed.

Section life.
Context (pid : Z) (m0 : mem) (client server : msghdr) (bs : list loc).
Context (Hcb : iov_base client ∈ bs) (Hsb : iov_base server ∈ bs) (Hne : iov_base client ≠ iov_base server).
Local Abbreviation header := (nl_header pid).

Record holds_lists (cl se : list Z) (m : mem) : Prop := {
  hl_owns : owns bs m0 m;
  hl_client : m !! iov_base client = Some (header ++ cl);
  hl_server : m !! iov_base server = Some (header ++ se)
}.

Lemma data_of msg d m : m !! iov_base msg = Some (header ++ d) → nlmsg_data msg m = Some d.
Proof using Type. intros E. unfold nlmsg_data. rewrite E. cbn. by rewrite drop_app_length' by (symmetry; apply length_nl_header). Qed.

Lemma set_data_of msg d d' m : m !! iov_base msg = Some (header ++ d) →
  set_nlmsg_data msg d' m = <[iov_base msg := header ++ d']> m.
Proof using Type.
  intros E. unfold set_nlmsg_data. apply map_eq. intros b. destruct (decide (b = iov_base msg)) as [->|Hb].
  - rewrite lookup_alter_eq, lookup_insert_eq, E. cbn. by rewrite take_app_length' by (symmetry; apply length_nl_header).
  - by rewrite lookup_alter_ne, lookup_insert_ne by done.
Qed.

Lemma set_client cl se d m : holds_lists cl se m → holds_lists d se (set_nlmsg_data client d m).
Proof using All.
  intros [H1 H2 H3]. rewrite (set_data_of _ _ _ _ H2). split; [by apply owns_insert|apply lookup_insert_eq|].
  by rewrite lookup_insert_ne.
Qed.

Lemma set_server cl se d m : holds_lists cl se m → holds_lists cl d (set_nlmsg_data server d m).
Proof using All.
  intros [H1 H2 H3]. rewrite (set_data_of _ _ _ _ H3). split; [by apply owns_insert| |apply lookup_insert_eq].
  by rewrite lookup_insert_ne.
Qed.

(** The two runs agree, faults included. *)
Definition agree (r : result (list Z * mem)) (l : result (list Z * list Z * list Z)) : Prop :=
  match l with
  | Err f => r = Err f
  | Ok (cl, bu, se) => ∃ m, r = Ok (bu, m) ∧ holds_lists cl se m
  end.

Lemma add_agree cl bu se p m : holds_lists cl se m →
  agree (m ← add_payload server p m; Ok (bu, m)) (se ← Driver.add_payload se p; Ok (cl, bu, se)).
Proof using All.
  intros H. unfold add_payload, Driver.add_payload. rewrite (data_of _ _ _ (hl_server _ _ _ H)). cbn [of_option]. bind_step.
  destruct (strcpy se p) as [d|f]; bind_step; [|done]. eexists. split; [done|]. by eapply set_server.
Qed.

Lemma op_agree o cl bu se m : holds_lists cl se m → agree (heap_op client server o (bu, m)) (list_op o (cl, bu, se)).
Proof using All.
  intros H. pose proof (data_of _ _ _ (hl_client _ _ _ H)) as Ed.
  destruct o as [p| |p|]; cbn [heap_op list_op]; [by apply add_agree|by apply add_agree|..].
  - rewrite Ed. eexists. split; [done|]. by eapply set_client.
  - unfold get_payload, Driver.get_payload. rewrite Ed. cbn [of_option]. bind_step.
    destruct (strcpy bu cl) as [d|f]; bind_step; [|done]. by exists m.
Qed.

Lemma run_agree ops cl bu se m : holds_lists cl se m →
  agree (run_ops (heap_op client server) ops (bu, m)) (run_ops list_op ops (cl, bu, se)).
Proof using All.
  revert cl bu se m. induction ops as [|o ops IH]; intros cl bu se m H; [by exists m|]. cbn [run_ops].
  pose proof (op_agree o cl bu se m H) as Ho. destruct (list_op o (cl, bu, se)) as [[[cl' bu'] se']|f]; cbn [agree] in Ho.
  - destruct Ho as (m' & -> & H'). bind_step. by apply IH.
  - by rewrite Ho.
Qed.
End life.

Definition blocks (msg : msghdr) : list loc := [iov_base msg; msg_iov msg; msg_name msg].

Lemma gen_owns junk pid bs m0 m : owns bs m0 m → ∃ msg m', gen_message_container junk pid m = Ok (msg, m') ∧
  owns (blocks msg ++ bs) m0 m' ∧ m' !! iov_base msg = Some (nl_header pid ++ Driver.gen_message_container) ∧
  ∀ b, is_Some (m !! b) → m' !! b = m !! b.
Proof.
  intros Ho. pose proof (gen_message_container_eq junk pid m) as E. cbn zeta in E.
  set (nlh := fresh_loc m) in *. set (m1 := <[nlh := _]> m) in *. set (iov := fresh_loc m1) in *.
  set (m2 := (malloc junk m1 sizeof_iovec).2) in *. set (dst := fresh_loc m2) in *.
  assert (m !! nlh = None ∧ m1 !! iov = None ∧ m2 !! dst = None) as (F1 & F2 & F3) by (split_and!; apply fresh_loc_fresh).
  assert (nlh ≠ iov) as N1 by (intros E'; rewrite <-E' in F2; unfold m1 in F2; by rewrite lookup_insert_eq in F2).
  assert (∀ b, b ≠ iov → m2 !! b = m1 !! b) as L2 by (intros b Hb; unfold m2; cbn [malloc snd]; by rewrite lookup_insert_ne).
  assert (nlh ≠ dst) as N2.
  { intros E'. rewrite <-E', L2 in F3 by done. unfold m1 in F3. by rewrite lookup_insert_eq in F3. }
  eexists _, _. split; [exact E|]. cbn [blocks iov_base msg_iov msg_name]. split_and!.
  - apply (owns_perm (dst :: iov :: nlh :: bs)).
    { cbn. rewrite (Permutation_swap iov nlh), (Permutation_swap dst nlh). by rewrite (Permutation_swap dst iov). }
    rewrite <-(insert_insert_eq m2 dst nl_address ((λ k, to_u8 (junk dst k)) <$> seq 0 (Z.to_nat 12))).
    apply owns_insert; [by left|]. apply (owns_malloc junk _ m0 m2 12). apply (owns_malloc junk _ m0 m1 sizeof_iovec).
    unfold m1. rewrite <-(insert_insert_eq m nlh _ ((λ k, to_u8 (junk nlh k)) <$> seq 0 (Z.to_nat 0))).
    apply owns_insert; [by left|]. by apply (owns_malloc junk bs m0 m 0).
  - rewrite lookup_insert_ne by done. rewrite L2 by done. apply lookup_insert_eq.
  - intros b [x Hb]. assert (b ≠ nlh) by congruence.
    assert (m1 !! b = Some x) as H1 by (unfold m1; by rewrite lookup_insert_ne).
    assert (b ≠ iov) by congruence. assert (b ≠ dst) by (intros ->; rewrite L2 in F3 by done; congruence).
    rewrite lookup_insert_ne by done. rewrite L2 by done. congruence.
Qed.

Lemma destroy_owns msg bs m0 m : owns (blocks msg ++ bs) m0 m →
  ∃ m', destroy_message_container msg m = Ok m' ∧ owns bs m0 m'.
Proof.
  intros H. unfold destroy_message_container. cbn in H.
  apply owns_free in H as (m1 & -> & H). bind_step. apply owns_free in H as (m2 & -> & H). bind_step. by apply owns_free.
Qed.

(** The two messages of the daemon, from their creation to their end,
    whatever is sent and received in between.  The operations on the heap fault
    exactly where the operations of Transport.v on lists fault, and otherwise
    leave the same strings behind the headers; and destroying the messages gives
    the heap back as it was. *)
Theorem message_containers junk pid m : ∃ client m1 server m2,
  gen_message_container junk pid m = Ok (client, m1) ∧ gen_message_container junk pid m1 = Ok (server, m2) ∧
  ∀ ops buffer,
    match run_ops list_op ops (Driver.gen_message_container, buffer, Driver.gen_message_container) with
    | Err f => run_ops (heap_op client server) ops (buffer, m2) = Err f
    | Ok (cl, bu, se) => ∃ m3 m4, run_ops (heap_op client server) ops (buffer, m2) = Ok (bu, m3) ∧
        m3 !! iov_base client = Some (nl_header pid ++ cl) ∧ m3 !! iov_base server = Some (nl_header pid ++ se) ∧
        destroy_message_container server m3 = Ok m4 ∧ destroy_message_container client m4 = Ok m
    end.
Proof.
  destruct (gen_owns junk pid [] m m (owns_nil m)) as (client & m1 & E1 & H1 & C1 & _).
  destruct (gen_owns junk pid _ m m1 H1) as (server & m2 & E2 & H2 & S2 & F2).
  exists client, m1, server, m2. split; [done|]. split; [done|]. intros ops bu.
  rewrite app_nil_r in H2. set (bs := blocks server ++ blocks client) in *.
  assert (iov_base client ≠ iov_base server) as Hne.
  { intros E. pose proof (ow_nodup _ _ _ H2) as Hnd. apply NoDup_app in Hnd as (_ & Hnd & _).
    apply (Hnd (iov_base server)); [by left|]. rewrite <-E. by left. }
  assert (iov_base client ∈ bs) as Hc by (apply elem_of_app; right; by left).
  assert (iov_base server ∈ bs) as Hs by (by left).
  pose proof (run_agree pid m client server bs Hc Hs Hne ops Driver.gen_message_container bu Driver.gen_message_container m2) as Hr.
  destruct (run_ops list_op ops _) as [[[cl bu'] se]|f]; cbn [agree] in Hr.
  - destruct Hr as (m3 & E3 & [H3 C3 S3]); [split; [done| |done]; rewrite F2; [done|by rewrite C1]|].
    destruct (destroy_owns server (blocks client) m m3 H3) as (m4 & E4 & H4).
    destruct (destroy_owns client [] m m4) as (m5 & E5 & H5); [by rewrite app_nil_r|]. apply owns_nil_eq in H5 as ->.
    by exists m3, m4.
  - apply Hr. split; [done| |done]. rewrite F2; [done|by rewrite C1].
Qed.
