(* ===== verification/Transport.v ===== *)
(** * A syndrome request from the kernel to the daemon and back

    barracuda_kernel_module/raid6cuda.c ([raid6_cuda_gen_syndrome] and the three
    marshalling functions [call_usp_proc], [call_usp_ioctl], [call_usp_nl] with
    their handlers) running against the server loops of
    barracuda_deamon/userspace_driver.cu.  Any number of kernel threads issue
    requests; the threads and the daemon are interleaved at every semaphore, flag
    and message operation.  A wait queue is its condition: a sleeping caller can
    go on when the condition holds. *)
From S2P Require Import Prelude GF256 Word Memory Syndrome Cstring Service Conf Marshal Driver.
Local Open Scope Z_scope.

(** ** State *)
(** The arguments of [raid6_cuda_gen_syndrome]. *)
Record request := { rq_disks : Z; rq_bytes : Z; rq_ptrs : list loc }.

(** A netlink message and the PID in its header. *)
Record sk_buff := { skb_data : list Z; skb_pid : Z }.

(** The module's static data.  [ks_flag] is [procfs_wq_flag],
    [ioctl_wq_enter_flag] or [nl_receive_flag], whichever the configured
    method uses; [ks_call] its [call_usp_*_mutex]. *)
Record kstate := {
  ks_gen : Z;               (* gen_syndrome_mutex *)
  ks_call : Z;
  ks_init : Z;              (* ioctl_init_mutex *)
  ks_rd : Z;                (* proc_read_mutex *)
  ks_wr : Z;                (* proc_write_mutex *)
  ks_flag : Z;
  ks_data : kdata;          (* pointer arrays and actual_snc *)
  ks_skb : option sk_buff;  (* skb_global *)
  ks_inbox : list (list Z); (* unicast to the daemon, not yet received *)
  ks_mem : mem
}.

Definition set_gen (v : Z) (k : kstate) : kstate :=
  {| ks_gen := v; ks_call := ks_call k; ks_init := ks_init k; ks_rd := ks_rd k; ks_wr := ks_wr k;
     ks_flag := ks_flag k; ks_data := ks_data k; ks_skb := ks_skb k; ks_inbox := ks_inbox k;
     ks_mem := ks_mem k |}.
Definition set_call (v : Z) (k : kstate) : kstate :=
  {| ks_gen := ks_gen k; ks_call := v; ks_init := ks_init k; ks_rd := ks_rd k; ks_wr := ks_wr k;
     ks_flag := ks_flag k; ks_data := ks_data k; ks_skb := ks_skb k; ks_inbox := ks_inbox k;
     ks_mem := ks_mem k |}.
Definition set_init (v : Z) (k : kstate) : kstate :=
  {| ks_gen := ks_gen k; ks_call := ks_call k; ks_init := v; ks_rd := ks_rd k; ks_wr := ks_wr k;
     ks_flag := ks_flag k; ks_data := ks_data k; ks_skb := ks_skb k; ks_inbox := ks_inbox k;
     ks_mem := ks_mem k |}.
Definition set_wr (v : Z) (k : kstate) : kstate :=
  {| ks_gen := ks_gen k; ks_call := ks_call k; ks_init := ks_init k; ks_rd := ks_rd k; ks_wr := v;
     ks_flag := ks_flag k; ks_data := ks_data k; ks_skb := ks_skb k; ks_inbox := ks_inbox k;
     ks_mem := ks_mem k |}.
Definition set_flag (v : Z) (k : kstate) : kstate :=
  {| ks_gen := ks_gen k; ks_call := ks_call k; ks_init := ks_init k; ks_rd := ks_rd k; ks_wr := ks_wr k;
     ks_flag := v; ks_data := ks_data k; ks_skb := ks_skb k; ks_inbox := ks_inbox k;
     ks_mem := ks_mem k |}.
Definition set_data (v : kdata) (k : kstate) : kstate :=
  {| ks_gen := ks_gen k; ks_call := ks_call k; ks_init := ks_init k; ks_rd := ks_rd k; ks_wr := ks_wr k;
     ks_flag := ks_flag k; ks_data := v; ks_skb := ks_skb k; ks_inbox := ks_inbox k;
     ks_mem := ks_mem k |}.
Definition set_skb (v : option sk_buff) (k : kstate) : kstate :=
  {| ks_gen := ks_gen k; ks_call := ks_call k; ks_init := ks_init k; ks_rd := ks_rd k; ks_wr := ks_wr k;
     ks_flag := ks_flag k; ks_data := ks_data k; ks_skb := v; ks_inbox := ks_inbox k;
     ks_mem := ks_mem k |}.
Definition set_inbox (v : list (list Z)) (k : kstate) : kstate :=
  {| ks_gen := ks_gen k; ks_call := ks_call k; ks_init := ks_init k; ks_rd := ks_rd k; ks_wr := ks_wr k;
     ks_flag := ks_flag k; ks_data := ks_data k; ks_skb := ks_skb k; ks_inbox := v;
     ks_mem := ks_mem k |}.
Definition set_mem (v : mem) (k : kstate) : kstate :=
  {| ks_gen := ks_gen k; ks_call := ks_call k; ks_init := ks_init k; ks_rd := ks_rd k; ks_wr := ks_wr k;
     ks_flag := ks_flag k; ks_data := ks_data k; ks_skb := ks_skb k; ks_inbox := ks_inbox k;
     ks_mem := v |}.

(** Where a marshalling function is; the comment names the next statement. *)
Inductive call_pc :=
  | UDownInit   (* down(&ioctl_init_mutex) *)
  | UDown       (* down(&call_usp_*_mutex) *)
  | URecv1      (* nl_recv_pkg(): nl_receive_flag = 0 *)
  | UWait1      (* wait for nl_receive_flag == 1 *)
  | UPid        (* if(PID != pid) return 1 *)
  | UCopy       (* memcpy(actual_snc, &snc, ...) *)
  | USend       (* netlink_unicast(...) *)
  | UFlag       (* the flag is set to 0 *)
  | UWait       (* wait for the flag *)
  | UCheck      (* if(back_adress != curr_adress) return -EFAULT *)
  | UUp.        (* up(&call_usp_*_mutex) *)

(** Where a thread in [raid6_cuda_gen_syndrome] is. *)
Inductive client_pc :=
  | CDown
  | CPack
  | CCall (u : call_pc) (snc : syndrome_container)
  | CKill (snc : syndrome_container)
  | CUp
  | CReturned.

(** Where the daemon's server loop is. *)
Inductive server_pc :=
  | STop                        (* while( keep_going ) *)
  | SEnter                      (* entering the ioctl / sending "init" *)
  | SWait                       (* waiting for a request *)
  | SGet                        (* get_act_syndrome_block() *)
  | SGen (c : user_container)   (* gen_syndrome(disks, bytes, ptrs) *)
  | SUnget (c : user_container) (* unget_act_syndrome_block() *)
  | SAck                        (* fwrite / sendmsg *)
  | SExit.

Record server := {
  sv_pc : server_pc;
  keep_going : Z;
  smc_flag : Z;
  sv_maps : list loc;
  sv_client : list Z;   (* payload of msg_client *)
  sv_buffer : list Z;   (* buffer *)
  sv_server : list Z    (* payload of msg_server *)
}.

Definition at_pc (c : server_pc) (d : server) : server :=
  {| sv_pc := c; keep_going := keep_going d; smc_flag := smc_flag d; sv_maps := sv_maps d;
     sv_client := sv_client d; sv_buffer := sv_buffer d; sv_server := sv_server d |}.
Definition set_maps (fl : Z) (ms : list loc) (d : server) : server :=
  {| sv_pc := sv_pc d; keep_going := keep_going d; smc_flag := fl; sv_maps := ms;
     sv_client := sv_client d; sv_buffer := sv_buffer d; sv_server := sv_server d |}.
Definition set_buffers (cl bu se : list Z) (d : server) : server :=
  {| sv_pc := sv_pc d; keep_going := keep_going d; smc_flag := smc_flag d; sv_maps := sv_maps d;
     sv_client := cl; sv_buffer := bu; sv_server := se |}.

Record system := { s_clients : list (request * client_pc); s_kernel : kstate; s_server : server }.

(** ** The kernel side *)
Inductive call_res := CallAt (u : call_pc) | CallRet (ret : Z).

Section machine.
(** The configured method, the eight bytes of [&actual_snc], the PID the kernel
    was configured with and the one the daemon's messages carry. *)
Context (meth : usp_method) (snc_addr : list Z) (kernel_PID daemon_pid : Z).

Definition call_start : call_pc := match meth with CallIoctl => UDownInit | _ => UDown end.
(** The flag value that says "done": 2 for procfs, 1 for the others. *)
Definition done_flag : Z := match meth with CallProc => 2 | _ => 1 end.

(** Statements the three marshalling functions share: [down] and [up] of the
    method's mutex, [memcpy(actual_snc, &snc, ...)], and waiting for the
    flag.  [Ok None] is asleep. *)
Definition down_call (next : call_pc) (k : kstate) : result (option (call_res * kstate)) :=
  Ok (if ks_call k <=? 0 then None else Some (CallAt next, set_call (ks_call k - 1) k)).
Definition up_call (k : kstate) : result (option (call_res * kstate)) :=
  Ok (Some (CallRet 0, set_call (ks_call k + 1) k)).
Definition publish (next : call_pc) (snc : syndrome_container) (k : kstate) :
    result (option (call_res * kstate)) :=
  Ok (Some (CallAt next, set_data (set_snc snc (ks_data k)) k)).
Definition clear_flag (next : call_pc) (k : kstate) : result (option (call_res * kstate)) :=
  Ok (Some (CallAt next, set_flag 0 k)).
Definition wait_flag (v : Z) (next : call_pc) (k : kstate) : result (option (call_res * kstate)) :=
  Ok (if ks_flag k =? v then Some (CallAt next, k) else None).

(** The statement of [call_usp_proc] at [u]. *)
Definition call_usp_proc (u : call_pc) (snc : syndrome_container) (k : kstate) :
    result (option (call_res * kstate)) :=
  match u with
  | UDown => down_call UCopy k
  | UCopy => publish UFlag snc k
  | UFlag => clear_flag UWait k
  | UWait => wait_flag 2 UUp k
  | UUp => up_call k
  | _ => Ok None
  end.

(** ... of [call_usp_ioctl] *)
Definition call_usp_ioctl (u : call_pc) (snc : syndrome_container) (k : kstate) :
    result (option (call_res * kstate)) :=
  match u with
  | UDownInit =>
      Ok (if ks_init k <=? 0 then None else Some (CallAt UDown, set_init (ks_init k - 1) k))
  | UDown => down_call UCopy k
  | UCopy => publish UFlag snc k
  | UFlag => clear_flag UWait k
  | UWait => wait_flag 1 UUp k
  | UUp => up_call k
  | _ => Ok None
  end.

(** The two statements of [nl_recv_pkg]: [nl_receive_flag = 0], from which it
    goes on to [wait], and the wait, behind which the caller goes on at [ret]
    with [skb_global]. *)
Definition nl_recv_pkg (waiting : bool) (wait ret : call_pc) (k : kstate) : result (option (call_res * kstate)) :=
  if waiting then wait_flag 1 ret k else clear_flag wait k.

(** ... and of [call_usp_nl], which calls [nl_recv_pkg] twice.  A socket buffer that is
    not there or not delivered is the subject of NetlinkFailures.v. *)
Definition call_usp_nl (u : call_pc) (snc : syndrome_container) (k : kstate) :
    result (option (call_res * kstate)) :=
  match u with
  | UDown => down_call URecv1 k
  | URecv1 => nl_recv_pkg false UWait1 UPid k
  | UWait1 => nl_recv_pkg true UWait1 UPid k
  | UPid =>
      skb ← of_option NullDeref (ks_skb k);
      Ok (Some (if kernel_PID =? skb_pid skb then CallAt UCopy else CallRet 1, k))
  | UCopy => publish USend snc k
  | USend => Ok (Some (CallAt UFlag, set_inbox (ks_inbox k ++ [snc_addr]) k))
  | UFlag => nl_recv_pkg false UWait UCheck k
  | UWait => nl_recv_pkg true UWait UCheck k
  | UCheck =>
      skb ← of_option NullDeref (ks_skb k);
      Ok (Some (if decide (take 8 (skb_data skb) = snc_addr) then CallAt UUp else CallRet (- EFAULT), k))
  | UUp => up_call k
  | UDownInit => Ok None
  end.

(** [call_usp] is the function pointer that conf_write has set. *)
Definition call_usp_step : call_pc → syndrome_container → kstate → result (option (call_res * kstate)) :=
  match meth with
  | CallProc => call_usp_proc
  | CallIoctl => call_usp_ioctl
  | CallNl => call_usp_nl
  end.

(** One statement of [raid6_cuda_gen_syndrome]. *)
Definition raid6_cuda_gen_syndrome (vmalloc_ok : bool) (r : request) (c : client_pc) (k : kstate) :
    result (option (client_pc * kstate)) :=
  match c with
  | CDown => Ok (if ks_gen k <=? 0 then None else Some (CPack, set_gen (ks_gen k - 1) k))
  | CPack =>
      '(snc, kd) ← pack_smc vmalloc_ok (rq_disks r) (rq_bytes r) (rq_ptrs r) (ks_data k);
      Ok (Some (CCall call_start snc, set_data kd k))
  | CCall u snc =>
      o ← call_usp_step u snc k;
      Ok (match o with
          | None => None
          | Some (CallAt u, k) => Some (CCall u snc, k)
          | Some (CallRet _, k) => Some (CKill snc, k)
          end)
  | CKill snc => Ok (Some (CUp, set_data (kill_smc snc (ks_data k)) k))
  | CUp => Ok (Some (CReturned, set_gen (ks_gen k + 1) k))
  | CReturned => Ok None
  end.

(** [proc_write] for the address bytes [back]: a wrong address returns -EFAULT
    with [proc_write_mutex] held. *)
Definition proc_write (back : list Z) (k : kstate) : option kstate :=
  if ks_wr k <=? 0 then None else
  if decide (take 8 back = snc_addr) then Some (set_flag 2 k) else Some (set_wr (ks_wr k - 1) k).

(** [proc_read]: asleep until the flag is 0, then the address. *)
Definition proc_read (k : kstate) : option (list Z) :=
  if (ks_rd k <=? 0) || negb (ks_flag k =? 0) then None else Some snc_addr.

(** [nl_data_ready], in the context of the daemon's [sendmsg]. *)
Definition nl_data_ready (payload : list Z) (k : kstate) : option kstate :=
  if ks_flag k =? 0 then
    Some (set_flag 1 (set_skb (Some {| skb_data := payload; skb_pid := daemon_pid |}) k))
  else None.

(** [ioctl_callback] up to its wait: the flag is released and one request is
    let in; its [ioctl_callback_mutex] is raised and lowered again. *)
Definition ioctl_callback_enter (k : kstate) : kstate := set_init (ks_init k + 1) (set_flag 1 k).

(** ** The daemon side: one statement of [server_procfs],
    [server_ioctl_callback] or [server_netlink] *)
Context (gen_syndrome : syndrome_func) (map_ok : loc → Z → bool).

(** The body the three loops share: take the request, compute, give it back. *)
Definition serve (next : server_pc) (d : server) (k : kstate) : result (option (server * kstate)) :=
  match sv_pc d with
  | SGet =>
      '(o, fl, ms) ← get_act_syndrome_block true map_ok (ks_data k) (smc_flag d) (sv_maps d);
      c ← of_option NullDeref o;
      Ok (Some (at_pc (SGen c) (set_maps fl ms d), k))
  | SGen c =>
      m ← gen_syndrome (uc_disks c) (uc_bytes c) (uc_ptrs c) (ks_mem k);
      Ok (Some (at_pc (SUnget c) d, set_mem m k))
  | SUnget c =>
      ms ← unget_act_syndrome_block c (sv_maps d);
      Ok (Some (at_pc next (set_maps (smc_flag d) ms d), k))
  | _ => Ok None
  end.

(** [while( keep_going )] *)
Definition loop_top (next : server_pc) (d : server) (k : kstate) : result (option (server * kstate)) :=
  Ok (Some (if keep_going d =? 0 then at_pc SExit d else at_pc next d, k)).

Definition server_ioctl_callback (d : server) (k : kstate) : result (option (server * kstate)) :=
  match sv_pc d with
  | STop => loop_top SEnter d k
  | SEnter => Ok (Some (at_pc SWait d, ioctl_callback_enter k))
  | SWait => Ok (if ks_flag k =? 0 then Some (at_pc SGet d, k) else None)
  | _ => serve STop d k
  end.

Definition server_netlink (d : server) (k : kstate) : result (option (server * kstate)) :=
  match sv_pc d with
  | STop => loop_top SEnter d k
  | SEnter =>
      se ← add_payload (sv_server d) init_payload;
      Ok (match nl_data_ready se k with
          | Some k => Some (at_pc SWait (set_buffers (sv_client d) (sv_buffer d) se d), k)
          | None => None
          end)
  | SWait =>
      match ks_inbox k with
      | [] => Ok None
      | msg :: inbox =>
          let cl := list_inserts 0 msg (sv_client d) in
          bu ← get_payload cl (sv_buffer d);
          Ok (Some (at_pc SGet (set_buffers cl bu (sv_server d) d), set_inbox inbox k))
      end
  | SAck =>
      se ← add_payload (sv_server d) (sv_buffer d);
      Ok (match nl_data_ready se k with
          | Some k => Some (at_pc STop (set_buffers (sv_client d) (sv_buffer d) se d), k)
          | None => None
          end)
  | _ => serve SAck d k
  end.

Definition server_procfs (d : server) (k : kstate) : result (option (server * kstate)) :=
  match sv_pc d with
  | STop => loop_top SWait d k
  | SWait =>
      Ok (match proc_read k with
          | Some addr => Some (at_pc SGet (set_buffers (sv_client d) addr (sv_server d) d), k)
          | None => None
          end)
  | SAck =>
      Ok (match proc_write (sv_buffer d) k with
          | Some k => Some (at_pc STop d, k)
          | None => None
          end)
  | _ => serve SAck d k
  end.

Definition server_step : server → kstate → result (option (server * kstate)) :=
  match meth with
  | CallNl => server_netlink
  | CallIoctl => server_ioctl_callback
  | CallProc => server_procfs
  end.

(** ** The system *)
Inductive sys_step : system → system → Prop :=
  | sys_client cs k d i r c c' k' :
      cs !! i = Some (r, c) → raid6_cuda_gen_syndrome true r c k = Ok (Some (c', k')) →
      sys_step {| s_clients := cs; s_kernel := k; s_server := d |}
               {| s_clients := <[i := (r, c')]> cs; s_kernel := k'; s_server := d |}
  | sys_server cs k d d' k' : server_step d k = Ok (Some (d', k')) →
      sys_step {| s_clients := cs; s_kernel := k; s_server := d |}
               {| s_clients := cs; s_kernel := k'; s_server := d' |}.

(** A signal to a sleeping caller: [wait_event_interruptible] returns although
    its condition does not hold, and no caller looks at its result. *)
Inductive sig_step : system → system → Prop :=
  | sig_client cs k d i r snc :
      cs !! i = Some (r, CCall UWait snc) → ks_flag k ≠ done_flag →
      sig_step {| s_clients := cs; s_kernel := k; s_server := d |}
               {| s_clients := <[i := (r, CCall (match meth with CallNl => UCheck | _ => UUp end) snc)]> cs;
                  s_kernel := k; s_server := d |}
  | sig_client_recv cs k d i r snc :
      cs !! i = Some (r, CCall UWait1 snc) → ks_flag k ≠ 1 →
      sig_step {| s_clients := cs; s_kernel := k; s_server := d |}
               {| s_clients := <[i := (r, CCall UPid snc)]> cs; s_kernel := k; s_server := d |}
  | sig_server cs k d :
      sv_pc d = SWait → meth ≠ CallNl → ks_flag k ≠ 0 →
      sig_step {| s_clients := cs; s_kernel := k; s_server := d |}
               {| s_clients := cs; s_kernel := k; s_server := at_pc SGet (set_buffers (sv_client d)
                    (match meth with CallProc => snc_addr | _ => sv_buffer d end) (sv_server d) d) |}.

(** A component that is about to make an access the code does not survive. *)
Definition sys_faults (s : system) : Prop :=
  (∃ i r c f, s_clients s !! i = Some (r, c) ∧
     raid6_cuda_gen_syndrome true r c (s_kernel s) = Err f) ∨
  ∃ f, server_step (s_server s) (s_kernel s) = Err f.

(** Configured, no request under way, the daemon at the top of its loop. *)
Definition kernel_start (m : mem) (snc : syndrome_container) : kstate :=
  {| ks_gen := 1; ks_call := 1; ks_init := 0; ks_rd := 1; ks_wr := 1;
     ks_flag := match meth with CallIoctl => 1 | _ => 2 end;
     ks_data := {| arrays := ∅; actual_snc := snc |}; ks_skb := None; ks_inbox := []; ks_mem := m |}.
Definition server_start : server :=
  {| sv_pc := STop; keep_going := 1; smc_flag := 0; sv_maps := [];
     sv_client := gen_message_container; sv_buffer := gen_message_container;
     sv_server := gen_message_container |}.
Definition sys_start (rs : list request) (m : mem) (snc : syndrome_container) : system :=
  {| s_clients := (λ r, (r, CDown)) <$> rs; s_kernel := kernel_start m snc; s_server := server_start |}.
End machine.
