(* ===== verification/Protocol.v ===== *)
(** * The control skeleton of the transport

    What Transport.v does, without data: the program counters, the flag, the
    semaphores and whether the current request has been served.  The skeleton
    is finite, so its invariants are checked by exploring it.  Protocol.v says
    that the exploration is complete and that every request cycle ends;
    Refine.v carries the facts over to the system with its data. *)
From S2P Require Import Prelude GF256 Word Memory Syndrome Cstring Service Conf Marshal Driver Transport.
Local Open Scope Z_scope.

(** The thread that holds [gen_syndrome_mutex], if any, and the daemon. *)
Inductive client_tag := TIdle | TPack | TCall (u : call_pc) | TKill | TUp.
Inductive server_tag := GTop | GEnter | GWait | GGet | GGen | GUnget | GAck | GExit.

Record ctl := {
  c_client : client_tag;
  c_server : server_tag;
  c_flag : Z;
  c_init : Z;
  c_call : Z;
  c_inbox : bool;
  c_served : bool
}.

#[export] Instance call_pc_eq_dec : EqDecision call_pc.
Proof. solve_decision. Defined.
#[export] Instance client_tag_eq_dec : EqDecision client_tag.
Proof. solve_decision. Defined.
#[export] Instance server_tag_eq_dec : EqDecision server_tag.
Proof. solve_decision. Defined.
#[export] Instance ctl_eq_dec : EqDecision ctl.
Proof. solve_decision. Defined.

Definition upd (c : ctl) (cl : client_tag) (sv : server_tag) (fl ini cal : Z) (inb ser : bool) : ctl :=
  {| c_client := cl; c_server := sv; c_flag := fl; c_init := ini; c_call := cal;
     c_inbox := inb; c_served := ser |}.

Section control.
Context (meth : usp_method).

(** A new request enters. *)
Definition ctl_enter (c : ctl) : option ctl :=
  match c_client c with
  | TIdle => Some (upd c TPack (c_server c) (c_flag c) (c_init c) (c_call c) (c_inbox c) false)
  | _ => None
  end.

Definition ctl_client (c : ctl) : option ctl :=
  let to cl := upd c cl (c_server c) (c_flag c) (c_init c) (c_call c) (c_inbox c) (c_served c) in
  let flag cl v := upd c cl (c_server c) v (c_init c) (c_call c) (c_inbox c) (c_served c) in
  match c_client c with
  | TIdle => None
  | TPack => Some (to (TCall (call_start meth)))
  | TCall UDownInit =>
      if c_init c <=? 0 then None else
      Some (upd c (TCall UDown) (c_server c) (c_flag c) (c_init c - 1) (c_call c) (c_inbox c) (c_served c))
  | TCall UDown =>
      if c_call c <=? 0 then None else
      Some (upd c (TCall (match meth with CallNl => URecv1 | _ => UCopy end)) (c_server c) (c_flag c)
              (c_init c) (c_call c - 1) (c_inbox c) (c_served c))
  | TCall URecv1 => Some (flag (TCall UWait1) 0)
  | TCall UWait1 => if c_flag c =? 1 then Some (to (TCall UPid)) else None
  | TCall UPid => Some (to (TCall UCopy))
  | TCall UCopy => Some (to (TCall (match meth with CallNl => USend | _ => UFlag end)))
  | TCall USend =>
      Some (upd c (TCall UFlag) (c_server c) (c_flag c) (c_init c) (c_call c) true (c_served c))
  | TCall UFlag => Some (flag (TCall UWait) 0)
  | TCall UWait =>
      if c_flag c =? done_flag meth then
        Some (to (TCall (match meth with CallNl => UCheck | _ => UUp end)))
      else None
  | TCall UCheck => Some (to (TCall UUp))
  | TCall UUp =>
      Some (upd c TKill (c_server c) (c_flag c) (c_init c) (c_call c + 1) (c_inbox c) (c_served c))
  | TKill => Some (to TUp)
  | TUp => Some (to TIdle)
  end.

Definition ctl_server (c : ctl) : option ctl :=
  let to sv := upd c (c_client c) sv (c_flag c) (c_init c) (c_call c) (c_inbox c) (c_served c) in
  let flag sv v := upd c (c_client c) sv v (c_init c) (c_call c) (c_inbox c) (c_served c) in
  match c_server c with
  | GTop => Some (to (match meth with CallProc => GWait | _ => GEnter end))
  | GEnter =>
      match meth with
      | CallProc => None
      | CallIoctl =>
          Some (upd c (c_client c) GWait 1 (c_init c + 1) (c_call c) (c_inbox c) (c_served c))
      | CallNl => if c_flag c =? 0 then Some (flag GWait 1) else None
      end
  | GWait =>
      match meth with
      | CallNl =>
          if c_inbox c then
            Some (upd c (c_client c) GGet (c_flag c) (c_init c) (c_call c) false (c_served c))
          else None
      | _ => if c_flag c =? 0 then Some (to GGet) else None
      end
  | GGet => Some (to GGen)
  | GGen => Some (upd c (c_client c) GUnget (c_flag c) (c_init c) (c_call c) (c_inbox c) true)
  | GUnget => Some (to (match meth with CallIoctl => GTop | _ => GAck end))
  | GAck =>
      match meth with
      | CallIoctl => None
      | CallProc => Some (flag GTop 2)
      | CallNl => if c_flag c =? 0 then Some (flag GTop 1) else None
      end
  | GExit => None
  end.

Definition ctl_start : ctl :=
  {| c_client := TIdle; c_server := GTop; c_flag := match meth with CallIoctl => 1 | _ => 2 end;
     c_init := 0; c_call := 1; c_inbox := false; c_served := false |}.

(** All successors; entering is kept apart because it starts a new cycle. *)
Definition inner_succs (c : ctl) : list ctl := option_list (ctl_client c) ++ option_list (ctl_server c).
Definition succs (c : ctl) : list ctl := option_list (ctl_enter c) ++ inner_succs c.

Fixpoint explore (fuel : nat) (todo seen : list ctl) : list ctl :=
  match fuel, todo with
  | S fuel, c :: todo =>
      if decide (c ∈ seen) then explore fuel todo seen
      else explore fuel (succs c ++ todo) (c :: seen)
  | _, _ => seen
  end.
Definition reach : list ctl := explore 400 [ctl_start] [].

(** The longest run of inner steps from [c]. *)
Fixpoint rank (fuel : nat) (c : ctl) : nat :=
  match fuel with
  | O => O
  | S fuel => foldr (λ c' n, Nat.max (S (rank fuel c')) n) O (inner_succs c)
  end.
End control.

Definition measure (meth : usp_method) (c : ctl) : nat := rank meth 40 c.

(** ** The exploration is complete *)
Definition holds (meth : usp_method) (P : ctl → bool) : bool := forallb P (reach meth).

Lemma holds_elem meth P c : holds meth P = true → c ∈ reach meth → P c = true.
Proof.
  unfold holds. rewrite forallb_forall. intros H Hc. apply H. by apply list_elem_of_In.
Qed.

Lemma reach_start meth : ctl_start meth ∈ reach meth.
Proof. destruct meth; apply (bool_decide_unpack _); vm_compute; exact I. Qed.

Lemma reach_succ meth c c' : c ∈ reach meth → c' ∈ succs meth c → c' ∈ reach meth.
Proof.
  intros Hc. assert (holds meth (λ c, bool_decide (Forall (λ c', c' ∈ reach meth) (succs meth c))) = true) as H
    by (destruct meth; vm_compute; reflexivity).
  apply (holds_elem _ _ _ H), bool_decide_eq_true in Hc. rewrite Forall_forall in Hc. apply Hc.
Qed.

(** Every inner step makes progress towards the end of the cycle. *)
Lemma measure_inner meth c c' : c ∈ reach meth → c' ∈ inner_succs meth c →
  (measure meth c' < measure meth c)%nat.
Proof.
  intros Hc. assert (holds meth (λ c, bool_decide
    (Forall (λ c', (measure meth c' < measure meth c)%nat) (inner_succs meth c))) = true) as H
    by (destruct meth; vm_compute; reflexivity).
  apply (holds_elem _ _ _ H), bool_decide_eq_true in Hc. rewrite Forall_forall in Hc. apply Hc.
Qed.

Lemma measure_bound meth c : c ∈ reach meth → (measure meth c < 40)%nat.
Proof.
  intros Hc. assert (holds meth (λ c, bool_decide (measure meth c < 40)%nat) = true) as H
    by (destruct meth; vm_compute; reflexivity).
  by apply (holds_elem _ _ _ H), bool_decide_eq_true in Hc.
Qed.

(** ** What holds at the points where data is read or written

    Statements about every reachable control state, settled by exploring. *)
Lemma reach_forall (P : ctl → Prop) `{Hdec : ∀ c, Decision (P c)} meth :
  bool_decide (Forall P (reach meth)) = true → ∀ c, c ∈ reach meth → P c.
Proof. intros Hb. apply bool_decide_eq_true in Hb. by rewrite Forall_forall in Hb. Qed.

Ltac by_reach :=
  match goal with |- ?c ∈ reach _ → _ => revert c end;
  match goal with |- ∀ c, c ∈ reach ?meth → @?P c =>
    refine (reach_forall P meth _); try (is_var meth; destruct meth); vm_compute; reflexivity
  end.

(** The daemon only looks at a published request that is not served yet. *)
Lemma reach_get meth c : c ∈ reach meth → c_server c = GGet ∨ c_server c = GGen →
  (c_client c = TCall UFlag ∨ c_client c = TCall UWait) ∧ c_served c = false.
Proof. by_reach. Qed.

(** A thread leaves with its request served. *)
Lemma reach_up meth c : c ∈ reach meth → c_client c = TUp → c_served c = true.
Proof. by_reach. Qed.

(** Only the netlink method looks at messages, and only when one is there. *)
Lemma reach_flag meth c : c ∈ reach meth → c_client c = TCall UPid ∨ c_client c = TCall UCheck →
  c_flag c = 1.
Proof. by_reach. Qed.

Lemma reach_nl meth c : meth ≠ CallNl → c ∈ reach meth →
  c_client c ≠ TCall UPid ∧ c_client c ≠ TCall UCheck.
Proof. intros Hm. destruct meth; [done|by_reach|by_reach]. Qed.

(** The request is the only message under way. *)
Lemma reach_send meth c : c ∈ reach meth → c_client c = TCall USend → c_inbox c = false.
Proof. by_reach. Qed.

(** The statements each marshalling function has. *)
Definition call_has (meth : usp_method) (u : call_pc) : bool :=
  match u with
  | UDownInit => bool_decide (meth = CallIoctl)
  | URecv1 | UWait1 | UPid | USend | UCheck => bool_decide (meth = CallNl)
  | _ => true
  end.

Lemma reach_call meth c : c ∈ reach meth →
  match c_client c with TCall u => call_has meth u | _ => true end = true.
Proof. by_reach. Qed.

(** The greeting never meets a thread that waits for an acknowledgement. *)
Lemma reach_enter c : c ∈ reach CallNl → c_server c = GEnter → c_flag c = 0 →
  c_client c = TCall UWait1.
Proof. by_reach. Qed.

(** Nobody is stuck while a request is under way. *)
Lemma reach_alive meth c : c ∈ reach meth → inner_succs meth c = [] → c_client c = TIdle.
Proof. by_reach. Qed.

#[global] Opaque reach measure.
