(* ===== verification/Refine.v ===== *)
(** * The transport implements an atomic service

    The specification: every request is served once, one at a time, by one call
    of gen_syndrome on the memory the kernel passed, and a thread returns
    only after its request has been served.  The system of Transport.v refines
    it for all three methods, never faults and always comes to an end, as long
    as no sleep is interrupted; Hazards.v says what happens otherwise. *)
From S2P Require Import Prelude GF256 Word Memory Syndrome Cstring Service Conf Marshal Driver Transport Protocol.
Local Open Scope Z_scope.

(** ** The specification *)
Inductive status := Waiting | Served | Returned.
#[export] Instance status_eq_dec : EqDecision status.
Proof. solve_decision. Defined.

Record service := { sp_status : list status; sp_mem : mem }.

Inductive service_step (gen : syndrome_func) (rs : list request) : service → service → Prop :=
  | service_serve st m i r m' :
      rs !! i = Some r → st !! i = Some Waiting → Served ∉ st →
      gen (rq_disks r) (rq_bytes r) (rq_ptrs r) m = Ok m' →
      service_step gen rs {| sp_status := st; sp_mem := m |}
                          {| sp_status := <[i := Served]> st; sp_mem := m' |}
  | service_return st m i :
      st !! i = Some Served →
      service_step gen rs {| sp_status := st; sp_mem := m |}
                          {| sp_status := <[i := Returned]> st; sp_mem := m |}.

Definition service_start (rs : list request) (m : mem) : service :=
  {| sp_status := (λ _, Waiting) <$> rs; sp_mem := m |}.

(** What the callers see of a system. *)
Definition returned (s : system) (i : nat) : Prop :=
  ∃ r, s_clients s !! i = Some (r, CReturned).

(** ** The invariant *)
Definition client_tag_of (c : client_pc) : client_tag :=
  match c with
  | CDown | CReturned => TIdle
  | CPack => TPack
  | CCall u _ => TCall u
  | CKill _ => TKill
  | CUp => TUp
  end.

Definition server_tag_of (c : server_pc) : server_tag :=
  match c with
  | STop => GTop | SEnter => GEnter | SWait => GWait | SGet => GGet | SGen _ => GGen
  | SUnget _ => GUnget | SAck => GAck | SExit => GExit
  end.

(** The control state of a system: [cl] is the tag of the active thread. *)
Definition skel (k : kstate) (d : server) (cl : client_tag) (inb sv : bool) : ctl :=
  {| c_client := cl; c_server := server_tag_of (sv_pc d); c_flag := ks_flag k; c_init := ks_init k;
     c_call := ks_call k; c_inbox := inb; c_served := sv |}.

Definition status_of (sv : bool) (c : client_pc) : status :=
  match c with
  | CDown => Waiting
  | CReturned => Returned
  | _ => if sv then Served else Waiting
  end.
Definition abs (cs : list (request * client_pc)) (k : kstate) (sv : bool) : service :=
  {| sp_status := (λ '(_, c), status_of sv c) <$> cs; sp_mem := ks_mem k |}.

(** The container the daemon builds for a request. *)
Definition container_of (r : request) : user_container :=
  {| uc_disks := rq_disks r; uc_bytes := rq_bytes r; uc_ptrs := rq_ptrs r |}.

(** A request packed under the handle [id], and the module's data while its
    thread is at [c]. *)
Definition packed (r : request) (id : array_id) : syndrome_container :=
  {| sc_disks := rq_disks r; sc_bytes := rq_bytes r; sc_ptrs := Some id |}.
Definition is_published (u : call_pc) : bool :=
  match u with USend | UFlag | UWait | UCheck | UUp => true | _ => false end.
Definition request_data (k : kstate) (r : request) (c : client_pc) : Prop :=
  match c with
  | CCall u snc => ∃ id, snc = packed r id ∧ arrays (ks_data k) = {[ id := rq_ptrs r ]} ∧
      (is_published u = true → actual_snc (ks_data k) = snc)
  | CKill snc => ∃ id, snc = packed r id ∧ arrays (ks_data k) = {[ id := rq_ptrs r ]}
  | _ => arrays (ks_data k) = ∅
  end.

Lemma method_cases m : m = CallNl ∨ m = CallProc ∨ m = CallIoctl.
Proof. destruct m; auto. Qed.

Section refine.
Context (meth : usp_method) (snc_addr : list Z) (pid : Z).
Context (gen : syndrome_func) (map_ok : loc → Z → bool).
Context (rs : list request) (mem_ok : mem → Prop).

(** The message buffers while the daemon works on a request. *)
Definition busy (d : server) : bool :=
  match sv_pc d with SGet | SGen _ | SUnget _ | SAck => true | _ => false end.
Definition buffers_ok (d : server) : Prop :=
  match meth with
  | CallIoctl => True
  | CallProc => busy d = true → sv_buffer d = snc_addr
  | CallNl =>
      length (sv_client d) = MAX_PAYLOAD ∧ length (sv_buffer d) = MAX_PAYLOAD ∧
      length (sv_server d) = MAX_PAYLOAD ∧ sv_client d !! 8%nat = Some 0 ∧
      (busy d = true → take 9 (sv_buffer d) = snc_addr ++ [0])
  end.

(** The message the kernel looks at. *)
Definition skb_ok (k : kstate) (cl : client_tag) : Prop :=
  meth = CallNl → ks_flag k = 1 → ∃ skb, ks_skb k = Some skb ∧ skb_pid skb = pid ∧
    (cl = TCall UWait ∨ cl = TCall UCheck → take 8 (skb_data skb) = snc_addr).

(** What the daemon holds: the active request and exactly its mappings. *)
Definition server_data (d : server) (o : option nat) : Prop :=
  match sv_pc d with
  | SGen c => ∃ i r, o = Some i ∧ rs !! i = Some r ∧ c = container_of r ∧ sv_maps d = reverse (rq_ptrs r)
  | SUnget c => ∃ r, r ∈ rs ∧ c = container_of r ∧ sv_maps d = reverse (rq_ptrs r)
  | _ => sv_maps d = []
  end.

Record Inv (cs : list (request * client_pc)) (k : kstate) (d : server)
    (o : option nat) (cl : client_tag) (inb sv : bool) : Prop := {
  inv_reach : skel k d cl inb sv ∈ reach meth;
  inv_active : match o with
    | Some i => ∃ r c, cs !! i = Some (r, c) ∧ client_tag_of c = cl ∧ cl ≠ TIdle ∧ request_data k r c
    | None => cl = TIdle ∧ arrays (ks_data k) = ∅
    end;
  inv_idle : ∀ j r c, cs !! j = Some (r, c) → o ≠ Some j → c = CDown ∨ c = CReturned;
  inv_reqs : cs.*1 = rs;
  inv_gen : ks_gen k = match o with Some _ => 0 | None => 1 end;
  inv_sems : ks_rd k = 1 ∧ ks_wr k = 1 ∧ keep_going d ≠ 0;
  inv_inbox : ks_inbox k = if inb then [snc_addr] else [];
  inv_server : server_data d o;
  inv_buffers : buffers_ok d;
  inv_skb : skb_ok k cl;
  inv_mem : mem_ok (ks_mem k)
}.

Abbreviation client_step := (raid6_cuda_gen_syndrome meth snc_addr pid true).
Abbreviation daemon_step := (server_step meth snc_addr pid gen map_ok).
Abbreviation step := (sys_step meth snc_addr pid pid gen map_ok).

(** *** The start *)
Lemma inv_start m snc : mem_ok m →
  Inv ((λ r, (r, CDown)) <$> rs) (kernel_start meth m snc) server_start None TIdle false false.
Proof using Type.
  intros Hm. split; try done.
  - apply reach_start.
  - intros j r c Hj _. apply list_lookup_fmap_Some in Hj as (r' & [= -> ->] & _). by left.
  - rewrite <-list_fmap_compose. apply list_fmap_id.
  - unfold buffers_ok. destruct meth; by split_and?.
  - intros ->. done.
Qed.

(** *** A thread enters *)
Lemma enter_ok cs k d o cl inb sv i r : Inv cs k d o cl inb sv → cs !! i = Some (r, CDown) →
  match o with
  | Some _ => client_step r CDown k = Ok None
  | None => ∃ k', client_step r CDown k = Ok (Some (CPack, k')) ∧
      Inv (<[i := (r, CPack)]> cs) k' d (Some i) TPack inb false ∧
      abs (<[i := (r, CPack)]> cs) k' false = abs cs k sv
  end.
Proof using Type.
  intros [Hr Ha Hi Hq Hg Hs Hb Hsd Hbf Hk Hm] Hc. cbn [raid6_cuda_gen_syndrome]. rewrite Hg.
  destruct o as [j|]; [done|]. destruct Ha as [-> Ha]. eexists. split; [done|]. split.
  - pose proof (lookup_lt_Some _ _ _ Hc). split; try done.
    + eapply reach_succ; [exact Hr|]. by left.
    + exists r, CPack. by rewrite list_lookup_insert_eq by done.
    + intros j r' c Hj Hne. rewrite list_lookup_insert_ne in Hj by congruence. by eapply Hi.
    + rewrite list_fmap_insert. cbn. rewrite list_insert_id; [done|]. by rewrite list_lookup_fmap, Hc.
    + unfold server_data in *. destruct (sv_pc d); try done. destruct Hsd as (? & ? & [=] & _).
    + intros Hn Hf. destruct (Hk Hn Hf) as (skb & ? & ? & _). exists skb. split_and!; [done..|].
      by intros [|].
  - unfold abs. cbn. f_equal. apply list_eq. intros j. rewrite !list_lookup_fmap.
    destruct (decide (i = j)) as [<-|Hne].
    + rewrite list_lookup_insert_eq by (by eapply lookup_lt_Some). by rewrite Hc.
    + rewrite list_lookup_insert_ne by done. destruct (cs !! j) as [[r' c]|] eqn:E; [|done].
      cbn. by destruct (Hi j r' c E) as [-> | ->].
Qed.
(** *** A thread goes on *)
Lemma client_move cs k d i cl inb sv r c c' k' inb' :
  Inv cs k d (Some i) cl inb sv → cs !! i = Some (r, c) → client_tag_of c' ≠ TIdle →
  ctl_client meth (skel k d cl inb sv) = Some (skel k' d (client_tag_of c') inb' sv) →
  ks_gen k' = ks_gen k → ks_rd k' = ks_rd k → ks_wr k' = ks_wr k → ks_mem k' = ks_mem k →
  ks_inbox k' = (if inb' then [snc_addr] else []) → request_data k' r c' →
  skb_ok k' (client_tag_of c') →
  Inv (<[i := (r, c')]> cs) k' d (Some i) (client_tag_of c') inb' sv ∧
  abs (<[i := (r, c')]> cs) k' sv = abs cs k sv.
Proof using Type.
  intros [Hr Ha Hi Hq Hg Hs Hb Hsd Hbf Hk Hm] Hc Ht Hstep Eg Er Ew Em Hb' Hd Hk'.
  pose proof (lookup_lt_Some _ _ _ Hc).
  assert (client_tag_of c ≠ TIdle) as Hct by (destruct Ha as (r' & c0 & E & <- & Hne & _); congruence).
  split; [split|]; rewrite ?Eg, ?Er, ?Ew, ?Em; try done.
  - eapply reach_succ; [exact Hr|]. apply elem_of_app. right. apply elem_of_app. left.
    rewrite Hstep. by left.
  - exists r, c'. by rewrite list_lookup_insert_eq by done.
  - intros j r' c0 Hj Hne. rewrite list_lookup_insert_ne in Hj by congruence. by eapply Hi.
  - rewrite list_fmap_insert. cbn. rewrite list_insert_id; [done|]. by rewrite list_lookup_fmap, Hc.
  - unfold abs. rewrite Em. f_equal. rewrite list_fmap_insert, list_insert_id; [done|].
    rewrite list_lookup_fmap, Hc. cbn. by destruct c, c'.
Qed.

(** ... and leaves, its request served. *)
Lemma client_leave cs k d i cl inb sv r : Inv cs k d (Some i) cl inb sv → cs !! i = Some (r, CUp) →
  ctl_client meth (skel k d cl inb sv) = Some (skel (set_gen (ks_gen k + 1) k) d TIdle inb sv) ∧
  Inv (<[i := (r, CReturned)]> cs) (set_gen (ks_gen k + 1) k) d None TIdle inb sv ∧
  service_step gen rs (abs cs k sv) (abs (<[i := (r, CReturned)]> cs) (set_gen (ks_gen k + 1) k) sv).
Proof using Type.
  intros [Hr Ha Hi Hq Hg Hs Hb Hsd Hbf Hk Hm] Hc. pose proof (lookup_lt_Some _ _ _ Hc).
  destruct Ha as (r' & c0 & E & <- & Hne & Ha). rewrite Hc in E. injection E as <- <-.
  split_and!; [done| |].
  - split; try done.
    + eapply reach_succ; [exact Hr|]. apply elem_of_app. right. apply elem_of_app. left. by left.
    + intros j r1 c1 Hj _. destruct (decide (i = j)) as [<-|].
      * rewrite list_lookup_insert_eq in Hj by done. simplify_eq. by right.
      * rewrite list_lookup_insert_ne in Hj by done. eapply Hi; [done|congruence].
    + rewrite list_fmap_insert. cbn. rewrite list_insert_id; [done|]. by rewrite list_lookup_fmap, Hc.
    + cbn. by rewrite Hg.
    + unfold server_data in *. destruct (sv_pc d) eqn:Epc; try done.
      destruct (reach_get _ _ Hr) as [[?|?] _]; [cbn; rewrite Epc; by right|done..].
    + intros Hn Hf. destruct (Hk Hn Hf) as (skb & ? & ? & _). exists skb. split_and!; [done..|].
      by intros [|].
  - unfold abs. cbn. rewrite list_fmap_insert. cbn. apply service_return.
    rewrite list_lookup_fmap, Hc. cbn.
    by rewrite (reach_up _ _ Hr eq_refl : sv = true).
Qed.

Hypothesis Haddr : length snc_addr = 8%nat.
Hypothesis Hnz : meth = CallNl → Forall (λ b, b ≠ 0) snc_addr.
Hypothesis Hmap : ∀ p b, map_ok p b = true.
Hypothesis Hreq : ∀ r, r ∈ rs → rq_disks r = Z.of_nat (length (rq_ptrs r)) ∧ (length (rq_ptrs r) ≤ 255)%nat.
Hypothesis Hgen : ∀ r m, r ∈ rs → mem_ok m →
  ∃ m', gen (rq_disks r) (rq_bytes r) (rq_ptrs r) m = Ok m' ∧ mem_ok m'.



(** The outcome of a step of the active thread: asleep exactly when the
    control skeleton says so, else the invariant holds again. *)
Definition client_outcome cs k d cl inb sv (i : nat) (r : request) (res : option (client_pc * kstate)) : Prop :=
  match res with
  | None => ctl_client meth (skel k d cl inb sv) = None
  | Some (c', k') => c' ≠ CDown ∧ ∃ o' cl' inb',
      ctl_client meth (skel k d cl inb sv) = Some (skel k' d cl' inb' sv) ∧
      Inv (<[i := (r, c')]> cs) k' d o' cl' inb' sv ∧
      (abs (<[i := (r, c')]> cs) k' sv = abs cs k sv ∨
       service_step gen rs (abs cs k sv) (abs (<[i := (r, c')]> cs) k' sv))
  end.

Lemma client_outcome_move cs k d i cl inb sv r c c' k' inb' :
  Inv cs k d (Some i) cl inb sv → cs !! i = Some (r, c) → client_tag_of c' ≠ TIdle →
  ctl_client meth (skel k d cl inb sv) = Some (skel k' d (client_tag_of c') inb' sv) →
  ks_gen k' = ks_gen k → ks_rd k' = ks_rd k → ks_wr k' = ks_wr k → ks_mem k' = ks_mem k →
  ks_inbox k' = (if inb' then [snc_addr] else []) → request_data k' r c' →
  skb_ok k' (client_tag_of c') →
  client_outcome cs k d cl inb sv i r (Some (c', k')).
Proof using All.
  intros HI Hc Ht Hctl Eg Er Ew Em Hb Hd Hk.
  destruct (client_move cs k d i cl inb sv r c c' k' inb') as [H1 H2]; try done.
  split; [by intros ->|]. eexists _, _, _. split_and!; [exact Hctl|exact H1|by left].
Qed.

Lemma pack_ok cs k d i cl inb sv r : Inv cs k d (Some i) cl inb sv → cs !! i = Some (r, CPack) →
  ∃ res, client_step r CPack k = Ok res ∧ client_outcome cs k d cl inb sv i r res.
Proof using All.
  intros HI Hc. pose proof HI as [Hr Ha Hi Hq Hg Hs Hb Hsd Hbf Hk Hm].
  destruct Ha as (r' & c0 & E & <- & Hne & Ha). rewrite Hc in E. injection E as <- <-.
  assert (r ∈ rs) as Hin.
  { rewrite <-Hq. apply (list_elem_of_fmap_2' _ _ (r, CPack)); [by eapply list_elem_of_lookup_2|done]. }
  destruct (Hreq r Hin) as [Hdisks Hlen].
  destruct (pack_smc_ok (length (rq_ptrs r)) (rq_bytes r) (rq_ptrs r) (ks_data k)) as (id & Hid & Ep);
    [done|unfold INT_MAX; lia|].
  cbn [raid6_cuda_gen_syndrome]. rewrite Hdisks, Ep. bind_step. eexists. split; [done|].
  eapply (client_outcome_move _ _ _ _ _ _ _ _ CPack); try done.
  - exists id. cbn in Ha |- *. unfold packed. rewrite Hdisks, firstn_all, Ha. split_and!; [done..|].
    unfold call_start. by case meth.
  - intros Hn Hf. destruct (Hk Hn Hf) as (skb & ? & ? & _). exists skb. split_and!; [done..|].
    unfold call_start. rewrite Hn. by intros [|].
Qed.

Lemma skb_keep k k' cl cl' : skb_ok k cl → ks_flag k' = ks_flag k → ks_skb k' = ks_skb k →
  (cl' = TCall UWait ∨ cl' = TCall UCheck → cl = TCall UWait ∨ cl = TCall UCheck) → skb_ok k' cl'.
Proof using All.
  intros Hk Ef Es Hcl Hn Hf. rewrite Ef in Hf. rewrite Es.
  destruct (Hk Hn Hf) as (skb & ? & ? & H). exists skb. split_and!; [done..|]. intros ?. by apply H, Hcl.
Qed.

Lemma skb_clear k cl : ks_flag k = 0 → skb_ok k cl.
Proof using All. intros E _ Hf. congruence. Qed.

(** The message is there when it is looked at. *)
Lemma skb_there k d cl inb sv : skel k d cl inb sv ∈ reach meth → skb_ok k cl →
  cl = TCall UPid ∨ cl = TCall UCheck → meth = CallNl ∧ ∃ skb, ks_skb k = Some skb ∧ skb_pid skb = pid ∧
    (cl = TCall UCheck → take 8 (skb_data skb) = snc_addr).
Proof using All.
  intros Hr Hk Hcl. pose proof (reach_flag _ _ Hr Hcl) as Hf. cbn in Hf.
  assert (meth = CallNl) as Hn.
  { destruct (decide (meth = CallNl)) as [|Hne]; [done|].
    destruct (reach_nl _ _ Hne Hr) as [H1 H2]. cbn in H1, H2. by destruct Hcl. }
  split; [done|]. destruct (Hk Hn Hf) as (skb & ? & ? & H). exists skb. split_and!; [done..|].
  intros ?. apply H. by right.
Qed.

(** The three marshalling functions as one. *)
Definition call_any (u : call_pc) (snc : syndrome_container) (k : kstate) :
    result (option (call_res * kstate)) :=
  match u with
  | UDownInit =>
      Ok (if ks_init k <=? 0 then None else Some (CallAt UDown, set_init (ks_init k - 1) k))
  | UDown => down_call (match meth with CallNl => URecv1 | _ => UCopy end) k
  | UCopy => publish (match meth with CallNl => USend | _ => UFlag end) snc k
  | UWait => wait_flag (done_flag meth) (match meth with CallNl => UCheck | _ => UUp end) k
  | _ => call_usp_nl snc_addr pid u snc k
  end.

Lemma call_usp_any u snc k : call_has meth u = true → call_usp_step meth snc_addr pid u snc k = call_any u snc k.
Proof using Type. unfold call_usp_step, call_any, call_has, done_flag. by case meth; destruct u. Qed.

(** One step of the marshalling function, by its statements. *)
Ltac go_on :=
  eexists; split; [done|]; eapply (client_outcome_move _ _ _ _ _ _ _ _ (CCall _ _)); try done;
  try (by apply skb_clear); try (by eexists).
Ltac asleep := eexists; split; [done|]; cbn.

Lemma call_ok cs k d i cl inb sv r u snc : Inv cs k d (Some i) cl inb sv →
  cs !! i = Some (r, CCall u snc) →
  ∃ res, client_step r (CCall u snc) k = Ok res ∧ client_outcome cs k d cl inb sv i r res.
Proof using All.
  intros HI Hc. pose proof HI as [Hr Ha Hi Hq Hg Hs Hb Hsd Hbf Hk Hm].
  destruct Ha as (r' & c0 & E & <- & Hne & Ha). rewrite Hc in E. injection E as <- <-.
  destruct Ha as (id & -> & Harr & Hpub). cbn [raid6_cuda_gen_syndrome].
  rewrite call_usp_any by exact (reach_call _ _ Hr).
  destruct u; cbn [call_any call_usp_nl nl_recv_pkg];
    unfold down_call, up_call, publish, clear_flag, wait_flag.
  - destruct (ks_init k <=? 0) eqn:El; bind_step; [asleep; by rewrite El|]. go_on.
    + cbn. by rewrite El.
    + eapply skb_keep; [done..|]. by intros [|].
  - destruct (ks_call k <=? 0) eqn:El; bind_step; [asleep; by rewrite El|]. go_on.
    + cbn. by rewrite El.
    + exists id. split_and!; [done..|]. by case meth.
    + eapply skb_keep; [done..|]. case meth; by intros [|].
  - go_on.
  - destruct (ks_flag k =? 1) eqn:El; bind_step; [|asleep; by rewrite El]. go_on.
    + cbn. by rewrite El.
    + eapply skb_keep; [done..|]. by intros [|].
  - destruct (skb_there _ _ _ _ _ Hr Hk (or_introl eq_refl)) as (Hn & skb & Es & Ep & _).
    rewrite Es. cbn [of_option]. bind_step. rewrite Ep, Z.eqb_refl. go_on. eapply skb_keep; [done..|]. by intros [|].
  - go_on. eapply skb_keep; [done..|]. case meth; by intros [|].
  - assert (inb = false) as -> by apply (reach_send _ _ Hr eq_refl).
    go_on; [cbn; by rewrite Hb|]. eapply skb_keep; [done..|]. by intros [|].
  - go_on.
  - destruct (ks_flag k =? done_flag meth) eqn:El; bind_step; [|asleep; by rewrite El]. go_on.
    + cbn. by rewrite El.
    + exists id. split_and!; [done..|]. intros _. by apply Hpub.
    + eapply skb_keep; [done..|]. intros _. by left.
  - destruct (skb_there _ _ _ _ _ Hr Hk (or_intror eq_refl)) as (Hn & skb & Es & _ & H).
    rewrite Es. cbn [of_option]. bind_step. rewrite decide_True by by apply H. go_on. eapply skb_keep; [done..|]. by intros [|].
  - go_on. eapply skb_keep; [done..|]. by intros [|].
Qed.

(** Every thread, at every point. *)
Lemma client_ok cs k d i cl inb sv r c : Inv cs k d (Some i) cl inb sv → cs !! i = Some (r, c) →
  ∃ res, client_step r c k = Ok res ∧ client_outcome cs k d cl inb sv i r res.
Proof using All.
  intros HI Hc. pose proof HI as [Hr Ha Hi Hq Hg Hs Hb Hsd Hbf Hk Hm].
  destruct Ha as (r' & c0 & E & <- & Hne & Ha). rewrite Hc in E. injection E as <- <-.
  destruct c as [| |u snc|snc| |]; try done.
  - by apply pack_ok.
  - by eapply call_ok.
  - destruct Ha as (id & -> & Harr). eexists. split; [done|].
    eapply (client_outcome_move _ _ _ _ _ _ _ _ (CKill _)); try done.
    + cbn. rewrite Harr. apply delete_singleton_eq.
    + eapply skb_keep; [done..|]. by intros [|].
  - destruct (client_leave cs k d i _ inb sv r HI Hc) as (H1 & H2 & H3). eexists. split; [done|].
    split; [done|]. eexists None, _, _. split_and!; [exact H1|exact H2|by right].
Qed.

(** *** The daemon's buffers *)
Lemma find_zero_9 l : meth = CallNl → take 9 l = snc_addr ++ [0] → list_find (λ b, b = 0) l = Some (8%nat, 0).
Proof using All.
  intros Hn Hl. rewrite <-(take_drop 9 l), Hl. apply list_find_prefix, list_find_Some. split_and!; [|done|].
  - rewrite lookup_app_r, Haddr by lia. done.
  - intros j y Hj Hj8 ->. rewrite lookup_app_l in Hj by lia.
    pose proof (Hnz Hn) as Hz. rewrite Forall_lookup in Hz. by apply (Hz j 0 Hj).
Qed.

(** Nine bytes that end a string are copied whole. *)
Lemma strcpy_9 dst src : meth = CallNl → length dst = MAX_PAYLOAD → take 9 src = snc_addr ++ [0] →
  strcpy dst src = Ok ((snc_addr ++ [0]) ++ drop 9 dst) ∧
  length ((snc_addr ++ [0]) ++ drop 9 dst) = MAX_PAYLOAD ∧
  take 9 ((snc_addr ++ [0]) ++ drop 9 dst) = snc_addr ++ [0].
Proof using All.
  unfold MAX_PAYLOAD. intros Hn Ld Hs. assert (length (snc_addr ++ [0]) = 9%nat) as L9
    by (rewrite length_app, Haddr; done).
  rewrite (strcpy_ok dst src 8) by (by apply find_zero_9 || lia).
  rewrite Hs, inserts_prefix by lia. rewrite L9. split_and!; [done| |].
  - rewrite length_app, L9, length_drop. lia.
  - by rewrite take_app_length' by done.
Qed.

(** What [recvmsg] leaves in the client message. *)
Lemma recv_9 client : length client = MAX_PAYLOAD → client !! 8%nat = Some 0 →
  list_inserts 0 snc_addr client = snc_addr ++ drop 8 client ∧
  length (snc_addr ++ drop 8 client) = MAX_PAYLOAD ∧
  (snc_addr ++ drop 8 client) !! 8%nat = Some 0 ∧
  take 9 (snc_addr ++ drop 8 client) = snc_addr ++ [0].
Proof using All.
  unfold MAX_PAYLOAD. intros Lc H8. rewrite inserts_prefix by lia. rewrite Haddr.
  split_and!; [done| | |].
  - rewrite length_app, length_drop. lia.
  - rewrite lookup_app_r, Haddr by lia. by rewrite lookup_drop.
  - rewrite take_app, Haddr, (take_ge snc_addr) by lia. f_equal.
    by rewrite (drop_S _ _ _ H8).
Qed.

Lemma init_payload_ok dst : length dst = MAX_PAYLOAD →
  ∃ dst', add_payload dst init_payload = Ok dst' ∧ length dst' = MAX_PAYLOAD.
Proof using All.
  unfold MAX_PAYLOAD. intros Ld. eexists. split.
  - by apply (strcpy_ok dst init_payload 4); [|lia].
  - by rewrite length_inserts.
Qed.

(** *** The daemon goes on *)
Definition server_outcome cs k d o cl inb sv (res : option (server * kstate)) : Prop :=
  match res with
  | None => ctl_server meth (skel k d cl inb sv) = None
  | Some (d', k') => ∃ inb' sv',
      ctl_server meth (skel k d cl inb sv) = Some (skel k' d' cl inb' sv') ∧
      Inv cs k' d' o cl inb' sv' ∧
      (abs cs k' sv' = abs cs k sv ∨ service_step gen rs (abs cs k sv) (abs cs k' sv'))
  end.

Lemma server_move cs k d o cl inb sv d' k' inb' sv' : Inv cs k d o cl inb sv →
  ctl_server meth (skel k d cl inb sv) = Some (skel k' d' cl inb' sv') →
  ks_gen k' = ks_gen k → ks_rd k' = ks_rd k → ks_wr k' = ks_wr k → ks_data k' = ks_data k →
  keep_going d' = keep_going d → mem_ok (ks_mem k') →
  ks_inbox k' = (if inb' then [snc_addr] else []) → server_data d' o → buffers_ok d' → skb_ok k' cl →
  Inv cs k' d' o cl inb' sv'.
Proof using All.
  intros [Hr Ha Hi Hq Hg Hs Hb Hsd Hbf Hk Hm] Hctl Eg Er Ew Ed Ekg Hm' Hb' Hsd' Hbf' Hk'.
  split; rewrite ?Eg, ?Er, ?Ew, ?Ekg, ?Ed; try done.
  - eapply reach_succ; [exact Hr|]. apply elem_of_app. right. apply elem_of_app. right.
    rewrite Hctl. by left.
  - destruct o as [i|]; [|done]. destruct Ha as (r & c & ? & ? & ? & Hd). exists r, c.
    split_and!; [done..|]. unfold request_data. by rewrite Ed.
Qed.

(** ... without touching the requests. *)
Lemma server_outcome_move cs k d o cl inb sv d' k' inb' : Inv cs k d o cl inb sv →
  ctl_server meth (skel k d cl inb sv) = Some (skel k' d' cl inb' sv) →
  ks_gen k' = ks_gen k → ks_rd k' = ks_rd k → ks_wr k' = ks_wr k → ks_data k' = ks_data k →
  keep_going d' = keep_going d → ks_mem k' = ks_mem k →
  ks_inbox k' = (if inb' then [snc_addr] else []) → server_data d' o → buffers_ok d' → skb_ok k' cl →
  server_outcome cs k d o cl inb sv (Some (d', k')).
Proof using All.
  intros HI Hctl Eg Er Ew Ed Ekg Em ? ? ? ?. exists inb', sv. split_and!; [done| |].
  - eapply server_move; try done. rewrite Em. by apply HI.
  - left. unfold abs. by rewrite Em.
Qed.

Lemma skb_other k cl : meth ≠ CallNl → skb_ok k cl.
Proof using All. by intros ??. Qed.

(** Moving the program counter between idle points keeps everything. *)
Lemma buffers_idle d d' : buffers_ok d → busy d' = false → sv_client d' = sv_client d →
  sv_buffer d' = sv_buffer d → sv_server d' = sv_server d → buffers_ok d'.
Proof using All.
  unfold buffers_ok. intros H -> -> -> ->. destruct (decide (meth = CallNl)) as [Em|Hne].
  - rewrite Em in H |- *. destruct H as (?&?&?&?&_). by split_and!.
  - revert H Hne. by case meth.
Qed.
Lemma buffers_busy d d' : buffers_ok d → busy d = true → sv_client d' = sv_client d →
  sv_buffer d' = sv_buffer d → sv_server d' = sv_server d → buffers_ok d'.
Proof using All.
  unfold buffers_ok. intros H Hb -> -> ->. rewrite Hb in H. revert H. case meth; [|naive_solver..].
  intros (?&?&?&?&H). split_and!; auto.
Qed.

Tactic Notation "daemon_moves" constr(b) :=
  eexists; split; [done|]; eapply server_outcome_move with (inb' := b); try done.
Ltac daemon_sleeps := eexists; split; [done|]; unfold server_outcome, ctl_server; cbn.

(** The shared body of the loops. *)
Lemma server_step_serve d k :
  match sv_pc d with SGet | SGen _ | SUnget _ => True | _ => False end →
  daemon_step d k = serve gen map_ok (match meth with CallIoctl => STop | _ => SAck end) d k.
Proof using Type.
  unfold server_step. case meth; unfold server_netlink, server_procfs, server_ioctl_callback;
    by destruct (sv_pc d).
Qed.

Lemma server_enter_ok cs k d o cl inb sv : Inv cs k d o cl inb sv → sv_pc d = SEnter →
  ∃ res, daemon_step d k = Ok res ∧ server_outcome cs k d o cl inb sv res.
Proof using All.
  intros HI Epc. pose proof HI as [Hr Ha Hi Hq Hg Hs Hb Hsd Hbf Hk Hm].
  unfold server_step. destruct (method_cases meth) as [Em|[Em|Em]]; rewrite Em;
    [unfold server_netlink|unfold server_procfs|unfold server_ioctl_callback]; rewrite Epc.
  - unfold buffers_ok in Hbf. rewrite Em in Hbf. destruct Hbf as (L1 & L2 & L3 & H8 & _).
    destruct (init_payload_ok (sv_server d) L3) as (se & E & Lse). run E.
    unfold nl_data_ready. destruct (ks_flag k =? 0) eqn:Ef.
    + daemon_moves inb.
      * unfold ctl_server. cbn. by rewrite Epc, Em, Ef.
      * unfold server_data in *. by rewrite Epc in Hsd.
      * unfold buffers_ok. by rewrite Em.
      * intros _ _. eexists. split_and!; [done..|]. cbn.
        assert (cl = TCall UWait1) as ->; [|by intros [|]].
        apply Z.eqb_eq in Ef. rewrite Em in Hr. apply (reach_enter _ Hr); cbn; [by rewrite Epc|done].
    + daemon_sleeps. by rewrite Epc, Em, Ef.
  - unfold serve. rewrite Epc. daemon_sleeps. by rewrite Epc, Em.
  - daemon_moves inb.
    + unfold ctl_server. cbn. by rewrite Epc, Em.
    + unfold server_data in *. by rewrite Epc in Hsd.
    + by apply (buffers_idle d).
    + apply skb_other. by rewrite Em.
Qed.

Lemma server_wait_ok cs k d o cl inb sv : Inv cs k d o cl inb sv → sv_pc d = SWait →
  ∃ res, daemon_step d k = Ok res ∧ server_outcome cs k d o cl inb sv res.
Proof using All.
  intros HI Epc. pose proof HI as [Hr Ha Hi Hq Hg Hs Hb Hsd Hbf Hk Hm]. destruct Hs as (Hrd & Hwr & Hkg).
  unfold server_step. destruct (method_cases meth) as [Em|[Em|Em]]; rewrite Em;
    [unfold server_netlink|unfold server_procfs|unfold server_ioctl_callback]; rewrite Epc.
  - unfold buffers_ok in Hbf. rewrite Em in Hbf. destruct Hbf as (L1 & L2 & L3 & H8 & _).
    rewrite Hb. destruct inb.
    + destruct (recv_9 (sv_client d) L1 H8) as (-> & Lc & Hc8 & H9).
      destruct (strcpy_9 (sv_buffer d) _ Em L2 H9) as (E & Lb & Hb9). unfold get_payload. cbv zeta. run E.
      daemon_moves false.
      * unfold ctl_server. cbn. by rewrite Epc, Em.
      * unfold server_data in *. by rewrite Epc in Hsd.
      * unfold buffers_ok. rewrite Em. by split_and!.
    + daemon_sleeps. by rewrite Epc, Em.
  - unfold proc_read. rewrite Hrd. cbn [Z.leb Z.compare orb].
    destruct (ks_flag k =? 0) eqn:Ef; cbn [negb].
    + daemon_moves inb.
      * unfold ctl_server. cbn. by rewrite Epc, Em, Ef.
      * unfold server_data in *. by rewrite Epc in Hsd.
      * unfold buffers_ok. by rewrite Em.
    + daemon_sleeps. by rewrite Epc, Em, Ef.
  - destruct (ks_flag k =? 0) eqn:Ef.
    + daemon_moves inb.
      * unfold ctl_server. cbn. by rewrite Epc, Em, Ef.
      * unfold server_data in *. by rewrite Epc in Hsd.
      * unfold buffers_ok. by rewrite Em.
    + daemon_sleeps. by rewrite Epc, Em, Ef.
Qed.

(** The active request is in the list. *)
Lemma active_request cs k d i cl inb sv r c : Inv cs k d (Some i) cl inb sv →
  cs !! i = Some (r, c) → rs !! i = Some r.
Proof using All. intros HI Hc. by rewrite <-(inv_reqs _ _ _ _ _ _ _ HI), list_lookup_fmap, Hc. Qed.

Lemma server_get_ok cs k d o cl inb sv : Inv cs k d o cl inb sv → sv_pc d = SGet →
  ∃ res, daemon_step d k = Ok res ∧ server_outcome cs k d o cl inb sv res.
Proof using All.
  intros HI Epc. pose proof HI as [Hr Ha Hi Hq Hg Hs Hb Hsd Hbf Hk Hm].
  destruct (reach_get _ _ Hr) as [Hcl _]; [cbn; rewrite Epc; by left|]. cbn in Hcl.
  destruct o as [i|]; [|destruct Ha as [-> _]; by destruct Hcl].
  destruct Ha as (r & c & Hc & Htag & Hne & Ha).
  pose proof (active_request _ _ _ _ _ _ _ _ _ HI Hc) as Hi'.
  destruct (Hreq r) as [Hdisks Hlen]; [by eapply list_elem_of_lookup_2|].
  assert (∃ id, actual_snc (ks_data k) = packed r id ∧ arrays (ks_data k) = {[ id := rq_ptrs r ]})
    as (id & Hsnc & Harr).
  { destruct c; subst cl; cbn in Hcl; try (by destruct Hcl).
    destruct Ha as (id & -> & Harr & Hp). exists id. split; [|done]. apply Hp.
    by destruct Hcl as [[= ->]|[= ->]]. }
  assert (published (ks_data k) (rq_ptrs r)) as Hpub.
  { exists id. rewrite Hsnc, Harr. split_and!; [done|apply lookup_singleton_eq|done]. }
  unfold server_data in Hsd. rewrite Epc in Hsd.
  rewrite server_step_serve by (by rewrite Epc). unfold serve, get_act_syndrome_block. rewrite Epc, andb_false_r, Hsnc, Hsd. cbn [packed sc_disks sc_bytes].
  rewrite Hdisks, Nat2Z.id. change 1 with (Z.of_nat 1) at 1.
  rewrite (map_disks_ok map_ok (ks_data k) (rq_ptrs r) _ 0) by (done || lia). bind_step. cbn [of_option].
  bind_step. daemon_moves inb.
  - unfold ctl_server. cbn. by rewrite Epc.
  - exists i, r. unfold container_of. rewrite Hdisks. cbn. by rewrite app_nil_r.
  - apply (buffers_busy d); unfold busy; by rewrite ?Epc.
Qed.

Lemma server_gen_ok cs k d o cl inb sv uc : Inv cs k d o cl inb sv → sv_pc d = SGen uc →
  ∃ res, daemon_step d k = Ok res ∧ server_outcome cs k d o cl inb sv res.
Proof using All.
  intros HI Epc. pose proof HI as [Hr Ha Hi Hq Hg Hs Hb Hsd Hbf Hk Hm].
  destruct (reach_get _ _ Hr) as [Hcl Hsv]; [cbn; rewrite Epc; by right|]. cbn in Hcl, Hsv. subst sv.
  unfold server_data in Hsd. rewrite Epc in Hsd. destruct Hsd as (i & r & -> & Hri & -> & Hmaps).
  destruct (Hgen r (ks_mem k)) as (m' & Eg & Hm'); [by eapply list_elem_of_lookup_2|done|].
  rewrite server_step_serve by (by rewrite Epc). unfold serve. rewrite Epc. cbn [container_of uc_disks uc_bytes uc_ptrs]. run Eg.
  assert (ctl_server meth (skel k d cl inb false) =
    Some (skel (set_mem m' k) (at_pc (SUnget (container_of r)) d) cl inb true)) as Hctl
    by (unfold ctl_server; cbn; by rewrite Epc).
  eexists. split; [done|]. exists inb, true. split; [exact Hctl|]. split.
  - eapply server_move; try done.
    + exists r. split_and!; [by eapply list_elem_of_lookup_2|done..].
    + apply (buffers_busy d); unfold busy; by rewrite ?Epc.
  - right. destruct Ha as (r' & c & Hc & <- & Hne & _).
    pose proof (active_request _ _ _ _ _ _ _ _ _ HI Hc) as Hri'. rewrite Hri in Hri'. injection Hri' as <-.
    assert (abs cs (set_mem m' k) true =
      {| sp_status := <[i := Served]> (sp_status (abs cs k false)); sp_mem := m' |}) as ->.
    { unfold abs. cbn. f_equal. apply list_eq. intros j. destruct (decide (i = j)) as [<-|Hij].
      - rewrite list_lookup_insert_eq by (rewrite length_fmap; by eapply lookup_lt_Some).
        rewrite list_lookup_fmap, Hc. cbn. destruct Hcl, c; done.
      - rewrite list_lookup_insert_ne, !list_lookup_fmap by done.
        destruct (cs !! j) as [[r2 c2]|] eqn:E2; [|done].
        by destruct (Hi j r2 c2 E2 ltac:(congruence)) as [-> | ->]. }
    apply (service_serve _ _ _ _ _ r); [done| | |done].
    + cbn. rewrite list_lookup_fmap, Hc. cbn. by destruct Hcl, c.
    + cbn. intros ([r2 c2] & E & _)%list_elem_of_fmap. by destruct c2.
Qed.

Lemma server_unget_ok cs k d o cl inb sv uc : Inv cs k d o cl inb sv → sv_pc d = SUnget uc →
  ∃ res, daemon_step d k = Ok res ∧ server_outcome cs k d o cl inb sv res.
Proof using All.
  intros HI Epc. pose proof HI as [Hr Ha Hi Hq Hg Hs Hb Hsd Hbf Hk Hm].
  unfold server_data in Hsd. rewrite Epc in Hsd. destruct Hsd as (r & Hin & -> & Hmaps).
  destruct (Hreq r Hin) as [Hdisks Hlen].
  destruct (unget_ok (container_of r) []) as (ms & E & Hms%Permutation_nil_r);
    [done|cbn; unfold INT_MAX; lia|]. subst ms.
  rewrite server_step_serve by (by rewrite Epc). unfold serve. rewrite Epc, Hmaps. cbn [container_of uc_ptrs] in E. rewrite app_nil_r in E. run E.
  destruct (method_cases meth) as [Em|[Em|Em]]; rewrite Em; daemon_moves inb.
  all: try (unfold ctl_server; cbn; by rewrite Epc, Em).
  - apply (buffers_busy d); unfold busy; by rewrite ?Epc.
  - apply (buffers_busy d); unfold busy; by rewrite ?Epc.
  - by apply (buffers_idle d).
Qed.

Lemma server_ack_ok cs k d o cl inb sv : Inv cs k d o cl inb sv → sv_pc d = SAck →
  ∃ res, daemon_step d k = Ok res ∧ server_outcome cs k d o cl inb sv res.
Proof using All.
  intros HI Epc. pose proof HI as [Hr Ha Hi Hq Hg Hs Hb Hsd Hbf Hk Hm]. destruct Hs as (Hrd & Hwr & Hkg).
  unfold server_data in Hsd. rewrite Epc in Hsd.
  assert (busy d = true) as Hbusy by (unfold busy; by rewrite Epc).
  unfold server_step. destruct (method_cases meth) as [Em|[Em|Em]]; rewrite Em;
    [unfold server_netlink|unfold server_procfs|unfold server_ioctl_callback]; rewrite Epc.
  - pose proof Hbf as Hbf'. unfold buffers_ok in Hbf'. rewrite Em in Hbf'.
    destruct Hbf' as (L1 & L2 & L3 & H8 & H9). specialize (H9 Hbusy).
    destruct (strcpy_9 (sv_server d) _ Em L3 H9) as (E & Lse & Hse). unfold add_payload. run E.
    unfold nl_data_ready. destruct (ks_flag k =? 0) eqn:Ef.
    + daemon_moves inb.
      * unfold ctl_server. cbn. by rewrite Epc, Em, Ef.
      * unfold buffers_ok. rewrite Em. by split_and!.
      * intros _ _. eexists. split_and!; [done..|]. intros _. cbn [skb_data].
        rewrite <-(take_take _ 8 9), Hse by lia. by rewrite take_app_length'.
    + daemon_sleeps. by rewrite Epc, Em, Ef.
  - pose proof Hbf as Hbf'. unfold buffers_ok in Hbf'. rewrite Em in Hbf'. rewrite (Hbf' Hbusy).
    unfold proc_write. rewrite Hwr. cbn [Z.leb Z.compare]. rewrite decide_True by (by apply take_ge; lia).
    daemon_moves inb.
    + unfold ctl_server. cbn. by rewrite Epc, Em.
    + by apply (buffers_idle d).
  - unfold serve. rewrite Epc. daemon_sleeps. by rewrite Epc, Em.
Qed.

Lemma server_ok cs k d o cl inb sv : Inv cs k d o cl inb sv →
  ∃ res, daemon_step d k = Ok res ∧ server_outcome cs k d o cl inb sv res.
Proof using All.
  intros HI. destruct (sv_pc d) eqn:Epc.
  - pose proof HI as [Hr Ha Hi Hq Hg Hs Hb Hsd Hbf Hk Hm].
    unfold server_data in Hsd. rewrite Epc in Hsd. unfold server_step.
    destruct (method_cases meth) as [Em|[Em|Em]]; rewrite Em;
      [unfold server_netlink|unfold server_procfs|unfold server_ioctl_callback]; rewrite Epc;
      unfold loop_top; (destruct (Z.eqb_spec (keep_going d) 0); [by destruct Hs as (_ & _ & ?)|]); daemon_moves inb.
    all: try (unfold ctl_server; cbn; by rewrite Epc, Em).
    all: by apply (buffers_idle d).
  - by apply server_enter_ok.
  - by apply server_wait_ok.
  - by apply server_get_ok.
  - by eapply server_gen_ok.
  - by eapply server_unget_ok.
  - by apply server_ack_ok.
  - exists None. split; [|unfold server_outcome, ctl_server; cbn; by rewrite Epc].
    unfold server_step. case meth; unfold server_netlink, server_procfs, server_ioctl_callback, serve;
      by rewrite Epc.
Qed.

(** ** Steps of the system *)
(** Requests not yet entered, and what is left of the current cycle. *)
Definition down (x : request * client_pc) : nat := match x.2 with CDown => 1 | _ => 0 end.
Definition potential (cs : list (request * client_pc)) (c : ctl) : nat :=
  sum_list_with down cs * 40 + measure meth c.

(** What one step of the system makes of the invariant. *)
Definition step_result (a : service) (n : nat) (s' : system) : Prop :=
  ∃ o cl inb sv, Inv (s_clients s') (s_kernel s') (s_server s') o cl inb sv ∧
    (abs (s_clients s') (s_kernel s') sv = a ∨ service_step gen rs a (abs (s_clients s') (s_kernel s') sv)) ∧
    (potential (s_clients s') (skel (s_kernel s') (s_server s') cl inb sv) < n)%nat.

Lemma client_step_ok cs k d o cl inb sv i r c c' k' : Inv cs k d o cl inb sv → cs !! i = Some (r, c) →
  client_step r c k = Ok (Some (c', k')) →
  step_result (abs cs k sv) (potential cs (skel k d cl inb sv))
    {| s_clients := <[i := (r, c')]> cs; s_kernel := k'; s_server := d |}.
Proof using All.
  intros HI Hc E. pose proof HI as [Hr Ha Hi Hq Hg Hs Hb Hsd Hbf Hk Hm].
  pose proof (sum_list_insert down cs i _ (r, c') Hc) as Hsum.
  destruct (decide (o = Some i)) as [->|Hne].
  - destruct (client_ok _ _ _ _ _ _ _ _ _ HI Hc) as (res & E' & Hout). simplify_ok.
    destruct Hout as (Hc' & o' & cl' & inb' & Hctl & HI' & Hsim). exists o', cl', inb', sv.
    split_and!; [done..|]. unfold potential. cbn [s_clients s_kernel s_server].
    assert (down (r, c') = 0%nat) by (by destruct c').
    assert (measure meth (skel k' d cl' inb' sv) < measure meth (skel k d cl inb sv))%nat; [|lia].
    apply measure_inner; [done|]. apply elem_of_app. left. rewrite Hctl. by left.
  - destruct (Hi i r c Hc Hne) as [-> | ->]; [|done].
    pose proof (enter_ok _ _ _ _ _ _ _ _ _ HI Hc) as H. destruct o as [j|].
    { rewrite E in H. discriminate H. }
    destruct H as (k1 & E' & HI' & Habs). rewrite E in E'. injection E' as -> ->.
    exists (Some i), TPack, inb, false. split_and!; [done|by left|].
    pose proof (measure_bound _ _ (inv_reach _ _ _ _ _ _ _ HI')). unfold potential.
    cbn [s_clients s_kernel s_server]. cbn in Hsum. lia.
Qed.

Lemma server_step_ok cs k d o cl inb sv d' k' : Inv cs k d o cl inb sv →
  daemon_step d k = Ok (Some (d', k')) →
  step_result (abs cs k sv) (potential cs (skel k d cl inb sv))
    {| s_clients := cs; s_kernel := k'; s_server := d' |}.
Proof using All.
  intros HI E. destruct (server_ok _ _ _ _ _ _ _ HI) as (res & E' & Hout). simplify_ok.
  destruct Hout as (inb' & sv' & Hctl & HI' & Hsim). exists o, cl, inb', sv'. split_and!; [done..|].
  unfold potential. cbn [s_clients s_kernel s_server].
  apply (Nat.add_lt_mono_l _ _), measure_inner; [apply HI|].
  apply elem_of_app. right. rewrite Hctl. by left.
Qed.

Lemma step_ok s s' o cl inb sv : Inv (s_clients s) (s_kernel s) (s_server s) o cl inb sv → step s s' →
  step_result (abs (s_clients s) (s_kernel s) sv)
    (potential (s_clients s) (skel (s_kernel s) (s_server s) cl inb sv)) s'.
Proof using All.
  intros HI Hstep. destruct Hstep; [by eapply client_step_ok|by eapply server_step_ok].
Qed.

Lemma no_fault s o cl inb sv : Inv (s_clients s) (s_kernel s) (s_server s) o cl inb sv →
  ¬ sys_faults meth snc_addr pid pid gen map_ok s.
Proof using All.
  intros HI [(i & r & c & f & Hc & E)|[f E]].
  - destruct (decide (o = Some i)) as [->|Hne].
    + destruct (client_ok _ _ _ _ _ _ _ _ _ HI Hc) as (res & E' & _). congruence.
    + destruct (inv_idle _ _ _ _ _ _ _ HI i r c Hc Hne) as [-> | ->]; [|done].
      pose proof (enter_ok _ _ _ _ _ _ _ _ _ HI Hc) as H. destruct o as [j|]; [congruence|].
      destruct H as (k1 & E' & _). congruence.
  - destruct (server_ok _ _ _ _ _ _ _ HI) as (res & E' & _). congruence.
Qed.

(** A system that cannot go on has answered every request and is clean. *)
Lemma stuck_done s o cl inb sv : Inv (s_clients s) (s_kernel s) (s_server s) o cl inb sv → nf step s →
  (∀ i, (i < length rs)%nat → returned s i) ∧ arrays (ks_data (s_kernel s)) = ∅ ∧ ks_gen (s_kernel s) = 1.
Proof using All.
  intros HI Hnf. destruct s as [cs k d]. cbn [s_clients s_kernel s_server] in *.
  pose proof HI as [Hr Ha Hi Hq Hg Hs Hb Hsd Hbf Hk Hm].
  assert (Hcl : ∀ i r c c' k', cs !! i = Some (r, c) → client_step r c k ≠ Ok (Some (c', k'))).
  { intros i r c c' k' Hc E. apply Hnf. eexists. by eapply sys_client. }
  assert (ctl_server meth (skel k d cl inb sv) = None) as Hserver.
  { destruct (server_ok _ _ _ _ _ _ _ HI) as ([[d' k']|] & E & Hout); [|done].
    destruct Hnf. eexists. by apply sys_server. }
  assert (o = None) as ->.
  { destruct o as [i|]; [|done]. destruct Ha as (r & c & Hc & <- & Hne & _). destruct Hne.
    destruct (client_ok _ _ _ _ _ _ _ _ _ HI Hc) as ([[c' k']|] & E & Hout); [by destruct (Hcl _ _ _ _ _ Hc E)|].
    apply (reach_alive _ _ Hr). unfold inner_succs. cbn in Hout. by rewrite Hout, Hserver. }
  destruct Ha as [-> Harr]. split_and!; [|done..]. intros i Hlt. unfold returned. cbn.
  destruct (lookup_lt_is_Some_2 cs i) as [[r c] Hc]; [by rewrite <-Hq, length_fmap in Hlt|].
  destruct (Hi i r c Hc ltac:(done)) as [-> | ->]; [|by exists r].
  pose proof (enter_ok _ _ _ _ _ _ _ _ _ HI Hc) as (k1 & E & _).
  by destruct (Hcl _ _ _ _ _ Hc E).
Qed.

(** ** Runs *)
Lemma run_ok n s s' o cl inb sv : Inv (s_clients s) (s_kernel s) (s_server s) o cl inb sv →
  nsteps step n s s' →
  ∃ o' cl' inb' sv', Inv (s_clients s') (s_kernel s') (s_server s') o' cl' inb' sv' ∧
    rtc (service_step gen rs) (abs (s_clients s) (s_kernel s) sv) (abs (s_clients s') (s_kernel s') sv') ∧
    (n + potential (s_clients s') (skel (s_kernel s') (s_server s') cl' inb' sv') ≤
     potential (s_clients s) (skel (s_kernel s) (s_server s) cl inb sv))%nat.
Proof using All.
  intros HI Hn. revert o cl inb sv HI. induction Hn as [s|n s s1 s' Hs _ IH]; intros o cl inb sv HI.
  - exists o, cl, inb, sv. split_and!; [done|apply rtc_refl|lia].
  - destruct (step_ok _ _ _ _ _ _ HI Hs) as (o1 & cl1 & inb1 & sv1 & HI1 & Hsim & Hlt).
    destruct (IH _ _ _ _ HI1) as (o' & cl' & inb' & sv' & HI' & Hrun & Hle).
    exists o', cl', inb', sv'. split_and!; [done| |lia].
    destruct Hsim as [<-|Hstep]; [done|by eapply rtc_l].
Qed.
End refine.
