(* ===== verification/Atomic.v ===== *)
(** * Syndrome requests are served atomically

    The transport theorems: for every implementation that keeps the interface
    of Syndrome.v, every method, any number of threads and every interleaving,
    the system refines the service of Refine.v, always comes to an end, and a
    thread that returns has P and Q of its data in memory. *)
From S2P Require Import Prelude GF256 Word Memory Syndrome Cstring Service Vanilla Conf Marshal Driver Transport Protocol Refine.
Local Open Scope Z_scope.

(** ** What the requests must be *)
(** A request the implementation accepts: 3 to 255 distinct live buffers of
    the padded size. *)
Definition request_ok (pad : Z → Z) (m : mem) (r : request) : Prop :=
  rq_disks r = Z.of_nat (length (rq_ptrs r)) ∧ (3 ≤ length (rq_ptrs r) ≤ 255)%nat ∧
  0 ≤ rq_bytes r ∧ rq_bytes r + 7 ≤ INT_MAX ∧
  array_ok m (rq_ptrs r) (length (rq_ptrs r)) (pad (rq_bytes r)).
#[export] Instance request_ok_dec pad m r : Decision (request_ok pad m r).
Proof. unfold request_ok. apply _. Defined.

(** The address of the container: eight bytes, none of them zero if it is
    sent as a netlink string. *)
Definition addr_ok (meth : usp_method) (addr : list Z) : Prop :=
  length addr = 8%nat ∧ (meth = CallNl → Forall (λ b, b ≠ 0) addr).
#[export] Instance addr_ok_dec meth addr : Decision (addr_ok meth addr).
Proof. unfold addr_ok. apply _. Defined.

(** No check disk of a request is a disk of another one. *)
Definition check_disk (r : request) (b : loc) : Prop := b ∈ drop (length (rq_ptrs r) - 2) (rq_ptrs r).
#[export] Instance check_disk_dec r b : Decision (check_disk r b).
Proof. unfold check_disk. apply _. Defined.
Definition separate (rs : list request) : Prop :=
  ∀ i j ri rj b, rs !! i = Some ri → rs !! j = Some rj → i ≠ j → check_disk ri b → b ∉ rq_ptrs rj.

(** P and Q of the data that [m] holds are in [m']. *)
Definition parity_of (m : mem) (r : request) (m' : mem) : Prop :=
  ∀ k p q, Z.of_nat k < rq_bytes r →
    rq_ptrs r !! (length (rq_ptrs r) - 2)%nat = Some p → rq_ptrs r !! (length (rq_ptrs r) - 1)%nat = Some q →
    peek m' p k = p_byte m (rq_ptrs r) (length (rq_ptrs r)) k ∧
    peek m' q k = q_byte m (rq_ptrs r) (length (rq_ptrs r)) k.

(** ** The service computes parity *)
Section service.
Context (gen : syndrome_func) (pad : Z → Z) `{G : !PqGenerator gen pad}.
Context (rs : list request) (m : mem).
Context (Hreq : ∀ r, r ∈ rs → request_ok pad m r).

Definition mem_ok (m' : mem) : Prop := ∀ r, r ∈ rs → request_ok pad m' r.

Lemma gen_ok r m' : r ∈ rs → mem_ok m' →
  ∃ m2, gen (rq_disks r) (rq_bytes r) (rq_ptrs r) m' = Ok m2 ∧
    writes_pq m' (rq_ptrs r) (length (rq_ptrs r)) (pad (rq_bytes r)) m2 ∧ mem_ok m2.
Proof using G.
  intros Hr Hm. destruct (Hm r Hr) as (Hd & Hl & Hb & Hb' & Ha).
  destruct (pq_run m' (rq_ptrs r) (length (rq_ptrs r)) (rq_bytes r)) as (m2 & E & Hw);
    [lia|unfold INT_MAX; lia|done..|].
  exists m2. rewrite Hd. split_and!; [done..|]. intros r' Hr'. destruct (Hm r' Hr') as (?&?&?&?&Ha').
  split_and!; [done|lia..|]. eapply array_ok_writes; done.
Qed.

Lemma lookup_check r b : (3 ≤ length (rq_ptrs r))%nat →
  rq_ptrs r !! (length (rq_ptrs r) - 2)%nat = Some b ∨ rq_ptrs r !! (length (rq_ptrs r) - 1)%nat = Some b →
  check_disk r b.
Proof using Type.
  unfold check_disk. intros Hl [H|H].
  - apply (list_elem_of_lookup_2 _ 0). by rewrite lookup_drop, Nat.add_0_r.
  - apply (list_elem_of_lookup_2 _ 1). rewrite lookup_drop. rewrite <-H. f_equal. lia.
Qed.

(** A served request's parity is in place, everything that is nobody's check
    disk is as it was. *)
Record service_inv (a : service) : Prop := {
  si_length : length (sp_status a) = length rs;
  si_mem : mem_ok (sp_mem a);
  si_frame : ∀ b, (∀ i r, rs !! i = Some r → check_disk r b → sp_status a !! i = Some Waiting) →
    sp_mem a !! b = m !! b;
  si_parity : ∀ i r, rs !! i = Some r → sp_status a !! i ≠ Some Waiting → parity_of m r (sp_mem a)
}.

Lemma service_start_inv : service_inv (service_start rs m).
Proof using Hreq.
  split; cbn; [by rewrite length_fmap|done|done|].
  intros i r Hr []. by rewrite list_lookup_fmap, Hr.
Qed.

Lemma serve_parity st m1 i r m2 : separate rs → service_inv {| sp_status := st; sp_mem := m1 |} →
  rs !! i = Some r → st !! i = Some Waiting →
  writes_pq m1 (rq_ptrs r) (length (rq_ptrs r)) (pad (rq_bytes r)) m2 → mem_ok m2 →
  service_inv {| sp_status := <[i := Served]> st; sp_mem := m2 |}.
Proof using G Hreq.
  intros Hsep [Hlen Hm1 Hframe Hpar] Hri Hst Hw Hm2. cbn in *.
  pose proof Hw as [[Hf _ HP HQ] _ _].
  pose proof (list_elem_of_lookup_2 _ _ _ Hri) as Hin. destruct (Hreq r Hin) as (_ & Hl & Hb & Hb' & Ha).
  pose proof (lookup_lt_Some _ _ _ Hst) as Hlt.
  pose proof (pad_ge (rq_bytes r) Hb Hb') as Hpad.
  assert (Hother : ∀ b, ¬ check_disk r b → m2 !! b = m1 !! b).
  { intros b Hnb. apply Hf; intros E; apply Hnb, lookup_check; auto; lia. }
  split; cbn; [by rewrite length_insert|done|..].
  - intros b Hwait. rewrite Hother.
    + apply Hframe. intros j rj Hj Hcj. specialize (Hwait j rj Hj Hcj).
      destruct (decide (i = j)) as [<-|Hij]; [done|]. by rewrite list_lookup_insert_ne in Hwait.
    + intros Hc. specialize (Hwait i r Hri Hc). by rewrite list_lookup_insert_eq in Hwait.
  - intros j rj Hj Hst'. destruct (decide (i = j)) as [<-|Hij].
    + rewrite Hri in Hj. injection Hj as <-. intros k p q Hk Hp Hq.
      rewrite (HP p k Hp), (HQ q k Hq) by lia. unfold p_byte, q_byte.
      assert (column m1 (rq_ptrs r) (length (rq_ptrs r) - 2) k =
        column m (rq_ptrs r) (length (rq_ptrs r) - 2) k) as ->; [|done].
      apply column_frame. intros b (z & Hz & Hzlt)%elem_of_take. unfold peek. rewrite Hframe; [done|].
      intros j rj Hj Hcj. destruct (decide (j = i)) as [->|Hji]; [done|].
      destruct (Hsep j i rj r b Hj Hri Hji Hcj). by eapply list_elem_of_lookup_2.
    + rewrite list_lookup_insert_ne in Hst' by done. intros k p q Hk Hp Hq.
      assert (∀ b, check_disk rj b → m2 !! b = m1 !! b) as Hsame.
      { intros b Hcj. apply Hother. intros Hci. destruct (Hsep i j r rj b Hri Hj Hij Hci).
        unfold check_disk in Hcj. apply list_elem_of_lookup in Hcj as [z Hz]. rewrite lookup_drop in Hz.
        by eapply list_elem_of_lookup_2. }
      destruct (Hreq rj) as (_ & Hlj & _); [by eapply list_elem_of_lookup_2|].
      unfold peek. rewrite !Hsame by (apply lookup_check; auto; lia). by apply (Hpar j rj Hj Hst').
Qed.

Lemma service_run_inv a : separate rs → rtc (service_step gen rs) (service_start rs m) a → service_inv a.
Proof using G Hreq.
  intros Hsep. apply (rtc_ind_r (λ a, service_inv a)); [apply service_start_inv|].
  intros a1 a2 _ Hstep IH. destruct Hstep as [st m1 i r m2 Hri Hst _ E|st m1 i Hst].
  - destruct (gen_ok r m1) as (m2' & E' & Hw & Hm2); [by eapply list_elem_of_lookup_2|apply IH|].
    simplify_ok. by eapply serve_parity.
  - destruct IH as [Hlen Hm1 Hframe Hpar]. cbn in *. pose proof (lookup_lt_Some _ _ _ Hst) as Hlt.
    split; cbn; [by rewrite length_insert|done|..].
    + intros b Hwait. apply Hframe. intros j r Hj Hc. specialize (Hwait j r Hj Hc).
      destruct (decide (i = j)) as [<-|Hij]; [by rewrite list_lookup_insert_eq in Hwait|].
      by rewrite list_lookup_insert_ne in Hwait.
    + intros j r Hj Hst'. apply (Hpar j r Hj). destruct (decide (i = j)) as [<-|Hij]; [congruence|].
      by rewrite list_lookup_insert_ne in Hst'.
Qed.
End service.

(** ** The transport *)
Section transport.
Context (meth : usp_method) (snc_addr : list Z) (pid : Z) (map_ok : loc → Z → bool).
Context (gen : syndrome_func) (pad : Z → Z) `{G : !PqGenerator gen pad}.
Context (rs : list request) (m : mem) (snc : syndrome_container).

Abbreviation step := (sys_step meth snc_addr pid pid gen map_ok).
Abbreviation start := (sys_start meth rs m snc).

(** The daemon is the process the kernel was configured with, its mappings
    succeed, and the requests are acceptable. *)
Record transport_ok : Prop := {
  to_addr : addr_ok meth snc_addr;
  to_map : ∀ p b, map_ok p b = true;
  to_requests : Forall (request_ok pad m) rs
}.

Lemma to_request r : transport_ok → r ∈ rs → request_ok pad m r.
Proof using Type. intros [_ _ H] Hr. rewrite Forall_forall in H. by apply H. Qed.

(** Every run from the start, in terms of the invariant of Refine.v. *)
Lemma transport_run n s : transport_ok → nsteps step n start s →
  ∃ o cl inb sv,
    Inv meth snc_addr pid rs (mem_ok pad rs) (s_clients s) (s_kernel s) (s_server s) o cl inb sv ∧
    rtc (service_step gen rs) (service_start rs m) (abs (s_clients s) (s_kernel s) sv) ∧
    (n ≤ 40 * length rs + 40)%nat ∧
    ¬ sys_faults meth snc_addr pid pid gen map_ok s ∧
    (nf step s → (∀ i, (i < length rs)%nat → returned s i) ∧
       arrays (ks_data (s_kernel s)) = ∅ ∧ ks_gen (s_kernel s) = 1).
Proof using G.
  intros Hok Hn. pose proof Hok as [[Haddr Hnz] Hmap _].
  assert (Hreq : ∀ r, r ∈ rs → rq_disks r = Z.of_nat (length (rq_ptrs r)) ∧ (length (rq_ptrs r) ≤ 255)%nat).
  { intros r Hr. destruct (to_request r Hok Hr) as (? & ? & _). split; [done|lia]. }
  assert (Hgen : ∀ r m1, r ∈ rs → mem_ok pad rs m1 →
    ∃ m', gen (rq_disks r) (rq_bytes r) (rq_ptrs r) m1 = Ok m' ∧ mem_ok pad rs m').
  { intros r m1 Hr Hm1. destruct (gen_ok gen pad rs r m1 Hr Hm1) as (m' & ? & _ & ?). by exists m'. }
  assert (Hm : mem_ok pad rs m) by (intros r Hr; by apply to_request).
  pose proof (inv_start meth snc_addr pid rs (mem_ok pad rs) m snc Hm) as H0.
  edestruct (run_ok meth snc_addr pid gen map_ok rs (mem_ok pad rs) Haddr Hnz Hmap Hreq Hgen n start s
    None TIdle false false H0 Hn) as (o & cl & inb & sv & HI & Hrun & Hle).
  exists o, cl, inb, sv. split_and!; [done| | |..].
  - unfold service_start. replace (abs _ _ _) with (service_start rs m) in Hrun; [done|].
    unfold service_start, abs. cbn. f_equal. by rewrite <-list_fmap_compose.
  - assert (potential meth (s_clients start) (skel (s_kernel start) (s_server start) TIdle false false)
      ≤ 40 * length rs + 39)%nat; [|lia].
    unfold potential. pose proof (measure_bound _ _ (inv_reach _ _ _ _ _ _ _ _ _ _ _ _ H0)) as Hb. cbn in Hb |- *.
    assert (sum_list_with down ((λ r, (r, CDown)) <$> rs) = length rs) as ->; [|lia].
    clear. induction rs as [|r l IH]; [done|]. cbn. cbn in IH. by rewrite IH.
  - by eapply no_fault.
  - intros Hnf. by eapply stuck_done.
Qed.

(** C1: refinement.  For every implementation that keeps the interface and
    each of the three methods, every state the kernel threads and the daemon can
    reach is fault-free and implements a state the atomic service can reach: the
    memory is that of the service, and exactly the threads whose request the
    service has returned have returned. *)
Theorem transport_refines s : transport_ok → rtc step start s →
  ¬ sys_faults meth snc_addr pid pid gen map_ok s ∧
  ∃ a, rtc (service_step gen rs) (service_start rs m) a ∧ sp_mem a = ks_mem (s_kernel s) ∧
    ∀ i, returned s i ↔ sp_status a !! i = Some Returned.
Proof using G.
  intros Hok [n Hn]%rtc_nsteps. destruct (transport_run n s Hok Hn) as (o & cl & inb & sv & HI & Hrun & _ & Hf & _).
  split; [done|]. eexists. split_and!; [exact Hrun|done|]. intros i. unfold returned, abs. cbn.
  rewrite list_lookup_fmap. split.
  - intros [r ->]. done.
  - destruct (s_clients s !! i) as [[r c]|]; [|done]. cbn. intros [= H]. exists r.
    destruct c, sv; done.
Qed.

(** C2: termination and liveness.  Every execution has at most 40 steps per
    request plus 40; an execution that cannot go on has returned to every
    caller, has released every pointer array and the request lock. *)
Theorem transport_terminates n s : transport_ok → nsteps step n start s →
  (n ≤ 40 * length rs + 40)%nat ∧
  (nf step s → (∀ i, (i < length rs)%nat → returned s i) ∧
     arrays (ks_data (s_kernel s)) = ∅ ∧ ks_gen (s_kernel s) = 1).
Proof using G.
  intros Hok Hn. by destruct (transport_run n s Hok Hn) as (o & cl & inb & sv & _ & _ & ? & _ & ?).
Qed.

Lemma parity_run n s : transport_ok → separate rs → nsteps step n start s →
  (∀ i r, rs !! i = Some r → returned s i → parity_of m r (ks_mem (s_kernel s))) ∧
  (∀ b, (∀ r, r ∈ rs → ¬ check_disk r b) → ks_mem (s_kernel s) !! b = m !! b).
Proof using G.
  intros Hok Hsep Hn.
  destruct (transport_run n s Hok Hn) as (o & cl & inb & sv & HI & Hrun & _).
  apply (service_run_inv gen pad rs m (λ r, to_request r Hok)) in Hrun as [_ _ Hframe Hpar]; [|done].
  cbn in Hframe, Hpar. split.
  - intros i r Hr [r' Hret]. apply (Hpar i r Hr). rewrite list_lookup_fmap, Hret. done.
  - intros b Hb. apply Hframe. intros i r Hr Hc. destruct (Hb r); [|done]. by eapply list_elem_of_lookup_2.
Qed.

(** C3: end to end.  When the requests do not write to each other's disks,
    a thread that has returned finds P and Q of its original data in its check
    disks, and buffers that are nobody's check disk are untouched, in every
    interleaving. *)
Theorem transport_parity s : transport_ok → separate rs → rtc step start s →
  (∀ i r, rs !! i = Some r → returned s i → parity_of m r (ks_mem (s_kernel s))) ∧
  (∀ b, (∀ r, r ∈ rs → ¬ check_disk r b) → ks_mem (s_kernel s) !! b = m !! b).
Proof using G. intros Hok Hsep [n Hn]%rtc_nsteps. by apply (parity_run n). Qed.
End transport.

(** ** Runs by a schedule *)
(** What happens next: a statement of thread [i], one of the daemon, or a
    signal to a sleeper. *)
Inductive pick := PThread (i : nat) | PDaemon | PSignal (i : nat) | PDaemonSignal.

Section schedule.
Context (meth : usp_method) (snc_addr : list Z) (kernel_PID pid : Z).
Context (gen : syndrome_func) (map_ok : loc → Z → bool).

(** Steps and signals. *)
Definition any_step (s s' : system) : Prop :=
  sys_step meth snc_addr kernel_PID pid gen map_ok s s' ∨ sig_step meth snc_addr s s'.

Definition with_thread (i : nat) (r : request) (c : client_pc) (k : kstate) (s : system) : system :=
  {| s_clients := <[i := (r, c)]> (s_clients s); s_kernel := k; s_server := s_server s |}.

Definition pick_step (p : pick) (s : system) : option system :=
  match p with
  | PThread i =>
      '(r, c) ← s_clients s !! i;
      match raid6_cuda_gen_syndrome meth snc_addr kernel_PID true r c (s_kernel s) with
      | Ok (Some (c', k')) => Some (with_thread i r c' k' s)
      | _ => None
      end
  | PDaemon =>
      match server_step meth snc_addr pid gen map_ok (s_server s) (s_kernel s) with
      | Ok (Some (d', k')) => Some {| s_clients := s_clients s; s_kernel := k'; s_server := d' |}
      | _ => None
      end
  | PSignal i =>
      '(r, c) ← s_clients s !! i;
      match c with
      | CCall UWait snc =>
          if decide (ks_flag (s_kernel s) = done_flag meth) then None else
          Some (with_thread i r (CCall (match meth with CallNl => UCheck | _ => UUp end) snc) (s_kernel s) s)
      | _ => None
      end
  | PDaemonSignal =>
      let d := s_server s in
      match sv_pc d, meth with
      | SWait, (CallProc | CallIoctl) =>
          if decide (ks_flag (s_kernel s) = 0) then None else
          Some {| s_clients := s_clients s; s_kernel := s_kernel s; s_server :=
            at_pc SGet (set_buffers (sv_client d) (match meth with CallProc => snc_addr | _ => sv_buffer d end)
              (sv_server d) d) |}
      | _, _ => None
      end
  end.

(** Follow a schedule, passing over picks that are asleep; the number of
    steps taken and where they lead. *)
Fixpoint follow (ps : list pick) (s : system) : nat * system :=
  match ps with
  | [] => (O, s)
  | p :: ps =>
      match pick_step p s with
      | Some s' => let '(n, s2) := follow ps s' in (S n, s2)
      | None => follow ps s
      end
  end.

Definition is_signal (p : pick) : bool :=
  match p with PSignal _ | PDaemonSignal => true | _ => false end.

Lemma pick_step_ok p s s' : pick_step p s = Some s' →
  if is_signal p then sig_step meth snc_addr s s' else sys_step meth snc_addr kernel_PID pid gen map_ok s s'.
Proof using Type.
  destruct s as [cs k d], p as [i| |i|]; cbn; intros H.
  - destruct (cs !! i) as [[r c]|] eqn:Ec; [|done]. cbn in H.
    destruct (raid6_cuda_gen_syndrome _ _ _ _ _ _ _) as [[[c' k']|]|] eqn:E; try done.
    injection H as <-. by eapply sys_client.
  - destruct (server_step _ _ _ _ _ _ _) as [[[d' k']|]|] eqn:E; try done.
    injection H as <-. by apply sys_server.
  - destruct (cs !! i) as [[r c]|] eqn:Ec; [|done]. cbn in H.
    destruct c as [| |[] snc| | |]; try done. case_decide; [done|]. injection H as <-. by apply sig_client.
  - destruct (sv_pc d) eqn:Epc; try done. destruct meth; try done; case_decide; try done;
      injection H as <-; by apply sig_server.
Qed.

Lemma follow_nsteps ps s n s' : forallb (λ p, negb (is_signal p)) ps = true → follow ps s = (n, s') →
  nsteps (sys_step meth snc_addr kernel_PID pid gen map_ok) n s s'.
Proof using Type.
  revert s n. induction ps as [|p ps IH]; intros s n Hp Hf; cbn in Hp, Hf.
  - injection Hf as <- <-. apply nsteps_O.
  - apply andb_prop in Hp as [Hp Hps]. destruct (pick_step p s) as [s1|] eqn:E; [|by apply IH].
    destruct (follow ps s1) as [n1 s2] eqn:E1. injection Hf as <- <-.
    apply pick_step_ok in E. destruct (is_signal p); [done|]. eapply nsteps_l; [done|]. by apply IH.
Qed.

Lemma follow_any ps s n s' : follow ps s = (n, s') → rtc any_step s s'.
Proof using Type.
  revert s n. induction ps as [|p ps IH]; intros s n Hf; cbn in Hf.
  - injection Hf as _ <-. apply rtc_refl.
  - destruct (pick_step p s) as [s1|] eqn:E; [|by eapply IH].
    destruct (follow ps s1) as [n1 s2] eqn:E1. injection Hf as _ <-. eapply rtc_l; [|by eapply IH].
    apply pick_step_ok in E. unfold any_step. destruct (is_signal p); auto.
Qed.
End schedule.

(** ** Witnesses: two requests of five 8-byte disks, netlink *)
Definition pair_mem : mem := list_to_map
  ((λ i, (Pos.of_nat (S i), if (i mod 5 <? 3)%nat then seqZ (Z.of_nat (20 * i)) 8 else replicate 8 0)) <$> seq 0 10).
Definition pair_requests : list request :=
  [{| rq_disks := 5; rq_bytes := 8; rq_ptrs := [1; 2; 3; 4; 5]%positive |};
   {| rq_disks := 5; rq_bytes := 8; rq_ptrs := [6; 7; 8; 9; 10]%positive |}].
Definition pair_addr : list Z := [64; 35; 1; 160; 255; 255; 255; 255].
Definition vanilla8 : syndrome_func := raid6_vanilla_gen_syndrome (N := native64).
Definition all_map (p : loc) (b : Z) : bool := true.
Definition round_robin (n : nat) : list pick := concat (replicate n [PThread 0; PThread 1; PDaemon]).
Definition pair_start (meth : usp_method) : system := sys_start meth pair_requests pair_mem no_request.
Definition pair_end (meth : usp_method) : nat * system :=
  follow meth pair_addr 77 77 vanilla8 all_map (round_robin 40) (pair_start meth).

Lemma pair_ok meth : transport_ok meth pair_addr all_map (λ bytes, loop_end 0 bytes 8) pair_requests pair_mem.
Proof. split; [destruct meth; by_decide|done|by_decide]. Qed.

Lemma pair_separate : separate pair_requests.
Proof.
  intros [|[|i]] [|[|j]] ri rj b Hi Hj Hne Hc Hin; simplify_eq/=; unfold check_disk in Hc; cbn in Hc; set_solver.
Qed.

Lemma pair_run meth :
  nsteps (sys_step meth pair_addr 77 77 vanilla8 all_map) (pair_end meth).1 (pair_start meth) (pair_end meth).2.
Proof. apply (follow_nsteps _ _ _ _ _ _ (round_robin 40)); [reflexivity|]. unfold pair_end. by destruct (follow _ _ _ _ _ _ _ _). Qed.

#[local] Instance vanilla8_pq : PqGenerator vanilla8 (λ bytes, loop_end 0 bytes 8) := vanilla_pq (N := native64).

Lemma transport_refines_witness :
  ¬ sys_faults CallNl pair_addr 77 77 vanilla8 all_map (pair_end CallNl).2 ∧
  ∃ a, rtc (service_step vanilla8 pair_requests) (service_start pair_requests pair_mem) a ∧
    sp_mem a = ks_mem (s_kernel (pair_end CallNl).2) ∧
    ∀ i, returned (pair_end CallNl).2 i ↔ sp_status a !! i = Some Returned.
Proof.
  apply (transport_refines CallNl pair_addr 77 all_map vanilla8 _ pair_requests pair_mem no_request);
    [apply pair_ok|]. eapply rtc_nsteps_2, pair_run.
Defined.

Lemma transport_terminates_witness : (34 ≤ 120)%nat ∧
  (nf (sys_step CallIoctl pair_addr 77 77 vanilla8 all_map) (pair_end CallIoctl).2 →
     (∀ i, (i < 2)%nat → returned (pair_end CallIoctl).2 i) ∧
     arrays (ks_data (s_kernel (pair_end CallIoctl).2)) = ∅ ∧ ks_gen (s_kernel (pair_end CallIoctl).2) = 1).
Proof.
  apply (transport_terminates CallIoctl pair_addr 77 all_map vanilla8 (λ bytes, loop_end 0 bytes 8)
    pair_requests pair_mem no_request 34 (pair_end CallIoctl).2); [apply pair_ok|].
  apply (pair_run CallIoctl).
Defined.

Lemma transport_parity_witness :
  (∀ i r, pair_requests !! i = Some r → returned (pair_end CallProc).2 i →
     parity_of pair_mem r (ks_mem (s_kernel (pair_end CallProc).2))) ∧
  (∀ b, (∀ r, r ∈ pair_requests → ¬ check_disk r b) →
     ks_mem (s_kernel (pair_end CallProc).2) !! b = pair_mem !! b).
Proof.
  apply (transport_parity CallProc pair_addr 77 all_map vanilla8 (λ bytes, loop_end 0 bytes 8)
    pair_requests pair_mem no_request); [apply pair_ok| |eapply rtc_nsteps_2, pair_run].
  intros [|[|i]] [|[|j]] ri rj b Hi Hj Hne Hc Hin; simplify_eq/=;
    unfold check_disk in Hc; cbn in Hc; set_solver.
Defined.
