(* ===== verification/Hazards.v ===== *)
(** * What the transport does not survive

    The callers look neither at the result of [wait_event_interruptible] nor at
    that of the marshalling function, and the error returns of the netlink
    method keep [call_usp_nl_mutex].  Each theorem is a run of the system of
    Transport.v that follows a schedule to its bad end. *)
From S2P Require Import Prelude GF256 Word Memory Syndrome Cstring Service Vanilla Conf Marshal Driver Transport Protocol Refine Atomic.
Local Open Scope Z_scope.

(** A schedule that settles a statement about where it ends. *)
Lemma follow_ex meth addr kpid pid gen map_ok ps s (P : system → Prop) :
  P (follow meth addr kpid pid gen map_ok ps s).2 →
  ∃ s', rtc (any_step meth addr kpid pid gen map_ok) s s' ∧ P s'.
Proof.
  intros HP. eexists. split; [|exact HP]. destruct (follow _ _ _ _ _ _ ps s) as [n s'] eqn:E.
  by eapply follow_any.
Qed.

Lemma follow_ex_steps meth addr kpid pid gen map_ok ps s (P : system → Prop) :
  forallb (λ p, negb (is_signal p)) ps = true → P (follow meth addr kpid pid gen map_ok ps s).2 →
  ∃ s', rtc (sys_step meth addr kpid pid gen map_ok) s s' ∧ P s'.
Proof.
  intros Hps HP. eexists. split; [|exact HP]. destruct (follow _ _ _ _ _ _ ps s) as [n s'] eqn:E.
  eapply rtc_nsteps_2. by eapply follow_nsteps.
Qed.

(** One thread, and its request. *)
Definition one_request : request := {| rq_disks := 5; rq_bytes := 8; rq_ptrs := [1; 2; 3; 4; 5]%positive |}.
Definition one_start (meth : usp_method) : system := sys_start meth [one_request] pair_mem no_request.

Definition returned_at (i : nat) (s : system) : bool :=
  match s_clients s !! i with Some (_, CReturned) => true | _ => false end.
Lemma returned_at_true i s : returned_at i s = true → returned s i.
Proof.
  unfold returned_at, returned. destruct (s_clients s !! i) as [[r c]|]; [|done].
  destruct c; try done. by exists r.
Qed.

(** The daemon is about to make an access the code does not survive. *)
Definition server_fault (meth : usp_method) (addr : list Z) (pid : Z) (gen : syndrome_func)
    (map_ok : loc → Z → bool) (s : system) : option fault :=
  match server_step meth addr pid gen map_ok (s_server s) (s_kernel s) with
  | Err f => Some f
  | Ok _ => None
  end.
Lemma server_fault_sys meth addr kpid pid gen map_ok s f :
  server_fault meth addr pid gen map_ok s = Some f → sys_faults meth addr kpid pid gen map_ok s.
Proof.
  unfold server_fault. intros H. right. exists f.
  destruct (server_step _ _ _ _ _ _ _); congruence.
Qed.

(** The thread runs to its sleep while the daemon only greets, a signal wakes
    it, it leaves; only then the daemon goes on. *)
Definition interrupted (meth : usp_method) : list pick :=
  match meth with
  | CallNl => [PDaemon] ++ replicate 4 (PThread 0) ++ [PDaemon] ++ replicate 6 (PThread 0)
  | _ => [PDaemon; PDaemon] ++ replicate 6 (PThread 0)
  end ++ [PSignal 0] ++ replicate 6 (PThread 0) ++ [PDaemon; PDaemon].

(** For every method, implementation and mapping behaviour: a signal to
    the sleeping caller lets raid6_cuda_gen_syndrome return although nothing was
    computed, and the daemon then follows the pointer array the caller has
    freed. *)
Theorem signal_unserved meth gen map_ok :
  ∃ s, rtc (any_step meth pair_addr 77 77 gen map_ok) (one_start meth) s ∧
    (returned s 0 ∧ ks_mem (s_kernel s) = pair_mem ∧ ¬ parity_of pair_mem one_request (ks_mem (s_kernel s)) ∧
     sys_faults meth pair_addr 77 77 gen map_ok s).
Proof.
  apply (follow_ex _ _ _ _ _ _ (interrupted meth)).
  assert (ks_mem (s_kernel (follow meth pair_addr 77 77 gen map_ok (interrupted meth) (one_start meth)).2)
    = pair_mem) as Hm by (destruct meth; vm_compute; reflexivity).
  split_and!; [|done| |].
  - apply returned_at_true. destruct meth; vm_compute; reflexivity.
  - rewrite Hm. intros H. destruct (H 0%nat 4%positive 5%positive) as [HP _]; [done..|].
    vm_compute in HP. discriminate HP.
  - apply (server_fault_sys _ _ _ _ _ _ _ OutOfBounds). destruct meth; vm_compute; reflexivity.
Qed.

(** One request is served; then the idle daemon gets a signal. *)
Definition idle_signal : list pick := concat (replicate 40 [PThread 0; PDaemon]) ++ [PDaemonSignal].

(** A signal to the idle daemon (its own shutdown signal, for one) makes
    it take the request it has already served, whose pointer array is freed. *)
Theorem idle_signal_faults meth : meth ≠ CallNl →
  ∃ s, rtc (any_step meth pair_addr 77 77 vanilla8 all_map) (one_start meth) s ∧
    (returned s 0 ∧ parity_of pair_mem one_request (ks_mem (s_kernel s)) ∧
     sys_faults meth pair_addr 77 77 vanilla8 all_map s).
Proof.
  intros Hm. apply (follow_ex _ _ _ _ _ _ idle_signal). split_and!.
  - apply returned_at_true. destruct meth; [done|vm_compute; reflexivity..].
  - intros k p q Hk [= <-] [= <-]. cbn [one_request rq_bytes] in Hk.
    assert (k ∈ seq 0 8) as Hin by (apply elem_of_seq; lia). clear Hk. revert k Hin. apply Forall_forall.
    destruct meth; [done|by_decide..].
  - apply (server_fault_sys _ _ _ _ _ _ _ OutOfBounds). destruct meth; [done|vm_compute; reflexivity..].
Qed.

(** Nothing can go on. *)
Definition asleep (meth : usp_method) (addr : list Z) (kpid pid : Z) (gen : syndrome_func)
    (map_ok : loc → Z → bool) (s : system) : bool :=
  forallb (λ '(r, c), match raid6_cuda_gen_syndrome meth addr kpid true r c (s_kernel s) with
                      | Ok None => true | _ => false end) (s_clients s) &&
  match server_step meth addr pid gen map_ok (s_server s) (s_kernel s) with
  | Ok None => true | _ => false
  end.

Lemma asleep_nf meth addr kpid pid gen map_ok s : asleep meth addr kpid pid gen map_ok s = true →
  nf (sys_step meth addr kpid pid gen map_ok) s.
Proof.
  unfold asleep. rewrite andb_true_iff. intros [Hc Hs] [s' Hstep].
  destruct Hstep as [cs k d i r c c' k' Hi E|cs k d d' k' E]; cbn in Hc, Hs; [|by rewrite E in Hs].
  rewrite forallb_forall in Hc. specialize (Hc (r, c)). cbv beta iota in Hc. rewrite E in Hc.
  discriminate Hc. apply list_elem_of_In. by eapply list_elem_of_lookup_2.
Qed.

(** The address 0xffffffffa0002340, one of whose bytes is zero. *)
Definition zero_addr : list Z := [64; 35; 0; 160; 255; 255; 255; 255].

(** Netlink.  With a zero byte in the address of the container, or with
    the PID of a former daemon, the first call returns an error (which nobody
    looks at) and keeps the lock: the next one sleeps for ever.  No signal is
    needed. *)
Theorem netlink_wedges addr kpid : (addr, kpid) = (zero_addr, 77) ∨ (addr, kpid) = (pair_addr, 78) →
  ∃ s, rtc (sys_step CallNl addr kpid 77 vanilla8 all_map) (pair_start CallNl) s ∧
    (returned s 0 ∧ ¬ returned s 1 ∧ ks_call (s_kernel s) = 0 ∧
     nf (sys_step CallNl addr kpid 77 vanilla8 all_map) s).
Proof.
  intros Hcase. apply (follow_ex_steps _ _ _ _ _ _ (round_robin 40)); [reflexivity|].
  split_and!.
  - apply returned_at_true. destruct Hcase as [[= -> ->]|[= -> ->]]; vm_compute; reflexivity.
  - intros [r Hr]. destruct Hcase as [[= -> ->]|[= -> ->]]; vm_compute in Hr; discriminate Hr.
  - destruct Hcase as [[= -> ->]|[= -> ->]]; vm_compute; reflexivity.
  - apply asleep_nf. destruct Hcase as [[= -> ->]|[= -> ->]]; vm_compute; reflexivity.
Qed.

(** ** Witnesses *)
Lemma idle_signal_faults_witness :
  ∃ s, rtc (any_step CallIoctl pair_addr 77 77 vanilla8 all_map) (one_start CallIoctl) s ∧
    (returned s 0 ∧ parity_of pair_mem one_request (ks_mem (s_kernel s)) ∧
     sys_faults CallIoctl pair_addr 77 77 vanilla8 all_map s).
Proof. apply (idle_signal_faults CallIoctl). done. Defined.

Lemma netlink_wedges_witness :
  ∃ s, rtc (sys_step CallNl zero_addr 77 77 vanilla8 all_map) (pair_start CallNl) s ∧
    (returned s 0 ∧ ¬ returned s 1 ∧ ks_call (s_kernel s) = 0 ∧
     nf (sys_step CallNl zero_addr 77 77 vanilla8 all_map) s).
Proof. apply (netlink_wedges zero_addr 77). by left. Defined.
