(* ===== verification/NetlinkFailures.v ===== *)
(** * What the netlink method does when a kernel service fails

    [call_usp_nl] of barracuda_kernel_module/raid6cuda.c needs a socket buffer
    and a delivery, and [nl_data_ready] a copy of the message.  Each of them can
    fail; this file adds the failing statements to the system of Transport.v
    and follows them to the end. *)
From S2P Require Import Prelude GF256 Word Memory Syndrome Cstring Service Vanilla Conf Marshal Driver Transport Protocol Refine Atomic Hazards.
Local Open Scope Z_scope.

Inductive nl_failure :=
  | NoBuffer   (* nlmsg_new returns NULL; nlmsg_put then has room *)
  | NotSent    (* netlink_unicast returns a negative status *)
  | NoCopy.    (* skb_copy returns NULL *)
#[export] Instance nl_failure_eq_dec : EqDecision nl_failure.
Proof. solve_decision. Defined.

Section machine.
Context (snc_addr : list Z) (kernel_PID daemon_pid : Z) (gen : syndrome_func) (map_ok : loc → Z → bool).

(** The statement of [call_usp_nl] at [u] when the service fails: without a
    buffer it returns 1, its mutex held; a failed delivery is only logged. *)
Definition call_usp_nl_fails (f : nl_failure) (u : call_pc) (k : kstate) : option (call_res * kstate) :=
  match f, u with
  | NoBuffer, USend => Some (CallRet 1, k)
  | NotSent, USend => Some (CallAt UFlag, k)
  | _, _ => None
  end.

(** [nl_data_ready] when the copy fails. *)
Definition nl_data_ready_fails (k : kstate) : option kstate :=
  if ks_flag k =? 0 then Some (set_flag 1 (set_skb None k)) else None.

(** [sendmsg] of the daemon when the kernel cannot copy the message. *)
Definition server_netlink_fails (d : server) (k : kstate) : result (option (server * kstate)) :=
  match sv_pc d with
  | SEnter =>
      se ← add_payload (sv_server d) init_payload;
      Ok (k ← nl_data_ready_fails k; Some (at_pc SWait (set_buffers (sv_client d) (sv_buffer d) se d), k))
  | SAck =>
      se ← add_payload (sv_server d) (sv_buffer d);
      Ok (k ← nl_data_ready_fails k; Some (at_pc STop (set_buffers (sv_client d) (sv_buffer d) se d), k))
  | _ => Ok None
  end.

Inductive fail_step : nl_failure → system → system → Prop :=
  | fail_client f cs k d i r u snc res k' :
      cs !! i = Some (r, CCall u snc) → call_usp_nl_fails f u k = Some (res, k') →
      fail_step f {| s_clients := cs; s_kernel := k; s_server := d |}
        {| s_clients := <[i := (r, match res with CallAt u => CCall u snc | CallRet _ => CKill snc end)]> cs;
           s_kernel := k'; s_server := d |}
  | fail_server cs k d d' k' : server_netlink_fails d k = Ok (Some (d', k')) →
      fail_step NoCopy {| s_clients := cs; s_kernel := k; s_server := d |}
        {| s_clients := cs; s_kernel := k'; s_server := d' |}.

(** Steps before and after one failure. *)
Definition run_with_failure (f : nl_failure) (s s' : system) : Prop :=
  ∃ s1 s2, rtc (sys_step CallNl snc_addr kernel_PID daemon_pid gen map_ok) s s1 ∧ fail_step f s1 s2 ∧
    rtc (sys_step CallNl snc_addr kernel_PID daemon_pid gen map_ok) s2 s'.

(** ** An executable form *)
Definition try_fail (f : nl_failure) (i : nat) (s : system) : option system :=
  match f with
  | NoCopy =>
      match server_netlink_fails (s_server s) (s_kernel s) with
      | Ok (Some (d, k)) => Some {| s_clients := s_clients s; s_kernel := k; s_server := d |}
      | _ => None
      end
  | _ =>
      '(r, c) ← s_clients s !! i;
      match c with
      | CCall u snc =>
          '(res, k) ← call_usp_nl_fails f u (s_kernel s);
          Some (with_thread i r (match res with CallAt u => CCall u snc | CallRet _ => CKill snc end) k s)
      | _ => None
      end
  end.

Lemma try_fail_ok f i s s' : try_fail f i s = Some s' → fail_step f s s'.
Proof using Type.
  destruct s as [cs k d]. unfold try_fail. destruct f; cbn [s_clients s_kernel s_server].
  3: { destruct (server_netlink_fails d k) as [[[d1 k1]|]|] eqn:E; intros [= <-]. by apply fail_server. }
  all: intros ([r c] & Hi & H)%bind_Some; destruct c as [| |u snc| | |]; try discriminate H;
    apply bind_Some in H as ([res k'] & E & [= <-]);
    unfold with_thread; cbn; by eapply fail_client.
Qed.

(** Follow a schedule, let the service fail, follow another. *)
Definition with_failure (f : nl_failure) (ps1 ps2 : list pick) (s : system) : option system :=
  let s1 := (follow CallNl snc_addr kernel_PID daemon_pid gen map_ok ps1 s).2 in
  s2 ← try_fail f 0 s1;
  Some (follow CallNl snc_addr kernel_PID daemon_pid gen map_ok ps2 s2).2.

Lemma with_failure_run f ps1 ps2 s s' :
  forallb (λ p, negb (is_signal p)) (ps1 ++ ps2) = true → with_failure f ps1 ps2 s = Some s' →
  run_with_failure f s s'.
Proof using Type.
  rewrite forallb_app, andb_true_iff. intros [H1 H2] (s2 & E & [= <-])%bind_Some.
  destruct (follow CallNl snc_addr kernel_PID daemon_pid gen map_ok ps1 s) as [n1 s1] eqn:E1.
  destruct (follow CallNl snc_addr kernel_PID daemon_pid gen map_ok ps2 s2) as [n2 s3] eqn:E2.
  cbn in E. exists s1, s2. split_and!.
  - eapply rtc_nsteps_2, follow_nsteps; [exact H1|exact E1].
  - by eapply try_fail_ok.
  - eapply rtc_nsteps_2, follow_nsteps; [exact H2|exact E2].
Qed.
End machine.

(** ** What comes of it *)
(** The daemon greets while the first thread runs up to its send. *)
Definition to_send : list pick := [PDaemon] ++ replicate 4 (PThread 0) ++ [PDaemon] ++ replicate 3 (PThread 0).
(** ... and the first thread waiting for the greeting. *)
Definition to_greet : list pick := [PDaemon] ++ replicate 4 (PThread 0).

Lemma with_failure_ex gen map_ok f ps1 ps2 s (P : system → Prop) s' :
  forallb (λ p, negb (is_signal p)) (ps1 ++ ps2) = true →
  with_failure pair_addr 77 77 gen map_ok f ps1 ps2 s = Some s' → P s' →
  ∃ s', run_with_failure pair_addr 77 77 gen map_ok f s s' ∧ P s'.
Proof. intros Hps E HP. exists s'. split; [by eapply with_failure_run|done]. Qed.

Lemma not_returned i s : returned_at i s = false → ¬ returned s i.
Proof. unfold returned_at, returned. intros H [r Hr]. by rewrite Hr in H. Qed.

(** The netlink method when one kernel service fails once, with two
    callers, for every implementation and mapping behaviour.  Without memory for
    the socket buffer the first caller returns although nothing was computed
    and keeps the lock, in front of which the second one sleeps for ever.  When the message is
    not delivered nobody ever returns.  When the message of the daemon cannot be
    copied, the kernel follows a null pointer. *)
Theorem netlink_failures gen map_ok :
  (∃ s, run_with_failure pair_addr 77 77 gen map_ok NoBuffer (pair_start CallNl) s ∧
     (returned s 0 ∧ (∃ r snc, s_clients s !! 1%nat = Some (r, CCall UDown snc)) ∧ ks_mem (s_kernel s) = pair_mem ∧ ks_call (s_kernel s) = 0 ∧
      nf (sys_step CallNl pair_addr 77 77 gen map_ok) s)) ∧
  (∃ s, run_with_failure pair_addr 77 77 gen map_ok NotSent (pair_start CallNl) s ∧
     (¬ returned s 0 ∧ ¬ returned s 1 ∧ nf (sys_step CallNl pair_addr 77 77 gen map_ok) s)) ∧
  (∃ s, run_with_failure pair_addr 77 77 gen map_ok NoCopy (pair_start CallNl) s ∧
     (∃ r c, s_clients s !! 0%nat = Some (r, c) ∧
        raid6_cuda_gen_syndrome CallNl pair_addr 77 true r c (s_kernel s) = Err NullDeref)).
Proof.
  split_and!.
  - eapply (with_failure_ex gen map_ok NoBuffer to_send (round_robin 40)); [reflexivity|vm_compute; reflexivity|].
    split_and!; [apply returned_at_true; reflexivity|by eexists _, _|reflexivity|reflexivity|].
    apply asleep_nf. vm_compute. reflexivity.
  - eapply (with_failure_ex gen map_ok NotSent to_send (round_robin 40)); [reflexivity|vm_compute; reflexivity|].
    split_and!; [apply not_returned; reflexivity|apply not_returned; reflexivity|].
    apply asleep_nf. vm_compute. reflexivity.
  - eapply (with_failure_ex gen map_ok NoCopy to_greet [PThread 0]); [reflexivity|vm_compute; reflexivity|].
    eexists _, _. split; [reflexivity|]. vm_compute. reflexivity.
Qed.
