(* ===== verification/Locks.v ===== *)
(** * The locks of the request path, whatever goes wrong

    [raid6_cuda_gen_syndrome] of barracuda_kernel_module/raid6cuda.c takes
    [gen_syndrome_mutex] around a request and the chosen [call_usp] its own mutex
    around the exchange with the daemon.  This file follows both through every
    run of the system, with interrupted sleeps and failing netlink services: a
    permit is in the semaphore, with a thread, or lost for ever. *)
From S2P Require Import Prelude GF256 Word Memory Syndrome Cstring Service Vanilla Conf Marshal Driver Transport Protocol Refine Atomic Hazards NetlinkFailures.
Local Open Scope Z_scope.

(** ** Who holds what *)
(** Between the down and the up of [gen_syndrome_mutex]. *)
Definition in_request (c : client_pc) : nat := match c with CDown | CReturned => 0 | _ => 1 end.
(** Behind the down of the method's mutex and still in [call_usp]. *)
Definition in_call (c : client_pc) : nat :=
  match c with CCall (UDownInit | UDown) _ => 0 | CCall _ _ => 1 | _ => 0 end.
(** In front of the down of the method's mutex. *)
Definition in_front (c : client_pc) : bool :=
  match c with CDown | CPack | CCall (UDownInit | UDown) _ => true | _ => false end.
(** A thread that leaves [call_usp] other than by its [up]. *)
Definition leaves_early (c c' : client_pc) : nat :=
  match c, c' with CCall UUp _, _ => 0 | CCall _ _, CKill _ => in_call c | _, _ => 0 end.

Definition holders (f : client_pc → nat) (cs : list (request * client_pc)) : nat := sum_list_with (λ x, f x.2) cs.

(** The mutex of the method is taken and nobody holds it. *)
Definition lost (s : system) : Prop := ks_call (s_kernel s) = 0 ∧ holders in_call (s_clients s) = 0%nat.

Lemma holders_insert f cs i r c r' c' : cs !! i = Some (r, c) →
  (holders f (<[i := (r', c')]> cs) + f c = holders f cs + f c')%nat.
Proof. intros H. exact (sum_list_insert (λ x, f x.2) cs i _ (r', c') H). Qed.

Lemma holders_none f cs i r c : holders f cs = 0%nat → cs !! i = Some (r, c) → f c = 0%nat.
Proof.
  revert i. unfold holders. induction cs as [|x cs IH]; intros [|i] H0 Hi; cbn in *; try discriminate Hi.
  - injection Hi as ->. cbn in H0. lia.
  - apply (IH i); [lia|done].
Qed.

Lemma holders_start f rs : f CDown = 0%nat → holders f ((λ r, (r, CDown)) <$> rs) = 0%nat.
Proof. intros Hf. unfold holders. induction rs as [|r rs IH]; [done|]. cbn in *. lia. Qed.

Section locks.
Context (meth : usp_method) (snc_addr : list Z) (kernel_PID pid : Z) (gen : syndrome_func) (map_ok : loc → Z → bool).

(** A statement, a signal, or for netlink a failing service. *)
Inductive hazard_step (s s' : system) : Prop :=
  | hz_step : sys_step meth snc_addr kernel_PID pid gen map_ok s s' → hazard_step s s'
  | hz_signal : sig_step meth snc_addr s s' → hazard_step s s'
  | hz_fail f : meth = CallNl → fail_step f s s' → hazard_step s s'.

(** What a statement of a thread does to the permits. *)
Record moves (c : client_pc) (k : kstate) (c' : client_pc) (k' : kstate) : Prop := {
  mv_gen : ks_gen k' + Z.of_nat (in_request c') = ks_gen k + Z.of_nat (in_request c);
  mv_call : ks_call k' + Z.of_nat (in_call c') + Z.of_nat (leaves_early c c') = ks_call k + Z.of_nat (in_call c);
  mv_early : leaves_early c c' ≠ 0%nat → meth = CallNl;
  mv_gen_pos : 0 ≤ ks_gen k → 0 ≤ ks_gen k';
  mv_call_pos : 0 ≤ ks_call k → 0 ≤ ks_call k';
  mv_front : in_front c = true → in_front c' = true ∨ in_call c' = 1%nat
}.

Lemma call_moves u snc k o k' : call_usp_step meth snc_addr kernel_PID u snc k = Ok (Some (o, k')) →
  moves (CCall u snc) k (match o with CallAt u => CCall u snc | CallRet _ => CKill snc end) k'.
Proof using Type.
  destruct meth eqn:Hm, u; cbn; unfold down_call, up_call, publish, clear_flag, wait_flag; intros E; inv_ok;
    repeat case_match; simplify_eq; split; cbn; rewrite <-?Hm; auto; lia.
Qed.

Lemma client_moves r c k c' k' :
  raid6_cuda_gen_syndrome meth snc_addr kernel_PID true r c k = Ok (Some (c', k')) → moves c k c' k'.
Proof using Type.
  destruct c as [| |u snc| | |]; cbn [raid6_cuda_gen_syndrome]; intros E.
  3: { inv_ok. destruct x as [[[u'|z] k1]|]; simplify_eq; by eapply call_moves in E0. }
  all: inv_ok; repeat case_match; simplify_eq; split; cbn; auto; try lia; destruct meth; cbn; auto; lia.
Qed.

(** The daemon takes no part. *)
Lemma server_locks d k d' k' : server_step meth snc_addr pid gen map_ok d k = Ok (Some (d', k')) →
  ks_gen k' = ks_gen k ∧ ks_call k' = ks_call k.
Proof using Type.
  unfold server_step, server_netlink, server_ioctl_callback, server_procfs, loop_top, serve, nl_data_ready, proc_write.
  intros E. destruct meth, (sv_pc d); inv_ok; repeat (case_match; simplify_eq; inv_ok); simplify_eq; auto.
Qed.
(** A step moves one thread by [moves], or no thread and no lock. *)
Inductive lock_step (s s' : system) : Prop :=
  | lk_thread i r c c' : s_clients s !! i = Some (r, c) → s_clients s' = <[i := (r, c')]> (s_clients s) →
      moves c (s_kernel s) c' (s_kernel s') → lock_step s s'
  | lk_other : s_clients s' = s_clients s → ks_gen (s_kernel s') = ks_gen (s_kernel s) →
      ks_call (s_kernel s') = ks_call (s_kernel s) → lock_step s s'.

Lemma moves_same c c' k : in_request c = in_request c' → in_call c = in_call c' → leaves_early c c' = 0%nat →
  in_front c = false → moves c k c' k.
Proof using Type. intros H1 H2 H3 H4. split; rewrite ?H1, ?H2, ?H3, ?H4; auto; try lia; done. Qed.

Lemma hazard_lock s s' : hazard_step s s' → lock_step s s'.
Proof using Type.
  intros [Hs|Hs|f Hm Hs].
  - destruct Hs as [cs k d i r c c' k' Hi E|cs k d d' k' E].
    + apply client_moves in E. by eapply lk_thread.
    + apply server_locks in E as [E1 E2]. by apply lk_other.
  - destruct Hs as [cs k d i r snc Hi _|cs k d i r snc Hi _|cs k d _ _ _]; [eapply lk_thread; [exact Hi|done|]..|by apply lk_other].
    + apply moves_same; by destruct meth.
    + by apply moves_same.
  - destruct Hs as [f cs k d i r u snc res k' Hi E|cs k d d' k' E].
    + destruct f, u; try discriminate E; injection E as <- <-; (eapply lk_thread; [exact Hi|done|]).
      * split; cbn; auto; lia.
      * by apply moves_same.
    + assert (ks_gen k' = ks_gen k ∧ ks_call k' = ks_call k) as [? ?]; [|by apply lk_other].
      revert E. unfold server_netlink_fails, nl_data_ready_fails.
      intros E. destruct (sv_pc d); inv_ok; try discriminate E; case_match; try discriminate E; by injection E as <- <-.
Qed.

(** ** The invariant *)
Definition gen_permits (s : system) : Z := ks_gen (s_kernel s) + Z.of_nat (holders in_request (s_clients s)).
Definition call_permits (s : system) : Z := ks_call (s_kernel s) + Z.of_nat (holders in_call (s_clients s)).

Record permits_ok (s : system) : Prop := {
  po_gen_pos : 0 ≤ ks_gen (s_kernel s);
  po_call_pos : 0 ≤ ks_call (s_kernel s);
  po_gen : gen_permits s = 1;
  po_call : call_permits s = 1 ∨ meth = CallNl ∧ call_permits s = 0
}.

Lemma lost_iff s : 0 ≤ ks_call (s_kernel s) → lost s ↔ call_permits s = 0.
Proof using Type. unfold lost, call_permits. lia. Qed.

Lemma permits_start rs m snc : permits_ok (sys_start meth rs m snc).
Proof using Type.
  split; [done|done|..]; unfold gen_permits, call_permits; cbn [sys_start s_clients]; rewrite holders_start by done; cbn; auto.
Qed.

(** How a move of thread [i] shifts the permits. *)
Lemma moves_permits s s' i r c c' : s_clients s !! i = Some (r, c) →
  s_clients s' = <[i := (r, c')]> (s_clients s) → moves c (s_kernel s) c' (s_kernel s') →
  gen_permits s' = gen_permits s ∧ call_permits s' + Z.of_nat (leaves_early c c') = call_permits s.
Proof using Type.
  intros Hi Hs [Hg Hc _ _ _ _]. unfold gen_permits, call_permits. rewrite Hs.
  pose proof (holders_insert in_request _ i r c r c' Hi). pose proof (holders_insert in_call _ i r c r c' Hi). lia.
Qed.

Lemma permits_step s s' : permits_ok s → hazard_step s s' → permits_ok s'.
Proof using Type.
  intros [Pg Pc Hg Hc] H. destruct (hazard_lock s s' H) as [i r c c' Hi Hs M|Hs Eg Ec].
  - destruct (moves_permits s s' i r c c' Hi Hs M) as [Eg Ec]. destruct M as [_ _ He Mg Mc _].
    split; [auto|auto|lia|]. pose proof (Mc Pc). unfold call_permits in Ec at 1.
    destruct (decide (leaves_early c c' = 0%nat)) as [E|E].
    + rewrite E in Ec. fold (call_permits s') in Ec. destruct Hc as [Hc|[Hm Hc]]; [left|right]; lia || (split; [done|lia]).
    + fold (call_permits s') in Ec. specialize (He E). right. split; [done|].
      assert (0 ≤ call_permits s') by (unfold call_permits; lia). destruct Hc as [Hc|[_ Hc]]; lia.
  - split; unfold gen_permits, call_permits in *; rewrite ?Hs, ?Eg, ?Ec; done.
Qed.

Lemma permits_run s s' : permits_ok s → rtc hazard_step s s' → permits_ok s'.
Proof using Type. intros Hp H. induction H as [|s s1 s2 H _ IH]; [done|]. by apply IH, (permits_step s). Qed.

(** ** A lost mutex *)
(** Behind it nobody gets on. *)
Definition waits (s : system) (i : nat) : Prop := ∃ r c, s_clients s !! i = Some (r, c) ∧ in_front c = true.

Lemma lost_step s s' : permits_ok s → lost s → hazard_step s s' → lost s' ∧ ∀ i, waits s i → waits s' i.
Proof using Type.
  intros Hp Hl H. pose proof (permits_step s s' Hp H) as Hp'.
  pose proof (proj1 (lost_iff s (po_call_pos s Hp)) Hl) as H0.
  destruct (hazard_lock s s' H) as [i r c c' Hi Hs M|Hs Eg Ec].
  - destruct (moves_permits s s' i r c c' Hi Hs M) as [_ Ec].
    assert (lost s') as Hl'.
    { apply lost_iff; [by apply po_call_pos|]. destruct (po_call _ Hp') as [?|[_ ?]]; lia. }
    split; [done|]. intros j (r1 & c1 & Hj & Hf). unfold waits. rewrite Hs.
    destruct (decide (j = i)) as [->|Hne]; [|rewrite list_lookup_insert_ne by done; by exists r1, c1].
    rewrite Hi in Hj. injection Hj as <- <-. rewrite list_lookup_insert_eq by (by eapply lookup_lt_Some).
    exists r, c'. split; [done|]. destruct (mv_front _ _ _ _ M Hf) as [?|E]; [done|].
    destruct Hl' as [_ Hh']. rewrite Hs in Hh'.
    rewrite (holders_none in_call _ i r c' Hh') in E; [done|]. apply list_lookup_insert_eq. by eapply lookup_lt_Some.
  - unfold lost, waits in *. by rewrite Hs, Ec.
Qed.

Lemma lost_run s s' : permits_ok s → lost s → rtc hazard_step s s' → lost s' ∧ ∀ i, waits s i → waits s' i.
Proof using Type.
  intros Hp Hl H. induction H as [|s s1 s2 H _ IH]; [done|].
  destruct (lost_step s s1 Hp Hl H) as [Hl1 Hw1]. destruct (IH (permits_step s s1 Hp H) Hl1) as [Hl2 Hw2]. auto.
Qed.

Lemma lost_unreturned s s' i : permits_ok s → lost s → rtc hazard_step s s' → waits s i → ¬ returned s' i.
Proof using Type.
  intros Hp Hl H Hi. destruct (lost_run s s' Hp Hl H) as [_ Hw]. pose proof (Hw i Hi) as (r & c & Hc & Hf).
  intros [r' Hr]. rewrite Hc in Hr. injection Hr as -> ->. discriminate Hf.
Qed.

Lemma hazard_length s s' : rtc hazard_step s s' → length (s_clients s') = length (s_clients s).
Proof using Type.
  intros H. induction H as [|s s1 s2 H _ ->]; [done|].
  destruct (hazard_lock s s1 H) as [i r c c' _ -> _| -> _ _]; [by rewrite length_insert|done].
Qed.

Lemma early_lost s s' i r r' u snc snc' : permits_ok s → hazard_step s s' →
  s_clients s !! i = Some (r, CCall u snc) → s_clients s' !! i = Some (r', CKill snc') → u ≠ UUp → lost s'.
Proof using Type.
  intros Hp H Hi Hi' Hu. pose proof (permits_step s s' Hp H) as Hp'. apply lost_iff; [by apply po_call_pos|].
  destruct (hazard_lock s s' H) as [j r1 c c' Hj Hs M|Hs _ _]; [|congruence].
  destruct (moves_permits s s' j r1 c c' Hj Hs M) as [_ Ec]. rewrite Hs in Hi'.
  destruct (decide (i = j)) as [->|Hne]; [|rewrite list_lookup_insert_ne in Hi' by done; congruence].
  rewrite list_lookup_insert_eq in Hi' by (by eapply lookup_lt_Some). rewrite Hi in Hj. simplify_eq.
  assert (leaves_early (CCall u snc) (CKill snc') = 1%nat) as E.
  { destruct M as [_ _ _ _ _ Hf]. destruct u; try done; by destruct (Hf eq_refl) as [?|?]. }
  rewrite E in Ec. pose proof (po_call_pos _ Hp').
  assert (0 ≤ call_permits s') by (unfold call_permits; lia). destruct (po_call _ Hp) as [?|[_ ?]]; lia.
Qed.

(** C5: however many threads call, with every signal to a sleeper and every
    failing netlink service.  [gen_syndrome_mutex] is always free or held by the
    one thread that is inside its request.  So is the mutex of the method, and for
    procfs and ioctl this never ends; but a thread that leaves the netlink
    method early loses the mutex, and from then on a thread in front of it
    stays there in every continuation. *)
Theorem locks_hold rs m snc s : rtc hazard_step (sys_start meth rs m snc) s →
  (0 ≤ ks_gen (s_kernel s) ∧ ks_gen (s_kernel s) + Z.of_nat (holders in_request (s_clients s)) = 1) ∧
  (0 ≤ ks_call (s_kernel s) ∧ ks_call (s_kernel s) + Z.of_nat (holders in_call (s_clients s)) = 1 ∨
   meth = CallNl ∧ lost s) ∧
  (∀ s' i r r' u snc snc', hazard_step s s' → s_clients s !! i = Some (r, CCall u snc) →
     s_clients s' !! i = Some (r', CKill snc') → u ≠ UUp → lost s') ∧
  (lost s → ∀ s', rtc hazard_step s s' → lost s' ∧ ∀ i, waits s i → waits s' i ∧ ¬ returned s' i).
Proof using Type.
  intros H. pose proof (permits_run _ _ (permits_start rs m snc) H) as Hp. split_and!.
  - apply Hp.
  - apply Hp.
  - destruct (po_call s Hp) as [Hc|[Hm Hc]]; [left; split; [apply Hp|exact Hc]|right].
    split; [done|]. by apply lost_iff; [apply Hp|].
  - intros s' i r r' u snc1 snc2 H1 Hi Hi' Hu. by eapply early_lost.
  - intros Hl s' H1. destruct (lost_run s s' Hp Hl H1) as [Hl' Hw]. split; [done|]. intros i Hi.
    split; [by apply Hw|by eapply lost_unreturned].
Qed.
End locks.

(** ** Witness: no memory for a socket buffer, two callers *)
Lemma failure_hazards addr kpid pid gen map_ok f s s' : run_with_failure addr kpid pid gen map_ok f s s' →
  rtc (hazard_step CallNl addr kpid pid gen map_ok) s s'.
Proof.
  intros (s1 & s2 & H1 & Hf & H2).
  assert (∀ a b, rtc (sys_step CallNl addr kpid pid gen map_ok) a b →
    rtc (hazard_step CallNl addr kpid pid gen map_ok) a b) as Hmono.
  { intros a b H. eapply rtc_subrel; [|exact H]. intros ? ?. apply hz_step. }
  etrans; [by apply Hmono|]. eapply rtc_l; [by eapply hz_fail|by apply Hmono].
Qed.

Lemma locks_hold_witness : ∃ s, rtc (hazard_step CallNl pair_addr 77 77 vanilla8 all_map) (pair_start CallNl) s ∧
  lost s ∧ ∀ s', rtc (hazard_step CallNl pair_addr 77 77 vanilla8 all_map) s s' → ¬ returned s' 1.
Proof.
  destruct (with_failure_ex vanilla8 all_map NoBuffer to_send (round_robin 40) (pair_start CallNl)
    (λ s, lost s ∧ waits s 1)) with (s' := default (pair_start CallNl)
      (with_failure pair_addr 77 77 vanilla8 all_map NoBuffer to_send (round_robin 40) (pair_start CallNl)))
    as (s & H & Hl & Hw); [reflexivity|vm_compute; reflexivity|split; [split; vm_compute; reflexivity|]|].
  - eexists _, _. split; [vm_compute; reflexivity|reflexivity].
  - apply failure_hazards in H. exists s. split; [exact H|]. split; [exact Hl|]. intros s' Hs'.
    destruct (locks_hold CallNl pair_addr 77 77 vanilla8 all_map pair_requests pair_mem no_request s H) as (_ & _ & _ & Hlost).
    exact (proj2 (proj2 (Hlost Hl s' Hs') 1%nat Hw)).
Defined.
