(* ===== verification/Signals.v ===== *)
(** * A signal to the sleeping caller

    The callers of barracuda_kernel_module/raid6cuda.c do not look at the result
    of [wait_event_interruptible].  Hazards.v follows single schedules; this file
    says what a signal does in every state the system can reach. *)
From S2P Require Import Prelude GF256 Word Memory Syndrome Cstring Service Vanilla Conf Marshal Driver Transport Protocol Refine Atomic Hazards.
Local Open Scope Z_scope.

(** The daemon has not computed the request of a thread that sleeps. *)
Definition not_computed (meth : usp_method) (d : server) : bool :=
  match sv_pc d with
  | SWait | SGet | SGen _ => true
  | STop => bool_decide (meth = CallProc)
  | _ => false
  end.

Definition not_computed_tag (meth : usp_method) (g : server_tag) : bool :=
  match g with GWait | GGet | GGen => true | GTop => bool_decide (meth = CallProc) | _ => false end.

Lemma reach_sleeps meth c : c ∈ reach meth → c_client c = TCall UWait → c_flag c ≠ done_flag meth →
  not_computed_tag meth (c_server c) = true → c_flag c = 0 ∧ c_served c = false ∧
  (c_server c = GWait → meth = CallNl → c_inbox c = true).
Proof. destruct meth; by_reach. Qed.

Section signal.
Context (meth : usp_method) (snc_addr : list Z) (pid : Z) (map_ok : loc → Z → bool) (gen : syndrome_func).
Abbreviation step := (sys_step meth snc_addr pid pid gen map_ok).
Abbreviation any := (any_step meth snc_addr pid pid gen map_ok).

(** ** The netlink method has a message before it sleeps *)
Definition greeted (c : client_pc) : bool :=
  match c with CCall (UCopy | USend | UFlag | UWait | UCheck | UUp) _ => true | _ => false end.
Definition greeting_kept (s : system) : Prop :=
  meth = CallNl → ∀ i r c, s_clients s !! i = Some (r, c) → greeted c = true → is_Some (ks_skb (s_kernel s)).

Lemma client_skb r c k c' k' : meth = CallNl →
  raid6_cuda_gen_syndrome meth snc_addr pid true r c k = Ok (Some (c', k')) →
  ks_skb k' = ks_skb k ∧ (greeted c' = true → greeted c = true ∨ is_Some (ks_skb k)).
Proof using Type.
  intros -> E. destruct c as [| |u snc| | |]; cbn [raid6_cuda_gen_syndrome] in E.
  3: destruct u; cbn in E; unfold down_call, up_call, publish, clear_flag, wait_flag in E.
  all: inv_ok; repeat case_match; simplify_eq; cbn; (split; [done|]); try (intros; by left); try done; intros _; right; eauto.
Qed.

Lemma server_skb d k d' k' : server_step meth snc_addr pid gen map_ok d k = Ok (Some (d', k')) →
  ks_skb k' = ks_skb k ∨ is_Some (ks_skb k').
Proof using Type.
  unfold server_step, server_netlink, server_ioctl_callback, server_procfs, loop_top, serve, nl_data_ready, proc_write.
  intros E. destruct meth, (sv_pc d); inv_ok; repeat (case_match; simplify_eq; inv_ok); simplify_eq; cbn; eauto.
Qed.

Lemma greeting_step s s' : greeting_kept s → step s s' → greeting_kept s'.
Proof using Type.
  intros Hk H Hm. specialize (Hk Hm). destruct H as [cs k d i r c c' k' Hi E|cs k d d' k' E]; cbn in *.
  - destruct (client_skb r c k c' k' Hm E) as [-> Hg]. intros j r1 c1 Hj Hc1. destruct (decide (j = i)) as [->|Hne].
    + rewrite list_lookup_insert_eq in Hj by (by eapply lookup_lt_Some). injection Hj as <- <-.
      destruct (Hg Hc1); [by eapply Hk|done].
    + rewrite list_lookup_insert_ne in Hj by done. by eapply Hk.
  - intros j r1 c1 Hj Hc1. destruct (server_skb _ _ _ _ E) as [->|?]; [by eapply Hk|done].
Qed.

Lemma greeting_run rs m snc s : rtc step (sys_start meth rs m snc) s → greeting_kept s.
Proof using Type.
  apply (rtc_ind_r greeting_kept).
  - intros _ i r c Hi. cbn in Hi. apply list_lookup_fmap_Some in Hi as (? & [= -> ->] & _). done.
  - intros s1 s2 _ H Hk. by eapply greeting_step.
Qed.

(** ** The thread goes *)
(** What the daemon sees of the kernel, the containers aside. *)
Definition same_for_daemon (k k' : kstate) : Prop :=
  ks_flag k' = ks_flag k ∧ ks_rd k' = ks_rd k ∧ ks_wr k' = ks_wr k ∧ ks_inbox k' = ks_inbox k ∧ ks_mem k' = ks_mem k.

Lemma thread_steps i r c c' k k' cs d : cs !! i = Some (r, c) →
  raid6_cuda_gen_syndrome meth snc_addr pid true r c k = Ok (Some (c', k')) →
  any {| s_clients := cs; s_kernel := k; s_server := d |}
    {| s_clients := <[i := (r, c')]> cs; s_kernel := k'; s_server := d |}.
Proof using Type. intros Hi E. left. by eapply sys_client. Qed.

(** From the freeing on the thread needs nobody. *)
Lemma thread_ends cs k d i r snc : (i < length cs)%nat → ∃ k',
  rtc step {| s_clients := <[i := (r, CKill snc)]> cs; s_kernel := k; s_server := d |}
    {| s_clients := <[i := (r, CReturned)]> cs; s_kernel := k'; s_server := d |} ∧
  same_for_daemon k k' ∧ ks_data k' = kill_smc snc (ks_data k).
Proof using Type.
  intros Hlt. eexists. split.
  - eapply rtc_l; [by eapply sys_client; [by apply list_lookup_insert_eq|]|]. rewrite list_insert_insert_eq.
    eapply rtc_l; [by eapply sys_client; [by apply list_lookup_insert_eq|]|]. rewrite list_insert_insert_eq. reflexivity.
  - by split_and!.
Qed.

Lemma step_any s s' : rtc step s s' → rtc any s s'.
Proof using Type. apply rtc_subrel. intros ? ? H. by left. Qed.

(** ... and so it is from the statement behind its sleep. *)
Lemma thread_leaves cs k d i r u snc : cs !! i = Some (r, CCall u snc) →
  u = UUp ∨ meth = CallNl ∧ u = UCheck ∧ is_Some (ks_skb k) → ∃ k',
  rtc any {| s_clients := cs; s_kernel := k; s_server := d |}
    {| s_clients := <[i := (r, CReturned)]> cs; s_kernel := k'; s_server := d |} ∧
  same_for_daemon k k' ∧ ks_data k' = kill_smc snc (ks_data k).
Proof using Type.
  intros Hi Hu. pose proof (lookup_lt_Some _ _ _ Hi) as Hlt.
  assert (∀ k, ∃ k', rtc any {| s_clients := <[i := (r, CKill snc)]> cs; s_kernel := k; s_server := d |}
    {| s_clients := <[i := (r, CReturned)]> cs; s_kernel := k'; s_server := d |} ∧
    same_for_daemon k k' ∧ ks_data k' = kill_smc snc (ks_data k)) as Hkill.
  { intros k0. destruct (thread_ends cs k0 d i r snc Hlt) as (k' & H & ? & ?). exists k'. split; [by apply step_any|done]. }
  assert (∀ cs, cs !! i = Some (r, CCall UUp snc) → ∀ k, ∃ k1, any {| s_clients := cs; s_kernel := k; s_server := d |}
    {| s_clients := <[i := (r, CKill snc)]> cs; s_kernel := k1; s_server := d |} ∧
    same_for_daemon k k1 ∧ ks_data k1 = ks_data k) as Hup.
  { intros cs0 Hi0 k0. eexists. split; [eapply thread_steps; [exact Hi0|]; by destruct meth|by split_and!]. }
  destruct Hu as [->|(Hm & -> & skb & Hs)].
  - destruct (Hup cs Hi k) as (k1 & H1 & S1 & D1). destruct (Hkill k1) as (k2 & H2 & S2 & D2).
    exists k2. split; [by eapply rtc_l|]. rewrite D2, D1. split; [|done]. unfold same_for_daemon in *. intuition congruence.
  - destruct (decide (take 8 (skb_data skb) = snc_addr)) as [Ha|Ha].
    + destruct (Hup (<[i := (r, CCall UUp snc)]> cs) (list_lookup_insert_eq _ _ _ Hlt) k) as (k1 & H1 & S1 & D1).
      rewrite list_insert_insert_eq in H1. destruct (Hkill k1) as (k2 & H2 & S2 & D2).
      exists k2. rewrite D2, D1. split_and!; [|unfold same_for_daemon in *; intuition congruence|done].
      eapply rtc_l; [eapply thread_steps; [exact Hi|]|by eapply rtc_l].
      subst meth. cbn. rewrite Hs. cbn. by rewrite decide_True.
    + destruct (Hkill k) as (k2 & H2 & S2 & D2). exists k2. split_and!; [|done|done].
      eapply rtc_l; [eapply thread_steps; [exact Hi|]|exact H2].
      subst meth. cbn. rewrite Hs. cbn. by rewrite decide_False.
Qed.

(** ** What the daemon meets *)
Lemma wait_same d k k' d1 k1 : sv_pc d = SWait → same_for_daemon k k' →
  server_step meth snc_addr pid gen map_ok d k = Ok (Some (d1, k1)) → ∃ k1',
  server_step meth snc_addr pid gen map_ok d k' = Ok (Some (d1, k1')) ∧ ks_data k1' = ks_data k'.
Proof using Type.
  intros Epc (Hf & Hr & Hw & Hb & _). unfold server_step, server_netlink, server_ioctl_callback, server_procfs, proc_read.
  destruct meth; rewrite Epc, ?Hf, ?Hr, ?Hb; intros E; repeat (case_match; try done); simplify_eq; inv_ok; simplify_eq;
    eexists; (split; [first [done|match goal with H : get_payload _ _ = Ok _ |- _ => rewrite H end; bind_step; reflexivity]|done]).
Qed.

(** A container whose array is freed. *)
Lemma get_dangles d k r id : sv_pc d = SGet → actual_snc (ks_data k) = packed r id →
  arrays (ks_data k) !! id = None → 0 < rq_disks r →
  server_step meth snc_addr pid gen map_ok d k = Err OutOfBounds.
Proof using Type.
  intros Epc Hs Ha Hd.
  assert (get_act_syndrome_block true map_ok (ks_data k) (smc_flag d) (sv_maps d) = Err OutOfBounds) as E.
  { unfold get_act_syndrome_block. rewrite andb_false_r, Hs. cbn [packed sc_disks sc_bytes].
    destruct (Z.to_nat (rq_disks r)) as [|n] eqn:En; [lia|]. cbn [map_disks]. unfold snc_ptr. rewrite Hs. cbn. by rewrite Ha. }
  unfold server_step, server_netlink, server_ioctl_callback, server_procfs, serve.
  destruct meth; rewrite Epc, E; done.
Qed.
End signal.

(** ** What comes of a signal *)
Section outcome.
Context (meth : usp_method) (snc_addr : list Z) (pid : Z) (map_ok : loc → Z → bool).
Context (gen : syndrome_func) (pad : Z → Z) `{G : !PqGenerator gen pad}.
Context (rs : list request) (m : mem) (snc0 : syndrome_container).
Context (Hok : transport_ok meth snc_addr map_ok pad rs m) (Hsep : separate rs).
Abbreviation step := (sys_step meth snc_addr pid pid gen map_ok).
Abbreviation any := (any_step meth snc_addr pid pid gen map_ok).
Abbreviation start := (sys_start meth rs m snc0).
Abbreviation Inv' := (Inv meth snc_addr pid rs (mem_ok pad rs)).

(** A thread sleeps and the daemon has not computed its request. *)
Record sleeps (s : system) (i : nat) (r : request) (snc : syndrome_container) : Prop := {
  sl_reached : rtc step start s;
  sl_thread : s_clients s !! i = Some (r, CCall UWait snc);
  sl_flag : ks_flag (s_kernel s) ≠ done_flag meth;
  sl_daemon : not_computed meth (s_server s) = true
}.

Lemma sleeps_inv s i r snc : sleeps s i r snc → ∃ inb id,
  Inv' (s_clients s) (s_kernel s) (s_server s) (Some i) (TCall UWait) inb false ∧
  service_inv pad rs m (abs (s_clients s) (s_kernel s) false) ∧
  snc = packed r id ∧ arrays (ks_data (s_kernel s)) = {[ id := rq_ptrs r ]} ∧ actual_snc (ks_data (s_kernel s)) = snc ∧
  ks_flag (s_kernel s) = 0 ∧ rs !! i = Some r ∧ (sv_pc (s_server s) = SWait → meth = CallNl → inb = true).
Proof using G Hok Hsep.
  intros [Hrun Hi Hf Hd]. apply rtc_nsteps in Hrun as [n Hn].
  destruct (transport_run meth snc_addr pid map_ok gen pad rs m snc0 n s Hok Hn) as (o & cl & inb & sv & HI & Hsv & _).
  apply (service_run_inv gen pad rs m) in Hsv; [|intros; by eapply to_request|done].
  destruct (decide (o = Some i)) as [->|Hne];
    [|by destruct (inv_idle _ _ _ _ _ _ _ _ _ _ _ _ HI i _ _ Hi Hne)].
  destruct (inv_active _ _ _ _ _ _ _ _ _ _ _ _ HI) as (r' & c' & Hi' & <- & _ & Hreq).
  rewrite Hi in Hi'. injection Hi' as <- <-. cbn in Hreq. destruct Hreq as (id & Hsnc & Harr & Hpub).
  destruct (reach_sleeps _ _ (inv_reach _ _ _ _ _ _ _ _ _ _ _ _ HI)) as (Hf0 & Hserved & Hin); [done|done| |].
  { cbn. revert Hd. unfold not_computed. by destruct (sv_pc (s_server s)). }
  cbn in Hf0, Hserved, Hin. subst sv. exists inb, id. split_and!; [done..|by apply Hpub|done| |].
  - rewrite <-(inv_reqs _ _ _ _ _ _ _ _ _ _ _ _ HI), list_lookup_fmap, Hi. done.
  - intros Epc. apply Hin. by rewrite Epc.
Qed.

(** A request that is not computed has its check disks as they were. *)
Lemma unserved_disks cs k i r c : service_inv pad rs m (abs cs k false) → rs !! i = Some r →
  cs !! i = Some (r, c) → c ≠ CReturned → ∀ b, check_disk r b → ks_mem k !! b = m !! b.
Proof using Hsep.
  intros HS Hr Hi Hc b Hb. apply (si_frame _ _ _ _ HS). intros j rj Hj Hbj. cbn. rewrite list_lookup_fmap.
  destruct (decide (j = i)) as [->|Hne]; [rewrite Hi; by destruct c|].
  destruct (Hsep i j r rj b Hr Hj ltac:(done) Hb). unfold check_disk in Hbj.
  apply list_elem_of_lookup in Hbj as [z Hz]. rewrite lookup_drop in Hz. by eapply list_elem_of_lookup_2.
Qed.

(** The daemon's steps keep the invariant. *)
Lemma daemon_ok cs k d o cl inb sv : Inv' cs k d o cl inb sv → ∃ res,
  server_step meth snc_addr pid gen map_ok d k = Ok res ∧
  server_outcome meth snc_addr pid gen rs (mem_ok pad rs) cs k d o cl inb sv res.
Proof using G Hok.
  intros HI. destruct Hok as [[Haddr Hnz] Hmap _]. apply server_ok; [done|done|done| | |done].
  - intros r Hr. destruct (to_request _ _ _ _ _ _ r Hok Hr) as (? & ? & _). split; [done|lia].
  - intros r m1 Hr Hm1. destruct (gen_ok gen pad rs r m1 Hr Hm1) as (m' & ? & _ & ?). by exists m'.
Qed.

(** The signal and what the thread does after it. *)
Lemma signal_leaves s i r snc : sleeps s i r snc → ∃ k',
  rtc any s {| s_clients := <[i := (r, CReturned)]> (s_clients s); s_kernel := k'; s_server := s_server s |} ∧
  same_for_daemon (s_kernel s) k' ∧ ks_data k' = kill_smc snc (ks_data (s_kernel s)).
Proof using Hok.
  intros [Hrun Hi Hf Hd]. pose proof (greeting_run _ _ _ _ _ _ _ _ _ Hrun) as Hg. destruct s as [cs k d]. cbn in *.
  pose proof (lookup_lt_Some _ _ _ Hi) as Hlt.
  set (u := match meth with CallNl => UCheck | _ => UUp end).
  destruct (thread_leaves meth snc_addr pid map_ok gen (<[i := (r, CCall u snc)]> cs) k d i r u snc) as (k' & H & HS & HD).
  - by apply list_lookup_insert_eq.
  - subst u. destruct (decide (meth = CallNl)) as [Em|Em]; [right|left; by destruct meth].
    rewrite Em. split_and!; [done|done|]. by eapply (Hg Em).
  - rewrite list_insert_insert_eq in H. exists k'. split; [|done].
    eapply rtc_l; [|exact H]. right. by apply sig_client.
Qed.

(** The daemon without a request of its own follows the freed array ... *)
Lemma daemon_faults cs k k' d inb i r id :
  Inv' cs k d (Some i) (TCall UWait) inb false → ks_flag k = 0 → rs !! i = Some r → same_for_daemon k k' →
  actual_snc (ks_data k') = packed r id → arrays (ks_data k') !! id = None → not_computed meth d = true →
  (∀ c, sv_pc d ≠ SGen c) → (sv_pc d = SWait → meth = CallNl → inb = true) → ∀ cs',
  ∃ s, rtc any {| s_clients := cs'; s_kernel := k'; s_server := d |} s ∧ sys_faults meth snc_addr pid pid gen map_ok s.
Proof using G Hok Hsep.
  intros HI Hf Hr HS Hsn Har Hnc Hng Hin cs'.
  assert (0 < rq_disks r) as Hd.
  { destruct (to_request _ _ _ _ _ _ r Hok) as (-> & Hl & _); [by eapply list_elem_of_lookup_2|lia]. }
  assert (∀ d k, sv_pc d = SGet → actual_snc (ks_data k) = packed r id → arrays (ks_data k) !! id = None →
    sys_faults meth snc_addr pid pid gen map_ok {| s_clients := cs'; s_kernel := k; s_server := d |}) as Hget.
  { intros d1 k1 H1 H2 H3. right. exists OutOfBounds. by eapply get_dangles. }
  assert (∀ d1 k1, server_step meth snc_addr pid gen map_ok d k' = Ok (Some (d1, k1)) → ks_data k1 = ks_data k' →
    sv_pc d1 = SGet → ∃ s, rtc any {| s_clients := cs'; s_kernel := k'; s_server := d |} s ∧
      sys_faults meth snc_addr pid pid gen map_ok s) as Hone.
  { intros d1 k1 E Ed H1. exists {| s_clients := cs'; s_kernel := k1; s_server := d1 |}. split.
    - apply rtc_once. left. by apply sys_server.
    - apply Hget; by rewrite ?Ed. }
  unfold not_computed in Hnc. destruct (sv_pc d) eqn:Epc; try discriminate Hnc.
  - (* the top of the loop: procfs *)
    apply bool_decide_eq_true in Hnc. destruct (inv_sems _ _ _ _ _ _ _ _ _ _ _ _ HI) as (Hrd & _ & Hkg).
    destruct HS as (Hf' & Hrd' & _). set (d1 := at_pc SWait d).
    exists {| s_clients := cs'; s_kernel := k'; s_server := at_pc SGet (set_buffers (sv_client d1) snc_addr (sv_server d1) d1) |}.
    split; [|by apply Hget]. eapply rtc_l; [left; apply (sys_server _ _ _ _ _ _ cs' k' d d1 k')|apply rtc_once; left; apply sys_server].
    + rewrite Hnc. unfold server_step, server_procfs, loop_top. rewrite Epc. by rewrite (proj2 (Z.eqb_neq _ _)).
    + rewrite Hnc. unfold server_step, server_procfs, proc_read. cbn [sv_pc at_pc d1]. by rewrite Hrd', Hrd, Hf', Hf.
  - (* it waits *)
    destruct (daemon_ok _ _ _ _ _ _ _ HI) as ([[d1 k1]|] & E & Ho); cbn in Ho; unfold ctl_server in Ho; cbn in Ho;
      rewrite Epc, Hf in Ho; cbn in Ho.
    + destruct Ho as (inb' & sv' & Ho & _). destruct (wait_same _ _ _ _ _ _ _ _ _ _ Epc HS E) as (k1' & E' & Ed).
      apply (Hone d1 k1' E' Ed). apply (f_equal (fmap c_server)) in Ho.
      destruct meth; [rewrite (Hin eq_refl eq_refl) in Ho|..]; cbn in Ho; by destruct (sv_pc d1).
    + exfalso. destruct meth; [rewrite (Hin eq_refl eq_refl) in Ho; done|done..].
  - exists {| s_clients := cs'; s_kernel := k'; s_server := d |}. split; [reflexivity|]. by apply Hget.
  - by destruct (Hng c).
Qed.

(** ... and one that has taken the request computes it behind the caller's
    back. *)
Lemma daemon_computes cs k k' d inb i r c :
  Inv' cs k d (Some i) (TCall UWait) inb false → service_inv pad rs m (abs cs k false) → rs !! i = Some r →
  (∃ snc, cs !! i = Some (r, CCall UWait snc)) → same_for_daemon k k' → sv_pc d = SGen c → ∀ cs', ∃ d' k2,
  any {| s_clients := cs'; s_kernel := k'; s_server := d |} {| s_clients := cs'; s_kernel := k2; s_server := d' |} ∧
  parity_of m r (ks_mem k2).
Proof using G Hok Hsep.
  intros HI HS Hr [snc Hi] (_ & _ & _ & _ & Hmem) Epc cs'.
  assert (Hreq : ∀ r, r ∈ rs → request_ok pad m r) by (intros; by eapply to_request).
  pose proof (inv_server _ _ _ _ _ _ _ _ _ _ _ _ HI) as Hsd. unfold server_data in Hsd. rewrite Epc in Hsd.
  destruct Hsd as (j & r' & [= <-] & Hr' & -> & _). rewrite Hr in Hr'. injection Hr' as <-.
  destruct (gen_ok gen pad rs r (ks_mem k)) as (m2 & Eg & Hw & Hm2);
    [by eapply list_elem_of_lookup_2|by eapply inv_mem|].
  eexists _, _. split.
  - left. apply sys_server. unfold server_step, server_netlink, server_ioctl_callback, server_procfs.
    destruct meth; rewrite Epc; unfold serve; rewrite Epc; cbn [container_of uc_disks uc_bytes uc_ptrs];
      rewrite Hmem, Eg; reflexivity.
  - assert (sp_status (abs cs k false) !! i = Some Waiting) as Hst by (cbn; by rewrite list_lookup_fmap, Hi).
    destruct (serve_parity gen pad rs m Hreq _ _ i r m2 Hsep HS Hr Hst Hw Hm2) as [_ _ _ HP].
    cbn in HP. cbn [ks_mem set_mem]. apply (HP i r Hr). rewrite list_lookup_insert_eq; [done|].
    rewrite length_fmap. by eapply lookup_lt_Some.
Qed.

End outcome.

(** ** Witness: one caller over netlink, while the daemon has not looked yet *)
#[local] Instance vanilla8_pq : PqGenerator vanilla8 (λ bytes, loop_end 0 bytes 8) := vanilla_pq (N := native64).

Definition asleep_schedule : list pick :=
  [PDaemon] ++ replicate 4 (PThread 0) ++ [PDaemon] ++ replicate 6 (PThread 0).
Definition asleep_state : system :=
  (follow CallNl pair_addr 77 77 vanilla8 all_map asleep_schedule (one_start CallNl)).2.

Lemma asleep_run : rtc (sys_step CallNl pair_addr 77 77 vanilla8 all_map) (one_start CallNl) asleep_state.
Proof.
  unfold asleep_state. destruct (follow _ _ _ _ _ _ asleep_schedule _) as [n s] eqn:E.
  eapply rtc_nsteps_2, (follow_nsteps _ _ _ _ _ _ asleep_schedule); [reflexivity|exact E].
Qed.

