(* ===== verification/Failures.v ===== *)
(** * What a failing netlink service leads to

    NetlinkFailures.v follows single schedules; this file says what the failure
    of a kernel service does in every state the system can reach. *)
From S2P Require Import Prelude GF256 Word Memory Syndrome Cstring Service Vanilla Conf Marshal Driver Transport Protocol Refine Atomic Hazards NetlinkFailures Locks Signals.
Local Open Scope Z_scope.

(** Where the rest of the system is when a message is sent, or not copied. *)
Lemma reach_sends c : c ∈ reach CallNl → c_client c = TCall USend →
  c_server c = GWait ∧ c_inbox c = false ∧ c_served c = false.
Proof. by_reach. Qed.

Lemma reach_answers c : c ∈ reach CallNl → c_server c = GEnter ∨ c_server c = GAck → c_flag c = 0 →
  c_client c = TCall UWait1 ∨ c_client c = TCall UWait.
Proof. by_reach. Qed.

Section outcome.
Context (snc_addr : list Z) (pid : Z) (map_ok : loc → Z → bool).
Context (gen : syndrome_func) (pad : Z → Z) `{G : !PqGenerator gen pad}.
Context (rs : list request) (m : mem) (snc0 : syndrome_container).
Context (Hok : transport_ok CallNl snc_addr map_ok pad rs m) (Hsep : separate rs).
Abbreviation step := (sys_step CallNl snc_addr pid pid gen map_ok).
Abbreviation hazard := (hazard_step CallNl snc_addr pid pid gen map_ok).
Abbreviation start := (sys_start CallNl rs m snc0).
Abbreviation Inv' := (Inv CallNl snc_addr pid rs (mem_ok pad rs)).

Lemma nl_reached s : rtc step start s → ∃ o cl inb sv,
  Inv' (s_clients s) (s_kernel s) (s_server s) o cl inb sv ∧
  service_inv pad rs m (abs (s_clients s) (s_kernel s) sv).
Proof using G Hok Hsep.
  intros [n Hn]%rtc_nsteps.
  destruct (transport_run CallNl snc_addr pid map_ok gen pad rs m snc0 n s Hok Hn) as (o & cl & inb & sv & HI & Hsv & _).
  apply (service_run_inv gen pad rs m) in Hsv; [|intros; by eapply to_request|done]. by exists o, cl, inb, sv.
Qed.

Lemma active_thread s i r u snc : rtc step start s → s_clients s !! i = Some (r, CCall u snc) → ∃ inb sv,
  Inv' (s_clients s) (s_kernel s) (s_server s) (Some i) (TCall u) inb sv ∧
  service_inv pad rs m (abs (s_clients s) (s_kernel s) sv) ∧ rs !! i = Some r.
Proof using G Hok Hsep.
  intros Hrun Hi. destruct (nl_reached s Hrun) as (o & cl & inb & sv & HI & HS).
  destruct (decide (o = Some i)) as [->|Hne]; [|by destruct (inv_idle _ _ _ _ _ _ _ _ _ _ _ _ HI i _ _ Hi Hne)].
  destruct (inv_active _ _ _ _ _ _ _ _ _ _ _ _ HI) as (r' & c' & Hi' & <- & _).
  rewrite Hi in Hi'. injection Hi' as <- <-. exists inb, sv. split_and!; [done..|].
  by rewrite <-(inv_reqs _ _ _ _ _ _ _ _ _ _ _ _ HI), list_lookup_fmap, Hi.
Qed.

Lemma step_hazard s s' : rtc step s s' → rtc hazard s s'.
Proof using Type. apply rtc_subrel. intros ? ?. apply hz_step. Qed.

(** ** No socket buffer *)
Lemma no_buffer s s1 : rtc step start s → fail_step NoBuffer s s1 → ∃ i r s2, ¬ returned s i ∧
  rtc step s1 s2 ∧ returned s2 i ∧ rs !! i = Some r ∧ (∀ b, check_disk r b → ks_mem (s_kernel s2) !! b = m !! b) ∧
  ∀ s3, rtc hazard s1 s3 → ∀ j, returned s3 j → j = i ∨ returned s j.
Proof using G Hok Hsep.
  intros Hrun Hf. assert (hazard s s1) as Hz by (by eapply hz_fail).
  pose proof (permits_run _ _ _ _ _ _ _ _ (permits_start CallNl rs m snc0) (step_hazard _ _ Hrun)) as Hp.
  inversion Hf as [f cs k d i r u snc res k' Hi E|]; subst.
  destruct u; try discriminate E. injection E as <- <-. pose proof (lookup_lt_Some _ _ _ Hi) as Hlt.
  destruct (active_thread _ i r USend snc Hrun Hi) as (inb & sv & HI & HS & Hr). cbn [s_clients s_kernel s_server] in *.
  destruct (reach_sends _ (inv_reach _ _ _ _ _ _ _ _ _ _ _ _ HI) eq_refl) as (_ & _ & Hsv). cbn in Hsv. subst sv.
  destruct (thread_ends CallNl snc_addr pid map_ok gen cs k d i r snc Hlt) as (k2 & H2 & (_ & _ & _ & _ & Hm2) & _).
  assert (lost {| s_clients := <[i := (r, CKill snc)]> cs; s_kernel := k; s_server := d |}) as Hl.
  { eapply (early_lost CallNl); [exact Hp|exact Hz|exact Hi|by apply list_lookup_insert_eq|done]. }
  exists i, r. eexists. split; [by intros [? ?]; simplify_eq/=; congruence|]. split; [exact H2|].
  split; [exists r; by apply list_lookup_insert_eq|]. split; [done|]. split.
  - cbn. rewrite Hm2. by eapply unserved_disks.
  - intros s3 H3 j Hj. destruct (decide (j = i)) as [->|Hne]; [by left|right].
    pose proof (permits_step _ _ _ _ _ _ _ _ Hp Hz) as Hp1.
    destruct (cs !! j) as [[rj c]|] eqn:Ej.
    + destruct (inv_idle _ _ _ _ _ _ _ _ _ _ _ _ HI j rj c Ej ltac:(congruence)) as [-> | ->]; [|by exists rj].
      destruct (lost_unreturned _ _ _ _ _ _ _ s3 j Hp1 Hl H3); [|done]. exists rj, CDown. cbn.
      by rewrite list_lookup_insert_ne.
    + exfalso. destruct Hj as [rj Hj]. apply lookup_lt_Some in Hj. apply hazard_length in H3. cbn in H3.
      rewrite H3, length_insert in Hj. by apply lookup_ge_None in Ej; lia.
Qed.

(** ** A message that is not delivered *)
(** The thread waits for an answer to a message that nobody got. *)
Definition silent (i : nat) (s : system) : Prop :=
  (∃ r u snc, s_clients s !! i = Some (r, CCall u snc) ∧ (u = UFlag ∨ u = UWait ∧ ks_flag (s_kernel s) = 0)) ∧
  (∀ j r c, s_clients s !! j = Some (r, c) → j ≠ i → c = CDown ∨ c = CReturned) ∧
  ks_gen (s_kernel s) = 0 ∧ sv_pc (s_server s) = SWait ∧ ks_inbox (s_kernel s) = [].

Lemma silent_step i s s' : silent i s → step s s' → silent i s' ∧ ∀ j, returned s' j → returned s j.
Proof using Type.
  intros ((r & u & snc & Hi & Hu) & Ho & Hg & Hd & Hb) H. destruct H as [cs k d j r' c c' k' Hj E|cs k d d' k' E]; cbn in *.
  - destruct (decide (j = i)) as [->|Hne].
    + rewrite Hi in Hj. injection Hj as <- <-. pose proof (lookup_lt_Some _ _ _ Hi) as Hlt.
      destruct Hu as [->|[-> Hf]]; cbn in E; unfold clear_flag, wait_flag in E; [|by rewrite Hf in E].
      injection E as <- <-. split.
      * split_and!; [exists r, UWait, snc; cbn; rewrite list_lookup_insert_eq by done; auto| |done..].
        intros j r1 c1 Hj Hne. cbn in Hj. rewrite list_lookup_insert_ne in Hj by done. by eapply Ho.
      * intros j [r1 Hj]. cbn in Hj. destruct (decide (j = i)) as [->|Hne].
        { by rewrite list_lookup_insert_eq in Hj. }
        rewrite list_lookup_insert_ne in Hj by done. by exists r1.
    + exfalso. destruct (Ho j r' c Hj Hne) as [-> | ->]; cbn in E; [by rewrite Hg in E|done].
  - exfalso. unfold server_netlink in E. by rewrite Hd, Hb in E.
Qed.

Lemma silent_run i s s' : silent i s → rtc step s s' → ∀ j, returned s' j → returned s j.
Proof using Type.
  intros Hs H. induction H as [|s s1 s2 H _ IH]; [done|]. destruct (silent_step i s s1 Hs H) as [H1 Hr]. auto.
Qed.

Lemma not_sent s s1 : rtc step start s → fail_step NotSent s s1 → ∀ s2, rtc step s1 s2 → ∀ j, returned s2 j → returned s j.
Proof using G Hok Hsep.
  intros Hrun Hf s2 H2. inversion Hf as [f cs k d i r u snc res k' Hi E|]; subst.
  destruct u; try discriminate E. injection E as <- <-. pose proof (lookup_lt_Some _ _ _ Hi) as Hlt.
  destruct (active_thread _ i r USend snc Hrun Hi) as (inb & sv & HI & _). cbn [s_clients s_kernel s_server] in *.
  destruct (reach_sends _ (inv_reach _ _ _ _ _ _ _ _ _ _ _ _ HI) eq_refl) as (Hpc & Hin & _). cbn in Hpc, Hin. subst inb.
  intros j Hj. eapply (silent_run i) in Hj; [|split_and!|exact H2].
  - destruct Hj as [r1 Hj]. cbn in Hj. destruct (decide (j = i)) as [->|Hne]; [by rewrite list_lookup_insert_eq in Hj|].
    rewrite list_lookup_insert_ne in Hj by done. by exists r1.
  - exists r, UFlag, snc. cbn. rewrite list_lookup_insert_eq by done. auto.
  - intros j' r1 c1 Hj' Hne. cbn in Hj'. rewrite list_lookup_insert_ne in Hj' by done.
    eapply (inv_idle _ _ _ _ _ _ _ _ _ _ _ _ HI); [exact Hj'|congruence].
  - exact (inv_gen _ _ _ _ _ _ _ _ _ _ _ _ HI).
  - cbn. by destruct (sv_pc d).
  - exact (inv_inbox _ _ _ _ _ _ _ _ _ _ _ _ HI).
Qed.

(** ** A message that is not copied *)
Lemma no_copy s s1 : rtc step start s → fail_step NoCopy s s1 →
  ∃ s2, rtc step s1 s2 ∧ sys_faults CallNl snc_addr pid pid gen map_ok s2.
Proof using G Hok Hsep.
  intros Hrun Hf. inversion Hf as [? ? ? ? ? ? u ? ? ? ? E|cs k d d' k' E]; subst; [by destruct u|].
  assert (ks_flag k = 0 ∧ k' = set_flag 1 (set_skb None k) ∧ (sv_pc d = SEnter ∨ sv_pc d = SAck)) as (Hfl & -> & Hpc).
  { revert E. unfold server_netlink_fails, nl_data_ready_fails. destruct (Z.eqb_spec (ks_flag k) 0) as [Ef|_].
    - destruct (sv_pc d); intros E; inv_ok; simplify_eq; auto.
    - destruct (sv_pc d); intros E; inv_ok; simplify_eq. }
  destruct (nl_reached _ Hrun) as (o & cl & inb & sv & HI & _). cbn [s_clients s_kernel s_server] in *.
  destruct (reach_answers _ (inv_reach _ _ _ _ _ _ _ _ _ _ _ _ HI)) as [Hcl|Hcl]; [cbn; destruct Hpc as [-> | ->]; auto|done|..];
    cbn in Hcl; subst cl.
  all: pose proof (inv_active _ _ _ _ _ _ _ _ _ _ _ _ HI) as Ha; destruct o as [i|]; [|by destruct Ha];
    destruct Ha as (r & c & Hi & Ht & _); destruct c; try discriminate Ht; injection Ht as ->;
    pose proof (lookup_lt_Some _ _ _ Hi) as Hlt.
  all: eexists; (split; [apply rtc_once; eapply sys_client; [exact Hi|reflexivity]|]);
    left; exists i; eexists _, _, NullDeref; (split; [by apply list_lookup_insert_eq|reflexivity]).
Qed.

(** Thread [j] comes back in a continuation of [s1] and was not back in [s]. *)
Definition comes_back (R : system → system → Prop) (s s1 : system) (j : nat) : Prop :=
  ¬ returned s j ∧ ∃ s2, rtc R s1 s2 ∧ returned s2 j.

(** C39: a netlink service of the kernel fails, in any state the system can
    reach.  Without memory for the socket buffer the caller comes back although
    its check disks are what they were, and no other caller ever does,
    whatever signals and failures follow.  When the message is not delivered
    nobody comes back any more.  When a message of the daemon cannot be copied,
    the kernel follows a null pointer. *)
Theorem netlink_failure_outcome f s s1 : rtc step start s → fail_step f s s1 →
  match f with
  | NoBuffer => ∃ i r s2, ¬ returned s i ∧ rtc step s1 s2 ∧ returned s2 i ∧ rs !! i = Some r ∧
      (∀ b, check_disk r b → ks_mem (s_kernel s2) !! b = m !! b) ∧ ∀ j, comes_back hazard s s1 j → j = i
  | NotSent => ∀ j, ¬ comes_back step s s1 j
  | NoCopy => ∃ s2, rtc step s1 s2 ∧ sys_faults CallNl snc_addr pid pid gen map_ok s2
  end.
Proof using G Hok Hsep.
  intros Hrun Hf. destruct f; [|intros j (Hn & s2 & H2 & Hj); by eapply Hn, not_sent|by eapply no_copy].
  destruct (no_buffer s s1 Hrun Hf) as (i & r & s2 & Hn & H2 & Hi & Hr & Hm & Hall). exists i, r, s2. split_and!; [done..|].
  intros j (Hj & s3 & H3 & Hret). by destruct (Hall s3 H3 j Hret).
Qed.
End outcome.

(** ** Witness: two callers, each failure at its place *)
#[local] Instance vanilla8_pq : PqGenerator vanilla8 (λ bytes, loop_end 0 bytes 8) := vanilla_pq (N := native64).

Definition before (f : nl_failure) : system :=
  (follow CallNl pair_addr 77 77 vanilla8 all_map (match f with NoCopy => to_greet | _ => to_send end) (pair_start CallNl)).2.

Lemma before_run f : rtc (sys_step CallNl pair_addr 77 77 vanilla8 all_map) (pair_start CallNl) (before f).
Proof.
  unfold before. destruct (follow _ _ _ _ _ _ _ _) as [n s] eqn:E. eapply rtc_nsteps_2, follow_nsteps; [|exact E]. by destruct f.
Qed.

Lemma netlink_failure_outcome_witness :
  (∃ s1, fail_step NoBuffer (before NoBuffer) s1 ∧ ∃ i, i < 2 ∧ ∀ j,
     comes_back (hazard_step CallNl pair_addr 77 77 vanilla8 all_map) (before NoBuffer) s1 j → j = i)%nat ∧
  (∃ s1, fail_step NotSent (before NotSent) s1 ∧ ∀ j,
     ¬ comes_back (sys_step CallNl pair_addr 77 77 vanilla8 all_map) (before NotSent) s1 j) ∧
  (∃ s1, fail_step NoCopy (before NoCopy) s1 ∧
     ∃ s2, rtc (sys_step CallNl pair_addr 77 77 vanilla8 all_map) s1 s2 ∧
       sys_faults CallNl pair_addr 77 77 vanilla8 all_map s2).
Proof.
  pose proof (λ f s1, netlink_failure_outcome pair_addr 77 all_map vanilla8 (λ bytes, loop_end 0 bytes 8) pair_requests
    pair_mem no_request (pair_ok CallNl) pair_separate f (before f) s1 (before_run f)) as H.
  split_and!; [set (f := NoBuffer)|set (f := NotSent)|set (f := NoCopy)];
    (assert (is_Some (try_fail f 0 (before f))) as [s1 E] by (vm_compute; eauto)); apply try_fail_ok in E;
    specialize (H f s1 E); subst f; (exists s1; split; [exact E|]); cbv beta iota in H.
  - destruct H as (i & r & s2 & _ & _ & _ & Hr & _ & H). exists i. split; [exact (lookup_lt_Some _ _ _ Hr)|exact H].
  - exact H.
  - exact H.
Defined.
