(* ===== verification/Module.v ===== *)
(** * Loading and unloading: barracuda_start, barracuda_stop and the testbed

    barracuda_kernel_module/raid6cuda.c registers the procfs entries, the
    character device and the netlink socket; raid6cuda_tst.c is the module that
    loads it and runs a benchmark thread.  Kernel services succeed or fail as
    an environment says. *)
From S2P Require Import Prelude GF256 Word Memory Syndrome Cstring Service Conf.
Local Open Scope Z_scope.

(** ** What is registered *)
Inductive resource := RProcDir | RProcStub | RProcConf | RChrdevRegion | RCdev | RNetlink | RActualSnc.
#[export] Instance resource_eq_dec : EqDecision resource.
Proof. solve_decision. Defined.

(** [gen_syndrome_mutex], [ioctl_init_mutex] and the registrations, latest
    first. *)
Record module := { md_gen : Z; md_init : Z; md_held : list resource }.

(** [DECLARE_MUTEX] gives one. *)
Definition module_load : module := {| md_gen := 1; md_init := 1; md_held := [] |}.

(** Which of the kernel services barracuda_start uses succeed. *)
Definition services := resource → bool.

Definition hold (r : resource) (s : module) : module :=
  {| md_gen := md_gen s; md_init := md_init s; md_held := r :: md_held s |}.
Definition drop_held (r : resource) (s : module) : module :=
  {| md_gen := md_gen s; md_init := md_init s; md_held := filter (λ r', r' ≠ r) (md_held s) |}.

Definition EIO : Z := 5.
Definition ENOMEM : Z := 12.

(** [barracuda_start]; [None] is asleep in [down].  A failed [vmalloc] of
    [actual_snc] is not noticed. *)
Definition barracuda_start (ok : services) (s : module) : option (Z * module) :=
  if md_gen s <=? 0 then None else
  let s := {| md_gen := md_gen s - 1; md_init := md_init s; md_held := md_held s |} in
  if md_init s <=? 0 then None else
  let s := {| md_gen := md_gen s; md_init := md_init s - 1; md_held := md_held s |} in
  Some (
    if negb (ok RProcDir) then (- EIO, s) else
    let s := hold RProcDir s in
    if negb (ok RProcStub) then (- EIO, s) else
    let s := hold RProcStub s in
    if negb (ok RProcConf) then (- EIO, s) else
    let s := hold RProcConf s in
    if negb (ok RChrdevRegion) then (- EIO, s) else
    let s := hold RChrdevRegion s in
    if negb (ok RCdev) then (- EIO, drop_held RChrdevRegion s) else
    let s := hold RCdev s in
    if negb (ok RNetlink) then (- EIO, s) else
    let s := hold RNetlink s in
    (0, if ok RActualSnc then hold RActualSnc s else s)).

(** [barracuda_stop]: what it releases, in order.  The socket is only released
    when it is there, and [vfree(NULL)] does nothing; the other calls are made
    in any case. *)
Definition stop_order (s : module) : list resource :=
  [RProcStub; RProcConf; RProcDir; RCdev; RChrdevRegion] ++
  (if decide (RNetlink ∈ md_held s) then [RNetlink] else []) ++
  (if decide (RActualSnc ∈ md_held s) then [RActualSnc] else []).

Definition barracuda_stop (s : module) : Z * module :=
  (0, foldl (λ s r, drop_held r s) s (stop_order s)).

(** Releases of what was never registered. *)
Definition stop_unheld (s : module) : list resource := filter (λ r, r ∉ md_held s) (stop_order s).

(** ** The test module *)
(** [dont_kill_mutex], the benchmark thread's number (0: none). *)
Record testbed := { tb_module : module; tb_dont_kill : Z; tb_thread : Z }.

(** [mod_init]: the result of [barracuda_start] is dropped; [tid] is what
    [kernel_thread] returns. *)
Definition mod_init (ok : services) (tid : Z) (t : testbed) : option (Z * testbed) :=
  if tb_dont_kill t <=? 0 then None else
  match barracuda_start ok (tb_module t) with
  | None => None
  | Some (_, s) =>
      let t := {| tb_module := s; tb_dont_kill := tb_dont_kill t - 1; tb_thread := tid |} in
      Some (if tid =? 0 then - EIO else 0, t)
  end.

(** [mod_exit]: whether the benchmark thread is killed, and the state; [None]:
    asleep until the thread has raised [dont_kill_mutex]. *)
Definition mod_exit (t : testbed) : option (bool * testbed) :=
  if tb_dont_kill t <=? 0 then None else
  let '(_, s) := barracuda_stop (tb_module t) in
  Some (negb (tb_thread t =? 0), {| tb_module := s; tb_dont_kill := tb_dont_kill t; tb_thread := tb_thread t |}).

Definition testbed_load : testbed := {| tb_module := module_load; tb_dont_kill := 1; tb_thread := 0 |}.

(** The last statement of the benchmark thread. *)
Definition thread_done (t : testbed) : testbed :=
  {| tb_module := tb_module t; tb_dont_kill := tb_dont_kill t + 1; tb_thread := tb_thread t |}.

(** ** [barracuda_printk] *)
Definition LOGLEVEL : Z := 5.
Definition PAGE_SIZE : Z := 4096.

(** [vmalloc(n)] gives whole pages. *)
Definition vmalloc_size (n : Z) : Z := (n + PAGE_SIZE - 1) / PAGE_SIZE * PAGE_SIZE.

Definition log_prefix : string := "BARRACUDA :  ".

(** The line that is printed, if the level asks for it. *)
Definition barracuda_printk (loglevel : Z) (logout : string) : result (option string) :=
  let size := vmalloc_size (13 + Z.of_nat (String.length logout)) in
  let footer := log_prefix +:+ logout in
  require (Z.of_nat (String.length footer) + 1 <=? size) OutOfBounds;;
  Ok (if (loglevel =? 0) || (loglevel <=? LOGLEVEL) then Some footer else None).

(** ** What holds *)
(** The first service that fails. *)
Definition start_sequence : list resource :=
  [RProcDir; RProcStub; RProcConf; RChrdevRegion; RCdev; RNetlink].
Definition all_ok (ok : services) : bool := forallb ok start_sequence.

Ltac start_cases ok :=
  destruct (ok RProcDir) eqn:?, (ok RProcStub) eqn:?, (ok RProcConf) eqn:?, (ok RChrdevRegion) eqn:?,
    (ok RCdev) eqn:?, (ok RNetlink) eqn:?, (ok RActualSnc) eqn:?.


(** The test module drops the result of barracuda_start, so insmod
    succeeds although nothing is registered, and it cannot be unloaded before
    its benchmark thread is done; after that, unloading releases all. *)
Theorem testbed_lifecycle ok tid : tid ≠ 0 → ∃ t, mod_init ok tid testbed_load = Some (0, t) ∧
  mod_exit t = None ∧
  ∃ t', mod_exit (thread_done t) = Some (true, t') ∧ md_held (tb_module t') = [].
Proof.
  intros Htid. unfold mod_init, barracuda_start.
  cbn [testbed_load tb_dont_kill tb_module module_load md_gen md_init md_held Z.leb Z.compare].
  assert ((tid =? 0) = false) as E by lia. rewrite E.
  start_cases ok; eexists; (split; [reflexivity|]); (split; [reflexivity|]);
    unfold mod_exit, thread_done; cbn [tb_dont_kill tb_thread tb_module]; rewrite E;
    eexists; split; reflexivity.
Qed.

(** A log line overruns its buffer by the terminating zero; because
    vmalloc rounds up to pages this is harmless except for one length in 4096. *)
Theorem printk_overrun loglevel logout :
  let len := 13 + Z.of_nat (String.length logout) in
  barracuda_printk loglevel logout =
    if len mod 4096 =? 0 then Err OutOfBounds
    else Ok (if loglevel <=? 5 then Some (log_prefix +:+ logout) else None).
Proof.
  cbv zeta. unfold barracuda_printk, vmalloc_size, PAGE_SIZE, LOGLEVEL.
  set (len := Z.of_nat (String.length logout)).
  assert (Z.of_nat (String.length (log_prefix +:+ logout)) + 1 = 13 + len + 1) as ->
    by (change (String.length (log_prefix +:+ logout)) with (13 + String.length logout)%nat; lia).
  assert (0 ≤ len) by (unfold len; lia).
  destruct (Z.eqb_spec ((13 + len) mod 4096) 0) as [Hm|Hm];
    destruct (Z.leb_spec (13 + len + 1) ((13 + len + 4096 - 1) / 4096 * 4096)) as [Hle|Hle]; try done.
  - Z.to_euclidean_division_equations. lia.
  - cbn [require]. bind_step. destruct (Z.eqb_spec loglevel 0) as [->|]; done.
  - Z.to_euclidean_division_equations. lia.
Qed.

Lemma testbed_lifecycle_witness : ∃ t, mod_init (λ _, false) 42 testbed_load = Some (0, t) ∧
  mod_exit t = None ∧
  ∃ t', mod_exit (thread_done t) = Some (true, t') ∧ md_held (tb_module t') = [].
Proof. apply (testbed_lifecycle (λ _, false) 42). lia. Defined.
