(* ===== verification/Testbed.v ===== *)
(** * barracuda_kernel_module/raid6cuda_tst.c: the thread of the test module

    With BENCHMARK, for 5 to 64 disks, ten times each: allocate an array, call
    raid6_cuda_gen_syndrome until two seconds have gone by, print the rate,
    free the array.  Without, one array of seven disks is shown before and after
    a call.  The generator, the clock and the supply of pages are parameters. *)
From S2P Require Import Prelude GF256 Word Memory Syndrome Cstring Service Vanilla.
Local Open Scope Z_scope.

Definition ULONG : Z := 2 ^ 64.
(** Reading an [unsigned long] as [long]. *)
Definition to_long (z : Z) : Z := (z + 2 ^ 63) mod ULONG - 2 ^ 63.
(** [time_after(a, b)] of linux/jiffies.h *)
Definition time_after (a b : Z) : bool := to_long (b - a) <? 0.

(** [NPAGES * PAGE_SIZE] of the testbed *)
Definition BYTES : Z := 512 * 4096.
Lemma BYTES_nonneg : 0 ≤ BYTES.
Proof. done. Qed.

Section thread.
Context (junk : loc → nat → Z) (gen : syndrome_func).
(** Ticks per second, and [jiffies] before and after the [n]-th call. *)
Context (HZ : Z) (clock : nat → Z * Z).

(** The time a call took. *)
Definition elapsed (t1 t2 : Z) : Z :=
  if negb (time_after t1 t2) then (t2 - t1) mod ULONG else (t1 - t2) mod ULONG.

(** [while(jiffie_timer < (2*HZ))]; [n] numbers the calls. *)
Fixpoint bench_loop (fuel : nat) (disks : Z) (dptrs : list loc) (n : nat) (jiffie_timer dur : Z) (m : mem) :
    result (nat * Z * Z * mem) :=
  match fuel with
  | O => Err OutOfFuel
  | S fuel =>
      if jiffie_timer <? 2 * HZ then
        m ← gen disks BYTES dptrs m;
        let '(t1, t2) := clock n in
        bench_loop fuel disks dptrs (S n) ((jiffie_timer + elapsed t1 t2) mod ULONG) ((dur + 1) mod ULONG) m
      else Ok (n, jiffie_timer, dur, m)
  end.

(** One line of the benchmark; [None] is "nan". *)
Definition bench_rate (jiffie_timer dur : Z) : result (option Z) :=
  if negb (jiffie_timer =? 0) then
    require (negb (jiffie_timer / HZ =? 0)) DivByZero;;
    Ok (Some ((dur * BYTES) mod ULONG / (jiffie_timer / HZ)))
  else Ok None.

Definition bench_one (disks : Z) (s : nat * list (Z * option Z) * mem) : result (nat * list (Z * option Z) * mem) :=
  let '(n, out, m) := s in
  let '(dptrs, m) := alloc_disks junk BYTES (Z.to_nat disks) m in
  '(n, jiffie_timer, dur, m) ← bench_loop (S (Z.to_nat (2 * HZ))) disks dptrs n 0 0 m;
  rate ← bench_rate jiffie_timer dur;
  m ← deallocate_host_example_dpointer disks dptrs m;
  Ok (n, out ++ [(disks, rate)], m).

(** [thread_code] up to [up(&dont_kill_mutex)]. *)
Definition thread_code (m : mem) : result (nat * list (Z * option Z) * mem) :=
  for_lt 5 65 1 (λ disks s, for_lt 0 10 1 (λ _ s, bench_one disks s) s) (O, [], m).

(** ** What holds *)
Context (pad : Z → Z) `{G : !PqGenerator gen pad} (Hpad : pad BYTES = BYTES) (HHZ : 0 < HZ ≤ 1000000).

(** A call takes at least a tick and less than 2^32, whatever [jiffies] reads. *)
Hypothesis Hclock : ∀ n, ∃ t e, 0 ≤ t < ULONG ∧ 1 ≤ e < 2 ^ 32 ∧ clock n = (t, (t + e) mod ULONG).

(** Time differences survive the wrap-around of [jiffies]. *)
Lemma elapsed_wraps t e : 0 ≤ t < ULONG → 0 ≤ e < 2 ^ 32 → elapsed t ((t + e) mod ULONG) = e.
Proof using Type.
  unfold elapsed, time_after, to_long, ULONG. intros Ht He.
  destruct (decide (t + e < 2 ^ 64)) as [Hlt|Hge].
  - rewrite (Z.mod_small (t + e)) by lia. replace (t + e - t) with e by lia.
    rewrite (Z.mod_small (e + 2 ^ 63)) by lia. destruct (Z.ltb_spec (e + 2 ^ 63 - 2 ^ 63) 0); [lia|].
    cbn [negb]. rewrite Z.mod_small; lia.
  - assert ((t + e) mod 2 ^ 64 = t + e - 2 ^ 64) as ->.
    { symmetry. apply (Z.mod_unique _ _ 1); lia. }
    replace (t + e - 2 ^ 64 - t + 2 ^ 63) with (e + 2 ^ 63 + (-1) * 2 ^ 64) by lia.
    rewrite Z.mod_add, Z.mod_small by lia.
    destruct (Z.ltb_spec (e + 2 ^ 63 - 2 ^ 63) 0); [lia|]. cbn [negb].
    symmetry. apply (Z.mod_unique _ _ (-1)); lia.
Qed.

(** The memory while an array is in use: the array is there, everything else
    is as before. *)
Definition bench_mem (disks : nat) (dptrs : list loc) (m0 m : mem) : Prop :=
  array_ok m dptrs disks BYTES ∧ (∀ b, b ∉ dptrs → m !! b = m0 !! b).

Lemma bench_gen disks dptrs m0 m : (3 ≤ disks ≤ 255)%nat → length dptrs = disks →
  bench_mem disks dptrs m0 m → ∃ m', gen (Z.of_nat disks) BYTES dptrs m = Ok m' ∧ bench_mem disks dptrs m0 m'.
Proof using G Hpad.
  intros Hd Hl [Ha Hf]. destruct (pq_run m dptrs disks BYTES) as (m' & E & Hw);
    [lia|unfold INT_MAX; lia|apply BYTES_nonneg|by compute|by rewrite Hpad|].
  exists m'. split; [done|]. split; [by eapply array_ok_writes|].
  intros b Hb. rewrite <-Hf by done. pose proof Hw as [[Hfr _ _ _] _ _].
  apply Hfr; intros E'; apply Hb; by eapply list_elem_of_lookup_2.
Qed.

Lemma bench_loop_ok fuel disks dptrs n j dur m0 m : (3 ≤ disks ≤ 255)%nat → length dptrs = disks →
  bench_mem disks dptrs m0 m → 0 ≤ j < 2 * HZ + 2 ^ 32 → 0 ≤ dur → 2 * HZ - j < Z.of_nat fuel →
  (0 < fuel)%nat →
  ∃ n' j' dur' m', bench_loop fuel (Z.of_nat disks) dptrs n j dur m = Ok (n', j', dur', m') ∧
    2 * HZ ≤ j' < 2 * HZ + 2 ^ 32 ∧ bench_mem disks dptrs m0 m'.
Proof using G Hpad HHZ Hclock.
  intros Hd Hl. revert n j dur m. induction fuel as [|fuel IH]; intros n j dur m Hm Hj Hdur Hf Hpos; [lia|].
  cbn [bench_loop]. destruct (Z.ltb_spec j (2 * HZ)) as [Hlt|Hge]; [|exists n, j, dur, m; split_and!; [done|lia|lia|done..]].
  destruct (bench_gen disks dptrs m0 m Hd Hl Hm) as (m1 & E & Hm1). run E.
  destruct (Hclock n) as (t & e & Ht & He & ->). rewrite elapsed_wraps by lia. unfold ULONG in *.
  rewrite (Z.mod_small (j + e)) by lia.
  apply IH; [done|lia|apply Z.mod_pos_bound; lia|lia|lia].
Qed.

Lemma bench_one_ok disks n out m : (5 ≤ disks ≤ 64)%nat →
  ∃ n' rate, bench_one (Z.of_nat disks) (n, out, m) = Ok (n', out ++ [(Z.of_nat disks, Some rate)], m).
Proof using G Hpad HHZ Hclock.
  intros Hd. unfold bench_one. rewrite Nat2Z.id.
  destruct (alloc_disks junk BYTES disks m) as [dptrs m1] eqn:E.
  destruct (alloc_disks_spec junk BYTES disks m dptrs m1 BYTES_nonneg E) as (Hl & _ & Hnone & _ & Hf).
  destruct (bench_loop_ok (S (Z.to_nat (2 * HZ))) disks dptrs n 0 0 m1 m1) as (n' & j & dur & m2 & El & Hj & Ha & Hf2);
    [lia|done| |lia|done|lia|lia|].
  { split; [|done]. eapply alloc_array_ok; [apply BYTES_nonneg|done]. }
  run El. unfold bench_rate. destruct (Z.eqb_spec j 0); [lia|]. cbn [negb].
  assert (2 ≤ j / HZ) by (apply Z.div_le_lower_bound; lia).
  destruct (Z.eqb_spec (j / HZ) 0); [lia|]. cbn [negb require]. bind_step.
  destruct (dealloc_alloc junk BYTES disks m dptrs m1 m2) as (m3 & E3 & Hin & Hout);
    [apply BYTES_nonneg|unfold INT_MAX; lia|done| |].
  { intros b [x Hx]. destruct (decide (b ∈ dptrs)) as [Hb|Hb]; [|rewrite Hf2 by done; by eexists].
    apply list_elem_of_lookup in Hb as [i Hi].
    destruct (array_disk Ha i) as (b' & Hi' & Hbo); [by apply lookup_lt_Some in Hi; lia|].
    rewrite Hi in Hi'. injection Hi' as <-. apply buf_ok_Some in Hbo as (c & -> & _). done. }
  run E3. eexists _, _. f_equal. f_equal. apply map_eq. intros b.
  destruct (decide (b ∈ dptrs)) as [Hb|Hb].
  - rewrite Hin by done. rewrite Forall_forall in Hnone. symmetry. by apply Hnone.
  - by rewrite Hout, Hf2, Hf by done.
Qed.

Lemma bench_ten_ok disks n out m : (5 ≤ disks ≤ 64)%nat →
  ∃ n' out', for_lt 0 10 1 (λ _ s, bench_one (Z.of_nat disks) s) (n, out, m) = Ok (n', out ++ out', m) ∧
    length out' = 10%nat ∧ Forall (λ l, l.1 = Z.of_nat disks ∧ is_Some l.2) out'.
Proof using G Hpad HHZ Hclock.
  intros Hd. edestruct (for_lt_inv (λ i s, ∃ n' out', s = (n', out ++ out', m) ∧ length out' = Z.to_nat i ∧
      Forall (λ l : Z * option Z, l.1 = Z.of_nat disks ∧ is_Some l.2) out')
    (λ _ s, bench_one (Z.of_nat disks) s) 0 10 1) with (s := (n, out, m))
    as (s & E & n' & out' & -> & Hl & Hall); [lia|done|done| | |].
  - intros i s Hi _ (n1 & out1 & -> & Hl & Hall).
    destruct (bench_one_ok disks n1 (out ++ out1) m Hd) as (n2 & rate & E). eexists. split; [exact E|].
    exists n2, (out1 ++ [(Z.of_nat disks, Some rate)]). rewrite <-app_assoc. split; [done|].
    rewrite length_app, Hl. cbn [length]. split; [lia|]. apply Forall_app. split; [done|]. by repeat constructor.
  - exists n, []. by rewrite app_nil_r.
  - exists n', out'. rewrite E. rewrite Hl. done.
Qed.

(** C28: the benchmark thread ends, for every implementation that keeps the
    interface and every clock that advances with each call, also when jiffies
    wraps around: it prints 600 rates, never "nan" and never divides by zero,
    and gives back all the memory it took. *)
Theorem thread_code_ends m :
  ∃ n out, thread_code m = Ok (n, out, m) ∧ length out = 600%nat ∧ Forall (λ l, is_Some l.2) out.
Proof using G Hpad HHZ Hclock.
  unfold thread_code.
  edestruct (for_lt_inv (λ i s, 5 ≤ i ∧ ∃ n out, s = (n, out, m) ∧ length out = Z.to_nat (10 * (i - 5)) ∧
      Forall (λ l : Z * option Z, is_Some l.2) out)
    (λ disks s, for_lt 0 10 1 (λ _ s, bench_one disks s) s) 5 65 1) with (s := (O, @nil (Z * option Z), m))
    as (s & E & _ & n & out & -> & Hl & Hall); [lia|done|done| | |].
  - intros i s Hi _ (_ & n1 & out1 & -> & Hl & Hall).
    destruct (bench_ten_ok (Z.to_nat i) n1 out1 m ltac:(lia)) as (n2 & out2 & E & Hl2 & Hall2).
    rewrite Z2Nat.id in E by lia. eexists. split; [exact E|]. split; [lia|].
    exists n2, (out1 ++ out2). split; [done|]. rewrite length_app, Hl, Hl2. split; [lia|].
    apply Forall_app. split; [done|]. eapply Forall_impl; [exact Hall2|]. by intros ? [_ ?].
  - split; [lia|]. by exists O, [].
  - exists n, out. rewrite E. done.
Qed.
End thread.

(** ** The thread without BENCHMARK

    A sample of seven disks of ten bytes is filled, shown, processed and shown
    again.  [dont_kill_mutex] is not raised on this branch. *)
Definition NUMBER_OF_DISK : nat := 7.
(** [__get_free_pages(GFP_KERNEL, 1)] *)
Definition page_pair : Z := 2 * 4096.
(** A byte printed as [char]. *)
Definition to_char (b : Z) : Z := (b + 128) mod 256 - 128.

Section sample.
Context (junk : loc → nat → Z) (gen : syndrome_func).
(** Whether there are pages for disk [i]. *)
Context (pages : nat → bool).

(** The pages of the disks from [i] on; [false]: there were none for one. *)
Fixpoint get_free_pages (n i : nat) (m : mem) : bool * list loc * mem :=
  match n with
  | O => (true, [], m)
  | S n =>
      if pages i then
        let '(b, m) := malloc junk m page_pair in
        let '(ok, bs, m) := get_free_pages n (S i) m in
        (ok, b :: bs, m)
      else (false, [], m)
  end.

(** One buffer printed. *)
Definition show_disk (dptrs : list loc) (bytes i : Z) (m : mem) : result (list Z) :=
  tmp ← nth_ptr dptrs i;
  bs ← load_bytes m tmp 0 (Z.to_nat bytes);
  Ok (map to_char bs).

Definition fill_disk (dptrs : list loc) (bytes i : Z) (s : mem * list (list Z)) : result (mem * list (list Z)) :=
  let '(m, out) := s in
  b ← nth_ptr dptrs i;
  m ← memset m b i bytes;
  line ← show_disk dptrs bytes i m;
  Ok (m, out ++ [line]).

(** What is printed before and after the call; [None] is [-ENOMEM]. *)
Definition sample_thread_code (m : mem) : result (option (list (list Z) * list (list Z)) * mem) :=
  let disks := Z.of_nat NUMBER_OF_DISK in
  let bytes := 10 in
  let '(ok, dptrs, m) := get_free_pages NUMBER_OF_DISK 0 m in
  if negb ok then Ok (None, m) else
  '(m, out) ← for_lt 0 disks 1 (fill_disk dptrs bytes) (m, []);
  m ← gen disks bytes dptrs m;
  out2 ← for_lt 0 disks 1 (λ i out, line ← show_disk dptrs bytes i m; Ok (out ++ [line])) [];
  m ← for_lt 0 disks 1 (λ i m, b ← nth_ptr dptrs i; free m b) m;
  Ok (Some (out, out2), m).

Lemma get_free_pages_all n i m : (∀ i, pages i = true) →
  get_free_pages n i m = (true, (alloc_disks junk page_pair n m).1, (alloc_disks junk page_pair n m).2).
Proof using Type.
  intros Hp. revert i m. induction n as [|n IH]; intros i m; [done|]. cbn [get_free_pages alloc_disks].
  rewrite Hp. unfold malloc. cbn zeta. rewrite IH. by destruct (alloc_disks _ _ _ _).
Qed.

Lemma get_free_pages_some n i j m : (∀ k, (k < j)%nat → pages (i + k) = true) → (j < n)%nat → pages (i + j) = false →
  get_free_pages n i m = (false, (alloc_disks junk page_pair j m).1, (alloc_disks junk page_pair j m).2).
Proof using Type.
  revert i j m. induction n as [|n IH]; intros i j m Hp Hj Hf; [lia|]. cbn [get_free_pages].
  destruct j as [|j]; [by rewrite Nat.add_0_r in Hf; rewrite Hf|].
  pose proof (Hp O ltac:(lia)) as H0. rewrite Nat.add_0_r in H0. rewrite H0. cbn [alloc_disks]. unfold malloc. cbn zeta.
  rewrite (IH (S i) j).
  - by destruct (alloc_disks _ _ _ _).
  - intros k Hk. rewrite <-(Hp (S k) ltac:(lia)). f_equal. lia.
  - lia.
  - rewrite <-Hf. f_equal. lia.
Qed.

Lemma show_disk_ok dptrs m i b f : dptrs !! i = Some b → buf_ok m page_pair b →
  (∀ k, (k < 10)%nat → peek m b k = f k) →
  show_disk dptrs 10 (Z.of_nat i) m = Ok ((λ k, to_char (f k)) <$> seq 0 10).
Proof using Type.
  intros Hb Hbo Hf. unfold show_disk. run (nth_ptr_nat dptrs (Z.of_nat i) i b) by done.
  change (Z.to_nat 10) with 10%nat. run (load_bytes_ok m b 0 10 page_pair) by (done || unfold page_pair; lia). f_equal. unfold slice.
  change (map to_char) with (fmap (M := list) to_char). rewrite <-list_fmap_compose. apply list_fmap_ext. intros j k Hk. apply lookup_seq in Hk as [-> Hk]. cbn.
  f_equal. by apply Hf.
Qed.

Definition filled (dptrs : list loc) (n : nat) (m : mem) : Prop :=
  ∀ i b k, (i < n)%nat → (k < 10)%nat → dptrs !! i = Some b → peek m b k = Z.of_nat i.

Lemma fill_sample dptrs m : array_ok m dptrs NUMBER_OF_DISK page_pair → length dptrs = NUMBER_OF_DISK →
  ∃ m', for_lt 0 (Z.of_nat NUMBER_OF_DISK) 1 (fill_disk dptrs 10) (m, []) =
      Ok (m', (λ i, replicate 10 (Z.of_nat i)) <$> seq 0 NUMBER_OF_DISK) ∧
    array_ok m' dptrs NUMBER_OF_DISK page_pair ∧ filled dptrs NUMBER_OF_DISK m' ∧
    (∀ b, b ∉ dptrs → m' !! b = m !! b).
Proof using Type.
  intros Ha Hl.
  destruct (for_lt_inv (λ i (s : mem * list (list Z)), array_ok s.1 dptrs NUMBER_OF_DISK page_pair ∧
      (∀ b, b ∉ dptrs → s.1 !! b = m !! b) ∧ filled dptrs (Z.to_nat i) s.1 ∧
      s.2 = (λ i, replicate 10 (Z.of_nat i)) <$> seq 0 (Z.to_nat i))
    (fill_disk dptrs 10) 0 (Z.of_nat NUMBER_OF_DISK) 1) with (s := (m, @nil (list Z)))
    as ([m' out] & E & Ha' & Hf' & Hfi & Ho); [lia|done|done| | |cbn in *; subst out; by exists m'].
  - intros i [m1 out] Hi _ (Ha1 & Hf1 & Hfi & Ho). cbn [fst snd] in *. subst out. unfold NUMBER_OF_DISK in Hi.
    destruct (array_disk Ha1 (Z.to_nat i)) as (b & Hb & Hbo); [unfold NUMBER_OF_DISK; lia|]. unfold fill_disk.
    run (nth_ptr_nat dptrs i (Z.to_nat i) b) by (done || lia).
    destruct (memset_spec m1 b i 10 page_pair Hbo) as (m2 & E & [F _ O P]); [done|]. run E.
    assert (∀ k, (k < 10)%nat → peek m2 b k = i) as Hpk.
    { intros k Hk. rewrite P, length_replicate, decide_True by lia. rewrite lookup_replicate_2 by lia. simp_default.
      unfold to_u8. apply Z.mod_small. lia. }
    pose proof (show_disk_ok dptrs m2 (Z.to_nat i) b (λ _, i) Hb (O _ _ Hbo) Hpk) as Es.
    rewrite Z2Nat.id in Es by lia. run Es. eexists. split; [done|]. cbn [fst snd]. split_and!.
    + eapply array_ok_frame; [|exact Ha1]. intros b' Hb'. by apply O.
    + intros b' Hb'. rewrite F; [by apply Hf1|]. intros ->. apply Hb'. by eapply list_elem_of_lookup_2.
    + intros i' b' k Hi' Hk Hb'. destruct (decide (i' = Z.to_nat i)) as [->|Hne].
      * rewrite Hb in Hb'. injection Hb' as <-. rewrite Hpk by done. lia.
      * unfold peek. rewrite F; [apply (Hfi i' b' k); [lia|done|done]|]. intros ->. apply Hne.
        apply (array_inj Ha1 i' (Z.to_nat i) b); unfold NUMBER_OF_DISK; (done || lia).
    + replace (Z.to_nat (i + 1)) with (Z.to_nat i + 1)%nat by lia. rewrite seq_app, fmap_app. f_equal. cbn [fmap list_fmap seq].
      assert (to_char i = i) as -> by (unfold to_char; rewrite Z.mod_small; lia). rewrite Nat.add_0_l, Z2Nat.id by lia. done.
  - split_and!; [done|done|intros i b k Hi; cbn in Hi; lia|done].
Qed.

(** The seven buffers as they are shown in the end: P is the parity of the
    data, Q is 82. *)
Definition sample_values : list Z := [0; 1; 2; 3; 4; 4; 82].

Lemma sample_column dptrs m k : (k < 10)%nat → length dptrs = NUMBER_OF_DISK → filled dptrs NUMBER_OF_DISK m →
  column m dptrs 5 k = [0; 1; 2; 3; 4].
Proof using Type.
  intros Hk Hl Hfi. unfold column, NUMBER_OF_DISK in *. unfold filled in Hfi.
  do 7 (destruct dptrs as [|? dptrs]; [done|]). cbn [take fmap list_fmap].
  repeat f_equal;
    [apply (Hfi 0%nat)|apply (Hfi 1%nat)|apply (Hfi 2%nat)|apply (Hfi 3%nat)|apply (Hfi 4%nat)]; (done || lia).
Qed.

Context (pad : Z → Z) `{G : !PqGenerator gen pad} (Hpad : pad 10 ≤ page_pair).

Lemma sample_computed dptrs m : array_ok m dptrs NUMBER_OF_DISK page_pair → length dptrs = NUMBER_OF_DISK →
  filled dptrs NUMBER_OF_DISK m →
  ∃ m', gen (Z.of_nat NUMBER_OF_DISK) 10 dptrs m = Ok m' ∧ array_ok m' dptrs NUMBER_OF_DISK page_pair ∧
    (∀ b, b ∉ dptrs → m' !! b = m !! b) ∧
    ∀ i b v k, dptrs !! i = Some b → sample_values !! i = Some v → (k < 10)%nat → peek m' b k = v.
Proof using G Hpad.
  intros Ha Hl Hfi. destruct (pq_run m dptrs NUMBER_OF_DISK 10) as (m' & E & Hw);
    [unfold NUMBER_OF_DISK; lia|done|done|done|by eapply array_ok_mono; [| |exact Ha]|].
  exists m'. split; [done|]. split; [by eapply array_ok_writes|].
  pose proof (pad_ge 10 ltac:(done) ltac:(done)) as Hge. destruct Hw as [[F _ P Q] _ _]. split.
  { intros b Hb. apply F; intros E'; apply Hb; by eapply list_elem_of_lookup_2. }
  intros i b v k Hb Hv Hk. pose proof (lookup_lt_Some _ _ _ Hv) as Hi. cbn in Hi.
  assert (column m dptrs (NUMBER_OF_DISK - 2) k = [0; 1; 2; 3; 4]) as Hcol by (by apply sample_column).
  destruct (decide (i = 5%nat)) as [->|H5]; [|destruct (decide (i = 6%nat)) as [->|H6]].
  - rewrite (P b k Hb) by lia. unfold p_byte. rewrite Hcol. injection Hv as <-. reflexivity.
  - rewrite (Q b k Hb) by lia. unfold q_byte. rewrite Hcol. injection Hv as <-. reflexivity.
  - assert (m' !! b = m !! b) as E1.
    { apply F; intros E1; [apply H5|apply H6]; eapply (array_inj Ha _ _ b); unfold NUMBER_OF_DISK in *; (done || lia). }
    unfold peek. rewrite E1. fold (peek m b k). rewrite (Hfi i b k) by (unfold NUMBER_OF_DISK; lia || done).
    do 5 (destruct i as [|i]; [by injection Hv as <-|]). lia.
Qed.

(** When there are pages for all disks, the thread shows each disk filled with
    its number, then the same with P and Q in the last two, and gives all pages
    back. *)
Theorem sample_thread_runs m : (∀ i, pages i = true) →
  sample_thread_code m = Ok (Some ((λ i, replicate 10 (Z.of_nat i)) <$> seq 0 7, replicate 10 <$> sample_values), m).
Proof using G Hpad.
  intros Hp. unfold sample_thread_code. rewrite get_free_pages_all by done.
  destruct (alloc_disks junk page_pair NUMBER_OF_DISK m) as [dptrs m1] eqn:E. cbn [fst snd negb].
  assert (Hpb : 0 ≤ page_pair) by done.
  destruct (alloc_disks_spec junk page_pair _ m dptrs m1 Hpb E) as (Hl & _ & Hnone & _ & Hf).
  assert (array_ok m1 dptrs NUMBER_OF_DISK page_pair) as Ha1 by (by eapply alloc_array_ok).
  destruct (fill_sample dptrs m1 Ha1 Hl) as (m2 & E2 & Ha2 & Hfi & Hf2). run E2.
  destruct (sample_computed dptrs m2 Ha2 Hl Hfi) as (m3 & E3 & Ha3 & Hf3 & Hv). run E3.
  destruct (for_lt_inv (λ i out, out = replicate 10 <$> take (Z.to_nat i) sample_values)
    (λ i out, line ← show_disk dptrs 10 i m3; Ok (out ++ [line])) 0 (Z.of_nat NUMBER_OF_DISK) 1)
    with (s := @nil (list Z)) as (out & E4 & ->); [lia|done|done| |done|].
  { intros i out Hi _ ->. unfold NUMBER_OF_DISK in Hi.
    destruct (array_disk Ha3 (Z.to_nat i)) as (b & Hb & Hbo); [unfold NUMBER_OF_DISK; lia|].
    destruct (lookup_lt_is_Some_2 sample_values (Z.to_nat i)) as [v Hvi]; [cbn; lia|].
    pose proof (show_disk_ok dptrs m3 (Z.to_nat i) b (λ _, v) Hb Hbo (λ k Hk, Hv _ _ _ _ Hb Hvi Hk)) as Es.
    rewrite Z2Nat.id in Es by lia. run Es. eexists. split; [done|].
    replace (Z.to_nat (i + 1)) with (S (Z.to_nat i)) by lia. rewrite (take_S_r _ _ _ Hvi), fmap_app. f_equal.
    cbn [fmap list_fmap seq]. assert (v ∈ sample_values) as Hin by (by eapply list_elem_of_lookup_2).
    assert (to_char v = v) as ->; [|done]. clear Hvi Es. revert v Hin. apply Forall_forall. by_decide. }
  run E4.
  destruct (dealloc_alloc junk page_pair NUMBER_OF_DISK m dptrs m1 m3 Hpb) as (m4 & E5 & Hin & Hout); [done|done| |].
  { intros b [x Hx]. destruct (decide (b ∈ dptrs)) as [Hb|Hb]; [|rewrite Hf3, Hf2 by done; by eexists].
    apply list_elem_of_lookup in Hb as [i Hi].
    destruct (array_disk Ha3 i) as (b' & Hi' & Hbo); [by apply lookup_lt_Some in Hi; lia|].
    rewrite Hi in Hi'. injection Hi' as <-. apply buf_ok_Some in Hbo as (c & -> & _). done. }
  unfold deallocate_host_example_dpointer in E5. run E5. do 2 f_equal. apply map_eq. intros b.
  destruct (decide (b ∈ dptrs)) as [Hb|Hb].
  - rewrite Hin by done. rewrite Forall_forall in Hnone. symmetry. by apply Hnone.
  - by rewrite Hout, Hf3, Hf2, Hf by done.
Qed.

(** When there are none for disk [j], it returns without giving back those of
    the disks before it. *)
Theorem sample_thread_leaks m j : (j < 7)%nat → (∀ i, (i < j)%nat → pages i = true) → pages j = false →
  ∃ m', sample_thread_code m = Ok (None, m') ∧ ∃ dptrs, length dptrs = j ∧ NoDup dptrs ∧
    Forall (λ b, m !! b = None ∧ buf_len m' b = page_pair) dptrs ∧ ∀ b, b ∉ dptrs → m' !! b = m !! b.
Proof using Type.
  intros Hj Hp Hf. unfold sample_thread_code. rewrite (get_free_pages_some _ 0 j) by done. cbn [negb].
  eexists. split; [done|]. destruct (alloc_disks junk page_pair j m) as [dptrs m1] eqn:E. exists dptrs.
  destruct (alloc_disks_spec junk page_pair j m dptrs m1 ltac:(done) E) as (Hl & Hnd & Hnone & Hok & Hfr).
  split_and!; [done|done| |done]. apply Forall_and. split; [done|]. eapply Forall_impl; [exact Hok|]. by intros b [_ Hb].
Qed.
End sample.

Lemma sample_thread_runs_witness :
  sample_thread_code (λ _ _, 0) (raid6_vanilla_gen_syndrome (N := native64)) (λ _, true) sample_mem =
    Ok (Some ((λ i, replicate 10 (Z.of_nat i)) <$> seq 0 7, replicate 10 <$> sample_values), sample_mem).
Proof.
  apply (sample_thread_runs (λ _ _, 0) (raid6_vanilla_gen_syndrome (N := native64)) (λ _, true)
    (λ bytes, loop_end 0 bytes (Z.of_nat (NSIZE (Native := native64))))); [by compute|done].
Defined.

(** ** Witness: the vanilla implementation, ten ticks a call, jiffies about
    to wrap around *)
Definition wrapping_clock (n : nat) : Z * Z := (ULONG - 4, 6).

Lemma thread_code_ends_witness : ∃ n out,
  thread_code (λ _ _, 0) (raid6_vanilla_gen_syndrome (N := native64)) 250 wrapping_clock sample_mem =
    Ok (n, out, sample_mem) ∧
  length out = 600%nat ∧ Forall (λ l, is_Some l.2) out.
Proof.
  apply (thread_code_ends (λ _ _, 0) (raid6_vanilla_gen_syndrome (N := native64)) 250 wrapping_clock
    (λ bytes, loop_end 0 bytes (Z.of_nat (NSIZE (Native := native64)))));
    [reflexivity|lia|].
  intros n. exists (ULONG - 4), 10. by_decide.
Defined.
