(* ===== verification/KernelMode.v ===== *)
(** * barracuda_kernel_module/raid6cuda_tst.c: the generators of KERNELMODE

    With KERNELMODE defined, the benchmark thread computes in the kernel, with
    the file's own copies of the vanilla and of the multi-failure generator. *)
From S2P Require Import Prelude GF256 Word Memory Syndrome Cstring Service Vanilla MultiRs Testbed.
Local Open Scope Z_scope.

Section kernel.
Context `{N : Native}.

Definition SHLBYTE (v : Z) : Z :=
  let vv := Z.land (wshl v 1) (NBYTES 0xfe) in
  vv.

Definition MASK (v : Z) : Z :=
  let vv := Z.land v (NBYTES 0x80) in
  let vv := wsub (wshl vv 1) (Z.shiftr vv 7) in
  vv.

(** [(wp0, wq0)] after the inner loop's body for the word [wd0]. *)
Definition vanilla_update (wd0 : Z) (acc : Z * Z) : Z * Z :=
  let '(wp0, wq0) := acc in
  let wp0 := Z.lxor wp0 wd0 in
  let w20 := MASK wq0 in
  let w10 := SHLBYTE wq0 in
  let w20 := Z.land w20 (NBYTES 0x1d) in
  let w10 := Z.lxor w10 w20 in
  let wq0 := Z.lxor w10 wd0 in
  (wp0, wq0).

(** One iteration of the outer loop. *)
Definition vanilla_word (z0 : Z) (ptrs : list loc) (p q : loc) (d : Z) (m : mem) : result mem :=
  b ← nth_ptr ptrs z0;
  w ← load_word m b d;
  '(wp0, wq0) ← for_down (Z.to_nat z0) (λ z acc,
    b ← nth_ptr ptrs z;
    wd0 ← load_word m b d;
    Ok (vanilla_update wd0 acc)) (w, w);
  m ← store_word m p d wp0;
  store_word m q d wq0.

Definition raid6_vanilla_gen_syndrome : syndrome_func := λ disks bytes ptrs m,
  z0 ← int_add disks (-3);
  p ← nth_ptr ptrs (z0 + 1);
  q ← nth_ptr ptrs (z0 + 2);
  for_lt 0 bytes (Z.of_nat NSIZE) (vanilla_word z0 ptrs p q) m.

Definition CHECK_SYMBOLS : Z := 4.
Definition NW : Z := 256.

(** The tables of the source, entry by entry. *)
Definition gflog : list Z := [
  0; 0; 1; 25; 2; 50; 26; 198; 3; 223; 51; 238; 27; 104; 199; 75; 4; 100; 224; 14; 52;
  141; 239; 129; 28; 193; 105; 248; 200; 8; 76; 113; 5; 138; 101; 47; 225; 36; 15; 33;
  53; 147; 142; 218; 240; 18; 130; 69; 29; 181; 194; 125; 106; 39; 249; 185; 201; 154; 9;
  120; 77; 228; 114; 166; 6; 191; 139; 98; 102; 221; 48; 253; 226; 152; 37; 179; 16; 145;
  34; 136; 54; 208; 148; 206; 143; 150; 219; 189; 241; 210; 19; 92; 131; 56; 70; 64; 30;
  66; 182; 163; 195; 72; 126; 110; 107; 58; 40; 84; 250; 133; 186; 61; 202; 94; 155; 159;
  10; 21; 121; 43; 78; 212; 229; 172; 115; 243; 167; 87; 7; 112; 192; 247; 140; 128; 99;
  13; 103; 74; 222; 237; 49; 197; 254; 24; 227; 165; 153; 119; 38; 184; 180; 124; 17; 68;
  146; 217; 35; 32; 137; 46; 55; 63; 209; 91; 149; 188; 207; 205; 144; 135; 151; 178;
  220; 252; 190; 97; 242; 86; 211; 171; 20; 42; 93; 158; 132; 60; 57; 83; 71; 109; 65;
  162; 31; 45; 67; 216; 183; 123; 164; 118; 196; 23; 73; 236; 127; 12; 111; 246; 108;
  161; 59; 82; 41; 157; 85; 170; 251; 96; 134; 177; 187; 204; 62; 90; 203; 89; 95; 176;
  156; 169; 160; 81; 11; 245; 22; 235; 122; 117; 44; 215; 79; 174; 213; 233; 230; 231;
  173; 232; 116; 214; 244; 234; 168; 80; 88].

Definition gfilog : list Z := [
  1; 2; 4; 8; 16; 32; 64; 128; 29; 58; 116; 232; 205; 135; 19; 38; 76; 152; 45; 90; 180;
  117; 234; 201; 143; 3; 6; 12; 24; 48; 96; 192; 157; 39; 78; 156; 37; 74; 148; 53; 106;
  212; 181; 119; 238; 193; 159; 35; 70; 140; 5; 10; 20; 40; 80; 160; 93; 186; 105; 210;
  185; 111; 222; 161; 95; 190; 97; 194; 153; 47; 94; 188; 101; 202; 137; 15; 30; 60; 120;
  240; 253; 231; 211; 187; 107; 214; 177; 127; 254; 225; 223; 163; 91; 182; 113; 226;
  217; 175; 67; 134; 17; 34; 68; 136; 13; 26; 52; 104; 208; 189; 103; 206; 129; 31; 62;
  124; 248; 237; 199; 147; 59; 118; 236; 197; 151; 51; 102; 204; 133; 23; 46; 92; 184;
  109; 218; 169; 79; 158; 33; 66; 132; 21; 42; 84; 168; 77; 154; 41; 82; 164; 85; 170;
  73; 146; 57; 114; 228; 213; 183; 115; 230; 209; 191; 99; 198; 145; 63; 126; 252; 229;
  215; 179; 123; 246; 241; 255; 227; 219; 171; 75; 150; 49; 98; 196; 149; 55; 110; 220;
  165; 87; 174; 65; 130; 25; 50; 100; 200; 141; 7; 14; 28; 56; 112; 224; 221; 167; 83;
  166; 81; 162; 89; 178; 121; 242; 249; 239; 195; 155; 43; 86; 172; 69; 138; 9; 18; 36;
  72; 144; 61; 122; 244; 245; 247; 243; 251; 235; 203; 139; 11; 22; 44; 88; 176; 125;
  250; 233; 207; 131; 27; 54; 108; 216; 173; 71; 142].

(** [mult_gf]: [sum] is an [unsigned char]. *)
Definition mult_gf (a b : Z) : result Z :=
  if (a =? 0) || (b =? 0) then Ok 0 else
  la ← MultiRs.entry gflog a;
  lb ← MultiRs.entry gflog b;
  let sum := to_u8 (la + lb) in
  let sum := if NW - 1 <=? sum then to_u8 (sum - (NW - 1)) else sum in
  MultiRs.entry gfilog sum.

(** The loop over the data disks for check disk [j] and byte [i]: the state is
    [matrix_pos_x] and the memory. *)
Definition rs_data_step (dptrs : list loc) (i j matrix_pos_y d : Z) (s : Z * mem) : result (Z * mem) :=
  let '(matrix_pos_x, m) := s in
  src ← nth_ptr dptrs d;
  v ← load_u8 m src i;
  prod ← mult_gf matrix_pos_x v;
  dst ← nth_ptr dptrs j;
  old ← load_u8 m dst i;
  m ← store_u8 m dst i (Z.lxor old prod);
  matrix_pos_x ← mult_gf matrix_pos_x matrix_pos_y;
  Ok (matrix_pos_x, m).

(** The loop over the check disks: the state is [matrix_pos_y] and the memory. *)
Definition rs_check_step (dptrs : list loc) (high_disk i j : Z) (s : Z * mem) : result (Z * mem) :=
  let '(matrix_pos_y, m) := s in
  let matrix_pos_y := to_u8 (matrix_pos_y + 1) in
  let matrix_pos_x := matrix_pos_y in
  dst ← nth_ptr dptrs j;
  m ← store_u8 m dst i 0;
  '(_, m) ← for_lt 0 high_disk 1 (rs_data_step dptrs i j matrix_pos_y) (matrix_pos_x, m);
  Ok (matrix_pos_y, m).

Definition multi_rs_soft_gen_syndrome : syndrome_func := λ disks bytes dptrs m,
  high_disk ← int_add disks (- CHECK_SYMBOLS);
  for_lt 0 bytes 1 (λ i m,
    '(_, m) ← for_lt high_disk disks 1 (rs_check_step dptrs high_disk i) (0, m);
    Ok m) m.

(** The call the thread makes per round in this mode. *)
Definition kernel_mode_gen : syndrome_func := λ disks bytes dptrs m,
  m ← raid6_vanilla_gen_syndrome disks bytes dptrs m;
  multi_rs_soft_gen_syndrome disks bytes dptrs m.

(** The copies are the daemon's generators. *)
Lemma kernel_vanilla_agrees : raid6_vanilla_gen_syndrome = Vanilla.raid6_vanilla_gen_syndrome.
Proof using Type. reflexivity. Qed.
Lemma kernel_multi_rs_agrees : multi_rs_soft_gen_syndrome = MultiRs.multi_rs_soft_gen_syndrome.
Proof using Type. reflexivity. Qed.

(** In this mode the benchmark cannot complete: when it comes to
    arrays of eleven disks, the multi-failure generator reads past its logarithm
    table, whatever the buffers and the clock say. *)
Theorem kernel_mode_faults junk HZ clock m r : 0 < HZ →
  Testbed.thread_code junk kernel_mode_gen HZ clock m ≠ Ok r.
Proof using Type.
  intros HHZ E. unfold Testbed.thread_code in E.
  edestruct (for_lt_visits (λ _ (_ : nat * list (Z * option Z) * mem), True) 6) as (s1 & s2 & _ & E1);
    [| |exact E|lia|]; [done..|].
  change (5 + Z.of_nat 6) with 11 in E1.
  edestruct (for_lt_visits (λ _ (_ : nat * list (Z * option Z) * mem), True) 0) as (s3 & s4 & _ & E2);
    [| |exact E1|lia|]; [done..|].
  destruct s3 as [[n out] m3]. unfold Testbed.bench_one in E2.
  destruct (Service.alloc_disks _ _ _ _) as [dptrs m4]. apply bind_Ok in E2 as (l & E2 & _).
  cbn [Testbed.bench_loop] in E2. destruct (Z.ltb_spec 0 (2 * HZ)); [|lia].
  apply bind_Ok in E2 as (m5 & E2 & _). unfold kernel_mode_gen in E2.
  apply bind_Ok in E2 as (m6 & _ & E2). rewrite kernel_multi_rs_agrees in E2.
  by eapply MultiRs.seven_data_disks in E2.
Qed.
End kernel.

Lemma kernel_mode_faults_witness :
  Testbed.thread_code (λ _ _, 0) (kernel_mode_gen (N := native64)) 250 Testbed.wrapping_clock ∅ ≠
    Ok (O, [], ∅).
Proof. apply (kernel_mode_faults (N := native64) (λ _ _, 0) 250). lia. Defined.
