(* ===== verification/Deamon.v ===== *)
(** * barracuda_deamon/baracuda_deamon.cu and benchmarker.cu: the command line

    [main] goes through the arguments, then stops another daemon, validates,
    benchmarks, and starts the userspace driver in this process or a new one.
    NOCUDA is a flag of the model. *)
From S2P Require Import Prelude GF256 Word Memory Syndrome Cstring Service Conf Marshal Driver.
Local Open Scope string_scope.
Local Open Scope list_scope.
Local Open Scope Z_scope.

(** ** The implementations *)
Inductive implementation := IVanilla | ISmp | IDummy | IMulti | ICuda.
#[export] Instance implementation_eq_dec : EqDecision implementation.
Proof. solve_decision. Defined.

(** [gen_syndrome_implementations] and [implemenatation_names] *)
Definition gen_syndrome_list (NOCUDA : bool) : list implementation :=
  [IVanilla; ISmp; IDummy; IMulti] ++ (if NOCUDA then [] else [ICuda]).
Definition implementation_names (NOCUDA : bool) : list string :=
  ["SOFT"; "SMP"; "DUMMY"; "MULTI"] ++ (if NOCUDA then [] else ["CUDA"]).

(** [choose_implementation]: the loop over the names from index [i]. *)
Fixpoint choose_from (mode : string) (names : list string) (impls : list implementation)
    (gen_syndrome : implementation) : implementation :=
  match names, impls with
  | n :: names, g :: impls => if strcmp_eq mode n then g else choose_from mode names impls gen_syndrome
  | _, _ => gen_syndrome
  end.
Definition choose_implementation (NOCUDA : bool) (mode : string) : implementation :=
  choose_from mode (implementation_names NOCUDA) (gen_syndrome_list NOCUDA) IVanilla.

(** ** The options *)
Record options := {
  deamonize : bool;
  mode : bool;
  mode_type : string;
  benchmark : bool;
  benchmark_type : string;
  validation : bool;
  kill : bool;
  c_mode : Z;
  rs_mode : Z
}.
Definition no_options : options :=
  {| deamonize := false; mode := false; mode_type := ""; benchmark := false; benchmark_type := "";
     validation := false; kill := false; c_mode := 0; rs_mode := 0 |}.

(** [char mode_type[10]; char benchmark_type[10];] *)
Definition type_len : nat := 10.
Definition strcpy_type (s : string) : result string :=
  require (String.length s + 1 <=? type_len)%nat OutOfBounds;;
  Ok s.

Definition opt_flags (arg : string) (o : options) : options :=
  {| deamonize := deamonize o || strcmp_eq arg "-d"; mode := mode o; mode_type := mode_type o;
     benchmark := benchmark o; benchmark_type := benchmark_type o;
     validation := validation o || strcmp_eq arg "-V"; kill := kill o || strcmp_eq arg "-k";
     c_mode := c_mode o; rs_mode := rs_mode o |}.

Definition rs_mode_of (s : string) (old : Z) : Z :=
  if strcmp_eq s "SOFT" then 0 else if strcmp_eq s "SMP" then 1 else
  if strcmp_eq s "DUMMY" then 2 else if strcmp_eq s "MULTI" then 3 else
  if strcmp_eq s "CUDA" then 4 else old.

(** [-m <type>], unless it is the last argument. *)
Definition opt_m (arg : string) (next : option string) (o : options) : result options :=
  match next with
  | Some s =>
      if strcmp_eq arg "-m" then
        t ← strcpy_type s;
        Ok {| deamonize := deamonize o; mode := true; mode_type := t; benchmark := benchmark o;
              benchmark_type := benchmark_type o; validation := validation o; kill := kill o;
              c_mode := c_mode o; rs_mode := rs_mode_of s (rs_mode o) |}
      else Ok o
  | None => Ok o
  end.

(** [-B <type>], unless it is the last argument. *)
Definition opt_B (arg : string) (next : option string) (o : options) : result options :=
  match next with
  | Some s =>
      if strcmp_eq arg "-B" then
        t ← strcpy_type s;
        Ok {| deamonize := deamonize o; mode := mode o; mode_type := mode_type o; benchmark := true;
              benchmark_type := t; validation := validation o; kill := kill o;
              c_mode := c_mode o; rs_mode := rs_mode o |}
      else Ok o
  | None => Ok o
  end.

(** [-c <type>]: [argv[argc]] is NULL. *)
Definition opt_c (arg : string) (next : option string) (o : options) : result options :=
  if strcmp_eq arg "-c" then
    s ← of_option NullDeref next;
    Ok {| deamonize := deamonize o; mode := mode o; mode_type := mode_type o; benchmark := benchmark o;
          benchmark_type := benchmark_type o; validation := validation o; kill := kill o;
          c_mode := if strcmp_eq s "PFS" then 3 else if strcmp_eq s "IOCTL" then 2 else
                    if strcmp_eq s "NL" then 1 else c_mode o;
          rs_mode := rs_mode o |}
  else Ok o.

(** The argument loop; [None]: help was asked for. *)
Fixpoint parse (argv : list string) (o : options) : result (option options) :=
  match argv with
  | [] => Ok (Some o)
  | arg :: argv =>
      if strcmp_eq arg "-h" || strcmp_eq "--help" arg then Ok None else
      let o := opt_flags arg o in
      o ← opt_m arg (head argv) o;
      o ← opt_B arg (head argv) o;
      o ← opt_c arg (head argv) o;
      parse argv o
  end.

(** ** Benchmarks *)
Inductive bench := BenchDryrun (rs_mode : Z) | BenchXor | BenchShift.

Definition baracuda_benchmarker (NOCUDA : bool) (m : string) (rs_mode : Z) : list bench :=
  (if strcmp_eq m "DRYRUN" then [BenchDryrun rs_mode] else []) ++
  (if NOCUDA then [] else
   (if strcmp_eq m "CUDA_XOR" then [BenchXor] else []) ++
   (if strcmp_eq m "CUDA_SHIFT" then [BenchShift] else [])).

(** ** The main program *)
Inductive action :=
  | Help
  | KillDaemon (pid : Z)
  | Validate (g : implementation)
  | Bench (b : bench)
  | Foreground (g : implementation) (c_mode : Z)
  | Clone (g : implementation) (c_mode : Z).

(** The PID file, the verdict of the validator, and whether [clone] works. *)
Record main_env := { pidfile : option Z; verdict : implementation → Z; clone_ok : bool }.
Definition EXIT_SUCCESS : Z := 0.

Definition main (NOCUDA : bool) (env : main_env) (argv : list string) : result (Z * list action) :=
  o ← parse argv no_options;
  Ok match o with
  | None => (EXIT_SUCCESS, [Help])
  | Some o =>
      if kill o then
        match pidfile env with
        | None => (EXIT_FAILURE, [])
        | Some pid => (EXIT_SUCCESS, [KillDaemon pid])
        end
      else if negb (mode o) then (EXIT_FAILURE, [])
      else
        let gen_syndrome := choose_implementation NOCUDA (mode_type o) in
        if validation o then
          (if verdict env gen_syndrome =? EXIT_SUCCESS then EXIT_SUCCESS else EXIT_FAILURE, [Validate gen_syndrome])
        else
          let acts := if benchmark o then Bench <$> baracuda_benchmarker NOCUDA (benchmark_type o) (rs_mode o) else [] in
          if deamonize o then
            if clone_ok env then (EXIT_SUCCESS, acts ++ [Clone gen_syndrome (c_mode o)])
            else (EXIT_FAILURE, acts)
          else (EXIT_SUCCESS, acts ++ [Foreground gen_syndrome (c_mode o)])
  end.

(** ** What holds *)
Lemma choose_from_spec m names impls d i n g : names !! i = Some n → impls !! i = Some g →
  strcmp_eq m n = true → (∀ j n', (j < i)%nat → names !! j = Some n' → strcmp_eq m n' = false) →
  choose_from m names impls d = g.
Proof.
  revert names impls. induction i as [|i IH]; intros [|n0 names] [|g0 impls] Hn Hg Hm Hb; try done; cbn in *.
  - injection Hn as ->. injection Hg as ->. by rewrite Hm.
  - rewrite (Hb O n0) by (done || lia). apply IH; [done..|]. intros j n' Hj. apply (Hb (S j)). lia.
Qed.

(** Every documented mode name selects its implementation, and any other
    name the software one. *)
Theorem choose_implementation_correct NOCUDA :
  (∀ i n g, implementation_names NOCUDA !! i = Some n → gen_syndrome_list NOCUDA !! i = Some g →
     choose_implementation NOCUDA n = g) ∧
  (∀ m, Forall (λ n, strcmp_eq m n = false) (implementation_names NOCUDA) →
     choose_implementation NOCUDA m = IVanilla).
Proof.
  split.
  - intros i n g Hn Hg. eapply choose_from_spec; [done..| |].
    + unfold strcmp_eq. by apply bool_decide_eq_true.
    + intros j n' Hj Hn'. destruct NOCUDA; repeat (destruct i as [|i]; try done; try lia);
        repeat (destruct j as [|j]; try lia); cbn in Hn, Hn'; simplify_eq; reflexivity.
  - intros m H. unfold choose_implementation.
    assert (∀ names impls, Forall (λ n, strcmp_eq m n = false) names →
      choose_from m names impls IVanilla = IVanilla) as Hall; [|by apply Hall].
    induction names as [|n names IH]; intros [|g impls] Hf; try done. inversion Hf as [|? ? Hn Hns]; subst.
    cbn. rewrite Hn. by apply IH.
Qed.

(** A command line that fits: no call for help, arguments of at most nine
    characters, and [-c] not in last place. *)
Fixpoint fits (argv : list string) : bool :=
  match argv with
  | [] => true
  | arg :: argv =>
      negb (strcmp_eq arg "-h" || strcmp_eq "--help" arg) && (String.length arg <? type_len)%nat &&
      match argv with [] => negb (strcmp_eq arg "-c") | _ => true end && fits argv
  end.

Definition given (arg : string) (argv : list string) : bool := existsb (λ a, strcmp_eq a arg) argv.

(** The argument loop accepts every command line that fits, and sets the
    flags [-d], [-V] and [-k] exactly when they occur, in any order and
    wherever they occur, be it as the value of another option. *)
Theorem parse_flags argv o : fits argv = true → ∃ o', parse argv o = Ok (Some o') ∧
  deamonize o' = deamonize o || given "-d" argv ∧
  validation o' = validation o || given "-V" argv ∧
  kill o' = kill o || given "-k" argv.
Proof.
  revert o. induction argv as [|arg argv IH]; intros o Hf.
  { exists o. cbn. rewrite !orb_false_r. done. }
  cbn [fits] in Hf. rewrite !andb_true_iff in Hf. destruct Hf as (((Hh & Hl) & Hc) & Hf).
  cbn [parse given existsb]. apply negb_true_iff in Hh. rewrite Hh.
  assert (∀ s, head argv = Some s → strcpy_type s = Ok s) as Hcpy.
  { intros s Hs. destruct argv as [|a argv]; [done|]. injection Hs as ->. cbn [fits] in Hf.
    rewrite !andb_true_iff in Hf. destruct Hf as (((_ & Hs) & _) & _). unfold strcpy_type.
    apply Nat.ltb_lt in Hs. destruct (Nat.leb_spec (String.length s + 1) type_len); [done|lia]. }
  assert (∀ o, ∃ o1, opt_m arg (head argv) o = Ok o1 ∧ deamonize o1 = deamonize o ∧
    validation o1 = validation o ∧ kill o1 = kill o) as Hm.
  { intros o1. unfold opt_m. destruct (head argv) as [s|]; [|by eexists].
    destruct (strcmp_eq arg "-m"); [|by eexists]. run Hcpy by done. by eexists. }
  assert (∀ o, ∃ o1, opt_B arg (head argv) o = Ok o1 ∧ deamonize o1 = deamonize o ∧
    validation o1 = validation o ∧ kill o1 = kill o) as HB.
  { intros o1. unfold opt_B. destruct (head argv) as [s|]; [|by eexists].
    destruct (strcmp_eq arg "-B"); [|by eexists]. run Hcpy by done. by eexists. }
  assert (∀ o, ∃ o1, opt_c arg (head argv) o = Ok o1 ∧ deamonize o1 = deamonize o ∧
    validation o1 = validation o ∧ kill o1 = kill o) as HC.
  { intros o1. unfold opt_c. destruct (strcmp_eq arg "-c"); [|by eexists].
    destruct argv as [|a argv]; [done|]. cbn. by eexists. }
  destruct (Hm (opt_flags arg o)) as (o1 & -> & D1 & V1 & K1). bind_step.
  destruct (HB o1) as (o2 & -> & D2 & V2 & K2). bind_step.
  destruct (HC o2) as (o3 & -> & D3 & V3 & K3). bind_step.
  destruct (IH o3 Hf) as (o' & -> & D & V & K). exists o'. split; [done|].
  rewrite D, V, K, D3, V3, K3, D2, V2, K2, D1, V1, K1. cbn [opt_flags deamonize validation kill].
  by rewrite !orb_assoc.
Qed.

(** The connection names of the help text and their numbers. *)
Definition connections : list (string * Z) := [("NL", 1); ("IOCTL", 2); ("PFS", 3)].

(** The documented way to start a daemon works for every implementation and
    every connection, and the number it hands over is one that the userspace
    driver configures the kernel for. *)
Theorem daemon_start NOCUDA env i n g c k : clone_ok env = true →
  implementation_names NOCUDA !! i = Some n → gen_syndrome_list NOCUDA !! i = Some g →
  (c, k) ∈ connections →
  main NOCUDA env ["barracuda"; "-m"; n; "-c"; c; "-d"] = Ok (EXIT_SUCCESS, [Clone g k]) ∧
  ∃ line, mode_line k = Some line ∧ length (mode_server k) = 1%nat.
Proof.
  intros Hcl Hn Hg Hc. assert (Hc' : (c, k) = ("NL", 1) ∨ (c, k) = ("IOCTL", 2) ∨ (c, k) = ("PFS", 3))
    by (unfold connections in Hc; set_solver).
  split.
  - destruct NOCUDA; repeat (destruct i as [|i]; try done); cbn in Hn, Hg; simplify_eq;
      destruct Hc' as [[= -> ->]|[[= -> ->]|[= -> ->]]]; unfold main; cbn -[EXIT_SUCCESS]; by rewrite Hcl.
  - destruct Hc' as [[= -> ->]|[[= -> ->]|[= -> ->]]]; by eexists.
Qed.

(** A benchmark does not end the program: it goes on to start the
    userspace driver with connection mode 0, which writes the PID file, hands
    its PID to the kernel and gives up; the kernel then waits for a process that
    does not exist. *)
Theorem benchmark_leaves_pid NOCUDA env pid : 0 < pid < 2 ^ 31 →
  main NOCUDA env ["barracuda"; "-m"; "SOFT"; "-B"; "DRYRUN"] =
    Ok (EXIT_SUCCESS, [Bench (BenchDryrun 0); Foreground IVanilla 0]) ∧
  userspace_driver_main pid 0 all_ok = (EXIT_FAILURE, [WritePidfile pid; WriteConf (pid_line pid)]) ∧
  feed_conf (userspace_driver_main pid 0 all_ok).2 conf_start = Ok (Some (set_pid pid conf_start)).
Proof.
  intros Hpid. split; [by destruct NOCUDA|]. split; [done|]. cbn [userspace_driver_main all_ok
    pidfile_exists pidfile_opens conf_opens_pid conf_opens_con negb mode_line snd feed_conf app].
  change ("pid=" +:+ decimal pid) with (pid_line pid). run conf_write_pid by (done || lia). done.
Qed.

(** A benchmark name of ten or more characters overflows its buffer, two of
    the four documented ones among them, and a final [-c] reads through the null
    pointer that ends the arguments. *)
Theorem cmdline_faults NOCUDA env n :
  ((10 ≤ String.length n)%nat → main NOCUDA env ["barracuda"; "-B"; n] = Err OutOfBounds) ∧
  main NOCUDA env ["barracuda"; "-m"; "CUDA"; "-B"; "CUDA_BANDWIDTH"] = Err OutOfBounds ∧
  main NOCUDA env ["barracuda"; "-m"; "CUDA"; "-B"; "CUDA_SHIFT"] = Err OutOfBounds ∧
  main NOCUDA env ["barracuda"; "-m"; "SOFT"; "-c"] = Err NullDeref.
Proof.
  split; [|done]. intros Hn. unfold main. cbn [parse head].
  change (strcmp_eq "barracuda" "-h" || strcmp_eq "--help" "barracuda") with false. cbv iota.
  change (opt_m "barracuda" (Some "-B") (opt_flags "barracuda" no_options)) with (Ok no_options). bind_step.
  change (opt_B "barracuda" (Some "-B") no_options) with (Ok no_options). bind_step.
  change (opt_c "barracuda" (Some "-B") no_options) with (Ok no_options). bind_step.
  change (strcmp_eq "-B" "-h" || strcmp_eq "--help" "-B") with false. cbv iota.
  change (opt_m "-B" (Some n) (opt_flags "-B" no_options)) with (Ok no_options). bind_step.
  unfold opt_B. change (strcmp_eq "-B" "-B") with true. cbv iota. unfold strcpy_type.
  destruct (Nat.leb_spec (String.length n + 1) type_len); [unfold type_len in *; lia|done].
Qed.

(** ** Witnesses *)
Definition some_env : main_env := {| pidfile := None; verdict := λ _, 0; clone_ok := true |}.

Lemma parse_flags_witness : ∃ o', parse ["barracuda"; "-V"; "-m"; "SMP"; "-c"; "NL"; "-d"] no_options = Ok (Some o') ∧
  deamonize o' = true ∧ validation o' = true ∧ kill o' = false.
Proof. apply (parse_flags ["barracuda"; "-V"; "-m"; "SMP"; "-c"; "NL"; "-d"] no_options). reflexivity. Defined.

Lemma daemon_start_witness :
  main false some_env ["barracuda"; "-m"; "CUDA"; "-c"; "IOCTL"; "-d"] = Ok (EXIT_SUCCESS, [Clone ICuda 2]) ∧
  ∃ line, mode_line 2 = Some line ∧ length (mode_server 2) = 1%nat.
Proof.
  apply (daemon_start false some_env 4 "CUDA" ICuda "IOCTL" 2); try reflexivity. unfold connections. right. left.
Defined.

Lemma benchmark_leaves_pid_witness :
  main true some_env ["barracuda"; "-m"; "SOFT"; "-B"; "DRYRUN"] =
    Ok (EXIT_SUCCESS, [Bench (BenchDryrun 0); Foreground IVanilla 0]) ∧
  userspace_driver_main 4711 0 all_ok = (EXIT_FAILURE, [WritePidfile 4711; WriteConf (pid_line 4711)]) ∧
  feed_conf (userspace_driver_main 4711 0 all_ok).2 conf_start = Ok (Some (set_pid 4711 conf_start)).
Proof. apply (benchmark_leaves_pid true some_env 4711). lia. Defined.
