(* ===== verification/System.v ===== *)
(** * The whole system, from the command line to the check disks

    The components put together: the daemon is started by a documented command
    line (Deamon.v), configures a fresh kernel module (Driver.v, Conf.v), and
    then serves the kernel's requests (Transport.v, Atomic.v) with the
    implementation that the command line names. *)
From S2P Require Import Prelude GF256 Word Memory Syndrome Cstring Service Vanilla Smp Conf Marshal Driver Transport Protocol Refine Atomic Deamon.
Local Open Scope Z_scope.

Section system.
Context {N : Native}.

(** What the entries of [gen_syndrome_implementations] compute; [cpus] is the
    number of CPUs the daemon has found.  The table's other entries do not keep
    the interface: the dummy, the multi-failure code and the GPU. *)
Inductive keeps_interface (cpus : positive) : implementation → syndrome_func → (Z → Z) → Prop :=
  | keeps_vanilla : keeps_interface cpus IVanilla raid6_vanilla_gen_syndrome (λ bytes, loop_end 0 bytes (Z.of_nat NSIZE))
  | keeps_smp : keeps_interface cpus ISmp (smp_run (Z.pos cpus)) (λ bytes, smp_end bytes (Z.pos cpus)).

#[local] Instance keeps_interface_pq cpus g gen pad : keeps_interface cpus g gen pad → PqGenerator gen pad.
Proof using Type. intros H. destruct H; apply _. Qed.

(** C4: starting the daemon as documented, with an implementation that
    keeps the interface and any connection, configures the module for the daemon
    and for the method it serves; from then on no interleaving of any number of
    kernel threads with the daemon faults, every execution ends, and when nothing
    can go on every thread has returned and finds P and Q of its data in its
    check disks. *)
Theorem system_serves NOCUDA env cpus i n g gen pad c k pid : clone_ok env = true → 0 < pid < 2 ^ 31 →
  implementation_names NOCUDA !! i = Some n → gen_syndrome_list NOCUDA !! i = Some g → keeps_interface cpus g gen pad →
  (c, k) ∈ connections →
  main NOCUDA env ["barracuda"%string; "-m"%string; n; "-c"%string; c; "-d"%string] = Ok (EXIT_SUCCESS, [Clone g k]) ∧
  ∃ meth conf, Serve meth ∈ (userspace_driver_main pid k all_ok).2 ∧
    feed_conf (userspace_driver_main pid k all_ok).2 conf_start = Ok (Some conf) ∧
    call_usp conf = Some meth ∧ PID conf = pid ∧
    ∀ snc_addr map_ok rs m snc steps s, transport_ok meth snc_addr map_ok pad rs m → separate rs →
      nsteps (sys_step meth snc_addr (PID conf) pid gen map_ok) steps (sys_start meth rs m snc) s →
      ¬ sys_faults meth snc_addr (PID conf) pid gen map_ok s ∧
      (steps ≤ 40 * length rs + 40)%nat ∧
      (nf (sys_step meth snc_addr (PID conf) pid gen map_ok) s →
         ∀ i r, rs !! i = Some r → returned s i ∧ parity_of m r (ks_mem (s_kernel s))).
Proof using Type.
  intros Hcl Hpid Hn Hg Hkeep Hc. destruct (daemon_start NOCUDA env i n g c k Hcl Hn Hg Hc) as [Hmain _]. split; [done|].
  assert (1 ≤ k ≤ 3) as Hk by (unfold connections in Hc; set_solver by lia).
  destruct (driver_configures_kernel pid k Hpid Hk) as (meth & conf & E & Hfeed & HP & _ & Hcall & _).
  exists meth, conf. rewrite E in *. split_and!; [set_solver|done|done|done|].
  intros snc_addr map_ok rs m snc steps s Hok Hsep Hsteps. rewrite HP in *. pose proof (keeps_interface_pq cpus g gen pad Hkeep) as G.
  destruct (transport_run meth snc_addr pid map_ok gen pad rs m snc steps s Hok Hsteps) as (o & cl & inb & sv & _ & _ & Hle & Hf & Hend).
  split_and!; [done|done|]. intros Hnf j r Hr. destruct (Hend Hnf) as [Hret _].
  assert (returned s j) as Hj by (apply Hret; by eapply lookup_lt_Some). split; [done|].
  destruct (parity_run meth snc_addr pid map_ok gen pad rs m snc steps s Hok Hsep Hsteps) as [Hpar _]. by apply (Hpar j).
Qed.
End system.

(** ** Witness: two requests over netlink, the vanilla implementation *)
Lemma system_serves_witness :
  main true some_env ["barracuda"%string; "-m"%string; "SOFT"%string; "-c"%string; "NL"%string; "-d"%string] =
    Ok (EXIT_SUCCESS, [Clone IVanilla 1]) ∧
  ∃ meth conf, Serve meth ∈ (userspace_driver_main 77 1 all_ok).2 ∧
    feed_conf (userspace_driver_main 77 1 all_ok).2 conf_start = Ok (Some conf) ∧
    call_usp conf = Some meth ∧ PID conf = 77 ∧
    (nf (sys_step meth pair_addr 77 77 vanilla8 all_map) (pair_end meth).2 →
       ∀ i r, pair_requests !! i = Some r → returned (pair_end meth).2 i ∧
         parity_of pair_mem r (ks_mem (s_kernel (pair_end meth).2))).
Proof.
  destruct (system_serves (N := native64) true some_env 1 0 "SOFT"%string IVanilla vanilla8
    (λ bytes, loop_end 0 bytes 8) "NL"%string 1 77) as (Hmain & meth & conf & H1 & H2 & H3 & H4 & H5);
    [done|done|done|done|apply (keeps_vanilla (N := native64))|unfold connections; left|].
  split; [done|]. exists meth, conf. rewrite H4 in H5. split_and!; [done|done|done|done|].
  apply (H5 pair_addr all_map pair_requests pair_mem no_request (pair_end meth).1);
    [apply pair_ok|apply pair_separate|apply pair_run].
Defined.
