(* ===== verification/SmpGs.v ===== *)
(** * prototypes/smp_gs/raid6smp.c: the prototype of the SMP implementation

    A program of its own: the threaded generator on 64-bit words with the
    service functions it needs, and a [main] that times it for growing sizes.
    The generator and the service functions are those of Smp.v and Service.v,
    here for [u64]. *)
From S2P Require Import Prelude GF256 Word Memory Syndrome Cstring Service Vanilla Smp.
Local Open Scope Z_scope.

#[local] Existing Instance native64.

(** ** The generator *)
Definition SHLBYTE : Z → Z := Smp.SHLBYTE.
Definition MASK : Z → Z := Smp.MASK.
Definition thread_data : Type := Smp.thread_data.
Definition proc_thread_dep_syndrome : thread_data → pc → mem → result (pc * mem) :=
  Smp.proc_thread_dep_syndrome.

(** [NUMBER_OF_CPUS_INSTALLED] is 1 unless set_internal_vars is called. *)
Definition NUMBER_OF_CPUS_INSTALLED : Z := 1.
Definition get_number_of_phys_cpus (NUMBER_OF_CPUS_INSTALLED : Z) : Z := NUMBER_OF_CPUS_INSTALLED.
Definition set_internal_vars : option string → result Z := Service.set_internal_vars.

(** A call: the thread machine, and its completed runs. *)
Definition raid6_smp_gen_syndrome (disks bytes : Z) (ptrs : list loc) : machine → machine → Prop :=
  Smp.raid6_smp_gen_syndrome (get_number_of_phys_cpus NUMBER_OF_CPUS_INSTALLED) disks bytes ptrs.
Definition call (disks bytes : Z) (ptrs : list loc) (m m' : mem) : Prop :=
  ∃ s, rtc (raid6_smp_gen_syndrome disks bytes ptrs) (smp_init m) s ∧ s_main s = MReturn ∧ s_mem s = m'.

(** ** The test buffers *)
Section buffers.
Context (junk : loc → nat → Z).
Definition allocate_host_example_dpointer (bytes number_of_disks : Z) (m : mem) : list loc * mem :=
  Service.allocate_host_example_dpointer junk bytes number_of_disks m.
Definition deallocate_host_example_dpointer (number_of_disks : Z) (dptrs : list loc) (m : mem) : result mem :=
  Service.deallocate_host_example_dpointer number_of_disks dptrs m.
End buffers.
Definition print_dpointer : Z → Z → list loc → mem → result (list (Z * Z)) := Service.print_dpointer.

(** The clocks, as exact fractions of a second. *)
Definition gtd_second : Z * Z → Z * Z := Service.gtd_second.
Definition second : Z → Z → Z * Z := Service.second.

(** ** [main] *)
Definition end_size : Z := 2097152.
Definition repetitions : nat := Z.to_nat 10000.

(** [while( begin <= end )] with [begin] an [unsigned int]: the sizes. *)
Fixpoint sizes (fuel : nat) (begin : Z) : result (list Z) :=
  match fuel with
  | O => Err OutOfFuel
  | S fuel =>
      if begin <=? end_size then
        rest ← sizes fuel ((begin * 2) mod 2 ^ 32);
        Ok (begin :: rest)
      else Ok []
  end.

(** Consecutive calls with the given sizes. *)
Inductive calls (ptrs : list loc) : list Z → mem → mem → Prop :=
  | calls_nil m : calls ptrs [] m m
  | calls_cons b bs m m1 m2 : call 5 b ptrs m m1 → calls ptrs bs m1 m2 → calls ptrs (b :: bs) m m2.

(** The program from the memory [m] to [m']. *)
Definition main (junk : loc → nat → Z) (m m' : mem) : Prop :=
  let '(dptrs, m1) := allocate_host_example_dpointer junk end_size 5 m in
  ∃ bs m2, sizes 12 4096 = Ok bs ∧ calls dptrs (concat (replicate repetitions <$> bs)) m1 m2 ∧
    deallocate_host_example_dpointer 5 dptrs m2 = Ok m'.

(** ** What holds *)
(** Sizes the prototype uses: whole words, up to the size of the buffers. *)
Definition size_ok (b : Z) : Prop := 0 ≤ b ≤ end_size ∧ b mod 8 = 0.

Lemma one_cpu_end b : size_ok b → smp_end b 1 = b.
Proof.
  unfold size_ok, end_size. intros [Hb Hm].
  assert (b / 1 mod 8 = 0) as Hm1 by (by rewrite Z.div_1_r).
  rewrite (smp_end_aligned (N := native64) b 1 ltac:(lia) ltac:(lia) ltac:(unfold INT_MAX; lia) Hm1).
  apply (loop_end_unique _ _ _ b (b / 8)); change (Z.of_nat NSIZE) with 8; [lia|lia| |lia].
  pose proof (Z.div_mod b 8 ltac:(lia)). lia.
Qed.

Lemma size_pre m dptrs b : array_ok m dptrs 5 end_size → size_ok b → smp_pre m dptrs 5 b 1.
Proof.
  intros Ha Hb. pose proof Hb as [Hle _]. unfold smp_pre. rewrite one_cpu_end by done.
  unfold end_size, INT_MAX in *. split_and!; [lia..|]. eapply array_ok_mono; [reflexivity| |done]. lia.
Qed.

(** A completed call leaves the array as one of the same size, and what is not
    part of it alone. *)
Lemma sized_call_ok dptrs b m m' : array_ok m dptrs 5 end_size → size_ok b → call 5 b dptrs m m' →
  writes_pq m dptrs 5 b m'.
Proof.
  intros Ha Hb (s & Hs & Hret & <-). pose proof (size_pre m dptrs b Ha Hb) as Hpre.
  pose proof Hpre as (Hd & Hdm & Hn & Hb0 & Hmax & Ha').
  destruct (smp_reach m dptrs 5 b 1 s Hpre Hs) as (p & q & _ & Hp & Hq & Hok).
  rewrite <-(one_cpu_end b Hb). by eapply machine_result.
Qed.

(** Every call can complete: its one thread runs to its end. *)
Lemma call_total dptrs b m : array_ok m dptrs 5 end_size → size_ok b → ∃ m', call 5 b dptrs m m'.
Proof.
  intros Ha Hb. pose proof (size_pre m dptrs b Ha Hb) as (Hd & Hdm & Hn & Hb0 & Hmax & Ha').
  destruct (check_disks _ _ _ _ Hd Ha') as (p & q & Hp & Hq & _).
  destruct (smp_run_ok m dptrs 5 b 1 p q Hd Hdm Hn Hb0 Hmax Ha' Hp Hq) as (m' & E & _).
  unfold smp_run in E. change (seqZ 0 1) with [0] in E. cbn [foldl] in E. bind_step.
  set (data := {| td_disks := 5; td_bytes := b; td_ptrs := dptrs; thread_id := 0; number_of_threads := 1 |}) in *.
  exists m', {| s_main := MReturn; s_threads := [(data, PDone)]; s_mem := m' |}. split_and!; [|done..].
  eapply rtc_l; [by apply smp_create|]. eapply rtc_l; [by apply smp_created|].
  etrans; [by apply (run_thread_rtc _ _ _ _ _ 0 data PStart m m' (MJoin 0) [(data, PStart)] E)|].
  eapply rtc_l; [by eapply smp_join|]. eapply rtc_l; [by apply smp_joined|]. apply rtc_refl.
Qed.

Lemma sizes_ok : ∃ bs, sizes 12 4096 = Ok bs ∧ length bs = 10%nat ∧ Forall size_ok bs.
Proof. eexists. split; [vm_compute; reflexivity|]. split; [done|]. unfold size_ok. by_decide. Qed.

Lemma all_sizes_ok bs : Forall size_ok bs → Forall size_ok (concat (replicate repetitions <$> bs)).
Proof.
  intros H. induction H as [|b bs Hb _ IH]; cbn [fmap list_fmap concat]; [constructor|].
  apply Forall_app. split; [by apply Forall_replicate|done].
Qed.

(** The array through a sequence of calls. *)
Lemma calls_ok dptrs bs m m' : Forall size_ok bs → array_ok m dptrs 5 end_size → calls dptrs bs m m' →
  array_ok m' dptrs 5 end_size ∧ ∀ b, b ∉ dptrs → m' !! b = m !! b.
Proof.
  intros Hbs Ha Hc. revert Hbs Ha. induction Hc as [m|b bs m m1 m2 Hc _ IH]; intros Hbs Ha; [done|].
  inversion Hbs as [|? ? Hb Hbs']; subst. pose proof (sized_call_ok _ _ _ _ Ha Hb Hc) as Hw.
  destruct (IH Hbs' ltac:(by eapply array_ok_writes)) as [Ha2 Hf2]. split; [done|].
  intros x Hx. rewrite Hf2 by done. apply Hw; intros E; apply Hx; by eapply list_elem_of_lookup_2.
Qed.

Lemma calls_total dptrs bs m : Forall size_ok bs → array_ok m dptrs 5 end_size → ∃ m', calls dptrs bs m m'.
Proof.
  intros Hbs. revert m. induction Hbs as [|b bs Hb _ IH]; intros m Ha; [exists m; constructor|].
  destruct (call_total dptrs b m Ha Hb) as [m1 Hc].
  destruct (IH m1) as [m2 Hc2]; [eapply array_ok_writes; [by eapply sized_call_ok|done]|].
  exists m2. by econstructor.
Qed.

(** Freeing the array after any calls. *)
Lemma main_frees junk m dptrs m1 m2 : alloc_disks junk end_size 5 m = (dptrs, m1) →
  array_ok m2 dptrs 5 end_size → (∀ b, b ∉ dptrs → m2 !! b = m1 !! b) →
  deallocate_host_example_dpointer 5 dptrs m2 = Ok m.
Proof.
  intros E Ha2 Hf2. assert (0 ≤ end_size) as Hend by done.
  destruct (alloc_disks_spec junk end_size 5 m dptrs m1 Hend E) as (Hl & _ & Hnone & _ & Hf).
  destruct (dealloc_alloc junk end_size 5 m dptrs m1 m2 Hend) as (m3 & E3 & Hin & Hout); [done|done| |].
  { intros b [x Hx]. destruct (decide (b ∈ dptrs)) as [Hb|Hb]; [|rewrite Hf2 by done; by eexists].
    apply list_elem_of_lookup in Hb as [i Hi].
    destruct (array_disk Ha2 i) as (b' & Hi' & Hbo); [by apply lookup_lt_Some in Hi; lia|].
    rewrite Hi in Hi'. injection Hi' as <-. apply buf_ok_Some in Hbo as (c & -> & _). done. }
  change (Service.deallocate_host_example_dpointer 5 dptrs m2 = Ok m).
  change (Z.of_nat 5) with 5 in E3. rewrite E3. f_equal. apply map_eq. intros b.
  destruct (decide (b ∈ dptrs)) as [Hb|Hb].
  - rewrite Hin by done. rewrite Forall_forall in Hnone. symmetry. by apply Hnone.
  - by rewrite Hout, Hf2, Hf by done.
Qed.

(** The SMP prototype.  The program never calls set_internal_vars, so its
    measurements are those of a single thread; it can run to its end, through
    ten sizes of 10000 calls, and however its threads are scheduled it gives
    back all of its memory. *)
Theorem smp_gs_main junk m :
  get_number_of_phys_cpus NUMBER_OF_CPUS_INSTALLED = 1 ∧
  (∃ m', main junk m m') ∧ (∀ m', main junk m m' → m' = m).
Proof.
  split; [done|]. destruct sizes_ok as (bs & Es & _ & Hbs). pose proof (all_sizes_ok bs Hbs) as Hall.
  unfold main, allocate_host_example_dpointer, Service.allocate_host_example_dpointer.
  change (Z.to_nat 5) with 5%nat. destruct (alloc_disks junk end_size 5 m) as [dptrs m1] eqn:E.
  assert (Ha : array_ok m1 dptrs 5 end_size) by (by eapply alloc_array_ok; [|exact E]).
  split.
  - destruct (calls_total dptrs _ m1 Hall Ha) as [m2 Hc]. destruct (calls_ok _ _ _ _ Hall Ha Hc) as [Ha2 Hf2].
    exists m, bs, m2. split_and!; [done..|]. by eapply main_frees.
  - intros m' (bs' & m2 & Es' & Hc & Ed). rewrite Es in Es'. injection Es' as <-.
    destruct (calls_ok _ _ _ _ Hall Ha Hc) as [Ha2 Hf2].
    rewrite (main_frees junk m dptrs m1 m2 E Ha2 Hf2) in Ed. by injection Ed as <-.
Qed.
