(* ===== verification/MmapExample.v ===== *)
(** * prototypes/mmap_example: remapping kernel buffers, filled by processes

    ping.c is a kernel module that packs seven buffers into a container and
    maps them to user space; pong.c maps them, overwrites every disk [i] with
    [disks - 1 - i], the bytes divided among eight forked processes, and unmaps
    them again. *)
From S2P Require Import Prelude GF256 Word Memory Syndrome Cstring Service Vanilla Smp Marshal.
Local Open Scope Z_scope.

(** ** pong.c: the processes *)
Section fill.
Context (disks bytes : Z) (ptrs : list loc) (n : Z).

(** [start] and [stop] of proc_thread_dep_syndrome *)
Definition start (tid : Z) : Z := to_int (bytes / n * tid).
Definition stop (tid : Z) : Z :=
  if tid + 1 =? n then to_int bytes else to_int (start tid + bytes / n).

(** A process: at the inner loop's head with its counters, or gone. *)
Inductive proc := PRun (i j : Z) | PExit.

(** One iteration of proc_thread_dep_syndrome's loops. *)
Definition proc_thread_dep_syndrome (tid : Z) (p : proc) (m : mem) : result (proc * mem) :=
  match p with
  | PRun i j =>
      if i <? disks then
        tmp ← nth_ptr ptrs i;
        if j <? stop tid then
          m ← store_u8 m tmp j (disks - 1 - i);
          j ← int_add j 1;
          Ok (PRun i j, m)
        else
          i ← int_add i 1;
          Ok (PRun i (start tid), m)
      else Ok (PExit, m)
  | PExit => Ok (PExit, m)
  end.

Record forked := { fk_procs : list proc; fk_mem : mem }.

(** The forked processes share the mapped buffers and run in any order. *)
Inductive fork_step : forked → forked → Prop :=
  | fork_proc ps m t p p' m' : ps !! t = Some p → p ≠ PExit →
      proc_thread_dep_syndrome (Z.of_nat t) p m = Ok (p', m') →
      fork_step {| fk_procs := ps; fk_mem := m |} {| fk_procs := <[t := p']> ps; fk_mem := m' |}.

(** [raid6_smp_gen_syndrome]: all processes are forked; the parent waits for
    all of them. *)
Definition raid6_smp_gen_syndrome (m : mem) : forked :=
  {| fk_procs := (λ t, PRun 0 (start t)) <$> seqZ 0 n; fk_mem := m |}.
Definition all_exited (s : forked) : Prop := Forall (λ p, p = PExit) (fk_procs s).

Definition fork_faults (s : forked) : Prop :=
  ∃ t p f, fk_procs s !! t = Some p ∧ proc_thread_dep_syndrome (Z.of_nat t) p (fk_mem s) = Err f.
End fill.

#[export] Instance proc_eq_dec : EqDecision proc.
Proof. solve_decision. Defined.

Definition get_number_of_phys_cpus : Z := 8.
Definition set_internal_vars : option string → result Z := Service.set_internal_vars.

(** *** The processes fill the buffers *)
Section fill_proofs.
Context (disks : nat) (bytes : Z) (ptrs : list loc) (n : Z) (m0 : mem).
Context (Hn : 0 < n) (Hb : 0 ≤ bytes) (Hmax : bytes + 7 ≤ INT_MAX) (Hdm : Z.of_nat disks < INT_MAX).
Context (Ha : array_ok m0 ptrs disks bytes).

Abbreviation step := (fork_step (Z.of_nat disks) bytes ptrs n).

(** The byte disk [i] is filled with. *)
Definition fill_byte (i : nat) : Z := to_u8 (Z.of_nat disks - 1 - Z.of_nat i).
Definition painted (m : mem) (i k : nat) : Prop := ∀ b, ptrs !! i = Some b → peek m b k = fill_byte i.

(** What a process has filled so far. *)
Definition proc_ok (m : mem) (tid : Z) (p : proc) : Prop :=
  match p with
  | PRun i j => 0 ≤ i ≤ Z.of_nat disks ∧ start bytes n tid ≤ j ≤ stop bytes n tid ∧
      (∀ i' k, Z.of_nat i' < i → start bytes n tid ≤ Z.of_nat k < stop bytes n tid → painted m i' k) ∧
      (∀ i' k, Z.of_nat i' = i → (i' < disks)%nat → start bytes n tid ≤ Z.of_nat k < j → painted m i' k)
  | PExit => ∀ i' k, (i' < disks)%nat → start bytes n tid ≤ Z.of_nat k < stop bytes n tid → painted m i' k
  end.

Record mem_ok (m : mem) : Prop := {
  mo_frame : ∀ b, b ∉ take disks ptrs → m !! b = m0 !! b;
  mo_len : ∀ b, buf_len m b = buf_len m0 b;
  mo_ok : ∀ b l, buf_ok m0 l b → buf_ok m l b;
  mo_rest : ∀ b k, bytes ≤ Z.of_nat k → peek m b k = peek m0 b k
}.

Record forked_ok (s : forked) : Prop := {
  fo_len : length (fk_procs s) = Z.to_nat n;
  fo_mem : mem_ok (fk_mem s);
  fo_procs : ∀ t p, fk_procs s !! t = Some p → proc_ok (fk_mem s) (Z.of_nat t) p
}.

Lemma ranges tid : 0 ≤ tid < n → 0 ≤ start bytes n tid ≤ stop bytes n tid ∧ stop bytes n tid ≤ bytes.
Proof using Hn Hb Hmax. apply (thread_range (N := native64) bytes n Hn Hb Hmax). Qed.

(** Filling one byte keeps what is filled. *)
Lemma paint_one m i b j : mem_ok m → (i < disks)%nat → ptrs !! i = Some b → 0 ≤ j < bytes →
  ∃ m', store_u8 m b j (Z.of_nat disks - 1 - Z.of_nat i) = Ok m' ∧ mem_ok m' ∧
    painted m' i (Z.to_nat j) ∧ (∀ i' k, (i' < disks)%nat → painted m i' k → painted m' i' k).
Proof using Ha.
  intros [Hf Hl Hok Hr] Hi Hp Hj. pose proof (array_ptr Ha i b Hi Hp) as Hbo. apply Hok in Hbo.
  destruct (store_bytes_spec m b j [fill_byte i] bytes) as (m' & E & [F L O P]);
    [done|lia|cbn; lia|apply Forall_singleton; apply is_byte_to_u8|].
  exists m'. split; [exact E|].
  assert (∀ b' k, peek m' b' k = if decide (b' = b ∧ k = Z.to_nat j) then fill_byte i else peek m b' k) as Hpk.
  { intros b' k. destruct (decide (b' = b)) as [->|Hne].
    - rewrite P. cbn [length]. destruct (decide (k = Z.to_nat j)) as [->|Hk].
      + rewrite !decide_True by (done || lia). by rewrite Nat.sub_diag.
      + rewrite !decide_False by (try lia; intros [_ ?]; done). done.
    - rewrite decide_False by (by intros [? _]). unfold peek. by rewrite F. }
  split_and!.
  - split.
    + intros b' Hb'. rewrite F; [by apply Hf|]. intros ->. apply Hb'.
      apply elem_of_take. by exists i.
    + intros b'. by rewrite L.
    + intros b' l Hb'. by apply O, Hok.
    + intros b' k Hk. rewrite Hpk, decide_False; [by apply Hr|]. intros [_ ->]. lia.
  - intros b' Hb'. rewrite Hp in Hb'. injection Hb' as <-. by rewrite Hpk, decide_True.
  - intros i' k Hi' Hpt b' Hb'. rewrite Hpk. case_decide as Hd; [|by apply Hpt].
    destruct Hd as [-> _]. by rewrite (array_inj Ha i' i b Hi' Hi Hb' Hp).
Qed.

(** What is left to do for a process. *)
Definition proc_measure (tid : Z) (p : proc) : nat :=
  match p with
  | PRun i j => S (Z.to_nat ((Z.of_nat disks - i) * (stop bytes n tid - start bytes n tid + 1) - (j - start bytes n tid)))
  | PExit => O
  end.

Lemma proc_step_ok m tid p : 0 ≤ tid < n → mem_ok m → proc_ok m tid p → p ≠ PExit →
  ∃ p' m', proc_thread_dep_syndrome (Z.of_nat disks) bytes ptrs n tid p m = Ok (p', m') ∧
    mem_ok m' ∧ proc_ok m' tid p' ∧ (proc_measure tid p' < proc_measure tid p)%nat ∧
    (∀ i k, (i < disks)%nat → painted m i k → painted m' i k).
Proof using All.
  intros Ht Hm Hp Hne. destruct p as [i j|]; [|done]. destruct Hp as (Hi & Hj & Hdone & Hcur).
  destruct (ranges tid Ht) as [Hr1 Hr2]. cbn [proc_thread_dep_syndrome].
  set (a := start bytes n tid) in *. set (e := stop bytes n tid) in *.
  destruct (Z.ltb_spec i (Z.of_nat disks)) as [Hlt|Hge].
  - destruct (array_disk Ha (Z.to_nat i)) as (b & Hpb & _); [lia|].
    run (nth_ptr_nat ptrs i (Z.to_nat i) b) by (done || lia).
    destruct (Z.ltb_spec j e) as [Hje|Hje].
    + destruct (paint_one m (Z.to_nat i) b j) as (m' & E & Hm' & Hpt & Hkeep); [done|lia|done|lia|].
      rewrite Z2Nat.id in E by lia. run E. run int_add_ok by (unfold INT_MIN, INT_MAX in *; lia).
      eexists _, _. split_and!; [done|done| |cbn [proc_measure]; fold a e; nia|done]. split_and!; [lia..| |].
      * intros i' k Hi' Hk. apply Hkeep; [lia|]. by apply Hdone.
      * intros i' k Hi' Hlt' Hk. destruct (decide (k = Z.to_nat j)) as [->|Hkj].
        -- by replace i' with (Z.to_nat i) by lia.
        -- apply Hkeep; [done|]. apply Hcur; [done..|lia].
    + run int_add_ok by (unfold INT_MIN in *; lia). eexists _, _.
      split_and!; [done|done| |cbn [proc_measure]; fold a e; nia|done]. fold a e. split_and!; [lia..| |].
      * intros i' k Hi' Hk. destruct (decide (Z.of_nat i' < i)); [by apply Hdone|].
        apply Hcur; [lia|lia|lia].
      * intros i' k _ _ Hk. lia.
  - eexists _, _. split_and!; [done|done| |cbn [proc_measure]; lia|done].
    intros i' k Hi' Hk. apply Hdone; [lia|done].
Qed.

Lemma forked_init : forked_ok (raid6_smp_gen_syndrome bytes n m0).
Proof using Hn Hb Hmax.
  split; cbn.
  - rewrite length_fmap, length_seqZ. lia.
  - by split.
  - intros t p Ht. apply list_lookup_fmap_Some in Ht as (x & -> & Hx). apply lookup_seqZ in Hx as [-> Hx].
    rewrite Z.add_0_l. cbn. pose proof (ranges (Z.of_nat t) ltac:(lia)). split_and!; try lia; intros; lia.
Qed.

Lemma imap_insert {A B} (f : nat → A → B) l i x : (i < length l)%nat →
  imap f (<[i := x]> l) = <[i := f i x]> (imap f l).
Proof using Type.
  intros Hi. apply list_eq. intros j. rewrite list_lookup_imap. destruct (decide (i = j)) as [<-|Hij].
  - rewrite !list_lookup_insert_eq by (rewrite ?length_imap; done). done.
  - rewrite !list_lookup_insert_ne, list_lookup_imap by done. done.
Qed.

Definition total (s : forked) : nat :=
  sum_list_with (λ x, proc_measure (Z.of_nat x.1) x.2) (imap (λ t p, (t, p)) (fk_procs s)).

Lemma forked_step s s' : forked_ok s → step s s' → forked_ok s' ∧ (total s' < total s)%nat.
Proof using All.
  intros [Hlen Hm Hps] Hs. destruct Hs as [ps m t p p' m' Hp Hne E]. cbn in *.
  pose proof (lookup_lt_Some _ _ _ Hp) as Hlt.
  destruct (proc_step_ok m (Z.of_nat t) p) as (p2 & m2 & E2 & Hm2 & Hp2 & Hmeas & Hkeep);
    [lia|done|by apply Hps|done|].
  rewrite E in E2. injection E2 as <- <-. split; [split|]; cbn.
  - by rewrite length_insert.
  - done.
  - intros t' p2 Hp'. destruct (decide (t = t')) as [<-|Htt].
    + rewrite list_lookup_insert_eq in Hp' by done. by injection Hp' as <-.
    + rewrite list_lookup_insert_ne in Hp' by done. specialize (Hps t' p2 Hp').
      destruct p2 as [i j|]; cbn in Hps |- *.
      * destruct Hps as (? & ? & H1 & H2). split_and!; [lia..| |].
        -- intros i' k ? ?. apply Hkeep; [lia|by apply H1].
        -- intros i' k ? ? ?. apply Hkeep; [done|by apply H2].
      * intros i' k ? ?. apply Hkeep; [done|by apply Hps].
  - unfold total. cbn. rewrite imap_insert by done.
    assert (imap (λ t p, (t, p)) ps !! t = Some (t, p)) as Hi by (by rewrite list_lookup_imap, Hp).
    pose proof (sum_list_insert (λ x, proc_measure (Z.of_nat x.1) x.2) _ t _ (t, p') Hi) as Hsum.
    cbn in Hsum. lia.
Qed.

Lemma forked_reach s : rtc step (raid6_smp_gen_syndrome bytes n m0) s → forked_ok s.
Proof using All.
  apply (rtc_ind_r forked_ok); [apply forked_init|]. intros s1 s2 _ Hs IH. by apply (forked_step s1 s2).
Qed.

(** However the processes are scheduled, none makes an access outside the
    buffers, they all come to an end, and when they are all gone byte [k] of
    disk [i] is [disks - 1 - i] for every [k] below [bytes], and nothing else
    has changed. *)
Theorem pong_fill s : rtc step (raid6_smp_gen_syndrome bytes n m0) s →
  ¬ fork_faults (Z.of_nat disks) bytes ptrs n s ∧ sn step s ∧ (nf step s → all_exited s) ∧
  (all_exited s →
     (∀ i k b, (i < disks)%nat → Z.of_nat k < bytes → ptrs !! i = Some b → peek (fk_mem s) b k = fill_byte i) ∧
     (∀ b k, bytes ≤ Z.of_nat k → peek (fk_mem s) b k = peek m0 b k) ∧
     (∀ b, b ∉ take disks ptrs → fk_mem s !! b = m0 !! b)).
Proof using All.
  intros Hs. apply forked_reach in Hs. split_and!.
  - intros (t & p & f & Hp & E). pose proof (lookup_lt_Some _ _ _ Hp) as Hlt. rewrite (fo_len _ Hs) in Hlt.
    destruct p as [i j|]; [|done].
    destruct (proc_step_ok (fk_mem s) (Z.of_nat t) (PRun i j)) as (p2 & m2 & E2 & _);
      [lia|apply Hs|by apply Hs|done|congruence].
  - remember (total s) as k eqn:Hk. revert s Hs Hk. induction (lt_wf k) as [k _ IH]; intros s Hs ->.
    constructor. intros s' Hs'. destruct (forked_step _ _ Hs Hs') as [Hs2 Hlt]. by eapply IH.
  - intros Hnf. apply Forall_lookup. intros t p Hp. destruct (decide (p = PExit)) as [|Hne]; [done|].
    pose proof (lookup_lt_Some _ _ _ Hp) as Hlt. rewrite (fo_len _ Hs) in Hlt.
    destruct (proc_step_ok (fk_mem s) (Z.of_nat t) p) as (p2 & m2 & E2 & _);
      [lia|apply Hs|by apply Hs|done|].
    destruct Hnf. destruct s as [ps m]. eexists. by econstructor.
  - intros Hall. split_and!.
    + intros i k b Hi Hk Hp. destruct (chunk_cover (N := native64) bytes n Hn Hb Hmax (Z.of_nat k)) as (tid & Ht & Hr); [lia|].
      destruct (lookup_lt_is_Some_2 (fk_procs s) (Z.to_nat tid)) as [p Hpp]; [rewrite (fo_len _ Hs); lia|].
      pose proof (fo_procs _ Hs _ _ Hpp) as Hok. unfold all_exited in Hall. rewrite Forall_lookup in Hall.
      rewrite (Hall _ _ Hpp) in Hok. rewrite Z2Nat.id in Hok by lia. by apply (Hok i k).
    + apply Hs.
    + apply Hs.
Qed.
End fill_proofs.

(** ** ping.c: the kernel module *)
Definition NUMBER_OF_DISK : nat := 7.
Definition BYTES : Z := 100.
(** [__get_free_pages(GFP_KERNEL, 2)] *)
Definition page_block : Z := 4 * PAGE_SIZE.
Definition ENOMEM : Z := 12.

(** The packed container, and how many [vmalloc]ed blocks are live. *)
Record container := { pg_disks : Z; pg_bytes : Z; pg_ptrs : list loc }.
Record ping := { pg_dptrs : list loc; pg_snc : option container; pg_blocks : Z; pg_chrdev : bool; pg_mem : mem }.

(** The outcome of the kernel services: the pages of disk [i], the two
    allocations of pack_smc, and the character device. *)
Record ping_env := { pages_ok : nat → bool; conti_ok : bool; dptrs_ok : bool; chrdev_ok : bool }.

(** [pack_smc]: the container, and what it allocated.  When the second
    allocation fails the first one is lost. *)
Definition pack_smc (env : ping_env) (disks bytes : Z) (ptrs : list loc) : result (option container * Z) :=
  if negb (conti_ok env) then Ok (None, 0) else
  if negb (dptrs_ok env) then Ok (None, 1) else
  int_dptrs ← for_lt 0 disks 1 (λ i acc, p ← nth_ptr ptrs i; Ok (acc ++ [p])) [];
  Ok (Some {| pg_disks := disks; pg_bytes := bytes; pg_ptrs := int_dptrs |}, 2).

(** [kill_smc]: the number of blocks it frees. *)
Definition kill_smc (snc : option container) : result Z :=
  of_option NullDeref snc;;
  Ok 2.

(** The allocation loop: the blocks of the disks from [i] on; [false]: one of
    them failed. *)
Fixpoint get_pages (junk : loc → nat → Z) (env : ping_env) (n i : nat) (m : mem) : bool * list loc * mem :=
  match n with
  | O => (true, [], m)
  | S n =>
      if pages_ok env i then
        let '(b, m) := malloc junk m page_block in
        let '(ok, bs, m) := get_pages junk env n (S i) m in
        (ok, b :: bs, m)
      else (false, [], m)
  end.

Definition mod_init (junk : loc → nat → Z) (env : ping_env) (m : mem) : result (Z * ping) :=
  let '(ok, dptrs, m) := get_pages junk env NUMBER_OF_DISK 0 m in
  if negb (ok : bool) then
    Ok (- ENOMEM, {| pg_dptrs := dptrs; pg_snc := None; pg_blocks := 0; pg_chrdev := false; pg_mem := m |})
  else
  m ← for_lt 0 (Z.of_nat NUMBER_OF_DISK) 1 (λ i m, b ← nth_ptr dptrs i; memset m b i BYTES) m;
  '(snc, blocks) ← pack_smc env (Z.of_nat NUMBER_OF_DISK) BYTES dptrs;
  Ok (if chrdev_ok env then 0 else - EIO,
      {| pg_dptrs := dptrs; pg_snc := snc; pg_blocks := blocks; pg_chrdev := chrdev_ok env; pg_mem := m |}).

Definition mod_exit (s : ping) : result ping :=
  snc ← of_option NullDeref (pg_snc s);
  m ← for_lt 0 (pg_disks snc) 1 (λ i m, b ← nth_ptr (pg_dptrs s) i; free m b) (pg_mem s);
  freed ← kill_smc (pg_snc s);
  Ok {| pg_dptrs := pg_dptrs s; pg_snc := None; pg_blocks := pg_blocks s - freed; pg_chrdev := false; pg_mem := m |}.

(** The device's [mmap]: as in the kernel module proper, with [snc] in place
    of [actual_snc]. *)
Section mmap.
Context (is_vmalloc_addr : Z → bool) (vmalloc_to_pfn virt_to_phys : Z → Z) (remap_status : mapping → Z).
Definition map_vmem := Marshal.map_vmem vmalloc_to_pfn remap_status.
Definition map_kmem := Marshal.map_kmem virt_to_phys remap_status.
Definition map_mem (vm_start vm_end data : Z) (maps : list mapping) : result (Z * list mapping) :=
  if is_vmalloc_addr data then map_vmem vm_start vm_end data maps
  else Ok (map_kmem vm_start vm_end data maps).
Definition mmap_mmap (snc : option container) (snc_addr : Z) (addr_of : loc → Z) (vm_pgoff vm_start vm_end : Z)
    (maps : list mapping) : result (Z * list mapping) :=
  if vm_pgoff =? 0 then map_mem vm_start vm_end snc_addr maps else
  c ← of_option NullDeref snc;
  p ← nth_ptr (pg_ptrs c) (vm_pgoff - 1);
  map_mem vm_start vm_end (addr_of p) maps.
End mmap.

(** ** pong.c: taking and returning the container *)
(** [get_act_syndrome_block]: the module's container as pong sees it, when all
    mappings succeed ([map_ok], by disk). *)
Definition get_act_syndrome_block (map_ok : Z → bool) (snc : option container) : result (option container) :=
  c ← of_option NullDeref snc;
  dptrs ← for_lt 1 (pg_disks c + 1) 1 (λ i acc,
    match acc with
    | None => Ok None
    | Some acc => p ← nth_ptr (pg_ptrs c) (i - 1); Ok (if map_ok i then Some (acc ++ [p]) else None)
    end) (Some []);
  Ok (match dptrs with
      | Some dptrs => Some {| pg_disks := pg_disks c; pg_bytes := pg_bytes c; pg_ptrs := dptrs |}
      | None => None
      end).

(** [unget_act_syndrome_block]: the buffers it unmaps, by their index. *)
Definition unget_act_syndrome_block (smc : container) : result (list loc) :=
  for_lt 0 (pg_disks smc) 1 (λ i acc, p ← nth_ptr (pg_ptrs smc) (i - 1); Ok (acc ++ [p])) [].

(** [main] up to the forks: the exit status, or the container to work on. *)
Definition main (fd : Z) (map_ok : Z → bool) (snc : option container) : result (Z + container) :=
  if fd <? 0 then Ok (inl (-1)) else
  ret ← get_act_syndrome_block map_ok snc;
  ret ← of_option NullDeref ret;
  Ok (inr ret).
(** ... and behind them: the parent, and each child, which returns from
    [raid6_smp_gen_syndrome] as the parent does. *)
Definition main_end (smc : container) : result Z :=
  unget_act_syndrome_block smc;;
  Ok 0.

(** ** What holds *)
Lemma unget_before smc : 0 < pg_disks smc → unget_act_syndrome_block smc = Err OutOfBounds.
Proof.
  intros Hd. unfold unget_act_syndrome_block, for_lt.
  destruct (Z.to_nat (pg_disks smc - 0)) as [|k] eqn:E; [lia|]. cbn [for_fuel].
  destruct (Z.ltb_spec 0 (pg_disks smc)); [done|lia].
Qed.

(** Pong's unmapping loop starts with index -1: it reads before the
    pointer array whatever the container holds. *)
Theorem unget_reads_before smc : 0 < pg_disks smc → unget_act_syndrome_block smc = Err OutOfBounds.
Proof. apply unget_before. Qed.

Lemma get_pages_ok junk env n i m : (∀ i, pages_ok env i = true) →
  get_pages junk env n i m = (true, (alloc_disks junk page_block n m).1, (alloc_disks junk page_block n m).2).
Proof.
  intros Hok. revert i m. induction n as [|n IH]; intros i m; [done|].
  cbn [get_pages alloc_disks]. rewrite Hok. unfold malloc. cbn zeta. rewrite IH.
  by destruct (alloc_disks _ _ _ _).
Qed.

Definition env_ok (env : ping_env) : Prop :=
  (∀ i, pages_ok env i = true) ∧ conti_ok env = true ∧ dptrs_ok env = true ∧ chrdev_ok env = true.

(** Filling the fresh buffers keeps them. *)
Lemma init_fill dptrs m : array_ok m dptrs NUMBER_OF_DISK page_block → length dptrs = NUMBER_OF_DISK →
  ∃ m', for_lt 0 (Z.of_nat NUMBER_OF_DISK) 1 (λ i m, b ← nth_ptr dptrs i; memset m b i BYTES) m = Ok m' ∧
    array_ok m' dptrs NUMBER_OF_DISK page_block ∧ (∀ b, b ∉ dptrs → m' !! b = m !! b).
Proof.
  intros Ha Hl. edestruct (for_lt_inv (λ _ m', array_ok m' dptrs NUMBER_OF_DISK page_block ∧
      (∀ b, b ∉ dptrs → m' !! b = m !! b))
    (λ i m, b ← nth_ptr dptrs i; memset m b i BYTES) 0 (Z.of_nat NUMBER_OF_DISK) 1) with (s := m)
    as (m' & E & Ha' & Hf'); [lia|done|done| |done|by exists m'].
  intros i m1 Hi _ [Ha1 Hf1]. destruct (array_disk Ha1 (Z.to_nat i)) as (b & Hb & Hbo); [lia|].
  run (nth_ptr_nat dptrs i (Z.to_nat i) b) by (done || lia).
  destruct (memset_spec m1 b i BYTES page_block Hbo) as (m2 & E & [F _ O _]); [done|].
  exists m2. split; [done|]. split.
  - eapply array_ok_frame; [|exact Ha1]. intros b' Hb'. by apply O.
  - intros b' Hb'. rewrite F; [by apply Hf1|]. intros ->. apply Hb'. by eapply list_elem_of_lookup_2.
Qed.

(** All disks are mapped, or there is no container at all. *)
Lemma get_container map_ok c : Z.of_nat (length (pg_ptrs c)) = pg_disks c → pg_disks c < INT_MAX →
  get_act_syndrome_block map_ok (Some c) =
    Ok (if forallb map_ok (seqZ 1 (pg_disks c)) then Some c else None).
Proof.
  intros Hl Hmax. unfold get_act_syndrome_block. cbn [of_option]. bind_step.
  edestruct (for_lt_inv (λ i acc, 1 ≤ i ∧ acc =
      if forallb map_ok (seqZ 1 (i - 1)) then Some (take (Z.to_nat (i - 1)) (pg_ptrs c)) else None)
    (λ i acc, match acc with
      | None => Ok None
      | Some acc => p ← nth_ptr (pg_ptrs c) (i - 1); Ok (if map_ok i then Some (acc ++ [p]) else None)
      end) 1 (pg_disks c + 1) 1) with (s := Some (@nil loc)) as (acc & E & _ & ->);
    [lia|done|unfold INT_MAX in *; lia| |by split|].
  - intros i acc Hi _ [_ ->].
    assert (seqZ 1 (i + 1 - 1) = seqZ 1 (i - 1) ++ [i]) as ->.
    { replace (i + 1 - 1) with (i - 1 + 1) by lia. rewrite seqZ_app by lia. f_equal.
      change (seqZ (1 + (i - 1)) 1) with [Z.of_nat 0 + (1 + (i - 1))]. f_equal. lia. }
    rewrite forallb_app. cbn [forallb]. rewrite andb_true_r.
    destruct (forallb map_ok (seqZ 1 (i - 1))); cbn [andb]; [|eexists; split; [done|split; [lia|done]]].
    destruct (lookup_lt_is_Some_2 (pg_ptrs c) (Z.to_nat (i - 1)) ltac:(lia)) as [p Hp].
    run (nth_ptr_nat (pg_ptrs c) (i - 1) (Z.to_nat (i - 1)) p) by (done || lia). eexists. split; [done|].
    split; [lia|]. destruct (map_ok i); [|done]. f_equal.
    replace (Z.to_nat (i + 1 - 1)) with (S (Z.to_nat (i - 1))) by lia. by rewrite (take_S_r _ _ _ Hp).
  - rewrite E. bind_step. rewrite (loop_end_unique _ _ _ (pg_disks c + 1) (pg_disks c)) by lia.
    replace (pg_disks c + 1 - 1) with (pg_disks c) by lia. rewrite take_ge by lia.
    destruct (forallb map_ok (seqZ 1 (pg_disks c))); [by destruct c|reflexivity].
Qed.

(** Pong's main after a successful start: with a container it goes on when
    all disks are mapped and follows a null pointer when one is not; behind the
    forks every process, the children too, reads before the pointer array. *)
Theorem pong_main fd map_ok c : 0 ≤ fd → Z.of_nat (length (pg_ptrs c)) = pg_disks c → 0 < pg_disks c < INT_MAX →
  main fd map_ok (Some c) = (if forallb map_ok (seqZ 1 (pg_disks c)) then Ok (inr c) else Err NullDeref) ∧
  main_end c = Err OutOfBounds.
Proof.
  intros Hfd Hl Hd. unfold main, main_end. rewrite (proj2 (Z.ltb_ge fd 0)) by done. split.
  - run get_container by lia || done. by destruct (forallb map_ok (seqZ 1 (pg_disks c))).
  - by run unget_before by lia.
Qed.

(** C31: the whole example.  When all kernel services succeed, pong is handed
    the module's own seven buffers; however its eight processes are scheduled,
    the module then finds [6 - i] in the 100 bytes of buffer [i]; and unloading
    it frees everything it ever allocated. *)
Theorem mmap_example_works junk env m : env_ok env → ∃ s, mod_init junk env m = Ok (0, s) ∧
  get_act_syndrome_block (λ _, true) (pg_snc s) =
    Ok (Some {| pg_disks := 7; pg_bytes := BYTES; pg_ptrs := pg_dptrs s |}) ∧
  ∀ f, rtc (fork_step 7 BYTES (pg_dptrs s) get_number_of_phys_cpus)
      (raid6_smp_gen_syndrome BYTES get_number_of_phys_cpus (pg_mem s)) f → all_exited f →
    (∀ i k b, (i < 7)%nat → (k < 100)%nat → pg_dptrs s !! i = Some b → peek (fk_mem f) b k = Z.of_nat (6 - i)) ∧
    ∃ s', mod_exit {| pg_dptrs := pg_dptrs s; pg_snc := pg_snc s; pg_blocks := pg_blocks s;
                      pg_chrdev := pg_chrdev s; pg_mem := fk_mem f |} = Ok s' ∧
      pg_mem s' = m ∧ pg_blocks s' = 0 ∧ pg_chrdev s' = false.
Proof.
  intros (Hpages & Hc & Hd & Hchr). unfold mod_init. rewrite get_pages_ok by done. unfold NUMBER_OF_DISK.
  destruct (alloc_disks junk page_block 7 m) as [dptrs m1] eqn:E. cbn [fst snd negb].
  assert (Hpb : 0 ≤ page_block) by done.
  destruct (alloc_disks_spec junk page_block 7 m dptrs m1 Hpb E) as (Hl & _ & Hnone & _ & Hf).
  assert (array_ok m1 dptrs 7 page_block) as Ha1 by (by eapply alloc_array_ok).
  destruct (init_fill dptrs m1 Ha1 Hl) as (m2 & E2 & Ha2 & Hf2). unfold NUMBER_OF_DISK in E2. run E2.
  unfold pack_smc. rewrite Hc, Hd, Hchr. cbn [negb]. run (copy_ptrs dptrs 7) by (done || lia).
  rewrite firstn_all2 by lia. eexists. split; [done|]. cbn [pg_snc pg_dptrs pg_mem pg_blocks pg_chrdev].
  split. { rewrite get_container by (cbn; by rewrite ?Hl). reflexivity. }
  intros f Hrun Hex. assert (Ha3 : array_ok m2 dptrs 7 BYTES) by (by eapply array_ok_mono; [| |exact Ha2]).
  destruct (forked_reach 7 BYTES dptrs get_number_of_phys_cpus m2 ltac:(done) ltac:(done) ltac:(done)
    ltac:(done) Ha3 f Hrun) as [Hlen [Hfr Hlens Hok Hrest] Hprocs].
  split.
  - intros i k b Hi Hk Hb. 
    destruct (chunk_cover (N := native64) BYTES get_number_of_phys_cpus ltac:(done) ltac:(done) ltac:(done)
      (Z.of_nat k)) as (tid & Ht & Hr); [unfold BYTES; lia|].
    unfold get_number_of_phys_cpus in *.
    destruct (lookup_lt_is_Some_2 (fk_procs f) (Z.to_nat tid)) as [p Hpp]; [rewrite Hlen; lia|].
    pose proof (Hprocs _ _ Hpp) as Hp. unfold all_exited in Hex. rewrite Forall_lookup in Hex.
    rewrite (Hex _ _ Hpp) in Hp. rewrite Z2Nat.id in Hp by lia. rewrite (Hp i k Hi Hr b Hb).
    unfold fill_byte, to_u8. rewrite Z.mod_small; lia.
  - rewrite take_ge in Hfr by lia.
    destruct (dealloc_alloc junk page_block 7 m dptrs m1 (fk_mem f) Hpb) as (m4 & E4 & Hin & Hout); [done|done| |].
    { intros b [x Hx]. destruct (decide (b ∈ dptrs)) as [Hb|Hb]; [|rewrite Hfr, Hf2 by done; by eexists].
      apply list_elem_of_lookup in Hb as [i Hi].
      destruct (array_disk Ha3 i) as (b' & Hi' & Hbo); [by apply lookup_lt_Some in Hi; lia|].
      rewrite Hi in Hi'. injection Hi' as <-. apply Hok, buf_ok_Some in Hbo as (c & -> & _). done. }
    unfold mod_exit. cbn [pg_snc of_option pg_disks pg_dptrs pg_mem]. bind_step.
    unfold deallocate_host_example_dpointer in E4. cbn [pg_disks]. run E4. cbn [kill_smc of_option]. bind_step.
    eexists. split; [done|]. cbn. split_and!; [|done..]. apply map_eq. intros b.
    destruct (decide (b ∈ dptrs)) as [Hb|Hb].
    + rewrite Hin by done. rewrite Forall_forall in Hnone. symmetry. by apply Hnone.
    + by rewrite Hout, Hfr, Hf2, Hf by done.
Qed.

(** When packing fails the module still loads, without a container:
    mapping any disk and unloading follow a null pointer. *)
Theorem ping_without_container junk env m isv vpfn vphys st addr addr_of i vs ve maps :
  (∀ i, pages_ok env i = true) → chrdev_ok env = true → conti_ok env && dptrs_ok env = false → i ≠ 0 →
  ∃ s, mod_init junk env m = Ok (0, s) ∧ pg_chrdev s = true ∧
    mmap_mmap isv vpfn vphys st (pg_snc s) addr addr_of i vs ve maps = Err NullDeref ∧
    mod_exit s = Err NullDeref.
Proof.
  intros Hpages Hchr Hp Hi. unfold mod_init. rewrite get_pages_ok by done. unfold NUMBER_OF_DISK.
  destruct (alloc_disks junk page_block 7 m) as [dptrs m1] eqn:E. cbn [fst snd negb].
  assert (Hpb : 0 ≤ page_block) by done.
  destruct (alloc_disks_spec junk page_block 7 m dptrs m1 Hpb E) as (Hl & _).
  assert (array_ok m1 dptrs 7 page_block) as Ha1 by (by eapply alloc_array_ok).
  destruct (init_fill dptrs m1 Ha1 Hl) as (m2 & E2 & _). unfold NUMBER_OF_DISK in E2. run E2.
  assert (∃ k, pack_smc env (Z.of_nat 7) BYTES dptrs = Ok (None, k)) as [k Ek].
  { unfold pack_smc. destruct (conti_ok env); [|by eexists]. destruct (dptrs_ok env); [done|by eexists]. }
  run Ek. rewrite Hchr. eexists. split; [done|]. split; [done|]. split; [|done].
  unfold mmap_mmap. destruct (Z.eqb_spec i 0); [done|]. done.
Qed.

(** ** Witnesses *)
Definition good_env : ping_env := {| pages_ok := λ _, true; conti_ok := true; dptrs_ok := true; chrdev_ok := true |}.
Definition bad_env : ping_env := {| pages_ok := λ _, true; conti_ok := true; dptrs_ok := false; chrdev_ok := true |}.

Lemma pong_fill_witness :
  let s := raid6_smp_gen_syndrome 16 2 sample_mem in
  ¬ fork_faults 5 16 sample_ptrs 2 s ∧ sn (fork_step 5 16 sample_ptrs 2) s ∧
  (nf (fork_step 5 16 sample_ptrs 2) s → all_exited s) ∧
  (all_exited s →
     (∀ i k b, (i < 5)%nat → Z.of_nat k < 16 → sample_ptrs !! i = Some b → peek (fk_mem s) b k = fill_byte 5 i) ∧
     (∀ b k, 16 ≤ Z.of_nat k → peek (fk_mem s) b k = peek sample_mem b k) ∧
     (∀ b, b ∉ take 5 sample_ptrs → fk_mem s !! b = sample_mem !! b)).
Proof.
  apply (pong_fill 5 16 sample_ptrs 2 sample_mem); [lia|lia|done|done|by_decide|apply rtc_refl].
Defined.

Lemma unget_reads_before_witness :
  unget_act_syndrome_block {| pg_disks := 7; pg_bytes := 100; pg_ptrs := [1; 2; 3; 4; 5; 6; 7]%positive |} =
    Err OutOfBounds.
Proof. apply unget_reads_before. done. Defined.

Lemma mmap_example_works_witness : ∃ s, mod_init (λ _ _, 0) good_env ∅ = Ok (0, s) ∧
  get_act_syndrome_block (λ _, true) (pg_snc s) =
    Ok (Some {| pg_disks := 7; pg_bytes := BYTES; pg_ptrs := pg_dptrs s |}) ∧
  ∀ f, rtc (fork_step 7 BYTES (pg_dptrs s) get_number_of_phys_cpus)
      (raid6_smp_gen_syndrome BYTES get_number_of_phys_cpus (pg_mem s)) f → all_exited f →
    (∀ i k b, (i < 7)%nat → (k < 100)%nat → pg_dptrs s !! i = Some b → peek (fk_mem f) b k = Z.of_nat (6 - i)) ∧
    ∃ s', mod_exit {| pg_dptrs := pg_dptrs s; pg_snc := pg_snc s; pg_blocks := pg_blocks s;
                      pg_chrdev := pg_chrdev s; pg_mem := fk_mem f |} = Ok s' ∧
      pg_mem s' = ∅ ∧ pg_blocks s' = 0 ∧ pg_chrdev s' = false.
Proof. apply (mmap_example_works (λ _ _, 0) good_env ∅). by split_and!. Defined.

Lemma ping_without_container_witness : ∃ s, mod_init (λ _ _, 0) bad_env ∅ = Ok (0, s) ∧ pg_chrdev s = true ∧
  mmap_mmap (λ _, true) (λ a, a / 4096) id (λ _, 0) (pg_snc s) 0 (λ p, 65536 * Z.pos p) 1 8192 12288 [] =
    Err NullDeref ∧ mod_exit s = Err NullDeref.
Proof.
  apply (ping_without_container (λ _ _, 0) bad_env ∅ (λ _, true) (λ a, a / 4096) id (λ _, 0) 0
    (λ p, 65536 * Z.pos p) 1 8192 12288 []); done.
Defined.
