(* ===== verification/Types.v ===== *)
(** * Type safety of the generators

    What every generator keeps on every run, whatever its arguments: the cells
    of memory hold bytes, no buffer appears, disappears or changes its size.
    The class [TypeSafe] is the promise of one generator. *)
From S2P Require Import Prelude GF256 Word Memory Syndrome Vanilla Smp Validator MultiRs KernelMode.
Local Open Scope Z_scope.

(** Every cell holds a byte. *)
Definition well_typed (m : mem) : Prop := map_Forall (λ _ buf, Forall is_byte buf) m.

(** The buffers and their sizes. *)
Definition shape (m : mem) : loc → option nat := λ b, length <$> m !! b.

Definition keeps_types (m m' : mem) : Prop := well_typed m → well_typed m' ∧ ∀ b, shape m' b = shape m b.

#[export] Instance keeps_types_preorder : PreOrder keeps_types.
Proof.
  split.
  - by intros m Hm.
  - intros m1 m2 m3 H1 H2 Hm. destruct (H1 Hm) as [Hm2 S1]. destruct (H2 Hm2) as [Hm3 S2].
    split; [done|]. intros b. by rewrite S2, S1.
Qed.

Class TypeSafe (f : syndrome_func) : Prop :=
  type_safe : ∀ disks bytes ptrs m m', f disks bytes ptrs m = Ok m' → keeps_types m m'.

(** ** Accesses *)
Lemma list_inserts_bytes bs buf i : Forall is_byte bs → Forall is_byte buf → Forall is_byte (list_inserts i bs buf).
Proof.
  intros Hbs. revert i. induction Hbs as [|b bs Hb _ IH]; intros i Hbuf; [done|]. cbn. by apply Forall_insert; [apply IH|].
Qed.

Lemma store_bytes_types m b off bs m' : (well_typed m → Forall is_byte bs) → store_bytes m b off bs = Ok m' → keeps_types m m'.
Proof.
  intros Hbs E Hm. unfold store_bytes in E. inv_ok. subst m'. pose proof (Hm _ _ E0) as Hx. split.
  - apply map_Forall_insert_2; [|done]. apply list_inserts_bytes; [by apply Hbs|done].
  - intros b'. unfold shape. destruct (decide (b = b')) as [<-|Hne].
    + rewrite lookup_insert_eq, E0. cbn. by rewrite length_inserts.
    + by rewrite lookup_insert_ne.
Qed.

Lemma store_word_types `{Native} m b off w m' : store_word m b off w = Ok m' → keeps_types m m'.
Proof.
  apply store_bytes_types. intros _. apply (Z_to_little_endian_bound (Z.of_nat NSIZE) 8 w); lia.
Qed.

Lemma store_u8_types m b off v m' : store_u8 m b off v = Ok m' → keeps_types m m'.
Proof. apply store_bytes_types. intros _. apply Forall_singleton, is_byte_to_u8. Qed.

Lemma memcpy_types m dst src n m' : memcpy m dst src n = Ok m' → keeps_types m m'.
Proof.
  unfold memcpy. intros (bs & E & Es)%bind_Ok. revert Es. apply store_bytes_types.
  intros Hm. unfold load_bytes in E. inv_ok. subst bs. by apply Forall_take, Forall_drop, (Hm _ _ E0).
Qed.

(** A loop keeps what its body keeps. *)
Lemma for_lt_keeps {S} (R : S → S → Prop) `{!PreOrder R} (body : Z → S → result S) start stop step s s' :
  (∀ i s s', body i s = Ok s' → R s s') → for_lt start stop step body s = Ok s' → R s s'.
Proof.
  intros Hb. unfold for_lt. generalize (Datatypes.S (Z.to_nat (stop - start))). intros fuel.
  revert start s. induction fuel as [|fuel IH]; intros i s E; [done|]. cbn [for_fuel] in E.
  destruct (i <? stop); [|by injection E as ->].
  apply bind_Ok in E as (s1 & E1 & E). apply bind_Ok in E as (i' & _ & E). etrans; [by eapply Hb|by eapply IH].
Qed.

(** For loops over more than the memory. *)
Definition on_mem {A S} (f : S → A) (R : A → A → Prop) (s s' : S) : Prop := R (f s) (f s').
#[export] Instance on_mem_preorder {A S} (f : S → A) (R : A → A → Prop) `{!PreOrder R} : PreOrder (on_mem f R).
Proof. split; [by intros s; unfold on_mem|]. intros s1 s2 s3. unfold on_mem. by etrans. Qed.

Create HintDb types discriminated.
#[export] Hint Resolve store_word_types store_u8_types memcpy_types store_bytes_types : types.

(** Split the pairs that binds are matched on. *)
Ltac split_pairs :=
  repeat match goal with
  | H : (let '(_, _) := ?p in _) = Ok _ |- _ => destruct p; inv_ok
  end.

(** ** The generators *)
#[export] Instance vanilla_type_safe `{Native} : TypeSafe Vanilla.raid6_vanilla_gen_syndrome.
Proof.
  intros disks bytes ptrs m m' E. unfold Vanilla.raid6_vanilla_gen_syndrome in E. inv_ok.
  eapply for_lt_keeps; [apply _| |exact E]. clear. intros d m m' E. unfold Vanilla.vanilla_word in E. inv_ok.
  split_pairs. etrans; eauto with types.
Qed.

#[export] Instance dummy_type_safe : TypeSafe raid6_dummy_gen_syndrome.
Proof.
  intros disks bytes ptrs m m' E. unfold raid6_dummy_gen_syndrome in E. inv_ok. etrans; eauto with types.
Qed.

Lemma rs_data_types ptrs i j y d s s' : MultiRs.rs_data_step ptrs i j y d s = Ok s' → on_mem snd keeps_types s s'.
Proof.
  destruct s as [x m], s' as [x' m']. unfold MultiRs.rs_data_step, on_mem. intros E. inv_ok. subst. eauto with types.
Qed.

Lemma rs_check_types ptrs high i j s s' : MultiRs.rs_check_step ptrs high i j s = Ok s' → on_mem snd keeps_types s s'.
Proof.
  destruct s as [y m], s' as [y' m']. unfold MultiRs.rs_check_step, on_mem. intros E. inv_ok. split_pairs. subst.
  etrans; [by eapply store_u8_types|].
  match goal with H : for_lt _ _ _ _ _ = Ok _ |- _ => pose proof (for_lt_keeps (on_mem snd keeps_types) _ _ _ _ _ _
    ltac:(intros; by eapply rs_data_types) H) as Hk end. exact Hk.
Qed.

#[export] Instance rs_soft_type_safe C : TypeSafe (rs_soft C).
Proof.
  intros disks bytes ptrs m m' E. unfold rs_soft in E. inv_ok.
  eapply for_lt_keeps; [apply _| |exact E]. clear. intros i m m' E. cbn beta in E. inv_ok. split_pairs. subst.
  match goal with H : for_lt _ _ _ _ _ = Ok _ |- _ => pose proof (for_lt_keeps (on_mem snd keeps_types) _ _ _ _ _ _
    ltac:(intros; by eapply rs_check_types) H) as Hk end. exact Hk.
Qed.

#[export] Instance kernel_mode_type_safe `{Native} : TypeSafe kernel_mode_gen.
Proof.
  intros disks bytes ptrs m m' E. unfold kernel_mode_gen in E. apply bind_Ok in E as (m1 & E1 & E2).
  rewrite kernel_vanilla_agrees in E1. rewrite kernel_multi_rs_agrees in E2.
  etrans; [by eapply vanilla_type_safe|by eapply (rs_soft_type_safe MultiRs.CHECK_SYMBOLS)].
Qed.

(** The threads of the SMP implementation. *)
Lemma thread_types `{Native} data c m c' m' : Smp.proc_thread_dep_syndrome data c m = Ok (c', m') → keeps_types m m'.
Proof.
  unfold Smp.proc_thread_dep_syndrome. intros E. inv_ok.
  repeat case_match; inv_ok; simplify_eq; eauto with types; reflexivity.
Qed.

Lemma smp_step_types `{Native} n disks bytes ptrs s s' :
  Smp.raid6_smp_gen_syndrome n disks bytes ptrs s s' → keeps_types (s_mem s) (s_mem s').
Proof. intros Hs. destruct Hs; try reflexivity. by eapply thread_types. Qed.


