(* ===== verification/CudaApi.v ===== *)
(** * The CUDA runtime, as the GPU implementations use it

    The runtime is an interface: [CudaRuntime] has its operations, [CudaLaws]
    what the code relies on.  Both GPU implementations and the benchmarks are
    verified against the laws; [plain_runtime] is an instance that satisfies
    them. *)
From S2P Require Import Prelude GF256 Word Memory.
Local Open Scope Z_scope.

Definition int_mul (a b : Z) : result Z := if int_ok (a * b) then Ok (a * b) else Err IntOverflow.

Lemma int_mul_ok a b : INT_MIN ≤ a * b ≤ INT_MAX → int_mul a b = Ok (a * b).
Proof.
  intros H. unfold int_mul, int_ok.
  destruct (Z.leb_spec INT_MIN (a * b)), (Z.leb_spec (a * b) INT_MAX); cbn; lia || done.
Qed.

Class CudaRuntime := {
  (** a block of device memory, or failure *)
  cudaMalloc : mem → Z → option (loc * mem);
  (** destination memory, block and offset; source memory, block and offset;
      size; the destination memory afterwards *)
  cudaMemcpy : mem → loc → Z → mem → loc → Z → Z → mem;
  cudaFree : mem → loc → mem;
  (** the order in which launch number [l] runs its [n] threads *)
  launch_order : nat → Z → list Z;
  (** what launch [l] finds in [n] bytes of shared memory of its thread, or
      block, [x] *)
  uninit_shared : nat → Z → nat → list Z
}.

Class CudaLaws (R : CudaRuntime) : Prop := {
  cudaMalloc_ok m n b m' : cudaMalloc m n = Some (b, m') → m !! b = None ∧
    ∃ buf, m' = <[b := buf]> m ∧ Z.of_nat (length buf) = n ∧ Forall is_byte buf;
  cudaMemcpy_ok dm d doff sm s soff n bs dm' : load_bytes sm s soff (Z.to_nat n) = Ok bs →
    store_bytes dm d doff bs = Ok dm' → cudaMemcpy dm d doff sm s soff n = dm';
  cudaFree_ok m b : is_Some (m !! b) → cudaFree m b = delete b m;
  launch_order_ok l n : launch_order l n ≡ₚ seqZ 0 n;
  uninit_shared_ok l x n : length (uninit_shared l x n) = n ∧ Forall is_byte (uninit_shared l x n)
}.

(** A copy; both ranges have to be allocated. *)
Definition cuda_copy `{CudaRuntime} (dm : mem) (d : loc) (doff : Z) (sm : mem) (s : loc) (soff n : Z) : result mem :=
  bs ← load_bytes sm s soff (Z.to_nat n);
  _ ← store_bytes dm d doff bs;
  Ok (cudaMemcpy dm d doff sm s soff n).

Lemma cuda_copy_ok {R : CudaRuntime} {L : CudaLaws R} dm d doff sm s soff n bs dm' : load_bytes sm s soff (Z.to_nat n) = Ok bs →
  store_bytes dm d doff bs = Ok dm' → cuda_copy dm d doff sm s soff n = Ok dm'.
Proof.
  intros E1 E2. unfold cuda_copy. run E1. run E2. f_equal. by eapply cudaMemcpy_ok.
Qed.

Lemma cuda_copy_spec {R : CudaRuntime} {L : CudaLaws R} dm d doff dlen sm s soff slen n :
  buf_ok dm dlen d → buf_ok sm slen s → 0 ≤ n → 0 ≤ doff → doff + n ≤ dlen → 0 ≤ soff → soff + n ≤ slen →
  ∃ dm', cuda_copy dm d doff sm s soff n = Ok dm' ∧
    stored dm d (Z.to_nat doff) (slice sm s soff (Z.to_nat n)) dm'.
Proof.
  intros Hd Hs Hn Hd0 Hd1 Hs0 Hs1.
  destruct (store_bytes_spec dm d doff (slice sm s soff (Z.to_nat n)) dlen) as (dm' & Es & Hst);
    [done|done|rewrite length_slice; lia|by eapply Forall_byte_slice|].
  exists dm'. split; [|done]. eapply cuda_copy_ok; [|exact Es]. apply (load_bytes_ok sm s soff _ slen); [done|done|lia].
Qed.

Lemma cuda_copy_overrun {R : CudaRuntime} dm d doff sm h hoff n : 0 ≤ n → buf_len dm d < doff + n →
  cuda_copy dm d doff sm h hoff n = Err OutOfBounds.
Proof.
  intros Hn Hl. unfold cuda_copy. destruct (load_bytes sm h hoff (Z.to_nat n)) as [bs|f] eqn:E; bind_step.
  - destruct (store_bytes dm d doff bs) as [dm'|f] eqn:E2; bind_step.
    + apply store_bytes_Ok in E2 as (_ & E2 & _). apply load_bytes_length in E. lia.
    + by rewrite (store_bytes_Err _ _ _ _ _ E2).
  - by rewrite (load_bytes_Err _ _ _ _ _ E).
Qed.

Lemma cuda_copy_overread {R : CudaRuntime} dm d doff sm h hoff n : 0 ≤ n → buf_len sm h < hoff + n →
  cuda_copy dm d doff sm h hoff n = Err OutOfBounds.
Proof.
  intros Hn Hl. unfold cuda_copy. destruct (load_bytes sm h hoff (Z.to_nat n)) as [bs|f] eqn:E; bind_step.
  - apply load_bytes_Ok in E. lia.
  - by rewrite (load_bytes_Err _ _ _ _ _ E).
Qed.

(** The threads of a launch, or the operations of a stream, one after the
    other. *)
Fixpoint run_threads {T S} (f : T → S → result S) (ths : list T) (m : S) : result S :=
  match ths with
  | [] => Ok m
  | th :: ths => m ← f th m; run_threads f ths m
  end.

(** The rule for launches: what every thread establishes on top of those
    before it, whatever their order, holds after all of them. *)
Lemma run_threads_inv {T S} (I : list T → S → Prop) (f : T → S → result S) (ok : T → Prop) :
  (∀ ths th m, (∀ t, t ∈ ths → ok t) → ok th → I ths m → ∃ m', f th m = Ok m' ∧ I (ths ++ [th]) m') →
  ∀ ths m, (∀ t, t ∈ ths → ok t) → I [] m → ∃ m', run_threads f ths m = Ok m' ∧ I ths m'.
Proof.
  intros Hf. assert (∀ ths2 ths1 m, (∀ t, t ∈ ths1 ++ ths2 → ok t) → I ths1 m →
    ∃ m', run_threads f ths2 m = Ok m' ∧ I (ths1 ++ ths2) m') as Hall; [|by intros ths m; apply (Hall ths [])].
  induction ths2 as [|th ths2 IH]; intros ths1 m Hths Hm; cbn [run_threads].
  - exists m. by rewrite app_nil_r.
  - destruct (Hf ths1 th m) as (m1 & E & Hm1);
      [intros; apply Hths, elem_of_app; by left|apply Hths, elem_of_app; right; left|done|].
    run E. rewrite (assoc_L (++) ths1 [th] ths2 : ths1 ++ th :: ths2 = (ths1 ++ [th]) ++ ths2) in *. by apply IH.
Qed.

(** ** An instance: threads in order, 0xff in shared memory *)
Definition plain_runtime : CudaRuntime := {|
  cudaMalloc m n := if 0 <=? n then Some (fresh_loc m, <[fresh_loc m := replicate (Z.to_nat n) 0]> m) else None;
  cudaMemcpy dm d doff sm s soff n :=
    match (bs ← load_bytes sm s soff (Z.to_nat n); store_bytes dm d doff bs) with Ok m => m | Err _ => dm end;
  cudaFree m b := delete b m;
  launch_order _ n := seqZ 0 n;
  uninit_shared _ _ n := replicate n 255
|}.

Lemma plain_laws : CudaLaws plain_runtime.
Proof.
  split; cbn.
  - intros m n b m'. destruct (Z.leb_spec 0 n); [|done]. intros [= <- <-]. split; [apply fresh_loc_fresh|].
    eexists. split; [done|]. rewrite length_replicate. split; [lia|]. apply Forall_byte_replicate, is_byte_0.
  - intros dm d doff sm s soff n bs dm' E1 E2. rewrite E1. bind_step. by rewrite E2.
  - done.
  - done.
  - intros _ _ n. split; [apply length_replicate|]. apply Forall_byte_replicate. unfold is_byte. lia.
Qed.

Lemma plain_malloc m n : 0 ≤ n → is_Some (cudaMalloc (CudaRuntime := plain_runtime) m n).
Proof. intros Hn. cbn [cudaMalloc plain_runtime]. rewrite (proj2 (Z.leb_le 0 n)) by done. by eexists. Qed.
