(* ===== verification/Cuda.v ===== *)
(** * barracuda_deamon/cuda/raid6cuda.cu: the GPU implementation

    The host code cuts the disks into blocks of DMA_BLOCKSIZE bytes, copies the
    data disks to the card, runs one thread per word there and copies the two
    check blocks back.  The CUDA runtime is the interface of CudaApi.v.
    This file has the synchronous variant, which is compiled as the file stands;
    CudaAsync.v has the one behind ASYNC. *)
From S2P Require Import Prelude GF256 Word Memory Syndrome CudaApi.
Local Open Scope Z_scope.

#[local] Existing Instance native64.

Definition DMA_BLOCKSIZE : Z := 524288.
Definition THREAD_BLOCKSIZE : Z := 256.
Definition NBYTES_CUDA : Z → Z := NBYTES.

(** ** The card, and the static variables of the file *)
Record card := {
  cd_mem : mem;
  DEVICE_DP_1 : loc; DEVICE_PQ_1 : loc; DEVICE_DP_2 : loc; DEVICE_PQ_2 : loc;
  mem_tag : bool;
  (** [static u8 **dptrs] of the generator *)
  cd_dptrs : option (list loc);
  cd_launches : nat
}.
(** At program start; the pointers are not used before get_card_mem sets them. *)
Definition card_start : card :=
  {| cd_mem := ∅; DEVICE_DP_1 := 1%positive; DEVICE_PQ_1 := 1%positive; DEVICE_DP_2 := 1%positive;
     DEVICE_PQ_2 := 1%positive; mem_tag := false; cd_dptrs := None; cd_launches := 0 |}.

Definition set_cd_mem (m : mem) (c : card) : card :=
  {| cd_mem := m; DEVICE_DP_1 := DEVICE_DP_1 c; DEVICE_PQ_1 := DEVICE_PQ_1 c; DEVICE_DP_2 := DEVICE_DP_2 c;
     DEVICE_PQ_2 := DEVICE_PQ_2 c; mem_tag := mem_tag c; cd_dptrs := cd_dptrs c; cd_launches := cd_launches c |}.
Definition set_cd_dptrs (d : list loc) (c : card) : card :=
  {| cd_mem := cd_mem c; DEVICE_DP_1 := DEVICE_DP_1 c; DEVICE_PQ_1 := DEVICE_PQ_1 c; DEVICE_DP_2 := DEVICE_DP_2 c;
     DEVICE_PQ_2 := DEVICE_PQ_2 c; mem_tag := mem_tag c; cd_dptrs := Some d; cd_launches := cd_launches c |}.
Definition launched (m : mem) (c : card) : card :=
  {| cd_mem := m; DEVICE_DP_1 := DEVICE_DP_1 c; DEVICE_PQ_1 := DEVICE_PQ_1 c; DEVICE_DP_2 := DEVICE_DP_2 c;
     DEVICE_PQ_2 := DEVICE_PQ_2 c; mem_tag := mem_tag c; cd_dptrs := cd_dptrs c; cd_launches := S (cd_launches c) |}.

(** ** The kernel *)
(** The body of the loop over the data disks, on [(wp0, wq0, w20)]. *)
Definition syndrome_update (wd0 : Z) (acc : Z * Z * Z) : Z * Z * Z :=
  let '(wp0, wq0, w20) := acc in
  let wp0 := Z.lxor wp0 wd0 in
  let wq0 := Z.land wq0 (NBYTES_CUDA 0x80) in
  let wq0 := wsub (wshl wq0 1) (Z.shiftr wq0 7) in
  let w10 := Z.land (wshl wq0 1) (NBYTES_CUDA 0xfe) in
  let w20 := Z.land w20 (NBYTES_CUDA 0x1d) in
  let w10 := Z.lxor w10 w20 in
  let wq0 := Z.lxor w10 wd0 in
  (wp0, wq0, w20).

(** Thread [th]; [w20] is what its slot of shared memory holds. *)
Definition syndrome_block (DP PQ : loc) (z0 w20 th : Z) (m : mem) : result mem :=
  let d := th * 8 in
  w ← load_word m DP (z0 * DMA_BLOCKSIZE + d);
  '(wp0, wq0, _) ← for_down (Z.to_nat z0) (λ z acc,
    wd0 ← load_word m DP (z * DMA_BLOCKSIZE + d);
    Ok (syndrome_update wd0 acc)) (w, w, w20);
  m ← store_word m PQ d wp0;
  store_word m PQ (DMA_BLOCKSIZE + d) wq0.

Section host.
Context {R : CudaRuntime}.

(** [syndrome_block<<<dimGrid, dimBlock>>>(DP, PQ, z0)] with [grid] blocks *)
Definition launch (grid : Z) (DP PQ : loc) (z0 : Z) (c : card) : result card :=
  m ← run_threads (λ th, syndrome_block DP PQ z0 (LE (uninit_shared (cd_launches c) th 8)) th)
        (launch_order (cd_launches c) (grid * THREAD_BLOCKSIZE)) (cd_mem c);
  Ok (launched m c).

(** ** The host code *)
(** [get_card_mem]; [None] is [exit(1)]. *)
Definition get_card_mem (c : card) : option card :=
  if mem_tag c then Some c else
  '(dp1, m) ← cudaMalloc (cd_mem c) (DMA_BLOCKSIZE * 256);
  '(pq1, m) ← cudaMalloc m (DMA_BLOCKSIZE * 2);
  '(dp2, m) ← cudaMalloc m (DMA_BLOCKSIZE * 256);
  '(pq2, m) ← cudaMalloc m (DMA_BLOCKSIZE * 2);
  Some {| cd_mem := m; DEVICE_DP_1 := dp1; DEVICE_PQ_1 := pq1; DEVICE_DP_2 := dp2; DEVICE_PQ_2 := pq2;
          mem_tag := true; cd_dptrs := cd_dptrs c; cd_launches := cd_launches c |}.

(** [cudaMemcpy(&DP[i*DMA_BLOCKSIZE], &dptrs[i][off], n, cudaMemcpyHostToDevice)] *)
Definition copy_to (dptrs : list loc) (DP : loc) (i off n : Z) (s : mem * card) : result (mem * card) :=
  let '(m, c) := s in
  doff ← int_mul i DMA_BLOCKSIZE;
  b ← nth_ptr dptrs i;
  dm ← cuda_copy (cd_mem c) DP doff m b off n;
  Ok (m, set_cd_mem dm c).

(** [cudaMemcpy(&dptrs[i][off], &PQ[poff], n, cudaMemcpyDeviceToHost)] *)
Definition copy_from (dptrs : list loc) (PQ : loc) (poff i off n : Z) (s : mem * card) : result (mem * card) :=
  let '(m, c) := s in
  b ← nth_ptr dptrs i;
  m ← cuda_copy m b off (cd_mem c) PQ poff n;
  Ok (m, c).

Definition on_card (f : card → result card) (s : mem * card) : result (mem * card) :=
  let '(m, c) := s in
  c ← f c;
  Ok (m, c).

(** [dimGrid.x] for whole blocks *)
Definition full_grid : Z := DMA_BLOCKSIZE / (THREAD_BLOCKSIZE * 8).

(** The body of the loop over pairs of blocks. *)
Definition two_blocks (disks : Z) (dptrs : list loc) (j : Z) (s : mem * card) : result (mem * card) :=
  off ← int_mul (j * 2) DMA_BLOCKSIZE;
  off2 ← int_add off DMA_BLOCKSIZE;
  s ← for_lt 0 (disks - 2) 1 (λ i s,
        s ← copy_to dptrs (DEVICE_DP_1 s.2) i off DMA_BLOCKSIZE s;
        copy_to dptrs (DEVICE_DP_2 s.2) i off2 DMA_BLOCKSIZE s) s;
  s ← on_card (λ c, launch full_grid (DEVICE_DP_1 c) (DEVICE_PQ_1 c) (disks - 3) c) s;
  s ← on_card (λ c, launch full_grid (DEVICE_DP_2 c) (DEVICE_PQ_2 c) (disks - 3) c) s;
  s ← copy_from dptrs (DEVICE_PQ_1 s.2) 0 (disks - 2) off DMA_BLOCKSIZE s;
  s ← copy_from dptrs (DEVICE_PQ_1 s.2) DMA_BLOCKSIZE (disks - 1) off DMA_BLOCKSIZE s;
  s ← copy_from dptrs (DEVICE_PQ_2 s.2) 0 (disks - 2) off2 DMA_BLOCKSIZE s;
  copy_from dptrs (DEVICE_PQ_2 s.2) DMA_BLOCKSIZE (disks - 1) off2 DMA_BLOCKSIZE s.

(** One block of [n] bytes at offset [off], as both single-block parts do it. *)
Definition one_block (disks : Z) (dptrs : list loc) (grid off n : Z) (s : mem * card) : result (mem * card) :=
  s ← for_lt 0 (disks - 2) 1 (λ i s, copy_to dptrs (DEVICE_DP_1 s.2) i off n s) s;
  s ← on_card (λ c, launch grid (DEVICE_DP_1 c) (DEVICE_PQ_1 c) (disks - 3) c) s;
  s ← copy_from dptrs (DEVICE_PQ_1 s.2) 0 (disks - 2) off n s;
  copy_from dptrs (DEVICE_PQ_1 s.2) DMA_BLOCKSIZE (disks - 1) off n s.

(** [raid6_cuda_gen_syndrome_synccopy]; [None] is [exit(1)]. *)
Definition raid6_cuda_gen_syndrome_synccopy (disks bytes : Z) (ptrs : list loc) (s : mem * card) :
    result (option (mem * card)) :=
  let '(m, c) := s in
  let dptrs := default ptrs (cd_dptrs c) in
  let c := set_cd_dptrs dptrs c in
  match get_card_mem c with
  | None => Ok None
  | Some c =>
      let runs := bytes / (DMA_BLOCKSIZE * 2) in
      s ← for_lt 0 runs 1 (two_blocks disks dptrs) (m, c);
      let j := runs in
      let carry_off := bytes - runs * 2 * DMA_BLOCKSIZE in
      '(j, carry_off, s) ←
        (if DMA_BLOCKSIZE <=? carry_off then
           off ← int_mul (j * 2) DMA_BLOCKSIZE;
           s ← one_block disks dptrs full_grid off DMA_BLOCKSIZE s;
           Ok (j * 2 + 1, carry_off - DMA_BLOCKSIZE, s)
         else Ok (j, carry_off, s));
      s ← (if 0 <? carry_off then
             off ← int_mul j DMA_BLOCKSIZE;
             one_block disks dptrs (carry_off / (THREAD_BLOCKSIZE * 8) + 1) off carry_off s
           else Ok s);
      Ok (Some s)
  end.

(** [release_card_memory]; [mem_tag] stays. *)
Definition release_card_memory (c : card) : card :=
  let m := cudaFree (cd_mem c) (DEVICE_DP_1 c) in
  let m := cudaFree m (DEVICE_PQ_1 c) in
  let m := cudaFree m (DEVICE_DP_2 c) in
  let m := cudaFree m (DEVICE_PQ_2 c) in
  set_cd_mem m c.

Definition raid6_cuda_gen_syndrome : Z → Z → list loc → mem * card → result (option (mem * card)) :=
  raid6_cuda_gen_syndrome_synccopy.
End host.

(** ** What a thread computes

    The top bits that MASK extracts replace the word instead of going to
    [w20], whose contents are those of the shared memory. *)
Definition cuda_step (g q d : Z) : Z := Z.lxor (Z.lxor (to_u8 (2 * mask_byte q)) (Z.land g 0x1d)) d.

Fixpoint cuda_q (g : Z) (col : list Z) : Z :=
  match col with
  | [] => 0
  | [x] => x
  | d :: col => cuda_step g (cuda_q g col) d
  end.

Lemma cuda_q_cons g d col : (0 < length col)%nat → cuda_q g (d :: col) = cuda_step g (cuda_q g col) d.
Proof. by destruct col; [cbn; lia|]. Qed.

Lemma is_byte_cuda_q g col : Forall is_byte col → is_byte (cuda_q g col).
Proof.
  destruct col as [|d [|x col]]; intros H; [apply is_byte_0|by inversion H|].
  inversion H; subst. cbn [cuda_q]. unfold cuda_step.
  assert (is_byte (Z.land g 29)).
  { apply is_byte_bounded. split; [apply Z.land_nonneg; lia|]. intros i Hi.
    rewrite Z.land_spec. change 29 with (Z.land 29 255). rewrite Z.land_spec.
    rewrite (Z.bits_above_log2 255) by (cbn; lia). by rewrite !andb_false_r. }
  auto with bcu.
Qed.

Lemma cuda_step_masked g g' q d : Z.land g 0x1d = Z.land g' 0x1d → cuda_step g q d = cuda_step g' q d.
Proof. unfold cuda_step. by intros ->. Qed.

(** One round of a thread, lane by lane. *)
Lemma syndrome_update_LE ps qs gs ds :
  Forall is_byte ps → Forall is_byte qs → Forall is_byte gs → Forall is_byte ds →
  length ps = 8%nat → length qs = 8%nat → length gs = 8%nat → length ds = 8%nat →
  syndrome_update (LE ds) (LE ps, LE qs, LE gs) =
    (LE (zip_with Z.lxor ps ds),
     LE (zip_with (λ gq d, cuda_step gq.1 gq.2 d) (zip gs qs) ds),
     LE ((λ g, Z.land g 0x1d) <$> gs)).
Proof.
  intros Hp Hq Hg Hd Lp Lq Lg Ld. unfold syndrome_update, NBYTES_CUDA.
  pose proof (mask_bytes qs Hq Lq) as Em. cbv zeta in Em. rewrite Em.
  assert (Forall is_byte (mask_byte <$> qs)) as Hm by (apply Forall_byte_fmap; auto with bcu).
  rewrite shl_bytes by (rewrite ?length_fmap; done).
  assert (is_byte 0x1d) as H1d by (unfold is_byte; lia).
  assert (Z.land (LE gs) (NBYTES 29) = LE ((λ g, Z.land g 0x1d) <$> gs)) as ->.
  { rewrite NBYTES_LE by done. change NSIZE with 8%nat. rewrite <-Lg. by apply LE_land_replicate. }
  assert (Forall is_byte ((λ g, Z.land g 0x1d) <$> gs)) as Hg'.
  { apply Forall_fmap. eapply Forall_impl; [exact Hg|]. cbn. auto with bcu. }
  assert (Forall is_byte ((λ b, to_u8 (2 * b)) <$> (mask_byte <$> qs))) as Hs
    by (apply Forall_byte_fmap; auto with bcu).
  rewrite !LE_lxor by (rewrite ?length_zip_with, ?length_fmap; auto using Forall_byte_lxor; lia).
  do 2 f_equal. f_equal. apply list_eq. intros i. rewrite !lookup_zip_with, !list_lookup_fmap.
  destruct (qs !! i), (ds !! i), (gs !! i); done.
Qed.

Lemma DMA_eq : DMA_BLOCKSIZE = 524288.
Proof. reflexivity. Qed.
Ltac dma := pose proof DMA_eq; lia.
#[local] Opaque DMA_BLOCKSIZE.

(** Byte [k] of the blocks of the first [n] disks on the card. *)
Definition card_byte (m : mem) (DP : loc) (z k : nat) : Z := peek m DP (Z.to_nat (Z.of_nat z * DMA_BLOCKSIZE) + k).
Definition card_column (m : mem) (DP : loc) (n k : nat) : list Z := (λ z, card_byte m DP z k) <$> seq 0 n.

Section thread.
Context (m : mem) (DP PQ : loc) (n : nat) (th : Z) (gs : list Z).
Context (Hn : (1 ≤ n ≤ 256)%nat) (Hth : 0 ≤ th) (Hth2 : th * 8 + 8 ≤ DMA_BLOCKSIZE).
Context (HDP : buf_ok m (DMA_BLOCKSIZE * 256) DP) (HPQ : buf_ok m (DMA_BLOCKSIZE * 2) PQ) (Hne : DP ≠ PQ).
Context (Hg : Forall is_byte gs) (Lg : length gs = 8%nat).

Abbreviation d := (Z.to_nat (th * 8)).
Abbreviation col := (card_column m DP n).

Lemma col_bytes k : Forall is_byte (col k).
Proof using All. unfold card_column. apply Forall_byte_fmap. intros z. by eapply is_byte_peek. Qed.

Lemma drop_col z k : (z < n)%nat → drop z (col k) = card_byte m DP z k :: drop (S z) (col k).
Proof using All.
  intros Hz. apply drop_S. unfold card_column. by rewrite list_lookup_fmap, lookup_seq_lt.
Qed.

(** The lanes of a word to which the disks from [z] on have contributed. *)
Definition lanes (F : nat → list Z → Z) (z : nat) : list Z := (λ i, F i (drop z (col (d + i)))) <$> seq 0 8.

Lemma length_lanes F z : length (lanes F z) = 8%nat.
Proof using All. unfold lanes. by rewrite length_fmap. Qed.

Lemma lanes_byte F z : (∀ i c, Forall is_byte c → is_byte (F i c)) → Forall is_byte (lanes F z).
Proof using All. intros HF. apply Forall_byte_fmap. intros i. apply HF, Forall_drop, col_bytes. Qed.

Definition lane_g (i : nat) : Z := default 0 (gs !! i).
Definition data_word (z : nat) : list Z := slice m DP (Z.of_nat z * DMA_BLOCKSIZE + th * 8) 8.

Lemma load_data z : (z < n)%nat →
  load_word m DP (Z.of_nat z * DMA_BLOCKSIZE + th * 8) = Ok (LE (data_word z)).
Proof using All.
  intros Hz. unfold data_word. change 8%nat with NSIZE.
  apply (load_word_ok m DP _ (DMA_BLOCKSIZE * 256)); [done|dma|]. change (Z.of_nat NSIZE) with 8. dma.
Qed.

Lemma data_word_lookup z i : (i < 8)%nat → data_word z !! i = Some (card_byte m DP z (d + i)).
Proof using All.
  intros Hi. unfold data_word. rewrite slice_lookup by done. unfold card_byte. do 2 f_equal. dma.
Qed.

Lemma data_word_byte z : Forall is_byte (data_word z).
Proof using All. by eapply Forall_byte_slice. Qed.

Lemma lanes_top F : (∀ i x, F i [x] = x) → data_word (n - 1) = lanes F (n - 1).
Proof using All.
  intros HF. apply list_eq_default with (d := 0); [by rewrite length_lanes; unfold data_word; rewrite length_slice|].
  unfold data_word at 1. rewrite length_slice. intros i Hi. rewrite data_word_lookup by done.
  unfold lanes. rewrite list_lookup_fmap, lookup_seq_lt by done. simp_default.
  rewrite drop_col by lia. rewrite drop_ge by (unfold card_column; rewrite length_fmap, length_seq; lia).
  by rewrite HF.
Qed.

(** The state of the loop when the disks from [z] on have been folded in; the
    slot of [w20] may have been masked. *)
Definition thread_inv (z : nat) (acc : Z * Z * Z) : Prop :=
  ∃ gs', length gs' = 8%nat ∧ Forall is_byte gs' ∧
    (∀ i, Z.land (default 0 (gs' !! i)) 0x1d = Z.land (lane_g i) 0x1d) ∧
    acc = (LE (lanes (λ _, gen_p) z), LE (lanes (λ i, cuda_q (lane_g i)) z), LE gs').

Lemma thread_inv_step z acc : (z < n - 1)%nat → thread_inv (S z) acc →
  thread_inv z (syndrome_update (LE (data_word z)) acc).
Proof using All.
  intros Hz (gs' & Lg' & Hg' & Heq & ->).
  assert (∀ (i : nat) c, Forall is_byte c → is_byte (gen_p c)) as Hp by (intros; auto with bcu).
  rewrite syndrome_update_LE; rewrite ?length_lanes; [|by auto using lanes_byte, is_byte_cuda_q, data_word_byte..|];
    [|by unfold data_word; rewrite length_slice].
  exists ((λ g, Z.land g 0x1d) <$> gs'). rewrite length_fmap. split_and!; [done| | |].
  - apply Forall_fmap. eapply Forall_impl; [exact Hg'|]. cbn. intros. apply is_byte_land; [done|unfold is_byte; lia].
  - intros i. rewrite <-Heq, list_lookup_fmap. destruct (gs' !! i) as [g|]; simp_default; [|done].
    rewrite <-Z.land_assoc. done.
  - do 2 f_equal; [f_equal|]; f_equal.
    + apply list_eq_default with (d := 0); [rewrite length_zip_with, !length_lanes; unfold data_word; by rewrite length_slice|].
      rewrite length_zip_with, length_lanes. unfold data_word. rewrite length_slice. intros i Hi. cbn in Hi.
      rewrite lookup_zip_with. fold (data_word z). rewrite data_word_lookup by done. unfold lanes.
      rewrite !list_lookup_fmap, lookup_seq_lt by done. simp_default. cbn [mbind option_bind].
      rewrite (drop_col z) by lia. simp_default. by rewrite gen_p_cons, Z.lxor_comm.
    + apply list_eq_default with (d := 0); [rewrite !length_zip_with, !length_lanes, Lg'; unfold data_word; by rewrite length_slice|].
      rewrite !length_zip_with, length_lanes, Lg'. unfold data_word. rewrite length_slice. intros i Hi. cbn in Hi.
      rewrite !lookup_zip_with. fold (data_word z). rewrite data_word_lookup by done. unfold lanes.
      rewrite !list_lookup_fmap, lookup_seq_lt by done.
      destruct (gs' !! i) as [g|] eqn:Eg; [|apply lookup_ge_None_1 in Eg; lia].
      simp_default. cbn [mbind option_bind fst snd]. rewrite (drop_col z) by lia. simp_default.
      rewrite cuda_q_cons by (rewrite length_drop; unfold card_column; rewrite length_fmap, length_seq; lia).
      apply cuda_step_masked. specialize (Heq i). by rewrite Eg in Heq.
Qed.

Lemma thread_loop : ∃ gs', for_down (n - 1) (λ z acc,
    wd0 ← load_word m DP (z * DMA_BLOCKSIZE + th * 8); Ok (syndrome_update wd0 acc))
  (LE (data_word (n - 1)), LE (data_word (n - 1)), LE gs) =
  Ok (LE (lanes (λ _, gen_p) 0), LE (lanes (λ i, cuda_q (lane_g i)) 0), gs').
Proof using All.
  destruct (for_down_inv thread_inv (λ z acc,
      wd0 ← load_word m DP (z * DMA_BLOCKSIZE + th * 8); Ok (syndrome_update wd0 acc)) (n - 1)
    (LE (data_word (n - 1)), LE (data_word (n - 1)), LE gs)) as (acc & E & gs' & _ & _ & _ & ->).
  - intros z acc Hz Hi. run load_data by lia. eexists. split; [done|]. by apply thread_inv_step.
  - exists gs. split_and!; [done|done|done|].
    rewrite (lanes_top (λ _, gen_p)) at 1 by (intros; unfold gen_p; apply Z.lxor_0_r).
    by rewrite (lanes_top (λ i, cuda_q (lane_g i))).
  - by eexists.
Qed.

(** The thread stores the eight bytes of its word to both check blocks. *)
Definition q_at (k : nat) : Z := cuda_q (lane_g (k - Z.to_nat DMA_BLOCKSIZE - d)) (col (k - Z.to_nat DMA_BLOCKSIZE)).

Lemma thread_ok : ∃ m', syndrome_block DP PQ (Z.of_nat (n - 1)) (LE gs) th m = Ok m' ∧
  (∀ b, b ≠ PQ → m' !! b = m !! b) ∧ (∀ b l, buf_ok m l b → buf_ok m' l b) ∧
  (∀ k, peek m' PQ k =
    if decide (d ≤ k < d + 8)%nat then gen_p (col k)
    else if decide (Z.to_nat DMA_BLOCKSIZE + d ≤ k < Z.to_nat DMA_BLOCKSIZE + d + 8)%nat then q_at k
    else peek m PQ k).
Proof using All.
  unfold syndrome_block. run load_data by lia. rewrite Nat2Z.id.
  destruct thread_loop as (gs' & E). run E.
  assert (lanes (λ _, gen_p) 0 = (λ i, gen_p (col (Z.to_nat (th * 8) + i)%nat)) <$> seq 0 NSIZE) as -> by done.
  destruct (store_word_fun m PQ (th * 8) (λ k, gen_p (col k)) (DMA_BLOCKSIZE * 2))
    as (m1 & E1 & F1 & _ & O1 & P1);
    [done|lia|change (Z.of_nat NSIZE) with 8; dma|intros; apply is_byte_gen_p, col_bytes|].
  run E1.
  assert (lanes (λ i, cuda_q (lane_g i)) 0 =
    (λ i, q_at (Z.to_nat (DMA_BLOCKSIZE + th * 8) + i)%nat) <$> seq 0 NSIZE) as ->.
  { unfold lanes, q_at. apply list_fmap_ext. intros x i Hx. apply lookup_seq in Hx as [-> _].
    cbn [plus]. rewrite drop_0. do 2 f_equal; f_equal; dma. }
  destruct (store_word_fun m1 PQ (DMA_BLOCKSIZE + th * 8) q_at (DMA_BLOCKSIZE * 2))
    as (m2 & E2 & F2 & _ & O2 & P2);
    [by apply O1|dma|change (Z.of_nat NSIZE) with 8; dma|intros; apply is_byte_cuda_q, col_bytes|].
  exists m2. split; [exact E2|]. split_and!.
  - intros b Hb. by rewrite F2, F1.
  - intros b l Hb. by apply O2, O1.
  - intros k. rewrite P2. change NSIZE with 8%nat in *. rewrite P1.
    repeat case_decide; try done; exfalso; dma.
Qed.
End thread.

(** ** A launch *)
Section launch.
Context (f : Z → list Z) (Hf : ∀ th, length (f th) = 8%nat ∧ Forall is_byte (f th)).
Context (m0 : mem) (DP PQ : loc) (n : nat) (grid : Z).
Context (Hn : (1 ≤ n ≤ 256)%nat) (Hgrid : grid * THREAD_BLOCKSIZE * 8 ≤ DMA_BLOCKSIZE).
Context (HDP : buf_ok m0 (DMA_BLOCKSIZE * 256) DP) (HPQ : buf_ok m0 (DMA_BLOCKSIZE * 2) PQ) (Hne : DP ≠ PQ).

(** Both check blocks at byte [k] are what the data blocks demand. *)
Definition checked (m : mem) (k : nat) : Prop :=
  peek m PQ k = gen_p (card_column m0 DP n k) ∧
  ∃ g, is_byte g ∧ peek m PQ (Z.to_nat DMA_BLOCKSIZE + k) = cuda_q g (card_column m0 DP n k).

Record launch_ok (ths : list Z) (m : mem) : Prop := {
  lo_frame : ∀ b, b ≠ PQ → m !! b = m0 !! b;
  lo_ok : ∀ b l, buf_ok m0 l b → buf_ok m l b;
  lo_done : ∀ k, Z.of_nat k / 8 ∈ ths → checked m k
}.

Lemma card_column_frame m k : m !! DP = m0 !! DP → card_column m DP n k = card_column m0 DP n k.
Proof using Type. intros E. unfold card_column, card_byte, peek. by rewrite E. Qed.

Lemma launch_step ths th m : (∀ t, t ∈ ths → 0 ≤ t < grid * THREAD_BLOCKSIZE) →
  0 ≤ th < grid * THREAD_BLOCKSIZE → launch_ok ths m →
  ∃ m', syndrome_block DP PQ (Z.of_nat (n - 1)) (LE (f th)) th m = Ok m' ∧ launch_ok (ths ++ [th]) m'.
Proof using All.
  intros Hths Hth [F O D]. destruct (Hf th) as [Lg Hg].
  destruct (thread_ok m DP PQ n th (f th)) as (m' & E & F' & O' & P'); [lia|lia|dma|by apply O..|done|done|done|].
  exists m'. split; [exact E|]. split.
  - intros b Hb. by rewrite F', F.
  - intros b l Hb. by apply O', O.
  - intros k Hk. assert (Hcol : ∀ k, card_column m DP n k = card_column m0 DP n k)
      by (intros; apply card_column_frame, F; done).
    assert (Z.of_nat k < DMA_BLOCKSIZE) as Hk2.
    { apply elem_of_app in Hk as [Hk|Hk]; [apply Hths in Hk|apply list_elem_of_singleton in Hk as <-];
        pose proof (Z.div_mod (Z.of_nat k) 8); pose proof (Z.mod_pos_bound (Z.of_nat k) 8); dma. }
    pose proof (Z.div_mod (Z.of_nat k) 8 ltac:(lia)). pose proof (Z.mod_pos_bound (Z.of_nat k) 8 ltac:(lia)).
    unfold checked. rewrite !P'. unfold q_at. rewrite !Hcol. destruct (decide (Z.of_nat k / 8 = th)) as [<-|Hkt].
    + rewrite decide_True by dma. split; [done|]. rewrite decide_False, decide_True by dma.
      replace (Z.to_nat DMA_BLOCKSIZE + k - Z.to_nat DMA_BLOCKSIZE)%nat with k by lia.
      eexists. split; [|done]. unfold lane_g. apply Forall_lookup_default; [apply is_byte_0|done].
    + apply elem_of_app in Hk as [Hk|Hk]; [|apply list_elem_of_singleton in Hk; done].
      rewrite !decide_False by dma. by apply D.
Qed.

Lemma card_threads_ok ths m : (∀ t, t ∈ ths → 0 ≤ t < grid * THREAD_BLOCKSIZE) → launch_ok [] m →
  ∃ m', run_threads (λ th, syndrome_block DP PQ (Z.of_nat (n - 1)) (LE (f th)) th) ths m = Ok m' ∧ launch_ok ths m'.
Proof using All.
  apply (run_threads_inv launch_ok _ (λ t, 0 ≤ t < grid * THREAD_BLOCKSIZE)).
  intros ths' th m' Hths Hth Hm. by apply launch_step.
Qed.
End launch.

(** ** The host side *)
Record card_ok (c : card) : Prop := {
  co_dp1 : buf_ok (cd_mem c) (DMA_BLOCKSIZE * 256) (DEVICE_DP_1 c);
  co_pq1 : buf_ok (cd_mem c) (DMA_BLOCKSIZE * 2) (DEVICE_PQ_1 c);
  co_dp2 : buf_ok (cd_mem c) (DMA_BLOCKSIZE * 256) (DEVICE_DP_2 c);
  co_pq2 : buf_ok (cd_mem c) (DMA_BLOCKSIZE * 2) (DEVICE_PQ_2 c);
  co_ne1 : DEVICE_DP_1 c ≠ DEVICE_PQ_1 c;
  co_ne2 : DEVICE_DP_2 c ≠ DEVICE_PQ_2 c;
  co_ne3 : DEVICE_DP_1 c ≠ DEVICE_DP_2 c;
  co_ne4 : DEVICE_PQ_1 c ≠ DEVICE_PQ_2 c;
  co_ne5 : DEVICE_DP_2 c ≠ DEVICE_PQ_1 c;
  co_ne6 : DEVICE_DP_1 c ≠ DEVICE_PQ_2 c
}.

(** What no operation on the card changes. *)
Record card_keeps (c c' : card) : Prop := {
  ck_dp1 : DEVICE_DP_1 c' = DEVICE_DP_1 c; ck_pq1 : DEVICE_PQ_1 c' = DEVICE_PQ_1 c;
  ck_dp2 : DEVICE_DP_2 c' = DEVICE_DP_2 c; ck_pq2 : DEVICE_PQ_2 c' = DEVICE_PQ_2 c;
  ck_tag : mem_tag c' = mem_tag c; ck_dptrs : cd_dptrs c' = cd_dptrs c;
  ck_ok : ∀ b l, buf_ok (cd_mem c) l b → buf_ok (cd_mem c') l b
}.
#[export] Instance card_keeps_preorder : PreOrder card_keeps.
Proof. split; [by split|]. intros c1 c2 c3 [] []. split; [congruence..|auto]. Qed.

Lemma card_ok_keeps c c' : card_keeps c c' → card_ok c → card_ok c'.
Proof.
  intros [E1 E2 E3 E4 _ _ Hok] []. split; rewrite ?E1, ?E2, ?E3, ?E4; try done; by apply Hok.
Qed.

Lemma keeps_set_mem c m : (∀ b l, buf_ok (cd_mem c) l b → buf_ok m l b) → card_keeps c (set_cd_mem m c).
Proof. intros H. by split. Qed.
Lemma keeps_launched c m : (∀ b l, buf_ok (cd_mem c) l b → buf_ok m l b) → card_keeps c (launched m c).
Proof. intros H. by split. Qed.

Section host_proofs.
Context {R : CudaRuntime} {L : CudaLaws R}.
Context (m0 : mem) (dptrs : list loc) (disks : nat) (bytes : Z).
Context (Hd : (3 ≤ disks ≤ 258)%nat) (Ha : array_ok m0 dptrs disks bytes).
Abbreviation data := (disks - 2)%nat.

(** [m'] is [m0] with P and the card's Q at the bytes [cov]. *)
Record writes_cuda (cov : nat → Prop) (m' : mem) : Prop := {
  wc_frame : ∀ b, dptrs !! (disks - 2)%nat ≠ Some b → dptrs !! (disks - 1)%nat ≠ Some b → m' !! b = m0 !! b;
  wc_ok : ∀ b l, buf_ok m0 l b → buf_ok m' l b;
  wc_p : ∀ p k, dptrs !! (disks - 2)%nat = Some p → cov k → peek m' p k = p_byte m0 dptrs disks k;
  wc_q : ∀ q k, dptrs !! (disks - 1)%nat = Some q → cov k →
    ∃ g, is_byte g ∧ peek m' q k = cuda_q g (column m0 dptrs data k);
  wc_rest : ∀ b k, ¬ cov k → peek m' b k = peek m0 b k
}.

Lemma writes_cuda_column cov m k : writes_cuda cov m → column m dptrs data k = column m0 dptrs data k.
Proof using Hd Ha.
  intros [F _ _ _ _]. apply column_frame. intros b (i & Hi & Hlt)%elem_of_take. unfold peek. rewrite F; [done|..].
  - intros E. pose proof (array_inj Ha i (disks - 2) b ltac:(lia) ltac:(lia) Hi E). lia.
  - intros E. pose proof (array_inj Ha i (disks - 1) b ltac:(lia) ltac:(lia) Hi E). lia.
Qed.

Lemma writes_cuda_array cov m : writes_cuda cov m → array_ok m dptrs disks bytes.
Proof using Ha. intros Hw. eapply array_ok_frame; [|exact Ha]. intros b Hb. by apply (wc_ok _ _ Hw). Qed.

Lemma writes_cuda_ext cov cov' m : (∀ k, cov k ↔ cov' k) → writes_cuda cov m → writes_cuda cov' m.
Proof using Type.
  intros H [F O P Q Re]. split; [done|done|..].
  - intros p k Hp Hk. apply P; [done|by apply H].
  - intros q k Hq Hk. apply Q; [done|by apply H].
  - intros b k Hk. apply Re. by rewrite H.
Qed.

(** The block of disk [z] on the card holds the [n] bytes from [off]. *)
Definition loaded (m dm : mem) (DP : loc) (off n : Z) (z : nat) : Prop :=
  ∀ b k, dptrs !! z = Some b → Z.of_nat k < n → card_byte dm DP z k = peek m b (Z.to_nat off + k).

Lemma copy_to_ok m c DP i off n : array_ok m dptrs disks bytes → buf_ok (cd_mem c) (DMA_BLOCKSIZE * 256) DP →
  (i < data)%nat → 0 ≤ off → 0 ≤ n ≤ DMA_BLOCKSIZE → off + n ≤ bytes →
  ∃ dm, copy_to dptrs DP (Z.of_nat i) off n (m, c) = Ok (m, set_cd_mem dm c) ∧
    (∀ b l, buf_ok (cd_mem c) l b → buf_ok dm l b) ∧ (∀ b, b ≠ DP → dm !! b = cd_mem c !! b) ∧
    loaded m dm DP off n i ∧ (∀ z, z ≠ i → loaded m (cd_mem c) DP off n z → loaded m dm DP off n z).
Proof using Hd L.
  intros Ham HDP Hi Hoff Hn Hb. unfold copy_to.
  run int_mul_ok by (unfold INT_MIN, INT_MAX; pose proof DMA_eq; nia).
  destruct (array_disk Ham i) as (b & Hbi & Hbo); [lia|].
  run (nth_ptr_nat dptrs (Z.of_nat i) i b) by done.
  destruct (cuda_copy_spec (cd_mem c) DP (Z.of_nat i * DMA_BLOCKSIZE) (DMA_BLOCKSIZE * 256) m b off bytes n)
    as (dm & E & [F _ O P]); [done|done|lia|dma|pose proof DMA_eq; nia|done|done|].
  run E. exists dm. split; [done|]. rewrite length_slice in P.
  split_and!; [done|done| |].
  - intros b' k Hb' Hk. rewrite Hbi in Hb'. injection Hb' as <-. unfold card_byte. rewrite P.
    rewrite decide_True by lia. rewrite slice_lookup by lia. simp_default. f_equal. lia.
  - intros z Hz Hl b' k Hb' Hk. rewrite <-(Hl b' k Hb' Hk). unfold card_byte. rewrite P.
    rewrite decide_False; [done|]. pose proof DMA_eq. nia.
Qed.

(** A launch on loaded blocks leaves P and the card's Q in [PQ]. *)
Definition ready (dm : mem) (PQ : loc) (off n : Z) : Prop := ∀ k, Z.of_nat k < n →
  peek dm PQ k = p_byte m0 dptrs disks (Z.to_nat off + k) ∧
  ∃ g, is_byte g ∧ peek dm PQ (Z.to_nat DMA_BLOCKSIZE + k) = cuda_q g (column m0 dptrs data (Z.to_nat off + k)).

Lemma loaded_column cov m dm DP off n k : writes_cuda cov m → (∀ z, (z < data)%nat → loaded m dm DP off n z) →
  Z.of_nat k < n → card_column dm DP data k = column m0 dptrs data (Z.to_nat off + k).
Proof using Hd Ha.
  intros Hw Hl Hk. rewrite <-(writes_cuda_column cov m _ Hw). pose proof (array_length Ha).
  apply list_eq_default with (d := 0).
  { rewrite length_column by lia. unfold card_column. by rewrite length_fmap, length_seq. }
  unfold card_column at 1. rewrite length_fmap, length_seq. intros i Hi.
  destruct (lookup_lt_is_Some_2 dptrs i) as [b Hb]; [lia|].
  rewrite (column_lookup m dptrs data _ i b) by done. unfold card_column.
  rewrite list_lookup_fmap, lookup_seq_lt by done. simp_default. by apply Hl.
Qed.

Lemma launch_ready cov m c DP PQ grid off n : writes_cuda cov m →
  buf_ok (cd_mem c) (DMA_BLOCKSIZE * 256) DP → buf_ok (cd_mem c) (DMA_BLOCKSIZE * 2) PQ → DP ≠ PQ →
  (∀ z, (z < data)%nat → loaded m (cd_mem c) DP off n z) →
  n ≤ grid * THREAD_BLOCKSIZE * 8 → grid * THREAD_BLOCKSIZE * 8 ≤ DMA_BLOCKSIZE →
  ∃ c', launch grid DP PQ (Z.of_nat disks - 3) c = Ok c' ∧ card_keeps c c' ∧
    (∀ b, b ≠ PQ → cd_mem c' !! b = cd_mem c !! b) ∧ ready (cd_mem c') PQ off n.
Proof using Hd Ha L.
  intros Hw HDP HPQ Hne Hl Hn Hgrid. unfold launch.
  pose proof (launch_order_ok (cd_launches c) (grid * THREAD_BLOCKSIZE)) as Hord.
  assert (∀ t, t ∈ launch_order (cd_launches c) (grid * THREAD_BLOCKSIZE) ↔ 0 ≤ t < grid * THREAD_BLOCKSIZE) as Hin.
  { intros t. rewrite Hord, elem_of_seqZ. lia. }
  destruct (card_threads_ok (λ th, uninit_shared (cd_launches c) th 8) (λ th, uninit_shared_ok (cd_launches c) th 8)
    (cd_mem c) DP PQ data grid ltac:(lia) Hgrid HDP HPQ Hne
    (launch_order (cd_launches c) (grid * THREAD_BLOCKSIZE)) (cd_mem c))
    as (dm & E & [F O D]); [intros t; by rewrite Hin|split; [done|done|by intros k ?%elem_of_nil]|].
  replace (Z.of_nat disks - 3) with (Z.of_nat (data - 1)) by lia. run E. eexists. split; [done|].
  split; [by apply keeps_launched|]. split; [done|]. intros k Hk. cbn [cd_mem launched].
  destruct (D k) as [HP HQ].
  { rewrite Hin. pose proof (Z.div_mod (Z.of_nat k) 8 ltac:(lia)).
    pose proof (Z.mod_pos_bound (Z.of_nat k) 8 ltac:(lia)). lia. }
  rewrite (loaded_column cov m (cd_mem c) DP off n k Hw Hl Hk) in HP, HQ. done.
Qed.

(** Copying a block to the card, and two at a time. *)
Lemma copy_block_ok m c off n : array_ok m dptrs disks bytes → card_ok c →
  0 ≤ off → 0 ≤ n ≤ DMA_BLOCKSIZE → off + n ≤ bytes →
  ∃ c', for_lt 0 (Z.of_nat disks - 2) 1 (λ i s, copy_to dptrs (DEVICE_DP_1 s.2) i off n s) (m, c) = Ok (m, c') ∧
    card_keeps c c' ∧ (∀ z, (z < data)%nat → loaded m (cd_mem c') (DEVICE_DP_1 c) off n z).
Proof using Hd L.
  intros Ham Hc Hoff Hn Hb.
  destruct (for_lt_inv (λ i (s : mem * card), s.1 = m ∧ card_keeps c s.2 ∧
      ∀ z, Z.of_nat z < i → loaded m (cd_mem s.2) (DEVICE_DP_1 c) off n z)
    (λ i s, copy_to dptrs (DEVICE_DP_1 s.2) i off n s) 0 (Z.of_nat disks - 2) 1) with (s := (m, c))
    as ([m' c'] & E & Hm & Hk & Hl); [lia|done|unfold INT_MAX; lia| | |].
  - intros i [m1 c1] Hi _ (Hm & Hk & Hl). cbn in Hm, Hk, Hl. subst m1.
    pose proof (card_ok_keeps _ _ Hk Hc) as Hc1. cbn [snd].
    destruct (copy_to_ok m c1 (DEVICE_DP_1 c1) (Z.to_nat i) off n) as (dm & E & O & _ & Hi1 & Hl1);
      [done|apply Hc1|lia|done..|].
    rewrite Z2Nat.id in E by lia. eexists. split; [exact E|]. cbn [fst snd]. split; [done|].
    split; [by etrans; [|apply keeps_set_mem]|]. rewrite (ck_dp1 _ _ Hk) in *. intros z Hz.
    destruct (decide (z = Z.to_nat i)) as [->|Hne]; [done|]. apply Hl1; [done|apply Hl; lia].
  - split; [done|]. split; [done|]. intros; lia.
  - cbn in Hm, Hk, Hl. subst m'. exists c'. split; [done|]. split; [done|]. intros z Hz. apply Hl.
    rewrite (loop_end_unique _ _ _ (Z.of_nat disks - 2) (Z.of_nat disks - 2)) by lia. lia.
Qed.

Lemma copy_two_ok m c off off2 n : array_ok m dptrs disks bytes → card_ok c →
  0 ≤ off → 0 ≤ off2 → 0 ≤ n ≤ DMA_BLOCKSIZE → off + n ≤ bytes → off2 + n ≤ bytes →
  ∃ c', for_lt 0 (Z.of_nat disks - 2) 1 (λ i s,
      s ← copy_to dptrs (DEVICE_DP_1 s.2) i off n s; copy_to dptrs (DEVICE_DP_2 s.2) i off2 n s) (m, c) = Ok (m, c') ∧
    card_keeps c c' ∧ (∀ z, (z < data)%nat → loaded m (cd_mem c') (DEVICE_DP_1 c) off n z) ∧
    (∀ z, (z < data)%nat → loaded m (cd_mem c') (DEVICE_DP_2 c) off2 n z).
Proof using Hd L.
  intros Ham Hc Hoff Hoff2 Hn Hb Hb2.
  destruct (for_lt_inv (λ i (s : mem * card), s.1 = m ∧ card_keeps c s.2 ∧
      (∀ z, Z.of_nat z < i → loaded m (cd_mem s.2) (DEVICE_DP_1 c) off n z) ∧
      (∀ z, Z.of_nat z < i → loaded m (cd_mem s.2) (DEVICE_DP_2 c) off2 n z))
    (λ i s, s ← copy_to dptrs (DEVICE_DP_1 s.2) i off n s; copy_to dptrs (DEVICE_DP_2 s.2) i off2 n s)
    0 (Z.of_nat disks - 2) 1) with (s := (m, c))
    as ([m' c'] & E & Hm & Hk & Hl & Hl'); [lia|done|unfold INT_MAX; lia| | |].
  - intros i [m1 c1] Hi _ (Hm & Hk & Hl & Hl'). cbn in Hm, Hk, Hl, Hl'. subst m1.
    pose proof (card_ok_keeps _ _ Hk Hc) as Hc1. cbn [snd].
    destruct (copy_to_ok m c1 (DEVICE_DP_1 c1) (Z.to_nat i) off n) as (dm & E & O & F & Hi1 & Hl1);
      [done|apply Hc1|lia|done..|].
    rewrite Z2Nat.id in E by lia. run E. cbn [snd]. set (c2 := set_cd_mem dm c1).
    assert (Hk2 : card_keeps c1 c2) by (by apply keeps_set_mem). pose proof (card_ok_keeps _ _ Hk2 Hc1) as Hc2.
    destruct (copy_to_ok m c2 (DEVICE_DP_2 c2) (Z.to_nat i) off2 n) as (dm2 & E2 & O2 & F2 & Hi2 & Hl2);
      [done|apply Hc2|lia|done..|].
    rewrite Z2Nat.id in E2 by lia. eexists. split; [exact E2|]. cbn [fst snd]. split; [done|].
    split; [by etrans; [exact Hk|]; etrans; [exact Hk2|apply keeps_set_mem]|].
    pose proof (co_ne3 _ Hc) as Hne. change (DEVICE_DP_2 c2) with (DEVICE_DP_2 c1) in *.
    rewrite (ck_dp1 _ _ Hk), (ck_dp2 _ _ Hk) in *. cbn [cd_mem set_cd_mem c2] in *. split; intros z Hz.
    + assert (loaded m dm (DEVICE_DP_1 c) off n z) as Hz1.
      { destruct (decide (z = Z.to_nat i)) as [->|]; [done|]. apply Hl1; [done|apply Hl; lia]. }
      intros b k Hzb Hkn. rewrite <-(Hz1 b k Hzb Hkn). unfold card_byte, peek. by rewrite F2.
    + destruct (decide (z = Z.to_nat i)) as [->|Hzi]; [done|]. apply Hl2; [done|].
      intros b k Hzb Hkn. rewrite <-(Hl' z ltac:(lia) b k Hzb Hkn). unfold card_byte, peek. by rewrite F.
  - split; [done|]. split; [done|]. split; intros; lia.
  - cbn in Hm, Hk, Hl, Hl'. subst m'. exists c'. split; [done|].
    rewrite (loop_end_unique _ _ _ (Z.of_nat disks - 2) (Z.of_nat disks - 2)) in Hl, Hl' by lia.
    split; [done|]. split; intros z Hz; [apply Hl|apply Hl']; lia.
Qed.

Definition in_block (off n : Z) (k : nat) : Prop := off ≤ Z.of_nat k < off + n.

Lemma copy_from_ok m c PQ poff i off n b : array_ok m dptrs disks bytes → buf_ok (cd_mem c) (DMA_BLOCKSIZE * 2) PQ →
  (i < disks)%nat → dptrs !! i = Some b → 0 ≤ poff → poff + n ≤ DMA_BLOCKSIZE * 2 → 0 ≤ off → 0 ≤ n → off + n ≤ bytes →
  ∃ m', copy_from dptrs PQ poff (Z.of_nat i) off n (m, c) = Ok (m', c) ∧
    stored m b (Z.to_nat off) (slice (cd_mem c) PQ poff (Z.to_nat n)) m'.
Proof using Hd L.
  intros Ham HPQ Hi Hb Hp Hpn Hoff Hn Hbn. unfold copy_from. run (nth_ptr_nat dptrs (Z.of_nat i) i b) by done.
  destruct (cuda_copy_spec m b off bytes (cd_mem c) PQ poff (DMA_BLOCKSIZE * 2) n) as (m' & E & Hs);
    [by eapply array_ptr|done..|].
  run E. by exists m'.
Qed.

(** Copying both check blocks back. *)
Lemma fetch_ok cov m c PQ off n : writes_cuda cov m → buf_ok (cd_mem c) (DMA_BLOCKSIZE * 2) PQ →
  ready (cd_mem c) PQ off n → 0 ≤ off → 0 ≤ n ≤ DMA_BLOCKSIZE → off + n ≤ bytes →
  ∃ m1 m2, copy_from dptrs PQ 0 (Z.of_nat disks - 2) off n (m, c) = Ok (m1, c) ∧
    copy_from dptrs PQ DMA_BLOCKSIZE (Z.of_nat disks - 1) off n (m1, c) = Ok (m2, c) ∧
    writes_cuda (λ k, cov k ∨ in_block off n k) m2.
Proof using Hd Ha L.
  intros Hw HPQ Hr Hoff Hn Hb. destruct (check_disks m0 dptrs disks bytes) as (p & q & Hp & Hq & Hpq & _); [lia|done|].
  pose proof (writes_cuda_array _ _ Hw) as Ham.
  destruct (copy_from_ok m c PQ 0 (disks - 2) off n p) as (m1 & E1 & S1); [done|done|lia|done|lia|dma|lia..|].
  assert (array_ok m1 dptrs disks bytes) as Ham1 by (eapply array_ok_frame; [|exact Ham]; intros; by apply S1).
  destruct (copy_from_ok m1 c PQ DMA_BLOCKSIZE (disks - 1) off n q) as (m2 & E2 & S2);
    [done|done|lia|done|dma|dma|lia..|].
  replace (Z.of_nat (disks - 2)) with (Z.of_nat disks - 2) in E1 by lia.
  replace (Z.of_nat (disks - 1)) with (Z.of_nat disks - 1) in E2 by lia.
  exists m1, m2. split; [exact E1|]. split; [exact E2|].
  destruct S1 as [F1 _ O1 P1], S2 as [F2 _ O2 P2]. rewrite length_slice in P1, P2. split.
  - intros b Hb1 Hb2. rewrite F2, F1 by congruence. by apply Hw.
  - intros b l Hbo. by apply O2, O1, Hw.
  - intros p' k Hp' Hk. rewrite Hp in Hp'. injection Hp' as <-. unfold peek at 1. rewrite F2 by done. fold (peek m1 p k).
    rewrite P1. case_decide as Hin.
    + rewrite slice_lookup by lia. simp_default. destruct (Hr (k - Z.to_nat off)%nat) as [HP _]; [lia|].
      replace (Z.to_nat 0 + (k - Z.to_nat off))%nat with (k - Z.to_nat off)%nat by lia. rewrite HP. f_equal. lia.
    + destruct Hk as [Hk|Hk]; [by apply Hw|]. unfold in_block in Hk. lia.
  - intros q' k Hq' Hk. rewrite Hq in Hq'. injection Hq' as <-. rewrite P2. case_decide as Hin.
    + rewrite slice_lookup by lia. simp_default. destruct (Hr (k - Z.to_nat off)%nat) as [_ (g & Hg & HQ)]; [lia|].
      exists g. split; [done|]. rewrite HQ. f_equal. f_equal. lia.
    + destruct Hk as [Hk|Hk]; [|unfold in_block in Hk; lia]. unfold peek. rewrite F1 by done. by apply Hw.
  - intros b k Hk. assert (¬ cov k ∧ ¬ in_block off n k) as [Hk1 Hk2] by tauto. unfold in_block in Hk2.
    rewrite <-(wc_rest _ _ Hw b k Hk1). destruct (decide (b = q)) as [->|Hbq].
    + rewrite P2. rewrite decide_False by lia. unfold peek. by rewrite F1.
    + unfold peek at 1. rewrite F2 by done. fold (peek m1 b k). destruct (decide (b = p)) as [->|Hbp].
      * rewrite P1. by rewrite decide_False by lia.
      * unfold peek. by rewrite F1.
Qed.

(** One block: copied, processed and copied back. *)
Lemma one_block_ok cov m c grid off n : writes_cuda cov m → card_ok c → 0 ≤ off → 0 ≤ n ≤ DMA_BLOCKSIZE →
  off + n ≤ bytes → n ≤ grid * THREAD_BLOCKSIZE * 8 → grid * THREAD_BLOCKSIZE * 8 ≤ DMA_BLOCKSIZE →
  ∃ m' c', one_block (Z.of_nat disks) dptrs grid off n (m, c) = Ok (m', c') ∧ card_keeps c c' ∧
    writes_cuda (λ k, cov k ∨ in_block off n k) m'.
Proof using Hd Ha L.
  intros Hw Hc Hoff Hn Hb Hg1 Hg2. unfold one_block. pose proof (writes_cuda_array _ _ Hw) as Ham.
  destruct (copy_block_ok m c off n) as (c1 & E1 & K1 & Hl); [done..|]. run E1.
  pose proof (card_ok_keeps _ _ K1 Hc) as Hc1. rewrite <-(ck_dp1 _ _ K1) in Hl.
  destruct (launch_ready cov m c1 (DEVICE_DP_1 c1) (DEVICE_PQ_1 c1) grid off n) as (c2 & E2 & K2 & _ & Hr);
    [done|apply Hc1|apply Hc1|apply Hc1|done|done|done|].
  unfold on_card. run E2. cbn [snd]. pose proof (card_ok_keeps _ _ K2 Hc1) as Hc2.
  rewrite <-(ck_pq1 _ _ K2) in Hr.
  destruct (fetch_ok cov m c2 (DEVICE_PQ_1 c2) off n) as (m1 & m2 & E3 & E4 & Hw2); [done|apply Hc2|done..|].
  run E3. cbn [snd]. rewrite E4. exists m2, c2. split; [done|]. split; [by etrans|done].
Qed.

Lemma full_grid_eq : full_grid * THREAD_BLOCKSIZE * 8 = DMA_BLOCKSIZE.
Proof using Type. reflexivity. Qed.

Lemma two_blocks_ok cov m c j : writes_cuda cov m → card_ok c → 0 ≤ j →
  j * 2 * DMA_BLOCKSIZE + 2 * DMA_BLOCKSIZE ≤ bytes → bytes ≤ INT_MAX →
  ∃ m' c', two_blocks (Z.of_nat disks) dptrs j (m, c) = Ok (m', c') ∧ card_keeps c c' ∧
    writes_cuda (λ k, cov k ∨ in_block (j * 2 * DMA_BLOCKSIZE) (2 * DMA_BLOCKSIZE) k) m'.
Proof using Hd Ha L.
  intros Hw Hc Hj Hb Hmax. unfold two_blocks. pose proof DMA_eq as HD.
  set (off := j * 2 * DMA_BLOCKSIZE) in *. assert (0 ≤ off) as Hoff by (unfold off; lia).
  run int_mul_ok by (unfold INT_MIN, INT_MAX in *; fold off; lia). fold off. run int_add_ok by (unfold INT_MIN, INT_MAX in *; lia). pose proof (writes_cuda_array _ _ Hw) as Ham.
  destruct (copy_two_ok m c off (off + DMA_BLOCKSIZE) DMA_BLOCKSIZE) as (c1 & E1 & K1 & Hl1 & Hl2); [done|done|lia..|].
  run E1. pose proof (card_ok_keeps _ _ K1 Hc) as Hc1. rewrite <-(ck_dp1 _ _ K1) in Hl1. rewrite <-(ck_dp2 _ _ K1) in Hl2.
  pose proof full_grid_eq as Hfg.
  destruct (launch_ready cov m c1 (DEVICE_DP_1 c1) (DEVICE_PQ_1 c1) full_grid off DMA_BLOCKSIZE)
    as (c2 & E2 & K2 & F2 & Hr1); [done|apply Hc1|apply Hc1|apply Hc1|done|lia|lia|].
  unfold on_card. run E2. pose proof (card_ok_keeps _ _ K2 Hc1) as Hc2.
  assert (∀ z, (z < data)%nat → loaded m (cd_mem c2) (DEVICE_DP_2 c2) (off + DMA_BLOCKSIZE) DMA_BLOCKSIZE z) as Hl3.
  { intros z Hz b k Hzb Hk. rewrite <-(Hl2 z Hz b k Hzb Hk), (ck_dp2 _ _ K2). unfold card_byte, peek.
    rewrite F2; [done|]. apply Hc1. }
  destruct (launch_ready cov m c2 (DEVICE_DP_2 c2) (DEVICE_PQ_2 c2) full_grid (off + DMA_BLOCKSIZE) DMA_BLOCKSIZE)
    as (c3 & E3 & K3 & F3 & Hr2); [done|apply Hc2|apply Hc2|apply Hc2|done|lia|lia|].
  run E3. pose proof (card_ok_keeps _ _ K3 Hc2) as Hc3. cbn [snd].
  assert (ready (cd_mem c3) (DEVICE_PQ_1 c3) off DMA_BLOCKSIZE) as Hr3.
  { intros k Hk. rewrite (ck_pq1 _ _ K3), (ck_pq1 _ _ K2). destruct (Hr1 k Hk) as [HP HQ]. unfold peek.
    rewrite F3; [done|]. rewrite <-(ck_pq1 _ _ K2). apply Hc2. }
  rewrite <-(ck_pq2 _ _ K3) in Hr2.
  destruct (fetch_ok cov m c3 (DEVICE_PQ_1 c3) off DMA_BLOCKSIZE) as (m1 & m2 & E4 & E5 & Hw2);
    [done|apply Hc3|done|lia..|].
  run E4. cbn [snd]. run E5. cbn [snd].
  destruct (fetch_ok _ m2 c3 (DEVICE_PQ_2 c3) (off + DMA_BLOCKSIZE) DMA_BLOCKSIZE Hw2) as (m3 & m4 & E6 & E7 & Hw4);
    [apply Hc3|done|lia..|].
  run E6. cbn [snd]. rewrite E7. exists m4, c3. split; [done|]. split; [by etrans; [exact K1|]; etrans|].
  eapply writes_cuda_ext; [|exact Hw4]. intros k. unfold in_block. cbn beta. split; intros; destruct_or?; lia || tauto.
Qed.

(** The bytes of a call of size [bytes] that are processed. *)
Definition covered (k : nat) : Prop :=
  let runs := bytes / (DMA_BLOCKSIZE * 2) in
  let carry := bytes - runs * 2 * DMA_BLOCKSIZE in
  Z.of_nat k < runs * 2 * DMA_BLOCKSIZE ∨ (DMA_BLOCKSIZE ≤ carry ∧ Z.of_nat k < bytes) ∨
  (carry < DMA_BLOCKSIZE ∧ in_block (runs * DMA_BLOCKSIZE) carry k).

Lemma pairs_ok c runs : card_ok c → 0 ≤ runs → runs * 2 * DMA_BLOCKSIZE ≤ bytes → bytes ≤ INT_MAX →
  ∃ m' c', for_lt 0 runs 1 (two_blocks (Z.of_nat disks) dptrs) (m0, c) = Ok (m', c') ∧ card_keeps c c' ∧
    writes_cuda (λ k, Z.of_nat k < runs * 2 * DMA_BLOCKSIZE) m'.
Proof using Hd Ha L.
  intros Hc Hr Hb Hmax. pose proof DMA_eq as HD.
  destruct (for_lt_inv (λ i (s : mem * card), card_keeps c s.2 ∧
      writes_cuda (λ k, Z.of_nat k < i * 2 * DMA_BLOCKSIZE) s.1)
    (two_blocks (Z.of_nat disks) dptrs) 0 runs 1) with (s := (m0, c))
    as ([m' c'] & E & Hk & Hw); [lia|done|unfold INT_MAX in *; lia| | |].
  - intros i [m1 c1] Hi _ [Hk Hw]. cbn in Hk, Hw.
    destruct (two_blocks_ok _ m1 c1 i Hw) as (m2 & c2 & E & K & Hw2); [by eapply card_ok_keeps|lia|lia|lia|].
    exists (m2, c2). split; [done|]. split; [by etrans|]. eapply writes_cuda_ext; [|exact Hw2].
    intros k. cbn beta. unfold in_block. lia.
  - split; [done|]. split; try done; intros; lia.
  - rewrite (loop_end_unique _ _ _ runs runs) in Hw by lia. by exists m', c'.
Qed.

(** The two single-block parts. *)
Lemma tail_ok m c runs : let carry := bytes - runs * 2 * DMA_BLOCKSIZE in
  writes_cuda (λ k, Z.of_nat k < runs * 2 * DMA_BLOCKSIZE) m → card_ok c →
  runs = bytes / (DMA_BLOCKSIZE * 2) → 0 ≤ bytes ≤ INT_MAX →
  ∃ s1 m' c', (if DMA_BLOCKSIZE <=? carry then
      off ← int_mul (runs * 2) DMA_BLOCKSIZE;
      s ← one_block (Z.of_nat disks) dptrs full_grid off DMA_BLOCKSIZE (m, c);
      Ok (runs * 2 + 1, carry - DMA_BLOCKSIZE, s)
    else Ok (runs, carry, (m, c))) = Ok s1 ∧
    (if 0 <? s1.1.2 then
       off ← int_mul s1.1.1 DMA_BLOCKSIZE;
       one_block (Z.of_nat disks) dptrs (s1.1.2 / (THREAD_BLOCKSIZE * 8) + 1) off s1.1.2 s1.2
     else Ok s1.2) = Ok (m', c') ∧ card_keeps c c' ∧ writes_cuda covered m'.
Proof using Hd Ha L.
  intros carry Hw Hc Hr Hb. pose proof DMA_eq as HD. pose proof full_grid_eq as Hfg.
  assert (0 ≤ runs ∧ 0 ≤ carry < 2 * DMA_BLOCKSIZE) as [Hr0 Hc0].
  { subst carry runs. rewrite HD. Z.to_euclidean_division_equations. lia. }
  assert (∀ n, 0 ≤ n → n < DMA_BLOCKSIZE →
    n ≤ (n / (THREAD_BLOCKSIZE * 8) + 1) * THREAD_BLOCKSIZE * 8 ∧
    (n / (THREAD_BLOCKSIZE * 8) + 1) * THREAD_BLOCKSIZE * 8 ≤ DMA_BLOCKSIZE) as Hgrid.
  { intros n Hn1 Hn2. unfold THREAD_BLOCKSIZE. rewrite HD in *. Z.to_euclidean_division_equations. lia. }
  assert (∀ s1, (∃ m1 c1, s1.2 = (m1, c1) ∧ card_ok c1 ∧ card_keeps c c1 ∧ 0 ≤ s1.1.2 < DMA_BLOCKSIZE ∧
      0 ≤ s1.1.1 ∧ s1.1.1 * DMA_BLOCKSIZE + s1.1.2 ≤ bytes ∧ ∃ cov, writes_cuda cov m1 ∧
        ∀ k, cov k ∨ in_block (s1.1.1 * DMA_BLOCKSIZE) s1.1.2 k ↔ covered k) →
    ∃ m' c', (if 0 <? s1.1.2 then
       off ← int_mul s1.1.1 DMA_BLOCKSIZE;
       one_block (Z.of_nat disks) dptrs (s1.1.2 / (THREAD_BLOCKSIZE * 8) + 1) off s1.1.2 s1.2
     else Ok s1.2) = Ok (m', c') ∧ card_keeps c c' ∧ writes_cuda covered m') as Hlast.
  { intros [[j n] s] (m1 & c1 & Es & Hc1 & Hk1 & Hn & Hj & Hbj & cov & Hw1 & Hcov). cbn in *. subst s.
    destruct (Z.ltb_spec 0 n).
    - run int_mul_ok by (unfold INT_MIN, INT_MAX in *; lia).
      destruct (Hgrid n) as [Hg1 Hg2]; [lia|lia|].
      destruct (one_block_ok cov m1 c1 (n / (THREAD_BLOCKSIZE * 8) + 1) (j * DMA_BLOCKSIZE) n) as (m2 & c2 & E & K & Hw2);
        [done|done|lia|lia|lia|done|done|].
      exists m2, c2. split; [exact E|]. split; [by etrans|]. eapply writes_cuda_ext; [|exact Hw2]. done.
    - exists m1, c1. split; [done|]. split; [done|]. eapply writes_cuda_ext; [|exact Hw1].
      intros k. rewrite <-Hcov. unfold in_block. assert (n = 0) as -> by lia. split; [by left|intros [?|?]; [done|lia]]. }
  destruct (Z.leb_spec DMA_BLOCKSIZE carry) as [Hcar|Hcar].
  - run int_mul_ok by (unfold INT_MIN, INT_MAX in *; unfold carry in *; lia).
    destruct (one_block_ok _ m c full_grid (runs * 2 * DMA_BLOCKSIZE) DMA_BLOCKSIZE Hw Hc) as (m1 & c1 & E & K & Hw1);
      [lia|lia|unfold carry in *; lia|lia|lia|].
    run E. destruct (Hlast (runs * 2 + 1, carry - DMA_BLOCKSIZE, (m1, c1))) as (m' & c' & E' & K' & Hw').
    { exists m1, c1. cbn [fst snd]. split; [done|]. split; [by eapply card_ok_keeps|]. split; [done|].
      split; [lia|]. split; [lia|]. split; [unfold carry in *; lia|]. eexists. split; [exact Hw1|].
      intros k. unfold covered, in_block. rewrite <-Hr. cbv zeta. fold carry. unfold carry. lia. }
    eexists _, m', c'. split; [done|]. split_and!; done.
  - destruct (Hlast (runs, carry, (m, c))) as (m' & c' & E' & K' & Hw').
    { exists m, c. cbn [fst snd]. split; [done|]. split; [done|]. split; [done|].
      split; [lia|]. split; [lia|]. split; [unfold carry in *; lia|]. eexists. split; [exact Hw|].
      intros k. unfold covered, in_block. rewrite <-Hr. cbv zeta. fold carry. lia. }
    eexists _, m', c'. split; [done|]. split_and!; done.
Qed.

Lemma get_card_mem_some c : (∀ m n, 0 ≤ n → is_Some (cudaMalloc m n)) → is_Some (get_card_mem c).
Proof using Hd.
  intros H. unfold get_card_mem. destruct (mem_tag c); [by eexists|]. pose proof DMA_eq as HD.
  assert (0 ≤ DMA_BLOCKSIZE * 256 ∧ 0 ≤ DMA_BLOCKSIZE * 2) as [H1 H2] by lia.
  destruct (H (cd_mem c) _ H1) as [[b1 m1] ->]. cbn [mbind option_bind].
  destruct (H m1 _ H2) as [[b2 m2] ->]. cbn [mbind option_bind].
  destruct (H m2 _ H1) as [[b3 m3] ->]. cbn [mbind option_bind].
  destruct (H m3 _ H2) as [[b4 m4] ->]. by eexists.
Qed.

(** The card between calls. *)
Definition card_inv (c : card) : Prop := mem_tag c = true → card_ok c.

Lemma get_card_mem_ok c c' : card_inv c → get_card_mem c = Some c' →
  card_ok c' ∧ mem_tag c' = true ∧ cd_dptrs c' = cd_dptrs c.
Proof using Hd L.
  intros Hc. unfold get_card_mem. destruct (mem_tag c) eqn:Et; [intros [= <-]; auto|].
  destruct (cudaMalloc (cd_mem c) (DMA_BLOCKSIZE * 256)) as [[dp1 m1]|] eqn:E1; [cbn|done].
  destruct (cudaMalloc m1 (DMA_BLOCKSIZE * 2)) as [[pq1 m2]|] eqn:E2; [cbn|done].
  destruct (cudaMalloc m2 (DMA_BLOCKSIZE * 256)) as [[dp2 m3]|] eqn:E3; [cbn|done].
  destruct (cudaMalloc m3 (DMA_BLOCKSIZE * 2)) as [[pq2 m4]|] eqn:E4; [cbn|done]. intros [= <-].
  apply cudaMalloc_ok in E1 as (N1 & b1 & -> & L1 & B1). apply cudaMalloc_ok in E2 as (N2 & b2 & -> & L2 & B2).
  apply cudaMalloc_ok in E3 as (N3 & b3 & -> & L3 & B3). apply cudaMalloc_ok in E4 as (N4 & b4 & -> & L4 & B4).
  rewrite !lookup_insert_None in *. destruct N2 as [_ N2], N3 as [[_ N3] N3'], N4 as [[[_ N4] N4'] N4''].
  split; [|done]. split; cbn [cd_mem DEVICE_DP_1 DEVICE_PQ_1 DEVICE_DP_2 DEVICE_PQ_2]; try congruence;
    apply buf_ok_Some; rewrite ?lookup_insert_ne by congruence; rewrite lookup_insert_eq;
    eexists; (split; [done|]); (split; [lia|done]).
Qed.

(** A call, whatever array it is given: it works on the array of the first
    call. *)
Lemma synccopy_run c ptrs : dptrs = default ptrs (cd_dptrs c) → card_inv c → 0 ≤ bytes ≤ INT_MAX →
  (get_card_mem (set_cd_dptrs dptrs c) = None ∧
   raid6_cuda_gen_syndrome (Z.of_nat disks) bytes ptrs (m0, c) = Ok None) ∨
  ∃ m' c', raid6_cuda_gen_syndrome (Z.of_nat disks) bytes ptrs (m0, c) = Ok (Some (m', c')) ∧
    card_ok c' ∧ mem_tag c' = true ∧ cd_dptrs c' = Some dptrs ∧ writes_cuda covered m'.
Proof using Hd Ha L.
  intros Hptrs Hc Hb. unfold raid6_cuda_gen_syndrome, raid6_cuda_gen_syndrome_synccopy. rewrite <-Hptrs.
  destruct (get_card_mem (set_cd_dptrs dptrs c)) as [c1|] eqn:E; [right|by left].
  apply get_card_mem_ok in E as (Hc1 & Ht1 & Hp1); [|by intros Ht; destruct (Hc Ht); split]. pose proof DMA_eq as HD.
  destruct (pairs_ok c1 (bytes / (DMA_BLOCKSIZE * 2)) Hc1) as (m2 & c2 & E2 & K2 & Hw2).
  { apply Z.div_pos; lia. } { rewrite HD. Z.to_euclidean_division_equations. lia. } { lia. }
  run E2. pose proof (card_ok_keeps _ _ K2 Hc1) as Hc2.
  destruct (tail_ok m2 c2 _ Hw2 Hc2 eq_refl Hb) as ([[j n] s1] & m3 & c3 & E3 & E4 & K3 & Hw3).
  run E3. cbn [fst snd] in E4. run E4. exists m3, c3.
  assert (card_keeps c1 c3) as K by (by etrans). split; [done|]. split; [by eapply card_ok_keeps|].
  rewrite (ck_tag _ _ K), (ck_dptrs _ _ K), Ht1, Hp1. done.
Qed.
End host_proofs.

(** On data bytes without a top bit, the card's Q is disk 0 and garbage. *)
Lemma cuda_q_low g col d0 d1 : Forall (λ x, 0 ≤ x < 128) (d0 :: d1 :: col) →
  cuda_q g (d0 :: d1 :: col) = Z.lxor (Z.land g 0x1d) d0.
Proof.
  assert (∀ c, Forall (λ x, 0 ≤ x < 128) c → Z.testbit (cuda_q g c) 7 = false) as Htop.
  { assert (∀ x, 0 ≤ x < 128 → Z.testbit x 7 = false) as Hx.
    { intros x Hx. apply (Z.bounded_iff_bits_nonneg' 7); [lia|lia|exact Hx|lia]. }
    induction c as [|d [|x c] IH]; intros Hc; [done| |]; inversion Hc as [|? ? Hd0 Hc']; subst; [by apply Hx|].
    rewrite cuda_q_cons by (cbn; lia). unfold cuda_step, mask_byte. rewrite (IH Hc'). cbn [Z.b2z].
    rewrite !Z.lxor_spec, Z.land_spec, (Hx d) by done. change (Z.testbit 29 7) with false. by rewrite andb_false_r. }
  intros Hc. inversion Hc as [|? ? _ Hc']; subst. rewrite cuda_q_cons by (cbn; lia). unfold cuda_step, mask_byte.
  rewrite Htop by done. by rewrite Z.lxor_0_l.
Qed.

Lemma covered_all bytes : 0 ≤ bytes → (∀ k, Z.of_nat k < bytes → covered bytes k) ↔
  bytes < 2 * DMA_BLOCKSIZE ∨ bytes mod (2 * DMA_BLOCKSIZE) = 0 ∨ DMA_BLOCKSIZE ≤ bytes mod (2 * DMA_BLOCKSIZE).
Proof.
  intros Hb. pose proof DMA_eq as HD. unfold covered, in_block. cbv zeta.
  replace (DMA_BLOCKSIZE * 2) with (2 * DMA_BLOCKSIZE) by lia.
  pose proof (Z.div_mod bytes (2 * DMA_BLOCKSIZE) ltac:(lia)) as Hdm.
  pose proof (Z.mod_pos_bound bytes (2 * DMA_BLOCKSIZE) ltac:(lia)) as Hm.
  set (r := bytes mod (2 * DMA_BLOCKSIZE)) in *. set (n := bytes / (2 * DMA_BLOCKSIZE)) in *.
  assert (bytes - n * 2 * DMA_BLOCKSIZE = r) as -> by lia.
  assert (0 ≤ n) as Hn by (apply Z.div_pos; lia). split.
  - intros H. destruct (decide (bytes < 2 * DMA_BLOCKSIZE)); [by left|right].
    destruct (decide (r = 0)); [by left|right]. destruct (decide (DMA_BLOCKSIZE ≤ r)); [done|].
    destruct (H (Z.to_nat (bytes - 1))) as [?|[?|?]]; [lia|lia|lia|].
    assert (1 ≤ n) by (apply Z.div_le_lower_bound; lia). nia.
  - intros H' k Hk. destruct H' as [H'|[H'|H']]; [|lia|].
    + assert (n = 0) as -> by (apply Z.div_small; lia). lia.
    + destruct (decide (Z.of_nat k < n * 2 * DMA_BLOCKSIZE)); [by left|right; left]. lia.
Qed.

Lemma card_start_inv : card_inv card_start.
Proof. done. Qed.

(** ** Releasing the card *)
Section release.
Context {R : CudaRuntime} {L : CudaLaws R}.

Lemma buf_ok_is_Some m l b : buf_ok m l b → is_Some (m !! b).
Proof using Type. intros (x & -> & _)%buf_ok_Some. by eexists. Qed.

Lemma release_ok c : card_ok c →
  cd_mem (release_card_memory c) =
    delete (DEVICE_PQ_2 c) (delete (DEVICE_DP_2 c) (delete (DEVICE_PQ_1 c) (delete (DEVICE_DP_1 c) (cd_mem c)))).
Proof using L.
  intros []. unfold release_card_memory. cbn [cd_mem set_cd_mem].
  rewrite (cudaFree_ok (cd_mem c)) by (eapply buf_ok_is_Some; eassumption).
  do 3 (rewrite (cudaFree_ok (delete _ _)) by
    (rewrite ?lookup_delete_ne by congruence; eapply buf_ok_is_Some; eassumption)).
  done.
Qed.

Lemma release_lookup c : card_ok c → cd_mem (release_card_memory c) !! DEVICE_DP_1 c = None.
Proof using L.
  intros Hc. rewrite release_ok by done. destruct Hc. rewrite !lookup_delete_ne by congruence. apply lookup_delete_eq.
Qed.

(** A copy to a buffer that is gone. *)
Lemma copy_to_dead m c dptrs DP i off n : cd_mem c !! DP = None → 0 ≤ i * DMA_BLOCKSIZE ≤ INT_MAX → 0 < n →
  is_Some (dptrs !! Z.to_nat i) → 0 ≤ i → copy_to dptrs DP i off n (m, c) = Err OutOfBounds.
Proof using L.
  intros Hc Hi Hn [b Hb] Hi0. unfold copy_to. run int_mul_ok by (unfold INT_MIN; lia).
  run (nth_ptr_ok dptrs i b) by done.
  rewrite cuda_copy_overrun; [done|lia|].
  unfold buf_len. rewrite Hc. cbn. lia.
Qed.

Lemma one_block_dead m c dptrs disks grid off n : cd_mem c !! DEVICE_DP_1 c = None → (3 ≤ disks)%nat → 0 < n →
  is_Some (dptrs !! 0%nat) → one_block (Z.of_nat disks) dptrs grid off n (m, c) = Err OutOfBounds.
Proof using L.
  intros Hc Hd Hn Hp. unfold one_block.
  rewrite (for_lt_err _ _ _ _ _ OutOfBounds); [done|lia|]. cbn [snd].
  by apply copy_to_dead.
Qed.

Lemma two_blocks_dead m c dptrs disks : cd_mem c !! DEVICE_DP_1 c = None → (3 ≤ disks)%nat →
  is_Some (dptrs !! 0%nat) → two_blocks (Z.of_nat disks) dptrs 0 (m, c) = Err OutOfBounds.
Proof using L.
  intros Hc Hd Hp. unfold two_blocks. run int_mul_ok by done. run int_add_ok by done.
  rewrite (for_lt_err _ _ _ _ _ OutOfBounds); [done|lia|]. cbn [snd].
  by rewrite copy_to_dead by (rewrite ?DMA_eq; done || lia).
Qed.
End release.

Section theorems.
Context {R : CudaRuntime} {L : CudaLaws R}.

(** Release_card_memory leaves [mem_tag] set: a call after it copies to the
    memory that was given back. *)
Theorem cuda_after_release m ptrs disks bytes m1 c1 m2 ptrs2 disks2 bytes2 :
  (3 ≤ disks ≤ 258)%nat → 0 ≤ bytes ≤ INT_MAX → array_ok m ptrs disks bytes →
  raid6_cuda_gen_syndrome (Z.of_nat disks) bytes ptrs (m, card_start) = Ok (Some (m1, c1)) →
  (3 ≤ disks2)%nat → 0 < bytes2 ≤ INT_MAX →
  raid6_cuda_gen_syndrome (Z.of_nat disks2) bytes2 ptrs2 (m2, release_card_memory c1) = Err OutOfBounds.
Proof using L.
  intros Hd Hb Ha E Hd2 Hb2.
  destruct (synccopy_run m ptrs disks bytes Hd Ha card_start ptrs eq_refl card_start_inv Hb)
    as [[_ E']|(m1' & c1' & E' & Hc & Ht & Hp & _)]; rewrite E in E'; [done|]. injection E' as <- <-.
  pose proof (release_lookup c1 Hc) as Hdead. pose proof DMA_eq as HD.
  assert (is_Some (ptrs !! 0%nat)) as H0 by (apply lookup_lt_is_Some_2; pose proof (array_length Ha); lia).
  unfold raid6_cuda_gen_syndrome, raid6_cuda_gen_syndrome_synccopy, get_card_mem.
  cbn [mem_tag set_cd_dptrs release_card_memory set_cd_mem cd_dptrs]. rewrite Ht, Hp. cbn [default from_option].
  fold (release_card_memory c1). set (runs := bytes2 / (DMA_BLOCKSIZE * 2)).
  assert (0 ≤ runs ∧ 0 ≤ bytes2 - runs * 2 * DMA_BLOCKSIZE < 2 * DMA_BLOCKSIZE) as [Hr Hcar].
  { subst runs. rewrite HD. Z.to_euclidean_division_equations. lia. }
  destruct (decide (runs = 0)) as [->|Hr0].
  - rewrite for_lt_done by lia. bind_step. rewrite !Z.mul_0_l, Z.sub_0_r in *.
    destruct (Z.leb_spec DMA_BLOCKSIZE bytes2).
    + run int_mul_ok by done. by rewrite one_block_dead by (done || lia).
    + bind_step. rewrite (proj2 (Z.ltb_lt 0 bytes2)) by lia. run int_mul_ok by done.
      by rewrite one_block_dead by (done || lia).
  - rewrite (for_lt_err _ _ _ _ _ OutOfBounds); [done|lia|]. by apply two_blocks_dead.
Qed.



(** The pointer array is kept from the first call: every later call, with
    whatever buffers, processes the array of the first one and leaves its own
    alone. *)
Theorem cuda_stale_pointers m ptrs disks bytes m1 c1 m2 ptrs2 disks2 bytes2 :
  (3 ≤ disks ≤ 258)%nat → 0 ≤ bytes ≤ INT_MAX → array_ok m ptrs disks bytes →
  raid6_cuda_gen_syndrome (Z.of_nat disks) bytes ptrs (m, card_start) = Ok (Some (m1, c1)) →
  (3 ≤ disks2 ≤ 258)%nat → 0 ≤ bytes2 ≤ INT_MAX → array_ok m2 ptrs disks2 bytes2 →
  ∃ m3 c3, raid6_cuda_gen_syndrome (Z.of_nat disks2) bytes2 ptrs2 (m2, c1) = Ok (Some (m3, c3)) ∧
    writes_cuda m2 ptrs disks2 (covered bytes2) m3 ∧
    ∀ b, b ∈ ptrs2 → b ∉ ptrs → m3 !! b = m2 !! b.
Proof using L.
  intros Hd Hb Ha E Hd2 Hb2 Ha2.
  destruct (synccopy_run m ptrs disks bytes Hd Ha card_start ptrs eq_refl card_start_inv Hb)
    as [[_ E']|(m1' & c1' & E' & Hc & Ht & Hp & _)]; rewrite E in E'; [done|]. injection E' as <- <-.
  destruct (synccopy_run m2 ptrs disks2 bytes2 Hd2 Ha2 c1 ptrs2 ltac:(by rewrite Hp) (λ _, Hc) Hb2)
    as [[E' _]|(m3 & c3 & E' & _ & _ & _ & Hw)].
  { unfold get_card_mem in E'. cbn [mem_tag set_cd_dptrs] in E'. by rewrite Ht in E'. }
  exists m3, c3. split; [done|]. split; [done|]. intros b _ Hb'.
  apply Hw; intros Hl; apply Hb'; by eapply list_elem_of_lookup_2.
Qed.
End theorems.

(** ** Witnesses: an array of three data disks full of ones *)
#[local] Existing Instance plain_runtime.
#[local] Existing Instance plain_laws.

Definition ones_mem : mem := list_to_map ((λ b, (b, replicate 8 1)) <$> sample_ptrs).

Lemma plain_call m ptrs disks bytes : (3 ≤ disks ≤ 258)%nat → 0 ≤ bytes ≤ INT_MAX → array_ok m ptrs disks bytes →
  ∃ m' c', raid6_cuda_gen_syndrome (Z.of_nat disks) bytes ptrs (m, card_start) = Ok (Some (m', c')).
Proof.
  intros Hd Hb Ha. destruct (synccopy_run m ptrs disks bytes Hd Ha card_start ptrs eq_refl card_start_inv Hb)
    as [[E _]|(m' & c' & E & _)]; [exfalso|by eauto].
  destruct (get_card_mem_some disks Hd (set_cd_dptrs ptrs card_start)) as [c Ec].
  - apply plain_malloc.
  - by rewrite E in Ec.
Qed.


Lemma ones_covered k : Z.of_nat k < 8 → covered 8 k.
Proof. intros Hk. apply (proj2 (covered_all 8 ltac:(lia))); [left; pose proof DMA_eq; lia|done]. Qed.


(** The true syndrome is 7 there, so the card is wrong. *)
Example ones_q_differs :
  Z.land (Z.lxor (q_byte ones_mem sample_ptrs 5 3) (peek ones_mem 1%positive 3)) 0xe2 = 2.
Proof. vm_compute. reflexivity. Qed.

(** A second array. *)
Definition other_ptrs : list loc := [11; 12; 13; 14; 15]%positive.
Definition two_arrays : mem := list_to_map ((λ b, (b, replicate 8 1)) <$> sample_ptrs ++ other_ptrs).

Lemma cuda_stale_pointers_witness : ∃ m1 c1 m3 c3,
  raid6_cuda_gen_syndrome 5 8 sample_ptrs (ones_mem, card_start) = Ok (Some (m1, c1)) ∧
  raid6_cuda_gen_syndrome 5 8 other_ptrs (two_arrays, c1) = Ok (Some (m3, c3)) ∧
  writes_cuda two_arrays sample_ptrs 5 (covered 8) m3 ∧
  ∀ b, b ∈ other_ptrs → b ∉ sample_ptrs → m3 !! b = two_arrays !! b.
Proof.
  destruct (plain_call ones_mem sample_ptrs 5 8) as (m1 & c1 & E); [lia|unfold INT_MAX; lia|by_decide|].
  destruct (cuda_stale_pointers ones_mem sample_ptrs 5 8 m1 c1 two_arrays other_ptrs 5 8) as (m3 & c3 & H);
    [lia|unfold INT_MAX; lia|by_decide|exact E|lia|unfold INT_MAX; lia|by_decide|].
  exists m1, c1, m3, c3. split; [exact E|exact H].
Defined.
