(* ===== verification/CudaAsync.v ===== *)
(** * barracuda_deamon/cuda/raid6cuda.cu with ASYNC: streams

    The variant of the GPU implementation that is compiled when ASYNC is
    defined: the data goes through page-locked buffers of the host, the copies
    between them and the card are queued in two streams, and the streams run
    them when the host waits.  A launch is queued in the default stream: it
    waits for everything queued before, and nothing queued later overtakes it.
    The order in which two streams interleave is a parameter. *)
From S2P Require Import Prelude GF256 Word Memory Syndrome CudaApi Cuda.
Local Open Scope Z_scope.

(** ** The runtime: what the asynchronous variant uses in addition *)
Class CudaStreams := {
  cudaMallocHost : mem → Z → option (loc * mem);
  (** which stream runs its next operation, the [n]-th time both are drained *)
  stream_order : nat → list bool;
  (** The launches pass the stream where the size of dynamic shared memory
      belongs; whether launch [n] is accepted with that size. *)
  shared_accepts : nat → bool
}.

Class StreamLaws (T : CudaStreams) : Prop := {
  cudaMallocHost_ok m n b m' : cudaMallocHost m n = Some (b, m') → m !! b = None ∧
    ∃ buf, m' = <[b := buf]> m ∧ Z.of_nat (length buf) = n ∧ Forall is_byte buf
}.

(** [cudaMemcpyAsync(dst, src, n, kind, stream)] *)
Inductive stream_op :=
  | HostToDevice (dst src : loc) (n : Z)
  | DeviceToHost (dst src : loc) (n : Z).
#[export] Instance stream_op_eq_dec : EqDecision stream_op.
Proof. solve_decision. Defined.

(** The card, the page-locked buffers and what is queued in the streams. *)
Record acard := {
  ac_card : card;
  HOST_DP_1 : loc; HOST_PQ_1 : loc; HOST_DP_2 : loc; HOST_PQ_2 : loc;
  ac_stream0 : list stream_op; ac_stream1 : list stream_op;
  ac_drains : nat
}.
Definition acard_start : acard :=
  {| ac_card := card_start; HOST_DP_1 := 1%positive; HOST_PQ_1 := 1%positive; HOST_DP_2 := 1%positive;
     HOST_PQ_2 := 1%positive; ac_stream0 := []; ac_stream1 := []; ac_drains := 0 |}.

Definition set_card (c : card) (a : acard) : acard :=
  {| ac_card := c; HOST_DP_1 := HOST_DP_1 a; HOST_PQ_1 := HOST_PQ_1 a; HOST_DP_2 := HOST_DP_2 a;
     HOST_PQ_2 := HOST_PQ_2 a; ac_stream0 := ac_stream0 a; ac_stream1 := ac_stream1 a; ac_drains := ac_drains a |}.
Definition set_streams (q0 q1 : list stream_op) (n : nat) (a : acard) : acard :=
  {| ac_card := ac_card a; HOST_DP_1 := HOST_DP_1 a; HOST_PQ_1 := HOST_PQ_1 a; HOST_DP_2 := HOST_DP_2 a;
     HOST_PQ_2 := HOST_PQ_2 a; ac_stream0 := q0; ac_stream1 := q1; ac_drains := n |}.

Definition cudaMemcpyAsync (o : stream_op) (stream1 : bool) (a : acard) : acard :=
  if stream1 then set_streams (ac_stream0 a) (ac_stream1 a ++ [o]) (ac_drains a) a
  else set_streams (ac_stream0 a ++ [o]) (ac_stream1 a) (ac_drains a) a.

(** Two queues in one order; [order] says whose turn it is. *)
Fixpoint interleave (order : list bool) (q0 q1 : list stream_op) : list stream_op :=
  match order, q0, q1 with
  | false :: order, o :: q0, _ => o :: interleave order q0 q1
  | true :: order, _, o :: q1 => o :: interleave order q0 q1
  | _ :: order, _, _ => interleave order q0 q1
  | [], _, _ => q0 ++ q1
  end.

Section host.
Context {R : CudaRuntime} {T : CudaStreams}.

Definition run_op (o : stream_op) (s : mem * acard) : result (mem * acard) :=
  let '(m, a) := s in
  match o with
  | HostToDevice dst src n =>
      dm ← cuda_copy (cd_mem (ac_card a)) dst 0 m src 0 n;
      Ok (m, set_card (set_cd_mem dm (ac_card a)) a)
  | DeviceToHost dst src n =>
      m ← cuda_copy m dst 0 (cd_mem (ac_card a)) src 0 n;
      Ok (m, a)
  end.

(** [cudaThreadSynchronize] *)
Definition cudaThreadSynchronize (s : mem * acard) : result (mem * acard) :=
  let '(m, a) := s in
  run_threads run_op (interleave (stream_order (ac_drains a)) (ac_stream0 a) (ac_stream1 a))
    (m, set_streams [] [] (S (ac_drains a)) a).

(** [syndrome_block<<<dimGrid, dimBlock, stream>>>(DP, PQ, z0)]: the default
    stream waits for the others. *)
Definition exec_kernel (grid : Z) (DP PQ : loc) (z0 : Z) (s : mem * acard) : result (mem * acard) :=
  let '(m, a) := s in
  if shared_accepts (cd_launches (ac_card a)) then
    c ← launch grid DP PQ z0 (ac_card a);
    Ok (m, set_card c a)
  else Ok (m, a).
Definition async_launch (grid : Z) (DP PQ : loc) (z0 : Z) (s : mem * acard) : result (mem * acard) :=
  s ← cudaThreadSynchronize s;
  exec_kernel grid DP PQ z0 s.

(** [get_card_mem] with ASYNC; [None] is [exit(1)]. *)
Definition get_card_mem_async (s : mem * acard) : option (mem * acard) :=
  let '(m, a) := s in
  if mem_tag (ac_card a) then Some s else
  c ← get_card_mem (ac_card a);
  '(dp1, m) ← cudaMallocHost m (DMA_BLOCKSIZE * 256);
  '(pq1, m) ← cudaMallocHost m (DMA_BLOCKSIZE * 2);
  '(dp2, m) ← cudaMallocHost m (DMA_BLOCKSIZE * 256);
  '(pq2, m) ← cudaMallocHost m (DMA_BLOCKSIZE * 2);
  Some (m, {| ac_card := c; HOST_DP_1 := dp1; HOST_PQ_1 := pq1; HOST_DP_2 := dp2; HOST_PQ_2 := pq2;
              ac_stream0 := ac_stream0 a; ac_stream1 := ac_stream1 a; ac_drains := ac_drains a |}).

(** [cudaMemcpy(&H[i*DMA_BLOCKSIZE], &dptrs[i][off], DMA_BLOCKSIZE, cudaMemcpyHostToHost)] *)
Definition host_copy_in (dptrs : list loc) (H : loc) (i off : Z) (m : mem) : result mem :=
  hoff ← int_mul i DMA_BLOCKSIZE;
  b ← nth_ptr dptrs i;
  cuda_copy m H hoff m b off DMA_BLOCKSIZE.

(** [cudaMemcpy(&dptrs[i][off], &H[hoff], DMA_BLOCKSIZE, cudaMemcpyHostToHost)] *)
Definition host_copy_out (dptrs : list loc) (H : loc) (hoff i off : Z) (m : mem) : result mem :=
  b ← nth_ptr dptrs i;
  cuda_copy m b off m H hoff DMA_BLOCKSIZE.

(** The body of the loop over pairs of blocks. *)
Definition async_two_blocks (disks : Z) (dptrs : list loc) (j : Z) (s : mem * acard) : result (mem * acard) :=
  let '(m, a) := s in
  off ← int_mul (j * 2) DMA_BLOCKSIZE;
  off2 ← int_add off DMA_BLOCKSIZE;
  m ← for_lt 0 (disks - 2) 1 (λ i m,
        m ← host_copy_in dptrs (HOST_DP_1 a) i off m;
        host_copy_in dptrs (HOST_DP_2 a) i off2 m) m;
  n ← int_mul DMA_BLOCKSIZE (disks - 2);
  let c := ac_card a in
  let a := cudaMemcpyAsync (HostToDevice (DEVICE_DP_1 c) (HOST_DP_1 a) n) false a in
  let a := cudaMemcpyAsync (HostToDevice (DEVICE_DP_2 c) (HOST_DP_2 a) n) true a in
  s ← async_launch full_grid (DEVICE_DP_1 c) (DEVICE_PQ_1 c) (disks - 3) (m, a);
  '(m, a) ← async_launch full_grid (DEVICE_DP_2 c) (DEVICE_PQ_2 c) (disks - 3) s;
  let a := cudaMemcpyAsync (DeviceToHost (HOST_PQ_1 a) (DEVICE_PQ_1 c) (DMA_BLOCKSIZE * 2)) false a in
  let a := cudaMemcpyAsync (DeviceToHost (HOST_PQ_2 a) (DEVICE_PQ_2 c) (DMA_BLOCKSIZE * 2)) true a in
  '(m, a) ← cudaThreadSynchronize (m, a);
  m ← host_copy_out dptrs (HOST_PQ_1 a) 0 (disks - 1) off m;
  m ← host_copy_out dptrs (HOST_PQ_1 a) 1 (disks - 2) off m;
  m ← host_copy_out dptrs (HOST_PQ_2 a) 0 (disks - 1) off2 m;
  m ← host_copy_out dptrs (HOST_PQ_2 a) 1 (disks - 2) off2 m;
  Ok (m, a).

(** One block read at [off], as both single-block parts do it; the results go
    to [j*2*DMA_BLOCKSIZE]. *)
Definition async_one_block (disks : Z) (dptrs : list loc) (grid j off : Z) (s : mem * acard) :
    result (mem * acard) :=
  let '(m, a) := s in
  m ← for_lt 0 (disks - 2) 1 (λ i m, host_copy_in dptrs (HOST_DP_1 a) i off m) m;
  n ← int_mul DMA_BLOCKSIZE (disks - 2);
  let c := ac_card a in
  let a := cudaMemcpyAsync (HostToDevice (DEVICE_DP_1 c) (HOST_DP_1 a) n) false a in
  '(m, a) ← async_launch grid (DEVICE_DP_1 c) (DEVICE_PQ_1 c) (disks - 3) (m, a);
  let a := cudaMemcpyAsync (DeviceToHost (HOST_PQ_1 a) (DEVICE_PQ_1 c) (DMA_BLOCKSIZE * 2)) false a in
  '(m, a) ← cudaThreadSynchronize (m, a);
  out ← int_mul (j * 2) DMA_BLOCKSIZE;
  m ← host_copy_out dptrs (HOST_PQ_1 a) 0 (disks - 1) out m;
  out2 ← int_add out DMA_BLOCKSIZE;
  m ← host_copy_out dptrs (HOST_PQ_2 a) 0 (disks - 1) out2 m;
  Ok (m, a).

(** The part behind the pairs: one whole block, when there is one. *)
Definition async_single_block (disks : Z) (dptrs : list loc) (j carry_off : Z) (s : mem * acard) :
    result (Z * Z * (mem * acard)) :=
  if DMA_BLOCKSIZE <=? carry_off then
    off ← int_mul (j * 2) DMA_BLOCKSIZE;
    s ← async_one_block disks dptrs full_grid j off s;
    Ok (j * 2 + 1, carry_off - DMA_BLOCKSIZE, s)
  else Ok (j, carry_off, s).

(** [raid6_cuda_gen_syndrome_asynccopy]; [None] is [exit(1)]. *)
Definition raid6_cuda_gen_syndrome_asynccopy (disks bytes : Z) (ptrs : list loc) (s : mem * acard) :
    result (option (mem * acard)) :=
  let '(m, a) := s in
  let dptrs := default ptrs (cd_dptrs (ac_card a)) in
  let a := set_card (set_cd_dptrs dptrs (ac_card a)) a in
  match get_card_mem_async (m, a) with
  | None => Ok None
  | Some s =>
      let runs := bytes / (DMA_BLOCKSIZE * 2) in
      s ← for_lt 0 runs 1 (async_two_blocks disks dptrs) s;
      let j := runs in
      let carry_off := bytes - runs * 2 * DMA_BLOCKSIZE in
      '(j, carry_off, s) ← async_single_block disks dptrs j carry_off s;
      s ← (if 0 <? carry_off then
             off ← int_mul j DMA_BLOCKSIZE;
             async_one_block disks dptrs (carry_off / (THREAD_BLOCKSIZE * 8) + 1) j off s
           else Ok s);
      Ok (Some s)
  end.
End host.

(** ** Queues *)
Lemma interleave_perm order q0 q1 : interleave order q0 q1 ≡ₚ q0 ++ q1.
Proof.
  revert q0 q1. induction order as [|[] order IH]; intros q0 q1; [by destruct q0, q1| |].
  - destruct q0, q1; cbn [interleave]; rewrite IH; by rewrite ?Permutation_middle.
  - destruct q0, q1; cbn [interleave]; by rewrite IH.
Qed.

#[local] Opaque DMA_BLOCKSIZE.

(** ** The invariants *)
Definition hosts (a : acard) : list loc := [HOST_DP_1 a; HOST_PQ_1 a; HOST_DP_2 a; HOST_PQ_2 a].

Record akeeps (a a' : acard) : Prop := {
  ak_card : card_keeps (ac_card a) (ac_card a');
  ak_dp1 : HOST_DP_1 a' = HOST_DP_1 a; ak_pq1 : HOST_PQ_1 a' = HOST_PQ_1 a;
  ak_dp2 : HOST_DP_2 a' = HOST_DP_2 a; ak_pq2 : HOST_PQ_2 a' = HOST_PQ_2 a
}.
#[export] Instance akeeps_preorder : PreOrder akeeps.
Proof. split; [by split|]. intros a1 a2 a3 [] []. split; [by etrans|congruence..]. Qed.

Lemma akeeps_card a c : card_keeps (ac_card a) c → akeeps a (set_card c a).
Proof. by split. Qed.
Lemma akeeps_streams a q0 q1 n : akeeps a (set_streams q0 q1 n a).
Proof. by split. Qed.

Definition idle (a : acard) : Prop := ac_stream0 a = [] ∧ ac_stream1 a = [].

(** What the queued work does to host memory: only page-locked buffers. *)
Record host_step (hs : list loc) (m m' : mem) : Prop := {
  hs_frame : ∀ b, b ∉ hs → m' !! b = m !! b;
  hs_ok : ∀ b l, buf_ok m l b → buf_ok m' l b;
  hs_len : ∀ b, buf_len m' b = buf_len m b
}.
#[export] Instance host_step_preorder hs : PreOrder (host_step hs).
Proof.
  split; [by split|]. intros m1 m2 m3 [F1 O1 L1] [F2 O2 L2].
  split; [|auto|congruence]. intros b Hb. by rewrite F2, F1.
Qed.

Lemma peek_eq m m' b k : m' !! b = m !! b → peek m' b k = peek m b k.
Proof. unfold peek. by intros ->. Qed.

Section host_proofs.
Context {R : CudaRuntime} {L : CudaLaws R} {T : CudaStreams} (Hacc : ∀ l, shared_accepts l = true).
Context (m0 : mem) (dptrs : list loc) (disks : nat) (bytes : Z).
Context (Hd : (3 ≤ disks ≤ 258)%nat) (Ha : array_ok m0 dptrs disks bytes) (Hmax : bytes ≤ INT_MAX).
Abbreviation data := (disks - 2)%nat.
Abbreviation disk_list := (take disks dptrs).

Record async_ok (a : acard) : Prop := {
  as_card : card_ok (ac_card a);
  as_dp1 : buf_ok m0 (DMA_BLOCKSIZE * 256) (HOST_DP_1 a);
  as_pq1 : buf_ok m0 (DMA_BLOCKSIZE * 2) (HOST_PQ_1 a);
  as_dp2 : buf_ok m0 (DMA_BLOCKSIZE * 256) (HOST_DP_2 a);
  as_pq2 : buf_ok m0 (DMA_BLOCKSIZE * 2) (HOST_PQ_2 a);
  as_nodup : NoDup (hosts a);
  as_fresh : ∀ b, b ∈ disk_list → b ∉ hosts a
}.

Lemma async_ok_keeps a a' : akeeps a a' → async_ok a → async_ok a'.
Proof using Hd.
  intros [K E1 E2 E3 E4] []. unfold hosts in *.
  split; unfold hosts; rewrite ?E1, ?E2, ?E3, ?E4; try done. by eapply card_ok_keeps.
Qed.

(** Host memory between the steps of a call: the data disks are untouched. *)
Record host_ok (m : mem) : Prop := {
  ho_ok : ∀ b l, buf_ok m0 l b → buf_ok m l b;
  ho_len : ∀ b, buf_len m b = buf_len m0 b;
  ho_data : ∀ i b, (i < data)%nat → dptrs !! i = Some b → m !! b = m0 !! b
}.

Lemma disk_elem i b : (i < disks)%nat → dptrs !! i = Some b → b ∈ disk_list.
Proof using Hd. intros Hi Hb. apply elem_of_take. by exists i. Qed.

Lemma host_ok_step a m m' : async_ok a → host_step (hosts a) m m' → host_ok m → host_ok m'.
Proof using Hd.
  intros Hao [F O Le] [O0 L0 D]. split; [auto|congruence|]. intros i b Hi Hb. rewrite F; [by eapply D|].
  apply (as_fresh _ Hao). apply (disk_elem i); [lia|done].
Qed.

Lemma host_ok_array m : host_ok m → array_ok m dptrs disks bytes.
Proof using Ha. intros H. eapply array_ok_frame; [|exact Ha]. intros b. apply H. Qed.

(** ** Data into the page-locked buffers *)
Lemma host_copy_in_ok m H i off : host_ok m → buf_ok m (DMA_BLOCKSIZE * 256) H →
  (i < data)%nat → 0 ≤ off → off + DMA_BLOCKSIZE ≤ bytes →
  ∃ m', host_copy_in dptrs H (Z.of_nat i) off m = Ok m' ∧ host_step [H] m m' ∧
    loaded dptrs m0 m' H off DMA_BLOCKSIZE i ∧
    (∀ z, z ≠ i → loaded dptrs m0 m H off DMA_BLOCKSIZE z → loaded dptrs m0 m' H off DMA_BLOCKSIZE z).
Proof using Hd L Ha.
  intros Hm HH Hi Hoff Hb. unfold host_copy_in. pose proof DMA_eq as HD.
  run int_mul_ok by (unfold INT_MIN, INT_MAX; nia).
  destruct (array_disk (host_ok_array m Hm) i) as (b & Hbi & Hbo); [lia|].
  run (nth_ptr_nat dptrs (Z.of_nat i) i b) by done.
  destruct (cuda_copy_spec m H (Z.of_nat i * DMA_BLOCKSIZE) (DMA_BLOCKSIZE * 256) m b off bytes DMA_BLOCKSIZE)
    as (m' & E & [F Le O P]); [done|done|lia|lia|nia|done|done|].
  exists m'. split; [done|]. rewrite length_slice in P. split_and!.
  - split; [|done..]. intros b' Hb'. apply F. intros ->. apply Hb'. by left.
  - intros b' k Hb' Hk. rewrite Hbi in Hb'. injection Hb' as <-. unfold card_byte. rewrite P.
    rewrite decide_True by lia. rewrite slice_lookup by lia. simp_default.
    rewrite (peek_eq m0 m) by (by apply (ho_data _ Hm i)). f_equal. lia.
  - intros z Hz Hl b' k Hb' Hk. rewrite <-(Hl b' k Hb' Hk). unfold card_byte. rewrite P.
    rewrite decide_False; [done|]. nia.
Qed.

Lemma loaded_frame m m' H off n z : m' !! H = m !! H → loaded dptrs m0 m H off n z → loaded dptrs m0 m' H off n z.
Proof using Hd. intros E Hl b k Hb Hk. rewrite <-(Hl b k Hb Hk). unfold card_byte. by apply peek_eq. Qed.

(** The buffers [hs] hold the blocks at their offsets up to disk [i], those in
    [dn] also that of disk [i]. *)
Definition filled (hs : list (loc * Z)) (i : nat) (dn : list loc) (m : mem) : Prop :=
  ∀ h off z, (h, off) ∈ hs → (z < i)%nat ∨ (z = i ∧ h ∈ dn) → loaded dptrs m0 m h off DMA_BLOCKSIZE z.

Lemma filled_S hs i m : filled hs i hs.*1 m → filled hs (S i) [] m.
Proof using Hd.
  intros H h off z Hh [Hz|[_ Hn]]; [|by apply elem_of_nil in Hn]. apply (H h off z Hh).
  destruct (decide (z = i)) as [->|]; [right|left; lia]. split; [done|]. by apply (list_elem_of_fmap_2 fst) in Hh.
Qed.

Lemma filled_perm hs i dn dn' m : (∀ h, h ∈ dn' → h ∈ dn) → filled hs i dn m → filled hs i dn' m.
Proof using Hd. intros Hs H h off z Hh [Hz|[-> Hn]]; apply (H h off); auto. Qed.

Lemma host_fill_step hs H off dn i m : NoDup hs.*1 → (H, off) ∈ hs → host_ok m → buf_ok m (DMA_BLOCKSIZE * 256) H →
  (i < data)%nat → 0 ≤ off → off + DMA_BLOCKSIZE ≤ bytes → filled hs i dn m →
  ∃ m', host_copy_in dptrs H (Z.of_nat i) off m = Ok m' ∧ host_step [H] m m' ∧ filled hs i (H :: dn) m'.
Proof using Hd L Ha.
  intros Hnd Hin Hm HH Hi Hoff Hb Hf.
  destruct (host_copy_in_ok m H i off) as (m' & E & S & Hnew & Hold); [done..|].
  exists m'. split; [done|]. split; [done|]. intros h off' z Hh Hz.
  destruct (decide (h = H)) as [->|Hne].
  - assert (off' = off) as ->.
    { apply list_elem_of_lookup in Hin as [j1 Hj1], Hh as [j2 Hj2].
      assert (j1 = j2) as <-; [|congruence].
      apply (NoDup_lookup hs.*1 j1 j2 H); [done|by rewrite list_lookup_fmap, Hj1|by rewrite list_lookup_fmap, Hj2]. }
    destruct (decide (z = i)) as [->|Hzi]; [done|]. apply Hold; [done|].
    apply (Hf H off z Hin). left. destruct Hz as [?|[? _]]; [done|congruence].
  - apply (loaded_frame m); [apply S; intros ?%list_elem_of_singleton; congruence|]. apply (Hf h off' z Hh).
    destruct Hz as [?|[-> [?|?]%elem_of_cons]]; [by left|congruence|by right].
Qed.

Lemma filled_0 hs m : filled hs 0 [] m.
Proof using Hd. intros h off z _ [?|[_ ?%elem_of_nil]]; [lia|done]. Qed.

(** The invariant of the loops over the data disks. *)
Definition fill_inv (a : acard) (hs : list (loc * Z)) (m : mem) (i : Z) (m' : mem) : Prop :=
  host_step (hosts a) m m' ∧ filled hs (Z.to_nat i) [] m'.

Lemma host_step_sub hs hs' m m' : (∀ h, h ∈ hs → h ∈ hs') → host_step hs m m' → host_step hs' m m'.
Proof using Type. intros H [F O Le]. split; [|done..]. intros b Hb. apply F. auto. Qed.

Lemma fill_disk a hs H off dn i m : async_ok a → NoDup hs.*1 → (H, off) ∈ hs →
  H = HOST_DP_1 a ∨ H = HOST_DP_2 a → host_ok m → (i < data)%nat → 0 ≤ off → off + DMA_BLOCKSIZE ≤ bytes →
  filled hs i dn m →
  ∃ m', host_copy_in dptrs H (Z.of_nat i) off m = Ok m' ∧ host_step (hosts a) m m' ∧ host_ok m' ∧
    filled hs i (H :: dn) m'.
Proof using Hd L Ha.
  intros Hao Hnd Hin HH Hm Hi Hoff Hb Hf.
  destruct (host_fill_step hs H off dn i m) as (m' & E & S & Hf'); [done..| |done|done|done|done|].
  { destruct HH as [->| ->]; apply Hm, Hao. }
  assert (host_step (hosts a) m m') as S'.
  { eapply host_step_sub; [|exact S]. intros h ->%list_elem_of_singleton. unfold hosts. clear -HH. set_solver. }
  exists m'. split; [done|]. split; [done|]. split; [by eapply host_ok_step|done].
Qed.

Lemma host_fill_one a m off : async_ok a → host_ok m → 0 ≤ off → off + DMA_BLOCKSIZE ≤ bytes →
  ∃ m', for_lt 0 (Z.of_nat disks - 2) 1 (λ i m, host_copy_in dptrs (HOST_DP_1 a) i off m) m = Ok m' ∧
    host_step (hosts a) m m' ∧ filled [(HOST_DP_1 a, off)] data [] m'.
Proof using Hd L Ha.
  intros Hao Hm Hoff Hb.
  destruct (for_lt_inv (fill_inv a [(HOST_DP_1 a, off)] m)
    (λ i m, host_copy_in dptrs (HOST_DP_1 a) i off m) 0 (Z.of_nat disks - 2) 1) with (s := m)
    as (m' & E & S & Hf); [lia|done|unfold INT_MAX; lia| |by split; [|apply filled_0]|].
  - intros i m1 Hi _ [S Hf].
    destruct (fill_disk a [(HOST_DP_1 a, off)] (HOST_DP_1 a) off [] (Z.to_nat i) m1) as (m2 & E & S2 & _ & Hf2);
      [done|cbn; apply NoDup_singleton|by left|by left|by eapply host_ok_step|lia|done|done|done|].
    rewrite Z2Nat.id in E by lia. exists m2. split; [done|]. split; [by etrans|].
    replace (Z.to_nat (i + 1)) with (Datatypes.S (Z.to_nat i)) by lia. by apply filled_S.
  - exists m'. split; [done|]. split; [done|].
    rewrite (loop_end_unique _ _ _ (Z.of_nat disks - 2) (Z.of_nat disks - 2)) in Hf by lia.
    by replace data with (Z.to_nat (Z.of_nat disks - 2)) by lia.
Qed.

Lemma fill_two a m off off2 : async_ok a → host_ok m → 0 ≤ off → 0 ≤ off2 →
  off + DMA_BLOCKSIZE ≤ bytes → off2 + DMA_BLOCKSIZE ≤ bytes →
  ∃ m', for_lt 0 (Z.of_nat disks - 2) 1 (λ i m,
      m ← host_copy_in dptrs (HOST_DP_1 a) i off m; host_copy_in dptrs (HOST_DP_2 a) i off2 m) m = Ok m' ∧
    host_step (hosts a) m m' ∧ filled [(HOST_DP_1 a, off); (HOST_DP_2 a, off2)] data [] m'.
Proof using Hd L Ha.
  intros Hao Hm Hoff Hoff2 Hb Hb2. set (hs := [(HOST_DP_1 a, off); (HOST_DP_2 a, off2)]).
  assert (NoDup hs.*1) as Hnd.
  { pose proof (as_nodup _ Hao) as Hn. unfold hosts in Hn. cbn. clear -Hn. rewrite !NoDup_cons in *. set_solver. }
  destruct (for_lt_inv (fill_inv a hs m)
    (λ i m, m ← host_copy_in dptrs (HOST_DP_1 a) i off m; host_copy_in dptrs (HOST_DP_2 a) i off2 m)
    0 (Z.of_nat disks - 2) 1) with (s := m)
    as (m' & E & S & Hf); [lia|done|unfold INT_MAX; lia| |by split; [|apply filled_0]|].
  - intros i m1 Hi _ [S Hf].
    destruct (fill_disk a hs (HOST_DP_1 a) off [] (Z.to_nat i) m1) as (m2 & E2 & S2 & Hm2 & Hf2);
      [done|done|by left|by left|by eapply host_ok_step|lia|done|done|done|].
    destruct (fill_disk a hs (HOST_DP_2 a) off2 [HOST_DP_1 a] (Z.to_nat i) m2) as (m3 & E3 & S3 & _ & Hf3);
      [done|done|right; by left|by right|done|lia|done|done|done|].
    rewrite Z2Nat.id in E2, E3 by lia. run E2. exists m3. split; [done|].
    split; [by etrans; [exact S|]; etrans|].
    replace (Z.to_nat (i + 1)) with (Datatypes.S (Z.to_nat i)) by lia. apply filled_S.
    eapply filled_perm; [|exact Hf3]. cbn. clear. set_solver.
  - exists m'. split; [done|]. split; [done|].
    rewrite (loop_end_unique _ _ _ (Z.of_nat disks - 2) (Z.of_nat disks - 2)) in Hf by lia.
    by replace data with (Z.to_nat (Z.of_nat disks - 2)) by lia.
Qed.

(** ** The streams *)
(** A copy of loaded blocks to the card. *)
Lemma h2d_ok m a dst src off : buf_ok (cd_mem (ac_card a)) (DMA_BLOCKSIZE * 256) dst →
  buf_ok m (DMA_BLOCKSIZE * 256) src → (∀ z, (z < data)%nat → loaded dptrs m0 m src off DMA_BLOCKSIZE z) →
  ∃ dm, run_op (HostToDevice dst src (DMA_BLOCKSIZE * (Z.of_nat disks - 2))) (m, a) =
      Ok (m, set_card (set_cd_mem dm (ac_card a)) a) ∧
    (∀ b l, buf_ok (cd_mem (ac_card a)) l b → buf_ok dm l b) ∧ (∀ b, b ≠ dst → dm !! b = cd_mem (ac_card a) !! b) ∧
    (∀ z, (z < data)%nat → loaded dptrs m0 dm dst off DMA_BLOCKSIZE z).
Proof using Hd L.
  intros Hdst Hsrc Hl. pose proof DMA_eq as HD. cbn [run_op].
  destruct (cuda_copy_spec (cd_mem (ac_card a)) dst 0 (DMA_BLOCKSIZE * 256) m src 0 (DMA_BLOCKSIZE * 256)
    (DMA_BLOCKSIZE * (Z.of_nat disks - 2))) as (dm & E & [F _ O P]); [done|done|nia|done|nia|done|nia|].
  run E. exists dm. split_and!; [done..|]. rewrite length_slice in P. intros z Hz b k Hb Hk.
  rewrite <-(Hl z Hz b k Hb Hk). unfold card_byte. rewrite P. rewrite decide_True by nia.
  rewrite slice_lookup by nia. simp_default. f_equal. lia.
Qed.

(** A copy of both check blocks from the card. *)
Lemma d2h_ok m a dst src off n : buf_ok m (DMA_BLOCKSIZE * 2) dst →
  buf_ok (cd_mem (ac_card a)) (DMA_BLOCKSIZE * 2) src →
  ready m0 dptrs disks (cd_mem (ac_card a)) src off n → n ≤ DMA_BLOCKSIZE →
  ∃ m', run_op (DeviceToHost dst src (DMA_BLOCKSIZE * 2)) (m, a) = Ok (m', a) ∧ host_step [dst] m m' ∧
    ready m0 dptrs disks m' dst off n.
Proof using Hd L.
  intros Hdst Hsrc Hr Hn. pose proof DMA_eq as HD. cbn [run_op].
  destruct (cuda_copy_spec m dst 0 (DMA_BLOCKSIZE * 2) (cd_mem (ac_card a)) src 0 (DMA_BLOCKSIZE * 2)
    (DMA_BLOCKSIZE * 2)) as (m' & E & [F Le O P]); [done|done|lia|done|lia|done|lia|].
  run E. exists m'. split; [done|]. rewrite length_slice in P.
  assert (∀ k, Z.of_nat k < DMA_BLOCKSIZE * 2 → peek m' dst k = peek (cd_mem (ac_card a)) src k) as Hp.
  { intros k Hk. rewrite P, decide_True by lia. rewrite slice_lookup by lia. simp_default. f_equal. lia. }
  split; [split; [|done..]; intros b Hb; apply F; intros ->; apply Hb; by left|].
  intros k Hk. rewrite !Hp by lia. by apply Hr.
Qed.

Lemma sync_idle m a : idle a → cudaThreadSynchronize (m, a) = Ok (m, set_streams [] [] (S (ac_drains a)) a).
Proof using Hd.
  intros [E0 E1]. unfold cudaThreadSynchronize. rewrite E0, E1.
  pose proof (interleave_perm (stream_order (ac_drains a)) [] []) as ->%Permutation_nil_r. done.
Qed.

(** The rule for two streams with an operation each: what each establishes
    and the other keeps holds afterwards. *)
Lemma sync_two (I : mem → acard → Prop) (post : stream_op → mem → acard → Prop) m a o0 o1 :
  ac_stream0 a = [o0] → ac_stream1 a = [o1] → I m (set_streams [] [] (S (ac_drains a)) a) →
  (∀ o m a, o ∈ [o0; o1] → I m a → ∃ m' a', run_op o (m, a) = Ok (m', a') ∧ I m' a' ∧ post o m' a' ∧
     ∀ o', o' ∈ [o0; o1] → o' ≠ o → post o' m a → post o' m' a') →
  ∃ m' a', cudaThreadSynchronize (m, a) = Ok (m', a') ∧ I m' a' ∧ post o0 m' a' ∧ post o1 m' a'.
Proof using Hd.
  intros E0 E1 HI Hop. unfold cudaThreadSynchronize. rewrite E0, E1.
  pose proof (interleave_perm (stream_order (ac_drains a)) [o0] [o1]) as Hp. cbn in Hp.
  destruct (run_threads_inv (λ os s, I s.1 s.2 ∧ ∀ o, o ∈ os → o ∈ [o0; o1] ∧ post o s.1 s.2) run_op
    (λ o, o ∈ [o0; o1])) with (ths := interleave (stream_order (ac_drains a)) [o0] [o1])
    (m := (m, set_streams [] [] (S (ac_drains a)) a)) as ([m' a'] & E & HI' & Hpost).
  - intros os o [m1 a1] Hos Ho [HI1 Hp1]. cbn [fst snd] in *.
    destruct (Hop o m1 a1 Ho HI1) as (m2 & a2 & E & HI2 & Hn & Hk). exists (m2, a2). split; [done|].
    split; [done|]. intros o' [Ho'| ->%list_elem_of_singleton]%elem_of_app; [|done]. split; [by apply Hos|].
    destruct (Hp1 o' Ho') as [Hin Hp'].
    cbn [fst snd]. destruct (decide (o' = o)) as [->|]; [done|]. by apply Hk.
  - intros o Ho. by rewrite Hp in Ho.
  - split; [done|]. intros o Ho. by apply elem_of_nil in Ho.
  - exists m', a'. split; [done|]. split; [done|]. split; apply Hpost; rewrite Hp; [by left|right; by left].
Qed.

Lemma sync_one m a o : ac_stream0 a = [o] → ac_stream1 a = [] →
  cudaThreadSynchronize (m, a) = run_op o (m, set_streams [] [] (S (ac_drains a)) a).
Proof using Hd.
  intros E0 E1. unfold cudaThreadSynchronize. rewrite E0, E1.
  pose proof (interleave_perm (stream_order (ac_drains a)) [o] []) as ->%Permutation_singleton_r. cbn [run_threads].
  by destruct (run_op o _).
Qed.

Definition on_card_at (DP : loc) (off : Z) (a : acard) : Prop :=
  ∀ z, (z < data)%nat → loaded dptrs m0 (cd_mem (ac_card a)) DP off DMA_BLOCKSIZE z.

Abbreviation h2d_size := (DMA_BLOCKSIZE * (Z.of_nat disks - 2)).

Lemma filled_loaded hs m h off z : filled hs data [] m → (h, off) ∈ hs → (z < data)%nat →
  loaded dptrs m0 m h off DMA_BLOCKSIZE z.
Proof using Hd. intros Hf Hh Hz. apply (Hf h off z Hh). by left. Qed.

Lemma sync_h2d_two m a off off2 : async_ok a → host_ok m →
  filled [(HOST_DP_1 a, off); (HOST_DP_2 a, off2)] data [] m →
  ac_stream0 a = [HostToDevice (DEVICE_DP_1 (ac_card a)) (HOST_DP_1 a) h2d_size] →
  ac_stream1 a = [HostToDevice (DEVICE_DP_2 (ac_card a)) (HOST_DP_2 a) h2d_size] →
  ∃ a', cudaThreadSynchronize (m, a) = Ok (m, a') ∧ akeeps a a' ∧ idle a' ∧
    on_card_at (DEVICE_DP_1 (ac_card a)) off a' ∧ on_card_at (DEVICE_DP_2 (ac_card a)) off2 a'.
Proof using Hd L.
  intros Hao Hm Hf E0 E1. pose proof (co_ne3 _ (as_card _ Hao)) as Hne.
  set (d1 := DEVICE_DP_1 (ac_card a)) in *. set (d2 := DEVICE_DP_2 (ac_card a)) in *.
  destruct (sync_two (λ m' a', m' = m ∧ akeeps a a' ∧ idle a') (λ o _ a', match o with
      | HostToDevice d _ _ => (d = d1 → on_card_at d1 off a') ∧ (d = d2 → on_card_at d2 off2 a')
      | DeviceToHost _ _ _ => True end) m a _ _ E0 E1)
    as (m' & a' & E & (-> & K & Hi) & [H1 _] & [_ H2]).
  - split; [done|]. split; [apply akeeps_streams|done].
  - intros o m1 a1 Ho (-> & K & Hi). pose proof (as_card _ (async_ok_keeps _ _ K Hao)) as Hc.
    assert (DEVICE_DP_1 (ac_card a1) = d1 ∧ DEVICE_DP_2 (ac_card a1) = d2) as [Ed1 Ed2] by (by destruct K as [[]]).
    assert (∃ d h off', o = HostToDevice d h h2d_size ∧ (h, off') ∈ [(HOST_DP_1 a, off); (HOST_DP_2 a, off2)] ∧
      buf_ok (cd_mem (ac_card a1)) (DMA_BLOCKSIZE * 256) d ∧ buf_ok m (DMA_BLOCKSIZE * 256) h ∧
      (d = d1 → off' = off) ∧ (d = d2 → off' = off2)) as (d & h & off' & -> & Hh & Hdb & Hhb & Ho1 & Ho2).
    { apply elem_of_cons in Ho as [->| ->%list_elem_of_singleton].
      - exists d1, (HOST_DP_1 a), off. split_and!; [done|by left|rewrite <-Ed1; apply Hc|apply Hm, Hao|done|done].
      - exists d2, (HOST_DP_2 a), off2.
        split_and!; [done|right; by left|rewrite <-Ed2; apply Hc|apply Hm, Hao|by intros ->|done]. }
    destruct (h2d_ok m a1 d h off') as (dm & E & O & F & Hl); [done..|by intros; eapply filled_loaded|].
    eexists _, _. split; [exact E|]. split_and!; [done|by etrans; [|apply akeeps_card, keeps_set_mem]|apply Hi..| | |].
    + intros Hd1. rewrite <-Hd1, <-(Ho1 Hd1). exact Hl.
    + intros Hd2. rewrite <-Hd2, <-(Ho2 Hd2). exact Hl.
    + intros [d' h' n'|d' h' n'] Ho' Hne' Hp; [|done].
      assert (d' ≠ d) as Hdd.
      { intros ->. apply Hne'. rewrite elem_of_cons, list_elem_of_singleton in Ho, Ho'.
        destruct Ho, Ho'; congruence. }
      destruct Hp as [Hp1 Hp2]. split; intros ->; intros z Hz; (eapply loaded_frame; [by apply F|]); [by apply Hp1|by apply Hp2].
  - exists a'. split; [done|]. split; [done|]. split; [done|]. split; [by apply H1|by apply H2].
Qed.

Lemma sync_h2d_one m a off : async_ok a → host_ok m → filled [(HOST_DP_1 a, off)] data [] m →
  ac_stream0 a = [HostToDevice (DEVICE_DP_1 (ac_card a)) (HOST_DP_1 a) h2d_size] → ac_stream1 a = [] →
  ∃ a', cudaThreadSynchronize (m, a) = Ok (m, a') ∧ akeeps a a' ∧ idle a' ∧
    on_card_at (DEVICE_DP_1 (ac_card a)) off a'.
Proof using Hd L.
  intros Hao Hm Hf E0 E1. rewrite (sync_one _ _ _ E0 E1).
  destruct (h2d_ok m (set_streams [] [] (S (ac_drains a)) a) (DEVICE_DP_1 (ac_card a)) (HOST_DP_1 a) off)
    as (dm & E & O & F & Hl); [apply Hao|apply Hm, Hao|intros; eapply filled_loaded; [done|by left|done]|].
  eexists. split; [exact E|]. split; [|done].
  etrans; [apply akeeps_streams|]. by apply akeeps_card, keeps_set_mem.
Qed.

(** ** The launches *)
Lemma writes_none : writes_cuda m0 dptrs disks (λ _, False) m0.
Proof using Hd. by split. Qed.

Lemma kernel_ok m a DP PQ grid off n : n ≤ DMA_BLOCKSIZE → on_card_at DP off a →
  buf_ok (cd_mem (ac_card a)) (DMA_BLOCKSIZE * 256) DP → buf_ok (cd_mem (ac_card a)) (DMA_BLOCKSIZE * 2) PQ →
  DP ≠ PQ → n ≤ grid * THREAD_BLOCKSIZE * 8 → grid * THREAD_BLOCKSIZE * 8 ≤ DMA_BLOCKSIZE →
  ∃ c, exec_kernel grid DP PQ (Z.of_nat disks - 3) (m, a) = Ok (m, set_card c a) ∧ akeeps a (set_card c a) ∧
    (∀ b, b ≠ PQ → cd_mem c !! b = cd_mem (ac_card a) !! b) ∧ ready m0 dptrs disks (cd_mem c) PQ off n.
Proof using Hacc Ha Hd L.
  intros Hn Hl HDP HPQ Hne Hg1 Hg2. unfold exec_kernel. rewrite Hacc.
  destruct (launch_ready m0 dptrs disks bytes Hd Ha _ m0 (ac_card a) DP PQ grid off n writes_none HDP HPQ Hne)
    as (c & E & K & F & Hr); [|done|done|].
  - intros z Hz b k Hb Hk. apply Hl; [done|done|lia].
  - run E. exists c. split; [done|]. split; [by apply akeeps_card|done].
Qed.

Lemma ready_frame dm dm' PQ off n : dm' !! PQ = dm !! PQ → ready m0 dptrs disks dm PQ off n →
  ready m0 dptrs disks dm' PQ off n.
Proof using Hd. intros E Hr k Hk. rewrite !(peek_eq dm dm') by done. by apply Hr. Qed.

(** ** The check blocks into the page-locked buffers *)
Lemma sync_d2h_two m a off off2 : async_ok a → host_ok m →
  ready m0 dptrs disks (cd_mem (ac_card a)) (DEVICE_PQ_1 (ac_card a)) off DMA_BLOCKSIZE →
  ready m0 dptrs disks (cd_mem (ac_card a)) (DEVICE_PQ_2 (ac_card a)) off2 DMA_BLOCKSIZE →
  ac_stream0 a = [DeviceToHost (HOST_PQ_1 a) (DEVICE_PQ_1 (ac_card a)) (DMA_BLOCKSIZE * 2)] →
  ac_stream1 a = [DeviceToHost (HOST_PQ_2 a) (DEVICE_PQ_2 (ac_card a)) (DMA_BLOCKSIZE * 2)] →
  ∃ m' a', cudaThreadSynchronize (m, a) = Ok (m', a') ∧ akeeps a a' ∧ idle a' ∧ host_step (hosts a) m m' ∧
    ready m0 dptrs disks m' (HOST_PQ_1 a) off DMA_BLOCKSIZE ∧
    ready m0 dptrs disks m' (HOST_PQ_2 a) off2 DMA_BLOCKSIZE.
Proof using Hd L.
  intros Hao Hm Hr1 Hr2 E0 E1. set (h1 := HOST_PQ_1 a) in *. set (h2 := HOST_PQ_2 a) in *.
  assert (h1 ≠ h2) as Hne.
  { pose proof (as_nodup _ Hao) as Hn. unfold hosts in Hn. clear -Hn. rewrite !NoDup_cons in Hn. set_solver. }
  destruct (sync_two (λ m' a', host_step (hosts a) m m' ∧ host_ok m' ∧ a' = set_streams [] [] (S (ac_drains a)) a)
      (λ o m' _, match o with
      | DeviceToHost h _ _ => (h = h1 → ready m0 dptrs disks m' h1 off DMA_BLOCKSIZE) ∧
          (h = h2 → ready m0 dptrs disks m' h2 off2 DMA_BLOCKSIZE)
      | HostToDevice _ _ _ => True end) m a _ _ E0 E1)
    as (m' & a' & E & (S' & _ & ->) & [H1 _] & [_ H2]).
  - done.
  - intros o m1 a1 Ho (S1 & Hm1 & ->).
    assert (∃ h d off', o = DeviceToHost h d (DMA_BLOCKSIZE * 2) ∧ h ∈ hosts a ∧ buf_ok m1 (DMA_BLOCKSIZE * 2) h ∧
      buf_ok (cd_mem (ac_card a)) (DMA_BLOCKSIZE * 2) d ∧
      ready m0 dptrs disks (cd_mem (ac_card a)) d off' DMA_BLOCKSIZE ∧
      (h = h1 → off' = off) ∧ (h = h2 → off' = off2)) as (h & d & off' & -> & Hh & Hhb & Hdb & Hr & Ho1 & Ho2).
    { apply elem_of_cons in Ho as [->| ->%list_elem_of_singleton].
      - exists h1, (DEVICE_PQ_1 (ac_card a)), off.
        split_and!; [done|right; by left|apply Hm1, Hao|apply Hao|done|done|done].
      - exists h2, (DEVICE_PQ_2 (ac_card a)), off2.
        split_and!; [done|do 3 right; by left|apply Hm1, Hao|apply Hao|done|by intros ->|done]. }
    destruct (d2h_ok m1 (set_streams [] [] (S (ac_drains a)) a) h d off' DMA_BLOCKSIZE) as (m2 & E & S2 & Hr2'); [done..|].
    assert (host_step (hosts a) m1 m2) as S2'.
    { eapply host_step_sub; [|exact S2]. by intros b ->%list_elem_of_singleton. }
    eexists _, _. split; [exact E|]. split_and!; [by etrans|by eapply host_ok_step|done| | |].
    + intros Hd1. rewrite <-Hd1, <-(Ho1 Hd1). exact Hr2'.
    + intros Hd2. rewrite <-Hd2, <-(Ho2 Hd2). exact Hr2'.
    + intros [d' h' n'|h' d' n'] Ho' Hne' Hp; [done|].
      assert (h' ≠ h) as Hhh.
      { intros ->. apply Hne'. rewrite elem_of_cons, list_elem_of_singleton in Ho, Ho'. destruct Ho, Ho'; congruence. }
      destruct Hp as [Hp1 Hp2].
      split; intros ->; (eapply ready_frame; [by apply S2; intros ?%list_elem_of_singleton|]); [by apply Hp1|by apply Hp2].
  - eexists m', _. split; [exact E|]. split; [apply akeeps_streams|]. split; [done|]. split; [done|].
    split; [by apply H1|by apply H2].
Qed.

(** ** What reaches the check disks *)
(** The P disk gets the check blocks from their second byte on: P of the next
    byte, and at the end of a block the card's Q of its first byte. *)
Definition p_shifted (k : nat) (v : Z) : Prop :=
  if decide (Z.of_nat (S k) mod DMA_BLOCKSIZE = 0) then
    ∃ g, is_byte g ∧ v = cuda_q g (column m0 dptrs data (S k - Z.to_nat DMA_BLOCKSIZE))
  else v = p_byte m0 dptrs disks (S k).

Record copied_out (off : Z) (m m' : mem) : Prop := {
  cp_frame : ∀ b, dptrs !! (disks - 2)%nat ≠ Some b → dptrs !! (disks - 1)%nat ≠ Some b → m' !! b = m !! b;
  cp_ok : ∀ b l, buf_ok m l b → buf_ok m' l b;
  cp_len : ∀ b, buf_len m' b = buf_len m b;
  cp_q : ∀ q k, dptrs !! (disks - 1)%nat = Some q → in_block off DMA_BLOCKSIZE k →
    peek m' q k = p_byte m0 dptrs disks k;
  cp_p : ∀ p k, dptrs !! (disks - 2)%nat = Some p → in_block off DMA_BLOCKSIZE k → p_shifted k (peek m' p k);
  cp_rest : ∀ b k, ¬ in_block off DMA_BLOCKSIZE k → peek m' b k = peek m b k
}.

Lemma shift_block t k : 0 ≤ t → in_block (t * DMA_BLOCKSIZE) DMA_BLOCKSIZE k →
  Z.of_nat (S k) mod DMA_BLOCKSIZE = 0 ↔ Z.of_nat (S k) = t * DMA_BLOCKSIZE + DMA_BLOCKSIZE.
Proof using Hd.
  unfold in_block. pose proof DMA_eq as HD. intros Ht Hk. split; intros E.
  - assert (Z.of_nat (S k) / DMA_BLOCKSIZE * DMA_BLOCKSIZE = Z.of_nat (S k)) as Hq.
    { pose proof (Z.div_mod (Z.of_nat (S k)) DMA_BLOCKSIZE). lia. }
    assert (t < Z.of_nat (S k) / DMA_BLOCKSIZE < t + 2) by nia. nia.
  - rewrite E. replace (t * DMA_BLOCKSIZE + DMA_BLOCKSIZE) with ((t + 1) * DMA_BLOCKSIZE) by lia.
    by apply Z.mod_mul; lia.
Qed.

Lemma host_copy_out_ok m h hoff i off b : host_ok m → buf_ok m (DMA_BLOCKSIZE * 2) h → (i < disks)%nat →
  dptrs !! i = Some b → 0 ≤ hoff ≤ DMA_BLOCKSIZE → 0 ≤ off → off + DMA_BLOCKSIZE ≤ bytes →
  ∃ m', host_copy_out dptrs h hoff (Z.of_nat i) off m = Ok m' ∧
    stored m b (Z.to_nat off) (slice m h hoff (Z.to_nat DMA_BLOCKSIZE)) m'.
Proof using Hd Ha L.
  intros Hm Hh Hi Hb Hp Hoff Hbn. unfold host_copy_out. run (nth_ptr_nat dptrs (Z.of_nat i) i b) by done.
  pose proof DMA_eq as HD.
  destruct (cuda_copy_spec m b off bytes m h hoff (DMA_BLOCKSIZE * 2) DMA_BLOCKSIZE) as (m' & E & Hs);
    [by eapply array_ptr; [by apply host_ok_array| |]|done|lia|lia|lia|lia|lia|].
  run E. by exists m'.
Qed.

Lemma out_ok m h t : let off := t * DMA_BLOCKSIZE in
  host_ok m → buf_ok m (DMA_BLOCKSIZE * 2) h → h ∉ disk_list → ready m0 dptrs disks m h off DMA_BLOCKSIZE →
  0 ≤ t → off + DMA_BLOCKSIZE ≤ bytes →
  ∃ m1 m2, host_copy_out dptrs h 0 (Z.of_nat disks - 1) off m = Ok m1 ∧
    host_copy_out dptrs h 1 (Z.of_nat disks - 2) off m1 = Ok m2 ∧ copied_out off m m2.
Proof using Hd Ha L.
  intros off Hm Hh Hn Hr Ht Hb. assert (0 ≤ off) as Hoff by (unfold off; pose proof DMA_eq; nia).
  destruct (check_disks m0 dptrs disks bytes) as (p & q & Hp & Hq & Hpq & _); [lia|done|]. pose proof DMA_eq as HD.
  destruct (host_copy_out_ok m h 0 (disks - 1) off q) as (m1 & E1 & [F1 L1 O1 P1]); [done|done|lia|done|lia|done|done|].
  assert (host_ok m1) as Hm1.
  { split; [intros; apply O1, Hm; done|intros; by rewrite L1, (ho_len _ Hm)|]. intros i b Hi Hbi. rewrite F1; [by eapply ho_data|]. intros ->.
    pose proof (array_inj Ha i (disks - 1) q ltac:(lia) ltac:(lia) Hbi Hq). lia. }
  destruct (host_copy_out_ok m1 h 1 (disks - 2) off p) as (m2 & E2 & [F2 L2 O2 P2]);
    [done|by apply O1|lia|done|lia|done|done|].
  replace (Z.of_nat (disks - 1)) with (Z.of_nat disks - 1) in E1 by lia.
  replace (Z.of_nat (disks - 2)) with (Z.of_nat disks - 2) in E2 by lia.
  assert (h ≠ q ∧ h ≠ p) as [Hhq Hhp].
  { split; intros ->; apply Hn; [apply (disk_elem (disks - 1))|apply (disk_elem (disks - 2))]; done || lia. }
  exists m1, m2. split; [done|]. split; [done|]. rewrite length_slice in P1, P2. split.
  - intros b Hb1 Hb2. rewrite F2, F1 by congruence. done.
  - intros b l Hbo. by apply O2, O1.
  - congruence.
  - intros q' k Hq' Hk. rewrite Hq in Hq'. injection Hq' as <-. unfold in_block in Hk.
    rewrite (peek_eq m1) by (by apply F2). rewrite P1, decide_True by lia. rewrite slice_lookup by lia. simp_default.
    replace (Z.to_nat 0 + (k - Z.to_nat off))%nat with (k - Z.to_nat off)%nat by lia.
    destruct (Hr (k - Z.to_nat off)%nat) as [-> _]; [lia|]. f_equal. lia.
  - intros p' k Hp' Hk. rewrite Hp in Hp'. injection Hp' as <-. pose proof Hk as Hk'. unfold in_block in Hk'.
    rewrite P2, decide_True by lia. rewrite slice_lookup by lia. simp_default. rewrite (peek_eq m) by (by apply F1).
    unfold p_shifted. case_decide as Hlast; rewrite (shift_block t k Ht Hk) in Hlast; fold off in Hlast.
    + destruct (Hr 0%nat) as [_ (g & Hg & HQ)]; [lia|]. exists g. split; [done|].
      replace (Z.to_nat 1 + (k - Z.to_nat off))%nat with (Z.to_nat DMA_BLOCKSIZE + 0)%nat by lia. rewrite HQ.
      f_equal. f_equal. lia.
    + destruct (Hr (S k - Z.to_nat off)%nat) as [HP _]; [lia|].
      replace (Z.to_nat 1 + (k - Z.to_nat off))%nat with (S k - Z.to_nat off)%nat by lia. rewrite HP. f_equal. lia.
  - intros b k Hk. unfold in_block in Hk. destruct (decide (b = p)) as [->|Hbp].
    + rewrite P2, decide_False by lia. by apply peek_eq, F1.
    + rewrite (peek_eq m1) by (by apply F2). destruct (decide (b = q)) as [->|Hbq].
      * by rewrite P1, decide_False by lia.
      * by apply peek_eq, F1.
Qed.

(** ** A pair of blocks *)
Lemma launch_two_ok m a off off2 : let c := ac_card a in async_ok a → host_ok m → idle a →
  filled [(HOST_DP_1 a, off); (HOST_DP_2 a, off2)] data [] m →
  ∃ s a', async_launch full_grid (DEVICE_DP_1 c) (DEVICE_PQ_1 c) (Z.of_nat disks - 3)
      (m, cudaMemcpyAsync (HostToDevice (DEVICE_DP_2 c) (HOST_DP_2 a) h2d_size) true
            (cudaMemcpyAsync (HostToDevice (DEVICE_DP_1 c) (HOST_DP_1 a) h2d_size) false a)) = Ok s ∧
    async_launch full_grid (DEVICE_DP_2 c) (DEVICE_PQ_2 c) (Z.of_nat disks - 3) s = Ok (m, a') ∧
    akeeps a a' ∧ idle a' ∧ ready m0 dptrs disks (cd_mem (ac_card a')) (DEVICE_PQ_1 c) off DMA_BLOCKSIZE ∧
    ready m0 dptrs disks (cd_mem (ac_card a')) (DEVICE_PQ_2 c) off2 DMA_BLOCKSIZE.
Proof using Hacc Ha Hd L.
  intros c Hao Hm [Hi0 Hi1] Hf. pose proof full_grid_eq as Hfg. subst c.
  destruct (sync_h2d_two m (cudaMemcpyAsync (HostToDevice (DEVICE_DP_2 (ac_card a)) (HOST_DP_2 a) h2d_size) true
      (cudaMemcpyAsync (HostToDevice (DEVICE_DP_1 (ac_card a)) (HOST_DP_1 a) h2d_size) false a)) off off2)
    as (a1 & E1 & K1 & I1 & Hl1 & Hl2); [by destruct Hao|done|done|cbn; by rewrite Hi0|cbn; by rewrite Hi1|].
  assert (akeeps a a1) as Ka1 by (by destruct K1; split).
  pose proof (as_card _ (async_ok_keeps _ _ Ka1 Hao)) as Hc1. cbn in Hl1, Hl2.
  pose proof (ak_card _ _ Ka1) as [Ed1 Ep1 Ed2 Ep2 _ _ _]. rewrite <-Ed1 in Hl1. rewrite <-Ed2 in Hl2.
  rewrite <-Ed1, <-Ed2, <-Ep1, <-Ep2.
  destruct (kernel_ok m a1 (DEVICE_DP_1 (ac_card a1)) (DEVICE_PQ_1 (ac_card a1)) full_grid off DMA_BLOCKSIZE)
    as (c2 & E2 & K2 & F2 & Hr1); [done|done|apply Hc1|apply Hc1|apply Hc1|lia|lia|].
  set (a3 := set_streams [] [] (S (ac_drains (set_card c2 a1))) (set_card c2 a1)).
  assert (akeeps a1 a3) as K3 by (by etrans; [exact K2|apply akeeps_streams]).
  pose proof (as_card _ (async_ok_keeps _ _ K3 (async_ok_keeps _ _ Ka1 Hao))) as Hc3.
  pose proof (ak_card _ _ K3) as [Ed1' Ep1' Ed2' Ep2' _ _ _].
  destruct (kernel_ok m a3 (DEVICE_DP_2 (ac_card a1)) (DEVICE_PQ_2 (ac_card a1)) full_grid off2 DMA_BLOCKSIZE)
    as (c4 & E4 & K4 & F4 & Hr2);
    [done| |rewrite <-Ed2'; apply Hc3|rewrite <-Ep2'; apply Hc3|apply Hc1|lia|lia|].
  { intros z Hz. eapply loaded_frame; [|by apply Hl2]. cbn. apply F2, Hc1. }
  eexists _, _. split_and!.
  - unfold async_launch. rewrite Ed1, Ep1, Ed2 in *. run E1. exact E2.
  - unfold async_launch. run sync_idle by done. exact E4.
  - etrans; [exact Ka1|]. by etrans.
  - done.
  - cbn. eapply ready_frame; [|exact Hr1]. rewrite F4; [done|]. apply Hc1.
  - done.
Qed.

(** The state of the loop: the first [n] bytes are processed. *)
Record async_writes (a : acard) (n : Z) (m : mem) : Prop := {
  aw_host : host_ok m;
  aw_frame : ∀ b, b ∉ hosts a → dptrs !! (disks - 2)%nat ≠ Some b → dptrs !! (disks - 1)%nat ≠ Some b → m !! b = m0 !! b;
  aw_q : ∀ q k, dptrs !! (disks - 1)%nat = Some q → Z.of_nat k < n → peek m q k = p_byte m0 dptrs disks k;
  aw_p : ∀ p k, dptrs !! (disks - 2)%nat = Some p → Z.of_nat k < n → p_shifted k (peek m p k);
  aw_rest : ∀ b k, b ∉ hosts a → n ≤ Z.of_nat k → peek m b k = peek m0 b k
}.

Lemma async_writes_host a n m m' : async_ok a → host_step (hosts a) m m' → async_writes a n m → async_writes a n m'.
Proof using Hd Ha.
  intros Hao S [H F Q P Re]. pose proof (as_fresh _ Hao) as Hfr.
  split; [by eapply host_ok_step|..].
  - intros b Hb. rewrite (hs_frame _ _ _ S) by done. auto.
  - intros q k Hq Hk. rewrite (peek_eq m m'); [by apply Q|]. apply S, Hfr, (disk_elem (disks - 1)); [lia|done].
  - intros p k Hp Hk. rewrite (peek_eq m m'); [by apply P|]. apply S, Hfr, (disk_elem (disks - 2)); [lia|done].
  - intros b k Hb Hk. rewrite (peek_eq m m'); [by apply Re|]. by apply S.
Qed.

Lemma async_writes_out a n m m' : async_writes a n m → copied_out n m m' →
  async_writes a (n + DMA_BLOCKSIZE) m'.
Proof using Hd Ha.
  pose proof DMA_eq as HD. intros [H F Q P Re] [F' O' L' Q' P' R']. split.
  - split; [intros; by apply O', H|intros; by rewrite L', (ho_len _ H)|]. intros i b Hi Hb. rewrite F'; [by eapply ho_data|..]; intros E.
    + pose proof (array_inj Ha i (disks - 2) b ltac:(lia) ltac:(lia) Hb E). lia.
    + pose proof (array_inj Ha i (disks - 1) b ltac:(lia) ltac:(lia) Hb E). lia.
  - intros b Hb Hp Hq. rewrite F' by done. auto.
  - intros q k Hq Hk. destruct (decide (in_block n DMA_BLOCKSIZE k)) as [Hin|Hin]; [by apply Q'|].
    rewrite R' by done. apply Q; [done|]. unfold in_block in Hin. lia.
  - intros p k Hp Hk. destruct (decide (in_block n DMA_BLOCKSIZE k)) as [Hin|Hin]; [by apply P'|].
    rewrite R' by done. apply P; [done|]. unfold in_block in Hin. lia.
  - intros b k Hb Hk. rewrite R'; [apply Re; [done|lia]|]. unfold in_block. lia.
Qed.

Lemma async_two_blocks_ok m a j : async_ok a → idle a → async_writes a (j * 2 * DMA_BLOCKSIZE) m → 0 ≤ j →
  j * 2 * DMA_BLOCKSIZE + 2 * DMA_BLOCKSIZE ≤ bytes →
  ∃ m' a', async_two_blocks (Z.of_nat disks) dptrs j (m, a) = Ok (m', a') ∧ akeeps a a' ∧ idle a' ∧
    async_writes a ((j + 1) * 2 * DMA_BLOCKSIZE) m'.
Proof using Hacc Ha Hd Hmax L.
  intros Hao Hi Hw Hj Hb. unfold async_two_blocks. pose proof DMA_eq as HD. set (off := j * 2 * DMA_BLOCKSIZE) in *.
  run (int_mul_ok (j * 2)) by (unfold INT_MIN, INT_MAX in *; fold off; nia). fold off.
  run int_add_ok by (unfold INT_MIN, INT_MAX in *; nia).
  destruct (fill_two a m off (off + DMA_BLOCKSIZE)) as (m1 & E1 & S1 & Hf1); [done|apply Hw|lia..|].
  run E1. pose proof (async_writes_host _ _ _ _ Hao S1 Hw) as Hw1.
  run int_mul_ok by (unfold INT_MIN, INT_MAX in *; nia).
  destruct (launch_two_ok m1 a off (off + DMA_BLOCKSIZE) Hao (aw_host _ _ _ Hw1) Hi Hf1)
    as (s2 & a3 & E2 & E3 & K3 & [I30 I31] & Hr1 & Hr2).
  cbv zeta. change (HOST_DP_2 (cudaMemcpyAsync _ false a)) with (HOST_DP_2 a).
  run E2. run E3. pose proof (async_ok_keeps _ _ K3 Hao) as Hao3.
  pose proof K3 as [[_ Ep1 _ Ep2 _ _ _] _ Eh1 _ Eh2].
  match goal with |- context [cudaThreadSynchronize (m1, ?x)] => set (a4 := x) end.
  assert (akeeps a3 a4) as K4 by by split.
  destruct (sync_d2h_two m1 a4 off (off + DMA_BLOCKSIZE)) as (m5 & a5 & E5 & K5 & I5 & S5 & Hq1 & Hq2);
    [by eapply async_ok_keeps|apply Hw1|cbn; by rewrite Ep1|cbn; by rewrite Ep2|cbn; by rewrite I30, Ep1|
     cbn; by rewrite I31, Ep2|].
  run E5. assert (akeeps a a5) as K by (by etrans; [exact K3|]; etrans).
  pose proof (async_ok_keeps _ _ K Hao) as Hao5. pose proof K as [_ _ Eh1' _ Eh2']. rewrite Eh1', Eh2'.
  cbn in Hq1, Hq2. rewrite Eh1 in Hq1. rewrite Eh2 in Hq2.
  assert (hosts a4 = hosts a) as Eh by (destruct K3; unfold hosts; cbn; congruence). rewrite Eh in S5.
  pose proof (async_writes_host _ _ _ _ Hao S5 Hw1) as Hw5.
  assert ((HOST_PQ_1 a ∉ disk_list) ∧ (HOST_PQ_2 a ∉ disk_list)) as [Hn1 Hn2].
  { split; intros Hin; apply (as_fresh _ Hao) in Hin; apply Hin; [right; by left|do 3 right; by left]. }
  destruct (out_ok m5 (HOST_PQ_1 a) (j * 2)) as (m6 & m7 & E6 & E7 & C7);
    [apply Hw5|apply Hw5, Hao|done|done|lia|fold off; lia|]. fold off in E6, E7, C7.
  pose proof (async_writes_out _ _ _ _ Hw5 C7) as Hw7. run E6. run E7.
  destruct (out_ok m7 (HOST_PQ_2 a) (j * 2 + 1)) as (m8 & m9 & E8 & E9 & C9);
    [apply Hw7|apply Hw7, Hao|done| |lia|lia|].
  { replace ((j * 2 + 1) * DMA_BLOCKSIZE) with (off + DMA_BLOCKSIZE) by lia. eapply ready_frame; [|exact Hq2].
    apply C7; intros E; apply Hn2; (eapply disk_elem; [|exact E]; lia). }
  replace ((j * 2 + 1) * DMA_BLOCKSIZE) with (off + DMA_BLOCKSIZE) in E8, E9, C9 by lia.
  run E8. run E9. eexists _, _. split; [done|]. split; [done|]. split; [done|].
  replace ((j + 1) * 2 * DMA_BLOCKSIZE) with (off + DMA_BLOCKSIZE + DMA_BLOCKSIZE) by lia.
  by eapply async_writes_out.
Qed.

Lemma async_pairs_ok m a runs : async_ok a → idle a → async_writes a 0 m → 0 ≤ runs →
  runs * 2 * DMA_BLOCKSIZE ≤ bytes →
  ∃ m' a', for_lt 0 runs 1 (async_two_blocks (Z.of_nat disks) dptrs) (m, a) = Ok (m', a') ∧ akeeps a a' ∧
    idle a' ∧ async_writes a (runs * 2 * DMA_BLOCKSIZE) m'.
Proof using Hacc Ha Hd Hmax L.
  intros Hao Hi Hw Hr Hb. pose proof DMA_eq as HD.
  destruct (for_lt_inv (λ i (s : mem * acard), akeeps a s.2 ∧ idle s.2 ∧ async_writes a (i * 2 * DMA_BLOCKSIZE) s.1)
    (async_two_blocks (Z.of_nat disks) dptrs) 0 runs 1) with (s := (m, a))
    as ([m' a'] & E & K & I & Hw'); [lia|done|unfold INT_MAX in *; lia| | |].
  - intros i [m1 a1] Hi1 _ (K & I & Hw1). cbn [fst snd] in *.
    assert (hosts a1 = hosts a) as Eh by (destruct K; unfold hosts; congruence).
    destruct (async_two_blocks_ok m1 a1 i) as (m2 & a2 & E & K2 & I2 & Hw2);
      [by eapply async_ok_keeps|done| |lia|nia|].
    { destruct Hw1. by split; rewrite ?Eh. }
    exists (m2, a2). split; [done|]. cbn [fst snd]. split; [by etrans|]. split; [done|].
    destruct Hw2. by split; rewrite <-?Eh.
  - done.
  - rewrite (loop_end_unique _ _ _ runs runs) in Hw' by lia. by exists m', a'.
Qed.

(** ** The rest: a block too many *)
Lemma host_copy_out_overrun m h hoff i off b : dptrs !! i = Some b → buf_len m b < off + DMA_BLOCKSIZE →
  host_copy_out dptrs h hoff (Z.of_nat i) off m = Err OutOfBounds.
Proof using Hd.
  intros Hb Hl. unfold host_copy_out. run (nth_ptr_nat dptrs (Z.of_nat i) i b) by done.
  apply cuda_copy_overrun; [pose proof DMA_eq; lia|done].
Qed.

Lemma async_one_block_faults m a grid j off n q : async_ok a → idle a → host_ok m →
  dptrs !! (disks - 1)%nat = Some q → buf_len m0 q = bytes →
  0 < n ≤ DMA_BLOCKSIZE → n ≤ grid * THREAD_BLOCKSIZE * 8 → grid * THREAD_BLOCKSIZE * 8 ≤ DMA_BLOCKSIZE →
  0 ≤ off → off + DMA_BLOCKSIZE ≤ bytes → 0 ≤ j → j * 2 * DMA_BLOCKSIZE ≤ bytes →
  bytes < j * 2 * DMA_BLOCKSIZE + 2 * DMA_BLOCKSIZE →
  async_one_block (Z.of_nat disks) dptrs grid j off (m, a) = Err OutOfBounds.
Proof using Hacc Ha Hd Hmax L.
  intros Hao [Hi0 Hi1] Hm Hq Hql Hn Hg1 Hg2 Hoff Hoffb Hj Hjb Hover. unfold async_one_block. pose proof DMA_eq as HD.
  destruct (host_fill_one a m off) as (m1 & E1 & S1 & Hf1); [done..|]. run E1.
  pose proof (host_ok_step _ _ _ Hao S1 Hm) as Hm1.
  run (int_mul_ok DMA_BLOCKSIZE) by (unfold INT_MIN, INT_MAX in *; nia). cbv zeta.
  unfold async_launch at 1.
  destruct (sync_h2d_one m1 (cudaMemcpyAsync (HostToDevice (DEVICE_DP_1 (ac_card a)) (HOST_DP_1 a) h2d_size) false a) off)
    as (a2 & E2 & K2 & I2 & Hl2); [by destruct Hao|done|done|cbn; by rewrite Hi0|done|].
  run E2. assert (akeeps a a2) as Ka2 by (by destruct K2; split). pose proof (async_ok_keeps _ _ Ka2 Hao) as Hao2.
  pose proof (as_card _ Hao2) as Hc2. cbn in Hl2. pose proof (ak_card _ _ Ka2) as [Ed1 Ep1 _ _ _ _ _].
  rewrite <-Ed1 in *. rewrite <-Ep1 in *.
  destruct (kernel_ok m1 a2 (DEVICE_DP_1 (ac_card a2)) (DEVICE_PQ_1 (ac_card a2)) grid off n)
    as (c3 & E3 & K3 & _ & Hr3); [lia|done|apply Hc2|apply Hc2|apply Hc2|done|done|].
  run E3. pose proof (async_ok_keeps _ _ K3 Hao2) as Hao3.
  rewrite sync_one with (o := DeviceToHost (HOST_PQ_1 a2) (DEVICE_PQ_1 (ac_card a2)) (DMA_BLOCKSIZE * 2));
    [|cbn; by destruct I2 as [-> _]|by destruct I2].
  match goal with |- context [run_op _ (m1, ?x)] => set (a4 := x) end.
  destruct (d2h_ok m1 a4 (HOST_PQ_1 a2) (DEVICE_PQ_1 (ac_card a2)) off n) as (m4 & E4 & S4 & _);
    [apply Hm1, Hao2|rewrite <-(ck_pq1 _ _ (ak_card _ _ K3)); apply Hao3|done|lia|].
  run E4. assert (host_ok m4) as Hm4.
  { eapply (host_ok_step a2); [done| |exact Hm1]. eapply host_step_sub; [|exact S4].
    intros b ->%list_elem_of_singleton. right. by left. }
  run (int_mul_ok (j * 2)) by (unfold INT_MIN, INT_MAX in *; nia).
  replace (Z.of_nat disks - 1) with (Z.of_nat (disks - 1)) by lia.
  destruct (decide (bytes < j * 2 * DMA_BLOCKSIZE + DMA_BLOCKSIZE)) as [Hlt|Hge].
  - run (host_copy_out_overrun m4 (HOST_PQ_1 a4) 0 (disks - 1) (j * 2 * DMA_BLOCKSIZE) q);
      [done|done|]. by rewrite (ho_len _ Hm4), Hql.
  - destruct (host_copy_out_ok m4 (HOST_PQ_1 a4) 0 (disks - 1) (j * 2 * DMA_BLOCKSIZE) q) as (m5 & E5 & [_ L5 _ _]);
      [done|apply Hm4, Hao3|lia|done|lia|nia|lia|].
    run E5. run int_add_ok by (unfold INT_MIN, INT_MAX in *; nia).
    run (host_copy_out_overrun m5 (HOST_PQ_2 a4) 0 (disks - 1) (j * 2 * DMA_BLOCKSIZE + DMA_BLOCKSIZE) q);
      [done|done|]. rewrite L5, (ho_len _ Hm4), Hql. lia.
Qed.
End host_proofs.

(** ** A call *)
(** What the allocations of the first call leave. *)
Record allocated (m m1 : mem) (a : acard) : Prop := {
  al_frame : ∀ b, is_Some (m !! b) → m1 !! b = m !! b;
  al_fresh : ∀ b, is_Some (m !! b) → b ∉ hosts a;
  al_ok : ∀ b l, buf_ok m l b → buf_ok m1 l b
}.

Section theorems.
Context {R : CudaRuntime} {L : CudaLaws R} {T : CudaStreams} {TL : StreamLaws T}.

Lemma get_card_mem_async_ok m ptrs disks bytes s : (3 ≤ disks ≤ 258)%nat → array_ok m ptrs disks bytes →
  get_card_mem_async (m, set_card (set_cd_dptrs ptrs card_start) acard_start) = Some s →
  ∃ m1 a, s = (m1, a) ∧ async_ok m1 ptrs disks a ∧ idle a ∧ allocated m m1 a.
Proof using L TL.
  intros Hd Ha. unfold get_card_mem_async. cbn [mem_tag ac_card set_card set_cd_dptrs card_start].
  destruct (get_card_mem _) as [c|] eqn:Ec; cbn [mbind option_bind]; [|done].
  apply (get_card_mem_ok disks Hd) in Ec as (Hc & _ & _); [|done].
  destruct (cudaMallocHost m (DMA_BLOCKSIZE * 256)) as [[b1 m1]|] eqn:E1; [cbn|done].
  destruct (cudaMallocHost m1 (DMA_BLOCKSIZE * 2)) as [[b2 m2]|] eqn:E2; [cbn|done].
  destruct (cudaMallocHost m2 (DMA_BLOCKSIZE * 256)) as [[b3 m3]|] eqn:E3; [cbn|done].
  destruct (cudaMallocHost m3 (DMA_BLOCKSIZE * 2)) as [[b4 m4]|] eqn:E4; [cbn|done]. intros [= <-].
  apply cudaMallocHost_ok in E1 as (N1 & x1 & -> & L1 & B1). apply cudaMallocHost_ok in E2 as (N2 & x2 & -> & L2 & B2).
  apply cudaMallocHost_ok in E3 as (N3 & x3 & -> & L3 & B3). apply cudaMallocHost_ok in E4 as (N4 & x4 & -> & L4 & B4).
  rewrite !lookup_insert_None in *. destruct N2 as [N2 Nb2], N3 as [[N3 Nb3] Nb3'], N4 as [[[N4 Nb4] Nb4'] Nb4''].
  eexists _, _. split; [done|].
  assert (∀ b, is_Some (m !! b) → b ≠ b1 ∧ b ≠ b2 ∧ b ≠ b3 ∧ b ≠ b4) as Hne.
  { intros b [x Hx]. split_and!; congruence. }
  assert (∀ b, is_Some (m !! b) → b ∉ [b1; b2; b3; b4]) as Hfresh.
  { intros b Hb. specialize (Hne b Hb). rewrite !elem_of_cons, elem_of_nil. tauto. }
  assert (∀ b, is_Some (m !! b) → (<[b4:=x4]> (<[b3:=x3]> (<[b2:=x2]> (<[b1:=x1]> m)))) !! b = m !! b) as Hfr.
  { intros b Hb. destruct (Hne b Hb) as (?&?&?&?). by rewrite !lookup_insert_ne by congruence. }
  split_and!; [|done|split; [done|done|]].
  - split; cbn [ac_card HOST_DP_1 HOST_PQ_1 HOST_DP_2 HOST_PQ_2]; [done|..].
    1-4: apply buf_ok_Some; rewrite ?lookup_insert_ne by congruence; rewrite lookup_insert_eq;
      eexists; (split; [done|]); (split; [lia|done]).
    + unfold hosts; cbn. rewrite !NoDup_cons, !elem_of_cons, !elem_of_nil. split_and!; try apply NoDup_nil_2; naive_solver congruence.
    + intros b (i & Hi & Hlt)%elem_of_take. apply Hfresh.
      pose proof (array_ptr Ha i b Hlt Hi) as (x & -> & _)%buf_ok_Some. by eexists.
  - intros b l Hb. apply buf_ok_Some in Hb as (x & Hx & Hb). apply buf_ok_Some. exists x.
    rewrite Hfr by (by eexists). done.
Qed.

Lemma async_writes_start m0 ptrs disks bytes a : array_ok m0 ptrs disks bytes → async_writes m0 ptrs disks a 0 m0.
Proof using Type. intros Ha. split; [by split|done|lia|lia|done]. Qed.

Section call.
Context (Hacc : ∀ l, shared_accepts l = true) (m : mem) (ptrs : list loc) (disks : nat) (bytes : Z).
Context (Hd : (3 ≤ disks ≤ 258)%nat) (Hb : 0 ≤ bytes ≤ INT_MAX) (Ha : array_ok m ptrs disks bytes).

(** The loop over the pairs of blocks, from the start of the program. *)
Lemma async_call : let runs := bytes / (DMA_BLOCKSIZE * 2) in
  raid6_cuda_gen_syndrome_asynccopy (Z.of_nat disks) bytes ptrs (m, acard_start) = Ok None ∨
  ∃ m1 a1 m2 a2, allocated m m1 a1 ∧ array_ok m1 ptrs disks bytes ∧ async_ok m1 ptrs disks a1 ∧ akeeps a1 a2 ∧ idle a2 ∧
    async_writes m1 ptrs disks a1 (runs * 2 * DMA_BLOCKSIZE) m2 ∧
    raid6_cuda_gen_syndrome_asynccopy (Z.of_nat disks) bytes ptrs (m, acard_start) =
      ('(j, carry_off, s) ←
        (if DMA_BLOCKSIZE <=? bytes - runs * 2 * DMA_BLOCKSIZE then
           off ← int_mul (runs * 2) DMA_BLOCKSIZE;
           s ← async_one_block (Z.of_nat disks) ptrs full_grid runs off (m2, a2);
           Ok (runs * 2 + 1, bytes - runs * 2 * DMA_BLOCKSIZE - DMA_BLOCKSIZE, s)
         else Ok (runs, bytes - runs * 2 * DMA_BLOCKSIZE, (m2, a2)));
      s ← (if 0 <? carry_off then
             off ← int_mul j DMA_BLOCKSIZE;
             async_one_block (Z.of_nat disks) ptrs (carry_off / (THREAD_BLOCKSIZE * 8) + 1) j off s
           else Ok s);
      Ok (Some s)).
Proof using All.
  intros runs. unfold raid6_cuda_gen_syndrome_asynccopy. cbn [cd_dptrs ac_card acard_start card_start default from_option].
  destruct (get_card_mem_async _) as [s|] eqn:E; [right|by left].
  destruct (get_card_mem_async_ok m ptrs disks bytes s Hd Ha E) as (m1 & a1 & -> & Hao & Hi & Hal).
  assert (array_ok m1 ptrs disks bytes) as Ha1 by (eapply array_ok_frame; [|exact Ha]; intros; by apply Hal).
  pose proof DMA_eq as HD.
  destruct (async_pairs_ok Hacc m1 ptrs disks bytes Hd Ha1 (proj2 Hb) m1 a1 runs Hao Hi)
    as (m2 & a2 & E2 & K & I & Hw); [by eapply async_writes_start|apply Z.div_pos; lia| |].
  { subst runs. rewrite HD. Z.to_euclidean_division_equations. lia. }
  exists m1, a1, m2, a2. split_and!; [done..|]. fold runs. by run E2.
Qed.

Lemma allocated_column m1 a k : allocated m m1 a → column m1 ptrs (disks - 2) k = column m ptrs (disks - 2) k.
Proof using Ha Hd.
  intros Hal. apply column_frame. intros b (i & Hi & Hlt)%elem_of_take. apply peek_eq, Hal.
  pose proof (array_ptr Ha i b ltac:(lia) Hi) as (x & -> & _)%buf_ok_Some. by eexists.
Qed.

(** What a call of whole pairs leaves in memory. *)
Definition misplaced (p q : loc) (m' : mem) : Prop :=
  (∀ b, is_Some (m !! b) → b ≠ p → b ≠ q → m' !! b = m !! b) ∧
  ∀ k, Z.of_nat k < bytes → peek m' q k = p_byte m ptrs disks k ∧ p_shifted m ptrs disks k (peek m' p k).

Lemma async_whole p q : bytes mod (DMA_BLOCKSIZE * 2) = 0 →
  ptrs !! (disks - 2)%nat = Some p → ptrs !! (disks - 1)%nat = Some q →
  raid6_cuda_gen_syndrome_asynccopy (Z.of_nat disks) bytes ptrs (m, acard_start) = Ok None ∨
  ∃ m' a', raid6_cuda_gen_syndrome_asynccopy (Z.of_nat disks) bytes ptrs (m, acard_start) = Ok (Some (m', a')) ∧
    misplaced p q m'.
Proof using All.
  intros Hmod Hp Hq. destruct async_call as [E|(m1 & a1 & m2 & a2 & Hal & Ha1 & Hao & K & I & Hw & E)]; [by left|right].
  pose proof DMA_eq as HD. pose proof (Z.div_mod bytes (DMA_BLOCKSIZE * 2) ltac:(lia)) as Hdm.
  assert (bytes / (DMA_BLOCKSIZE * 2) * 2 * DMA_BLOCKSIZE = bytes) as Hr by lia. rewrite Hr in *.
  rewrite Z.sub_diag in E. rewrite (proj2 (Z.leb_gt DMA_BLOCKSIZE 0)) in E by lia. bind_step.
  exists m2, a2. split; [exact E|]. destruct Hw as [_ F Q P _]. split.
  - intros b Hbs Hbp Hbq. rewrite F; [by apply Hal|by eapply al_fresh|congruence..].
  - intros k Hk. pose proof (P p k Hp Hk) as HP. rewrite (Q q k Hq Hk). unfold p_shifted, p_byte in *.
    rewrite !(allocated_column m1 a1) in * by done. done.
Qed.

(** On the same array the Q disk of the asynchronous variant holds what the P
    disk of the synchronous one holds. *)
Theorem async_q_is_sync_p p q m1 c1 m2 a2 k : bytes mod (DMA_BLOCKSIZE * 2) = 0 →
  ptrs !! (disks - 2)%nat = Some p → ptrs !! (disks - 1)%nat = Some q →
  raid6_cuda_gen_syndrome (Z.of_nat disks) bytes ptrs (m, card_start) = Ok (Some (m1, c1)) →
  raid6_cuda_gen_syndrome_asynccopy (Z.of_nat disks) bytes ptrs (m, acard_start) = Ok (Some (m2, a2)) →
  Z.of_nat k < bytes → peek m2 q k = peek m1 p k.
Proof using All.
  intros Hmod Hp Hq Es Ea Hk.
  destruct (async_whole p q Hmod Hp Hq) as [E|(m' & a' & E & _ & Hw)]; rewrite Ea in E; [done|]. injection E as <- <-.
  destruct (synccopy_run m ptrs disks bytes Hd Ha card_start ptrs eq_refl card_start_inv Hb)
    as [[_ E]|(m' & c' & E & _ & _ & _ & Hs)]; rewrite Es in E; [done|]. injection E as <- <-.
  destruct (Hw k Hk) as [-> _]. symmetry. apply (wc_p _ _ _ _ _ Hs); [done|].
  apply covered_all; [lia|right; left|done]. by rewrite Z.mul_comm.
Qed.

(** The code for the rest copies a block too many. *)
Lemma async_remainder : bytes mod (DMA_BLOCKSIZE * 2) ≠ 0 →
  Forall (λ b, buf_len m b = bytes) (take disks ptrs) →
  raid6_cuda_gen_syndrome_asynccopy (Z.of_nat disks) bytes ptrs (m, acard_start) = Ok None ∨
  raid6_cuda_gen_syndrome_asynccopy (Z.of_nat disks) bytes ptrs (m, acard_start) = Err OutOfBounds.
Proof using All.
  intros Hmod Hlen. destruct async_call as [E|(m1 & a1 & m2 & a2 & Hal & Ha1 & Hao & K & I & Hw & E)]; [by left|right].
  rewrite E. clear E. pose proof DMA_eq as HD. set (runs := bytes / (DMA_BLOCKSIZE * 2)) in *.
  assert (0 ≤ runs ∧ 0 < bytes - runs * 2 * DMA_BLOCKSIZE < 2 * DMA_BLOCKSIZE) as [Hr Hc].
  { subst runs. rewrite HD in *. Z.to_euclidean_division_equations. lia. }
  assert (∀ i b, (i < disks)%nat → ptrs !! i = Some b → buf_len m1 b = bytes) as Hlen1.
  { intros i b Hi Hbi. rewrite Forall_lookup in Hlen. rewrite <-(Hlen i b) by (by rewrite lookup_take_lt).
    unfold buf_len. rewrite (al_frame _ _ _ Hal); [done|].
    pose proof (array_ptr Ha i b Hi Hbi) as (x & -> & _)%buf_ok_Some. by eexists. }
  destruct (array_disk Ha1 (disks - 1)) as (q & Hq & _); [lia|].
  pose proof (async_ok_keeps _ _ _ Hd _ _ K Hao) as Hao2. pose proof full_grid_eq as Hfg.
  destruct (Z.leb_spec DMA_BLOCKSIZE (bytes - runs * 2 * DMA_BLOCKSIZE)) as [Hcar|Hcar].
  - run int_mul_ok by (unfold INT_MIN, INT_MAX in *; lia).
    rewrite (async_one_block_faults Hacc m1 ptrs disks bytes Hd Ha1 (proj2 Hb) m2 a2 full_grid runs _ DMA_BLOCKSIZE q);
      [done|done|done|apply Hw|done|by eapply Hlen1; [|exact Hq]; lia|lia..].
  - bind_step. rewrite (proj2 (Z.ltb_lt 0 _)) by lia. run int_mul_ok by (unfold INT_MIN, INT_MAX in *; lia).
    set (n := bytes - runs * 2 * DMA_BLOCKSIZE) in *.
    assert (n ≤ (n / (THREAD_BLOCKSIZE * 8) + 1) * THREAD_BLOCKSIZE * 8 ∧
      (n / (THREAD_BLOCKSIZE * 8) + 1) * THREAD_BLOCKSIZE * 8 ≤ DMA_BLOCKSIZE) as [Hg1 Hg2].
    { unfold THREAD_BLOCKSIZE. rewrite HD in *. clear -Hc Hcar. clearbody n. Z.to_euclidean_division_equations. lia. }
    destruct (decide (runs = 0)) as [E0|E0].
    + destruct (array_disk Ha1 0) as (b & Hb0 & _); [lia|]. unfold async_one_block.
      rewrite (for_lt_err _ _ _ _ _ OutOfBounds); [done|lia|]. unfold host_copy_in.
      run int_mul_ok by done. run (nth_ptr_nat ptrs 0 0 b) by done.
      apply cuda_copy_overread; [lia|]. rewrite (ho_len _ _ _ _ (aw_host _ _ _ _ _ _ Hw)), (Hlen1 0%nat) by (done || lia).
      lia.
    + rewrite (async_one_block_faults Hacc m1 ptrs disks bytes Hd Ha1 (proj2 Hb) m2 a2 _ runs _ n q);
        [done|done|done|apply Hw|done|by eapply Hlen1; [|exact Hq]; lia|lia|done|done|lia|nia|lia..].
Qed.
End call.
End theorems.

(** ** Witnesses: streams in turns, every launch accepted *)
Definition plain_streams : CudaStreams := {|
  cudaMallocHost := cudaMalloc (CudaRuntime := plain_runtime);
  stream_order n := if Nat.even n then [false; true] else [true; false];
  shared_accepts _ := true
|}.
#[local] Existing Instance plain_runtime.
#[local] Existing Instance plain_laws.
#[local] Existing Instance plain_streams.

#[local] Instance plain_stream_laws : StreamLaws plain_streams.
Proof. split. intros m n b m'. apply (cudaMalloc_ok (R := plain_runtime)). Qed.

Lemma plain_accepts l : shared_accepts l = true.
Proof. done. Qed.

Lemma plain_async_card s : is_Some (get_card_mem_async s).
Proof.
  destruct s as [m a]. unfold get_card_mem_async. destruct (mem_tag (ac_card a)); [by eexists|].
  destruct (get_card_mem_some 3 ltac:(lia) (ac_card a)) as [c ->]; [apply plain_malloc|]. cbn [mbind option_bind].
  pose proof DMA_eq. cbn [cudaMallocHost plain_streams].
  do 4 (match goal with |- context [cudaMalloc ?m ?n] =>
    let E := fresh in destruct (plain_malloc m n ltac:(lia)) as [[? ?] E]; rewrite E; clear E; cbn [mbind option_bind] end).
  by eexists.
Qed.

(** There is memory, so the calls below do not exit. *)
Lemma plain_async_runs disks bytes ptrs s : raid6_cuda_gen_syndrome_asynccopy disks bytes ptrs s ≠ Ok None.
Proof.
  destruct s as [m a]. unfold raid6_cuda_gen_syndrome_asynccopy.
  match goal with |- context [get_card_mem_async ?s] => destruct (plain_async_card s) as [s1 ->] end.
  intros (? & _ & H)%bind_Ok. apply bind_Ok in H as ([[? ?] ?] & _ & H). by apply bind_Ok in H as (? & _ & [=]).
Qed.

(** Five disks with the same contents. *)
Definition same_disks (buf : list Z) : mem := list_to_map ((λ b, (b, buf)) <$> sample_ptrs).

Lemma same_disks_ok buf : Forall is_byte buf → array_ok (same_disks buf) sample_ptrs 5 (Z.of_nat (length buf)).
Proof.
  intros Hb. split_and!; [done|by_decide|].
  repeat (apply Forall_cons; split; [by split|]). apply Forall_nil_2.
Qed.

(** A pair of blocks of ones. *)
Definition pair_mem : mem := same_disks (replicate (Z.to_nat (DMA_BLOCKSIZE * 2)) 1).

Lemma pair_mem_ok : array_ok pair_mem sample_ptrs 5 (DMA_BLOCKSIZE * 2).
Proof.
  unfold pair_mem. pose proof DMA_eq.
  eapply array_ok_mono; [reflexivity| |apply same_disks_ok, Forall_byte_replicate; unfold is_byte; lia].
  rewrite length_replicate. lia.
Qed.

Lemma pair_mem_len : Forall (λ b, buf_len pair_mem b = DMA_BLOCKSIZE * 2) (take 5 sample_ptrs).
Proof.
  pose proof DMA_eq. assert (∀ b, pair_mem !! b = Some (replicate (Z.to_nat (DMA_BLOCKSIZE * 2)) 1) →
    buf_len pair_mem b = DMA_BLOCKSIZE * 2) as Hl.
  { intros b Hb. rewrite (buf_len_Some _ _ _ Hb), length_replicate. lia. }
  repeat (apply Forall_cons; split; [by apply Hl|]). apply Forall_nil_2.
Qed.


(** Eight bytes are a rest. *)
Lemma async_small : raid6_cuda_gen_syndrome_asynccopy 5 8 sample_ptrs (ones_mem, acard_start) = Err OutOfBounds.
Proof.
  destruct (async_remainder plain_accepts ones_mem sample_ptrs 5 8) as [E|E];
    [lia|unfold INT_MAX; lia|by_decide|by rewrite Z.mod_small by (pose proof DMA_eq; lia)|by_decide| |exact E].
  by apply plain_async_runs in E.
Qed.
