(* ===== verification/RsKernel.v ===== *)
(** * barracuda_deamon/multrs/raid6multrs.cu: the GPU half

    [rs_kernel], run once per word of a block, with its tables in shared memory,
    and the host code that feeds it.  [CHECK_SYMBOLS] is a parameter because
    the prototype RsEncoder.v shares the code.  The pointers [local_accu] and
    [local_fetch_tmp] are declared shared though every thread stores its own
    address there: the model lets each thread see the pointer it has stored,
    the reading under which the code works. *)
From S2P Require Import Prelude GF256 Word Memory Syndrome MultiRs CudaApi.
Local Open Scope Z_scope.

Definition DMA_BLOCKSIZE : Z := 524288.
Definition THREAD_BLOCKSIZE : Z := 256.

(** ** The tables
    What thread [tx] of a block stores to [k_gflog] and [k_gfilog]. *)
Definition gflog_init (tx : Z) : list (Z * Z) :=
  if tx =? 0 then [
      (0, 0); (1, 0); (2, 1); (3, 25); (4, 2); (5, 50); (6, 26); (7, 198); (8, 3); (9, 223); (10, 51);
      (11, 238); (12, 27); (13, 104); (14, 199); (15, 75); (16, 4); (17, 100); (18, 224); (19, 14);
      (20, 52); (21, 141); (22, 239); (23, 129); (24, 28); (25, 193); (26, 105); (27, 248); (28, 200);
      (29, 8); (30, 76); (31, 113)] else
  if tx =? 1 then [
      (32, 5); (33, 138); (34, 101); (35, 47); (36, 225); (37, 36); (38, 15); (39, 33); (40, 53);
      (41, 147); (42, 142); (43, 218); (44, 240); (45, 18); (46, 130); (47, 69); (48, 29); (49, 181);
      (50, 194); (51, 125); (52, 106); (53, 39); (54, 249); (55, 185); (56, 201); (57, 154); (58, 9);
      (59, 120); (60, 77); (61, 228); (62, 114); (63, 166)] else
  if tx =? 2 then [
      (64, 6); (65, 191); (66, 139); (67, 98); (68, 102); (69, 221); (70, 48); (71, 253); (72, 226);
      (73, 152); (74, 37); (75, 179); (76, 16); (77, 145); (78, 34); (79, 136); (80, 54); (81, 208);
      (82, 148); (83, 206); (84, 143); (85, 150); (86, 219); (87, 189); (88, 241); (89, 210); (90, 19);
      (91, 92); (92, 131); (93, 56); (94, 70); (95, 64)] else
  if tx =? 3 then [
      (96, 30); (97, 66); (98, 182); (99, 163); (100, 195); (101, 72); (102, 126); (103, 110);
      (104, 107); (105, 58); (106, 40); (107, 84); (108, 250); (109, 133); (110, 186); (111, 61);
      (112, 202); (113, 94); (114, 155); (115, 159); (116, 10); (117, 21); (118, 121); (119, 43);
      (120, 78); (121, 212); (122, 229); (123, 172); (124, 115); (125, 243); (126, 167); (127, 87)] else
  if tx =? 4 then [
      (128, 7); (129, 112); (130, 192); (131, 247); (132, 140); (133, 128); (134, 99); (135, 13);
      (136, 103); (137, 74); (138, 222); (139, 237); (140, 49); (141, 197); (142, 254); (143, 24);
      (144, 227); (145, 165); (146, 153); (147, 119); (148, 38); (149, 184); (150, 180); (151, 124);
      (152, 17); (153, 68); (154, 146); (155, 217); (156, 35); (157, 32); (158, 137); (159, 46)] else
  if tx =? 5 then [
      (160, 55); (161, 63); (162, 209); (163, 91); (164, 149); (165, 188); (166, 207); (167, 205);
      (168, 144); (169, 135); (170, 151); (171, 178); (172, 220); (173, 252); (174, 190); (175, 97);
      (176, 242); (177, 86); (178, 211); (179, 171); (180, 20); (181, 42); (182, 93); (183, 158);
      (184, 132); (185, 60); (186, 57); (187, 83); (188, 71); (189, 109); (190, 65); (191, 162)] else
  if tx =? 6 then [
      (192, 31); (193, 45); (194, 67); (195, 216); (196, 183); (197, 123); (198, 164); (199, 118);
      (200, 196); (201, 23); (202, 73); (203, 236); (204, 127); (205, 12); (206, 111); (207, 246);
      (208, 108); (209, 161); (210, 59); (211, 82); (212, 41); (213, 157); (214, 85); (215, 170);
      (216, 251); (217, 96); (218, 134); (219, 177); (220, 187); (221, 204); (222, 62); (223, 90)] else
  if tx =? 7 then [
      (224, 203); (225, 89); (226, 95); (227, 176); (228, 156); (229, 169); (230, 160); (231, 81);
      (232, 11); (233, 245); (234, 22); (235, 235); (236, 122); (237, 117); (238, 44); (239, 215);
      (240, 79); (241, 174); (242, 213); (243, 233); (244, 230); (245, 231); (246, 173); (247, 232);
      (248, 116); (249, 214); (250, 244); (251, 234); (252, 168); (253, 80); (254, 88)] else
  [].

Definition gfilog_init (tx : Z) : list (Z * Z) :=
  if tx =? 0 then [
      (0, 1); (1, 2); (2, 4); (3, 8); (4, 16); (5, 32); (6, 64); (7, 128); (8, 29); (9, 58); (10, 116);
      (11, 232); (12, 205); (13, 135); (14, 19); (15, 38); (16, 76); (17, 152); (18, 45); (19, 90);
      (20, 180); (21, 117); (22, 234); (23, 201); (24, 143); (25, 3); (26, 6); (27, 12); (28, 24);
      (29, 48); (30, 96); (31, 192)] else
  if tx =? 1 then [
      (32, 157); (33, 39); (34, 78); (35, 156); (36, 37); (37, 74); (38, 148); (39, 53); (40, 106);
      (41, 212); (42, 181); (43, 119); (44, 238); (45, 193); (46, 159); (47, 35); (48, 70); (49, 140);
      (50, 5); (51, 10); (52, 20); (53, 40); (54, 80); (55, 160); (56, 93); (57, 186); (58, 105);
      (59, 210); (60, 185); (61, 111); (62, 222); (63, 161)] else
  if tx =? 2 then [
      (64, 95); (65, 190); (66, 97); (67, 194); (68, 153); (69, 47); (70, 94); (71, 188); (72, 101);
      (73, 202); (74, 137); (75, 15); (76, 30); (77, 60); (78, 120); (79, 240); (80, 253); (81, 231);
      (82, 211); (83, 187); (84, 107); (85, 214); (86, 177); (87, 127); (88, 254); (89, 225);
      (90, 223); (91, 163); (92, 91); (93, 182); (94, 113); (95, 226)] else
  if tx =? 3 then [
      (96, 217); (97, 175); (98, 67); (99, 134); (100, 17); (101, 34); (102, 68); (103, 136);
      (104, 13); (105, 26); (106, 52); (107, 104); (108, 208); (109, 189); (110, 103); (111, 206);
      (112, 129); (113, 31); (114, 62); (115, 124); (116, 248); (117, 237); (118, 199); (119, 147);
      (120, 59); (121, 118); (122, 236); (123, 197); (124, 151); (125, 51); (126, 102); (127, 204)] else
  if tx =? 4 then [
      (128, 133); (129, 23); (130, 46); (131, 92); (132, 184); (133, 109); (134, 218); (135, 169);
      (136, 79); (137, 158); (138, 33); (139, 66); (140, 132); (141, 21); (142, 42); (143, 84);
      (144, 168); (145, 77); (146, 154); (147, 41); (148, 82); (149, 164); (150, 85); (151, 170);
      (152, 73); (153, 146); (154, 57); (155, 114); (156, 228); (157, 213); (158, 183); (159, 115)] else
  if tx =? 5 then [
      (160, 230); (161, 209); (162, 191); (163, 99); (164, 198); (165, 145); (166, 63); (167, 126);
      (168, 252); (169, 229); (170, 215); (171, 179); (172, 123); (173, 246); (174, 241); (175, 255);
      (176, 227); (177, 219); (178, 171); (179, 75); (180, 150); (181, 49); (182, 98); (183, 196);
      (184, 149); (185, 55); (186, 110); (187, 220); (188, 165); (189, 87); (190, 174); (191, 65)] else
  if tx =? 6 then [
      (192, 130); (193, 25); (194, 50); (195, 100); (196, 200); (197, 141); (198, 7); (199, 14);
      (200, 28); (201, 56); (202, 112); (203, 224); (204, 221); (205, 167); (206, 83); (207, 166);
      (208, 81); (209, 162); (210, 89); (211, 178); (212, 121); (213, 242); (214, 249); (215, 239);
      (216, 195); (217, 155); (218, 43); (219, 86); (220, 172); (221, 69); (222, 138); (223, 9)] else
  if tx =? 7 then [
      (224, 18); (225, 36); (226, 72); (227, 144); (228, 61); (229, 122); (230, 244); (231, 245);
      (232, 247); (233, 243); (234, 251); (235, 235); (236, 203); (237, 139); (238, 11); (239, 22);
      (240, 44); (241, 88); (242, 176); (243, 125); (244, 250); (245, 233); (246, 207); (247, 131);
      (248, 27); (249, 54); (250, 108); (251, 216); (252, 173); (253, 71); (254, 142)] else
  [].

Definition write_table (t : list Z) (ws : list (Z * Z)) : list Z :=
  foldl (λ t w, <[Z.to_nat w.1 := w.2]> t) t ws.
(** The tables after [__syncthreads], the threads in the order [txs]. *)
Definition k_table (init : Z → list (Z * Z)) (txs : list Z) (uninit : list Z) : list Z :=
  foldl (λ t tx, write_table t (init tx)) uninit txs.

(** A table that is right below 255 and has something at 255. *)
Definition table_ok (host t : list Z) : Prop :=
  length t = 256%nat ∧ Forall is_byte t ∧ ∀ k, (k < 255)%nat → t !! k = host !! k.

Lemma write_table_length t ws : length (write_table t ws) = length t.
Proof. revert t. induction ws as [|w ws IH]; intros t; [done|]. cbn. unfold write_table in IH. by rewrite IH, length_insert. Qed.

(** The writes of a table are right: every entry below 255 has one, and every
    one stores the host's value. *)
Definition writes_right (host : list Z) (init : Z → list (Z * Z)) : bool :=
  forallb (λ tx, forallb (λ w, (0 <=? w.1) && (w.1 <? 255) && bool_decide (host !! Z.to_nat w.1 = Some w.2)
      && bool_decide (is_byte w.2)) (init tx)) (seqZ 0 256) &&
  forallb (λ k, existsb (λ w, w.1 =? k) (init (k / 32))) (seqZ 0 255).

Lemma write_table_keeps (host : list Z) (ws : list (Z * Z)) (t : list Z) (S : nat → Prop) :
  Forall (λ w, 0 ≤ w.1 < 255 ∧ host !! Z.to_nat w.1 = Some w.2 ∧ is_byte w.2) ws →
  length t = 256%nat → Forall is_byte t → (∀ k, S k → t !! k = host !! k) →
  length (write_table t ws) = 256%nat ∧ Forall is_byte (write_table t ws) ∧
  ∀ k, S k ∨ (∃ w, w ∈ ws ∧ Z.to_nat w.1 = k) → write_table t ws !! k = host !! k.
Proof.
  intros Hws. revert t S. induction Hws as [|w ws (Hw & Hh & Hb) _ IH]; intros t S Hl Ht HS.
  { split_and!; [done|done|]. intros k [Hk|(w & Hw & _)]; [by apply HS|by apply elem_of_nil in Hw]. }
  cbn [write_table foldl]. destruct (IH (<[Z.to_nat w.1:=w.2]> t) (λ k, S k ∨ Z.to_nat w.1 = k)) as (H1 & H2 & H3).
  - by rewrite length_insert.
  - by apply Forall_insert.
  - intros k Hk. destruct (decide (Z.to_nat w.1 = k)) as [<-|Hne].
    + rewrite list_lookup_insert_eq by lia. done.
    + rewrite list_lookup_insert_ne by done. apply HS. by destruct Hk.
  - split_and!; [done|done|]. intros k Hk. apply H3.
    destruct Hk as [?|(w' & [->|Hin]%elem_of_cons & ?)]; [by left; left|by left; right|right; by exists w'].
Qed.

Lemma k_table_ok host init txs uninit : writes_right host init = true → txs ≡ₚ seqZ 0 256 →
  length uninit = 256%nat → Forall is_byte uninit → table_ok host (k_table init txs uninit).
Proof.
  intros Hr Hp Hl Hb. unfold writes_right in Hr. apply andb_true_iff in Hr as [Hr Hall].
  rewrite forallb_forall in Hr, Hall.
  assert (∀ txs (t : list Z) (S : nat → Prop), (∀ tx, tx ∈ txs → 0 ≤ tx < 256) → length t = 256%nat → Forall is_byte t →
      (∀ k, S k → t !! k = host !! k) →
    length (k_table init txs t) = 256%nat ∧ Forall is_byte (k_table init txs t) ∧
    ∀ k, S k ∨ (∃ tx w, tx ∈ txs ∧ w ∈ init tx ∧ Z.to_nat w.1 = k) → k_table init txs t !! k = host !! k) as Hgen.
  { clear txs uninit Hp Hl Hb. induction txs as [|tx txs IH]; intros t S Htx Hl Hb HS.
    { split_and!; [done|done|]. intros k [Hk|(tx & w & Htx' & _)]; [by apply HS|by apply elem_of_nil in Htx']. }
    destruct (write_table_keeps host (init tx) t S) as (H1 & H2 & H3); [|done..|].
    { rewrite Forall_forall. intros w Hw. specialize (Hr tx). rewrite forallb_forall in Hr.
      specialize (Htx tx (list_elem_of_here _ _)).
      specialize (Hr ltac:(apply list_elem_of_In, elem_of_seqZ; lia) w ltac:(by apply list_elem_of_In)). rewrite !andb_true_iff, !bool_decide_eq_true in Hr.
      destruct Hr as (((? & ?) & ?) & ?). split_and!; try done; lia. }
    cbn [k_table foldl]. destruct (IH (write_table t (init tx)) (λ k, S k ∨ ∃ w, w ∈ init tx ∧ Z.to_nat w.1 = k))
      as (H4 & H5 & H6); [intros; apply Htx; by right|done..|].
    split_and!; [done|done|]. intros k Hk. apply H6.
    destruct Hk as [?|(tx' & w & [->|Hin]%elem_of_cons & ? & ?)]; [by left; left|left; right; by exists w|right; by exists tx', w]. }
  destruct (Hgen txs uninit (λ _, False)) as (H1 & H2 & H3); [|done..|].
  { intros tx Htx. rewrite Hp, elem_of_seqZ in Htx. lia. }
  split_and!; [done|done|]. intros k Hk. apply H3. right. exists (Z.of_nat k / 32).
  specialize (Hall (Z.of_nat k)). specialize (Hall ltac:(apply list_elem_of_In, elem_of_seqZ; lia)). rewrite existsb_exists in Hall.
  destruct Hall as (w & Hin & Hw). exists w. apply list_elem_of_In in Hin. apply Z.eqb_eq in Hw.
  split_and!; [|done|lia]. rewrite Hp, elem_of_seqZ. Z.to_euclidean_division_equations. lia.
Qed.

Lemma gflog_writes_right : writes_right gflog gflog_init = true.
Proof. vm_compute. reflexivity. Qed.
Lemma gfilog_writes_right : writes_right gfilog gfilog_init = true.
Proof. vm_compute. reflexivity. Qed.

(** ** The kernel *)
Section kernel.
Context (CHECK_SYMBOLS : Z) (k_gflog k_gfilog : list Z).

(** [mult_gf_shader] *)
Definition mult_gf_shader (a b : Z) : result Z :=
  if (a =? 0) || (b =? 0) then Ok 0 else
  la ← entry k_gflog a;
  lb ← entry k_gflog b;
  let sum := to_u8 (la + lb) in
  let sum := if NW - 1 <=? sum then to_u8 (sum - (NW - 1)) else sum in
  entry k_gfilog sum.

(** [local_accu[b] ^= mult_gf_shader(local_fetch_tmp[b], mult, ...)] for the
    eight bytes. *)
Fixpoint xor_products (local_accu local_fetch_tmp : list Z) (mult : Z) : result (list Z) :=
  match local_accu, local_fetch_tmp with
  | a :: local_accu, f :: local_fetch_tmp =>
      p ← mult_gf_shader f mult;
      rest ← xor_products local_accu local_fetch_tmp mult;
      Ok (Z.lxor a p :: rest)
  | _, _ => Ok []
  end.

(** The body of the loop over the disks, on [accu[tx]] and [mult]. *)
Definition rs_disk_step (DP : loc) (j th : Z) (m : mem) (i : Z) (s : list Z * Z) : result (list Z * Z) :=
  let '(accu, mult) := s in
  fetch_tmp ← load_bytes m DP (i * DMA_BLOCKSIZE + th * 8) 8;
  accu ← xor_products accu fetch_tmp mult;
  mult ← mult_gf_shader mult j;
  Ok (accu, mult).

(** The loops of thread [th], the tables in place. *)
Definition rs_thread (DP PQ : loc) (disks th : Z) (m : mem) : result mem :=
  let high_disk := disks - CHECK_SYMBOLS in
  for_lt 1 (CHECK_SYMBOLS + 1) 1 (λ j m,
    '(accu, _) ← for_lt 0 (high_disk + 1) 1 (rs_disk_step DP j th m) (replicate 8 0, j);
    store_bytes m PQ ((j - 1) * DMA_BLOCKSIZE + th * 8) accu) m.
End kernel.

(** [rs_kernel] for thread [th] of launch [l], in block [th / THREAD_BLOCKSIZE]. *)
Definition block_table `{CudaRuntime} (init : Z → list (Z * Z)) (which l : nat) (th : Z) : list Z :=
  let bx := th / THREAD_BLOCKSIZE in
  k_table init (launch_order l THREAD_BLOCKSIZE) (take 256 (drop (256 * which) (uninit_shared l bx 512))).
Definition rs_kernel `{CudaRuntime} (CHECK_SYMBOLS : Z) (l : nat) (DP PQ : loc) (disks th : Z) (m : mem) : result mem :=
  rs_thread CHECK_SYMBOLS (block_table gflog_init 0 l th) (block_table gfilog_init 1 l th) DP PQ disks th m.

(** ** What a thread computes *)
(** A table of 256 bytes as a function. *)
Definition tval (t : list Z) (a : Z) : Z := default 0 (t !! Z.to_nat a).

Section value.
Context (gl gi : list Z) (Hgl : table_ok gflog gl) (Hgi : table_ok gfilog gi).

Definition shader_val (a b : Z) : Z :=
  if (a =? 0) || (b =? 0) then 0 else
  let sum := to_u8 (tval gl a + tval gl b) in
  tval gi (if NW - 1 <=? sum then to_u8 (sum - (NW - 1)) else sum).

Lemma entry_tval t a : length t = 256%nat → is_byte a → entry t a = Ok (tval t a).
Proof using Type.
  intros Hl Ha. unfold entry, tval, is_byte in *. destruct (lookup_lt_is_Some_2 t (Z.to_nat a)) as [x ->]; [lia|done].
Qed.

Lemma shader_ok a b : is_byte a → is_byte b → mult_gf_shader gl gi a b = Ok (shader_val a b).
Proof using Hgl Hgi.
  intros Ha Hb. unfold mult_gf_shader, shader_val. destruct (_ || _); [done|].
  destruct Hgl as (Ll & _), Hgi as (Li & _). rewrite !entry_tval by done. bind_step.
  apply entry_tval; [done|]. case_match; apply is_byte_to_u8.
Qed.

Lemma is_byte_shader a b : is_byte (shader_val a b).
Proof using Hgi.
  unfold shader_val, tval. destruct (_ || _); [apply is_byte_0|]. destruct Hgi as (_ & Hb & _).
  apply Forall_lookup_default; [apply is_byte_0|done].
Qed.

(** Away from 255 the shader is the host's [mult_gf]. *)
Lemma shader_host a b r : is_byte a → is_byte b → mult_gf a b = Ok r → mult_gf_shader gl gi a b = Ok r.
Proof using Hgl Hgi.
  intros Ha Hb. unfold mult_gf, mult_gf_shader. destruct (_ || _); [done|].
  destruct Hgl as (Ll & _ & Hl), Hgi as (Li & _ & Hi). intros H.
  apply bind_Ok in H as (la & Ea & H). apply bind_Ok in H as (lb & Eb & H). unfold entry in *.
  apply of_option_Ok in Ea, Eb, H.
  assert (∀ x y, gflog !! Z.to_nat x = Some y → gl !! Z.to_nat x = Some y) as Hx.
  { intros x y E1. rewrite Hl; [done|]. by apply lookup_lt_Some in E1. }
  rewrite (Hx a la), (Hx b lb) by done. cbn [of_option]. bind_step.
  rewrite Hi; [by rewrite H|]. by apply lookup_lt_Some in H.
Qed.

(** A product is zero only for a zero factor, whatever the tables have at 255. *)
Lemma shader_val_zero a b : shader_val a b = 0 → a = 0 ∨ b = 0.
Proof using Hgi.
  unfold shader_val. destruct (Z.eqb_spec a 0); [by left|]. destruct (Z.eqb_spec b 0); [by right|]. cbn [orb].
  destruct Hgi as (_ & _ & Hi). match goal with |- tval gi ?x = 0 → _ => set (i := x) end. intros E. exfalso.
  assert (0 ≤ i < 255) as Hr.
  { pose proof (is_byte_to_u8 (tval gl a + tval gl b)) as Hb. unfold i, is_byte in *. change (NW - 1) with 255.
    destruct (Z.leb_spec 255 (to_u8 (tval gl a + tval gl b))); [|lia].
    replace (to_u8 (tval gl a + tval gl b)) with 255 by lia. by vm_compute. }
  unfold tval in E. rewrite Hi in E by lia.
  assert (Forall (λ x, x ≠ 0) gfilog) as Hnz by (apply (bool_decide_unpack _); vm_compute; exact I).
  destruct (lookup_lt_is_Some_2 gfilog (Z.to_nat i)) as [x Hx]; [change (length gfilog) with 255%nat; lia|].
  rewrite Hx in E. cbn in E. subst. by apply (Forall_lookup_1 _ _ _ _ Hnz Hx).
Qed.

(** Row [j] over the bytes of the disks. *)
Fixpoint gpu_row (j x acc : Z) (data : list Z) : Z :=
  match data with
  | [] => acc
  | d :: data => gpu_row j (shader_val x j) (Z.lxor acc (shader_val d x)) data
  end.

(** The coefficient of disk [n]. *)
Definition coef_at (j x : Z) (n : nat) : Z := Nat.iter n (λ x, shader_val x j) x.

Lemma gpu_row_snoc j x acc data d :
  gpu_row j x acc (data ++ [d]) = Z.lxor (gpu_row j x acc data) (shader_val d (coef_at j x (length data))).
Proof using Type.
  revert x acc. induction data as [|d' data IH]; intros x acc; [done|]. cbn [app gpu_row length]. rewrite IH.
  unfold coef_at. by rewrite Nat.iter_succ_r.
Qed.
Lemma gpu_row_zero j x acc data : gpu_row j x acc (data ++ [0]) = gpu_row j x acc data.
Proof using Type. rewrite gpu_row_snoc. apply Z.lxor_0_r. Qed.

Lemma coef_at_zero j x n : j ≠ 0 → x ≠ 0 → coef_at j x n ≠ 0.
Proof using Hgi.
  intros Hj Hx. induction n as [|n IH]; [done|]. unfold coef_at in *. rewrite Nat.iter_succ.
  intros [E|E]%shader_val_zero; done.
Qed.

Lemma is_byte_coef_at j x n : is_byte x → is_byte (coef_at j x n).
Proof using Hgi. intros Hx. destruct n; [done|]. apply is_byte_shader. Qed.

Lemma is_byte_gpu_row j x acc data : is_byte acc → is_byte (gpu_row j x acc data).
Proof using Hgi.
  revert x acc. induction data as [|d data IH]; intros x acc Ha; [done|]. apply IH.
  apply is_byte_lxor; [done|apply is_byte_shader].
Qed.

(** Multiplication is symmetric, so the swapped operands do not matter. *)
Lemma mult_gf_comm a b : mult_gf a b = mult_gf b a ∨ (mult_gf a b = Err OutOfBounds ∧ mult_gf b a = Err OutOfBounds).
Proof using Type.
  unfold mult_gf. rewrite (orb_comm (b =? 0)). destruct (_ || _); [by left|].
  unfold entry. destruct (gflog !! Z.to_nat a) as [x|], (gflog !! Z.to_nat b) as [y|]; cbn [of_option]; bind_step;
    rewrite ?(Z.add_comm y x); auto.
Qed.

(** Where the CPU code has a row, the GPU's is the same. *)
Lemma gpu_row_host j x acc data r : is_byte x → is_byte j → Forall is_byte data →
  rs_row x j acc data = Ok r → gpu_row j x acc data = r.
Proof using Hgl Hgi.
  revert x acc. induction data as [|d data IH]; intros x acc Hx Hj Hd E; [by injection E|].
  inversion Hd as [|? ? Hdb Hd']; subst. cbn [rs_row] in E. inv_ok.
  match goal with H1 : mult_gf x d = Ok ?p, H2 : mult_gf x j = Ok ?x2 |- _ =>
    assert (shader_val d x = p) as Hp;
    [destruct (mult_gf_comm x d) as [Hc|[Hc _]]; [|congruence]; rewrite Hc in H1;
     apply shader_host in H1; [|done|done]; rewrite shader_ok in H1 by done; by injection H1|];
    assert (shader_val x j = x2) as Hx2;
    [apply shader_host in H2; [|done|done]; rewrite shader_ok in H2 by done; by injection H2|] end.
  cbn [gpu_row]. rewrite Hp, Hx2. apply IH; [|done|done|done]. subst. apply is_byte_shader.
Qed.

Lemma xor_products_ok accu fetch mult : length accu = length fetch → Forall is_byte fetch → is_byte mult →
  xor_products gl gi accu fetch mult = Ok (zip_with (λ a f, Z.lxor a (shader_val f mult)) accu fetch).
Proof using Hgl Hgi.
  intros Hl Hf Hm. revert accu Hl. induction Hf as [|f fetch Hfb _ IH]; intros [|a accu] Hl; try done.
  cbn [xor_products]. run shader_ok by done. run IH by (cbn in Hl; lia). done.
Qed.
End value.

Lemma rs_DMA_eq : DMA_BLOCKSIZE = 524288.
Proof. reflexivity. Qed.
Ltac dma := pose proof rs_DMA_eq; lia.
#[local] Opaque DMA_BLOCKSIZE.

(** Byte [k] of block [r] of a buffer on the card. *)
Definition pos (r k : nat) : nat := Z.to_nat (Z.of_nat r * DMA_BLOCKSIZE) + k.
Definition card_column (m : mem) (DP : loc) (n k : nat) : list Z := (λ z, peek m DP (pos z k)) <$> seq 0 n.

Lemma pos_inj r k r' k' : Z.of_nat k < DMA_BLOCKSIZE → Z.of_nat k' < DMA_BLOCKSIZE → pos r k = pos r' k' → r = r' ∧ k = k'.
Proof. unfold pos. pose proof rs_DMA_eq. nia. Qed.

Section thread.
Context (gl gi : list Z) (Hgl : table_ok gflog gl) (Hgi : table_ok gfilog gi).
Context (C H : nat) (DP PQ : loc) (th : Z) (m : mem).
Context (HC : (1 ≤ C ≤ 255)%nat) (HH : (1 ≤ H ≤ 255)%nat) (Hth : 0 ≤ th) (Hth2 : th * 8 + 8 ≤ DMA_BLOCKSIZE).
Context (HDP : buf_ok m (DMA_BLOCKSIZE * 256) DP) (HPQ : buf_ok m (DMA_BLOCKSIZE * 256) PQ) (Hne : DP ≠ PQ).

Abbreviation d := (Z.to_nat (th * 8)).
Abbreviation col := (card_column m DP (S H)).
(** Check byte [k] of row [r], counted from 0. *)
Definition row (r k : nat) : Z := gpu_row gl gi (Z.of_nat r + 1) (Z.of_nat r + 1) 0 (col k).

Lemma rs_col_bytes k : Forall is_byte (col k).
Proof using All. unfold card_column. apply Forall_byte_fmap. intros z. by eapply is_byte_peek. Qed.

Lemma row_loop m' j : 1 ≤ j ≤ Z.of_nat C → m' !! DP = m !! DP → buf_ok m' (DMA_BLOCKSIZE * 256) DP →
  ∃ mult, for_lt 0 (Z.of_nat H + 1) 1 (rs_disk_step gl gi DP j th m') (replicate 8 0, j) =
    Ok ((λ b, row (Z.to_nat (j - 1)) (d + b)) <$> seq 0 8, mult).
Proof using All.
  intros Hj HDP' HDP2. pose proof rs_DMA_eq as HD. assert (is_byte j) as Hjb by (unfold is_byte; lia).
  destruct (for_lt_inv (λ i (s : list Z * Z), 0 ≤ i ∧
      s = ((λ b, gpu_row gl gi j j 0 (take (Z.to_nat i) (col (d + b)))) <$> seq 0 8, coef_at gl gi j j (Z.to_nat i)))
    (rs_disk_step gl gi DP j th m') 0 (Z.of_nat H + 1) 1) with (s := (replicate 8 0, j))
    as ([accu mult] & E & _ & Hs); [lia|done|unfold INT_MAX; lia| | |].
  - intros i s Hi _ [_ ->]. unfold rs_disk_step.
    run (load_bytes_ok m' DP (i * DMA_BLOCKSIZE + th * 8) 8 (DMA_BLOCKSIZE * 256)) by (done || nia).
    assert (slice m' DP (i * DMA_BLOCKSIZE + th * 8) 8 = (λ b, peek m DP (pos (Z.to_nat i) (d + b))) <$> seq 0 8) as ->.
    { unfold slice. apply list_fmap_ext. intros x b Hb. apply lookup_seq in Hb as [-> _]. cbn [plus].
      unfold peek. rewrite HDP'. do 2 f_equal. f_equal. unfold pos. nia. }
    run xor_products_ok by first [done|rewrite !length_fmap; done|
      apply Forall_byte_fmap; intros; by eapply is_byte_peek|by apply is_byte_coef_at].
    run shader_ok by first [done|by apply is_byte_coef_at]. eexists. split; [done|]. split; [lia|].
    replace (Z.to_nat (i + 1)) with (S (Z.to_nat i)) by lia. f_equal.
    apply list_eq_default with (d := 0); [by rewrite length_zip_with, !length_fmap|].
    rewrite length_zip_with, !length_fmap, !length_seq. intros b Hb. assert (b < 8)%nat by lia.
    rewrite lookup_zip_with, !list_lookup_fmap, lookup_seq_lt by lia. cbn [fmap option_fmap option_map mbind option_bind from_option id plus].
    assert (col (d + b) !! Z.to_nat i = Some (peek m DP (pos (Z.to_nat i) (d + b)))) as Hc
      by (unfold card_column; rewrite list_lookup_fmap, lookup_seq_lt by lia; done).
    rewrite (take_S_r _ _ _ Hc), gpu_row_snoc, length_take. unfold card_column at 3. rewrite length_fmap, length_seq.
    do 3 f_equal. lia.
  - split; [lia|]. done.
  - rewrite (loop_end_unique _ _ _ (Z.of_nat H + 1) (Z.of_nat H + 1)) in Hs by lia. pose proof (f_equal fst Hs) as Ha. cbn [fst] in Ha.
    exists mult. rewrite E, Ha. do 2 f_equal. apply list_fmap_ext. intros x b Hb. unfold row.
    rewrite take_ge by (unfold card_column; rewrite length_fmap, length_seq; lia).
    by replace (Z.of_nat (Z.to_nat (j - 1)) + 1) with j by lia.
Qed.

(** The effect of the thread: byte [k] of row [r] for its eight bytes. *)
Definition thread_effect (n : nat) (m' : mem) : Prop :=
  (∀ b, b ≠ PQ → m' !! b = m !! b) ∧ (∀ b l, buf_ok m l b → buf_ok m' l b) ∧
  ∀ r k, Z.of_nat k < DMA_BLOCKSIZE → peek m' PQ (pos r k) =
    if decide (r < n ∧ d ≤ k < d + 8)%nat then row r k else peek m PQ (pos r k).

Lemma rs_thread_ok : ∃ m', rs_thread (Z.of_nat C) gl gi DP PQ (Z.of_nat (H + C)) th m = Ok m' ∧ thread_effect C m'.
Proof using All.
  unfold rs_thread. pose proof rs_DMA_eq as HD. replace (Z.of_nat (H + C) - Z.of_nat C) with (Z.of_nat H) by lia.
  destruct (for_lt_inv (λ j m', 1 ≤ j ∧ thread_effect (Z.to_nat (j - 1)) m')
    (λ j m, '(accu, _) ← for_lt 0 (Z.of_nat H + 1) 1 (rs_disk_step gl gi DP j th m) (replicate 8 0, j);
       store_bytes m PQ ((j - 1) * DMA_BLOCKSIZE + th * 8) accu) 1 (Z.of_nat C + 1) 1) with (s := m)
    as (m' & E & _ & Hm'); [lia|done|unfold INT_MAX; lia| | |].
  - intros j m1 Hj _ (_ & F & O & P). destruct (row_loop m1 j) as (mult & E); [lia|by apply F|by apply O|]. run E.
    set (r0 := Z.to_nat (j - 1)) in *.
    destruct (store_bytes_spec m1 PQ ((j - 1) * DMA_BLOCKSIZE + th * 8) ((λ b, row r0 (d + b)) <$> seq 0 8)
      (DMA_BLOCKSIZE * 256)) as (m2 & E2 & [F2 _ O2 P2]); [by apply O|nia|rewrite length_fmap, length_seq; nia| |].
    { apply Forall_byte_fmap. intros b. unfold row. apply is_byte_gpu_row; [exact Hgi|apply is_byte_0]. }
    exists m2. split; [exact E2|]. split; [lia|]. split_and!.
    + intros b Hb. by rewrite F2, F.
    + intros b l Hb. by apply O2, O.
    + intros r k Hk. rewrite P2, length_fmap, length_seq.
      assert (Z.to_nat ((j - 1) * DMA_BLOCKSIZE + th * 8) = pos r0 d) as Ep by (unfold pos, r0; nia). rewrite Ep.
      replace (Z.to_nat (j + 1 - 1)) with (S r0) by (unfold r0; lia).
      destruct (decide (pos r0 d ≤ pos r k < pos r0 d + 8)%nat) as [Hin|Hout].
      * assert (r = r0 ∧ d ≤ k < d + 8)%nat as [-> Hk2] by (unfold pos in Hin; nia).
        rewrite decide_True by lia. rewrite list_lookup_fmap, lookup_seq_lt by (unfold pos in *; lia). simp_default.
        f_equal. unfold pos. lia.
      * rewrite P by done. destruct (decide (r < r0 ∧ d ≤ k < d + 8)%nat) as [H1|H1].
        -- by rewrite decide_True by lia.
        -- rewrite decide_False; [done|]. intros [? ?]. assert (r = r0) as -> by lia. apply Hout. unfold pos. lia.
  - split; [lia|]. split_and!; [done|done|]. intros r k Hk. rewrite decide_False by lia. done.
  - rewrite (loop_end_unique _ _ _ (Z.of_nat C + 1) (Z.of_nat C)) in Hm' by lia.
    replace (Z.to_nat (Z.of_nat C + 1 - 1)) with C in Hm' by lia. by exists m'.
Qed.
End thread.

(** ** A launch *)
Lemma block_table_ok {R : CudaRuntime} {L : CudaLaws R} l host init which th : writes_right host init = true → (which < 2)%nat →
  table_ok host (block_table init which l th).
Proof.
  intros Hw Hwh. unfold block_table. destruct (uninit_shared_ok l (th / THREAD_BLOCKSIZE) 512) as [Hl Hb].
  apply k_table_ok; [done|apply launch_order_ok| |by apply Forall_take, Forall_drop].
  rewrite length_take, length_drop, Hl. lia.
Qed.

Section launch.
Context {R : CudaRuntime} {L : CudaLaws R}.
Context (l C H : nat) (DP PQ : loc) (grid : Z) (m0 : mem).
Context (HC : (1 ≤ C ≤ 255)%nat) (HH : (1 ≤ H ≤ 255)%nat) (Hgrid : grid * THREAD_BLOCKSIZE * 8 ≤ DMA_BLOCKSIZE).
Context (HDP : buf_ok m0 (DMA_BLOCKSIZE * 256) DP) (HPQ : buf_ok m0 (DMA_BLOCKSIZE * 256) PQ) (Hne : DP ≠ PQ).

(** [v] is check byte [r] of the column, computed with some block's tables. *)
Definition is_row (r : nat) (data : list Z) (v : Z) : Prop :=
  ∃ gl gi, table_ok gflog gl ∧ table_ok gfilog gi ∧ v = gpu_row gl gi (Z.of_nat r + 1) (Z.of_nat r + 1) 0 data.

Record launch_ok (ths : list Z) (m : mem) : Prop := {
  lo_frame : ∀ b, b ≠ PQ → m !! b = m0 !! b;
  lo_ok : ∀ b n, buf_ok m0 n b → buf_ok m n b;
  lo_done : ∀ r k, (r < C)%nat → Z.of_nat k / 8 ∈ ths → is_row r (card_column m0 DP (S H) k) (peek m PQ (pos r k))
}.

Lemma rs_launch_step ths th m : (∀ t, t ∈ ths → 0 ≤ t < grid * THREAD_BLOCKSIZE) → 0 ≤ th < grid * THREAD_BLOCKSIZE →
  launch_ok ths m → ∃ m', rs_kernel (Z.of_nat C) l DP PQ (Z.of_nat (H + C)) th m = Ok m' ∧ launch_ok (ths ++ [th]) m'.
Proof using All.
  intros Hths Hth [F O D]. unfold rs_kernel. pose proof rs_DMA_eq as HD.
  pose proof (block_table_ok l gflog gflog_init 0 th gflog_writes_right ltac:(lia)) as Hgl.
  pose proof (block_table_ok l gfilog gfilog_init 1 th gfilog_writes_right ltac:(lia)) as Hgi.
  destruct (rs_thread_ok _ _ Hgl Hgi C H DP PQ th m) as (m' & E & F' & O' & P'); [lia|lia|lia|lia|by apply O|by apply O|done|].
  exists m'. split; [exact E|]. split.
  - intros b Hb. by rewrite F', F.
  - intros b n Hb. by apply O', O.
  - intros r k Hr Hk.
    assert (Z.of_nat k < DMA_BLOCKSIZE) as Hk2.
    { apply elem_of_app in Hk as [Hk|Hk]; [apply Hths in Hk|apply list_elem_of_singleton in Hk as <-];
        Z.to_euclidean_division_equations; lia. }
    rewrite P' by done. destruct (decide (Z.of_nat k / 8 = th)) as [<-|Hkt].
    + rewrite decide_True by (Z.to_euclidean_division_equations; lia). eexists _, _.
      split; [exact Hgl|]. split; [exact Hgi|]. unfold row. f_equal. unfold card_column. apply list_fmap_ext.
      intros i z Hz. unfold peek. by rewrite F.
    + rewrite decide_False by (Z.to_euclidean_division_equations; lia).
      apply elem_of_app in Hk as [Hk|Hk]; [|apply list_elem_of_singleton in Hk; done]. by apply D.
Qed.
End launch.

(** ** The host code *)
Record card := { cd_mem : mem; DEVICE_DP : loc; DEVICE_CS : loc; mem_tag : bool; cd_launches : nat }.
Definition card_start : card :=
  {| cd_mem := ∅; DEVICE_DP := 1%positive; DEVICE_CS := 1%positive; mem_tag := false; cd_launches := 0 |}.
Definition set_cd_mem (m : mem) (c : card) : card :=
  {| cd_mem := m; DEVICE_DP := DEVICE_DP c; DEVICE_CS := DEVICE_CS c; mem_tag := mem_tag c; cd_launches := cd_launches c |}.

Section host.
Context {R : CudaRuntime} (CHECK_SYMBOLS : Z).

(** [get_card_mem]; [None] is [exit(1)]. *)
Definition get_card_mem (c : card) : option card :=
  if mem_tag c then Some c else
  '(dp, m) ← cudaMalloc (cd_mem c) (DMA_BLOCKSIZE * 256);
  '(cs, m) ← cudaMalloc m (DMA_BLOCKSIZE * 256);
  Some {| cd_mem := m; DEVICE_DP := dp; DEVICE_CS := cs; mem_tag := true; cd_launches := cd_launches c |}.

Definition launch (grid disks : Z) (c : card) : result card :=
  m ← run_threads (rs_kernel CHECK_SYMBOLS (cd_launches c) (DEVICE_DP c) (DEVICE_CS c) disks)
        (launch_order (cd_launches c) (grid * THREAD_BLOCKSIZE)) (cd_mem c);
  Ok {| cd_mem := m; DEVICE_DP := DEVICE_DP c; DEVICE_CS := DEVICE_CS c; mem_tag := mem_tag c;
        cd_launches := S (cd_launches c) |}.

(** [cudaMemcpy(&DEVICE_DP[i*DMA_BLOCKSIZE], &dptrs[i][off], DMA_BLOCKSIZE, ...)] *)
Definition copy_to (dptrs : list loc) (off i : Z) (s : mem * card) : result (mem * card) :=
  let '(m, c) := s in
  doff ← int_mul i DMA_BLOCKSIZE;
  b ← nth_ptr dptrs i;
  dm ← cuda_copy (cd_mem c) (DEVICE_DP c) doff m b off DMA_BLOCKSIZE;
  Ok (m, set_cd_mem dm c).

(** [cudaMemcpy(&dptrs[(disks-CHECK_SYMBOLS)+i][off], &DEVICE_CS[i*DMA_BLOCKSIZE], DMA_BLOCKSIZE, ...)] *)
Definition copy_from (dptrs : list loc) (disks off i : Z) (s : mem * card) : result (mem * card) :=
  let '(m, c) := s in
  soff ← int_mul i DMA_BLOCKSIZE;
  b ← nth_ptr dptrs (disks - CHECK_SYMBOLS + i);
  m ← cuda_copy m b off (cd_mem c) (DEVICE_CS c) soff DMA_BLOCKSIZE;
  Ok (m, c).

(** One block at offset [off]. *)
Definition rs_block (disks : Z) (dptrs : list loc) (grid off : Z) (s : mem * card) : result (mem * card) :=
  s ← for_lt 0 (disks - CHECK_SYMBOLS) 1 (copy_to dptrs off) s;
  c ← launch grid disks s.2;
  for_lt 0 CHECK_SYMBOLS 1 (copy_from dptrs disks off) (s.1, c).

(** [multi_rs_cuda_gen_syndrome]; [None] is [exit(1)]. *)
Definition multi_rs_cuda_gen_syndrome (disks bytes : Z) (dptrs : list loc) (s : mem * card) :
    result (option (mem * card)) :=
  let runs := bytes / DMA_BLOCKSIZE in
  let carry := bytes - runs * DMA_BLOCKSIZE in
  match get_card_mem s.2 with
  | None => Ok None
  | Some c =>
      s ← for_lt 0 runs 1 (λ j s,
            off ← int_mul j DMA_BLOCKSIZE;
            rs_block disks dptrs (DMA_BLOCKSIZE / (THREAD_BLOCKSIZE * 8)) off s) (s.1, c);
      if 0 <? carry then
        s ← rs_block disks dptrs (carry / (THREAD_BLOCKSIZE * 8)) (runs * carry) s;
        Ok (Some s)
      else Ok (Some s)
  end.

(** [release_cuda_memory]; [mem_tag] stays. *)
Definition release_cuda_memory (c : card) : card :=
  set_cd_mem (cudaFree (cudaFree (cd_mem c) (DEVICE_DP c)) (DEVICE_CS c)) c.
End host.

(** ** What a call does *)
#[local] Set Default Proof Using "All".
Record card_ok (c : card) : Prop := {
  co_dp : buf_ok (cd_mem c) (DMA_BLOCKSIZE * 256) (DEVICE_DP c);
  co_cs : buf_ok (cd_mem c) (DMA_BLOCKSIZE * 256) (DEVICE_CS c);
  co_ne : DEVICE_DP c ≠ DEVICE_CS c
}.

(** After a release the block of the data is gone. *)
Lemma rs_release_lookup {R : CudaRuntime} {L : CudaLaws R} c : card_ok c →
  cd_mem (release_cuda_memory c) !! DEVICE_DP c = None.
Proof.
  intros [Hdp Hcs Hne]. unfold release_cuda_memory. cbn [cd_mem set_cd_mem].
  apply buf_ok_Some in Hdp as (x & Hx & _), Hcs as (y & Hy & _).
  rewrite (cudaFree_ok (cd_mem c)) by (by eexists).
  rewrite cudaFree_ok by (rewrite lookup_delete_ne by done; by eexists).
  rewrite lookup_delete_ne by done. apply lookup_delete_eq.
Qed.

(** A call after a release copies to memory that was given back. *)
Theorem rs_after_release {R : CudaRuntime} {L : CudaLaws R} C c m disks bytes dptrs : card_ok c → mem_tag c = true →
  C < disks → 0 < bytes ≤ INT_MAX → is_Some (dptrs !! 0%nat) →
  multi_rs_cuda_gen_syndrome C disks bytes dptrs (m, release_cuda_memory c) = Err OutOfBounds.
Proof.
  intros Hc Ht Hd Hb [p Hp]. pose proof (rs_release_lookup c Hc) as Hdead.
  assert (∀ g off, rs_block C disks dptrs g off (m, release_cuda_memory c) = Err OutOfBounds) as Hblock.
  { intros g off. unfold rs_block. rewrite (for_lt_err _ _ _ _ _ OutOfBounds); [done|lia|]. unfold copy_to.
    run int_mul_ok by done. run (nth_ptr_nat dptrs 0 0 p) by done. rewrite cuda_copy_overrun; [done|by compute|].
    unfold buf_len. cbn [DEVICE_DP set_cd_mem release_cuda_memory] in *. rewrite Hdead. by compute. }
  unfold multi_rs_cuda_gen_syndrome, get_card_mem. cbn [fst snd]. unfold release_cuda_memory at 1. cbn [mem_tag set_cd_mem].
  rewrite Ht. assert (0 < DMA_BLOCKSIZE) as HD by by compute. set (runs := bytes / DMA_BLOCKSIZE).
  assert (0 ≤ runs) as Hr by (apply Z.div_pos; lia). destruct (decide (runs = 0)) as [E0|E0].
  - assert ((0 <? bytes - runs * DMA_BLOCKSIZE) = true) as -> by (apply Z.ltb_lt; rewrite E0; lia).
    rewrite for_lt_done by lia. bind_step. by rewrite Hblock.
  - rewrite (for_lt_err _ _ _ _ _ OutOfBounds); [done|lia|]. run int_mul_ok by done. apply Hblock.
Qed.

(** The invariant of the statics. *)
Definition card_inv (c : card) : Prop := mem_tag c = true → card_ok c.

(** Byte [k] of the block behind [H] data blocks, which the kernel reads though
    no call with [H] data disks writes it. *)
Definition stale (H : nat) (c : card) (k : nat) : Z := peek (cd_mem c) (DEVICE_DP c) (pos H k).

Lemma get_card_mem_tag {R : CudaRuntime} c c' : get_card_mem c = Some c' → mem_tag c' = true.
Proof.
  unfold get_card_mem. destruct (mem_tag c) eqn:Et; [by intros [= <-]|].
  destruct (cudaMalloc _ _) as [[dp m1]|]; [cbn|done]. by destruct (cudaMalloc _ _) as [[cs m2]|]; [intros [= <-]|].
Qed.

Lemma get_card_mem_again {R : CudaRuntime} c : mem_tag c = true → get_card_mem c = Some c.
Proof. unfold get_card_mem. by intros ->. Qed.

Lemma rs_card_mem_ok {R : CudaRuntime} {L : CudaLaws R} c c' : card_inv c → get_card_mem c = Some c' → card_ok c'.
Proof.
  intros Hc. unfold get_card_mem. destruct (mem_tag c) eqn:Et; [intros [= <-]; by apply Hc|].
  destruct (cudaMalloc (cd_mem c) (DMA_BLOCKSIZE * 256)) as [[dp m1]|] eqn:E1; [cbn|done].
  destruct (cudaMalloc m1 (DMA_BLOCKSIZE * 256)) as [[cs m2]|] eqn:E2; [cbn|done]. intros [= <-].
  apply cudaMalloc_ok in E1 as (N1 & b1 & -> & L1 & B1). apply cudaMalloc_ok in E2 as (N2 & b2 & -> & L2 & B2).
  rewrite lookup_insert_None in N2. destruct N2 as [_ N2].
  split; cbn [cd_mem DEVICE_DP DEVICE_CS]; try congruence;
    apply buf_ok_Some; rewrite ?lookup_insert_ne by congruence; rewrite lookup_insert_eq;
    eexists; (split; [done|]); (split; [lia|done]).
Qed.

Section host_proofs.
Context {R : CudaRuntime} {L : CudaLaws R}.
Context (m0 : mem) (dptrs : list loc) (C H : nat) (bytes : Z).
Context (HC : (1 ≤ C ≤ 255)%nat) (HH : (1 ≤ H ≤ 255)%nat) (Ha : array_ok m0 dptrs (H + C) bytes).
Abbreviation disks := (Z.of_nat (H + C)).

Definition card_keeps (c c' : card) : Prop :=
  DEVICE_DP c' = DEVICE_DP c ∧ DEVICE_CS c' = DEVICE_CS c ∧ (∀ b l, buf_ok (cd_mem c) l b → buf_ok (cd_mem c') l b) ∧
  (∀ k, Z.of_nat k < DMA_BLOCKSIZE → stale H c' k = stale H c k) ∧ mem_tag c' = mem_tag c.

Lemma card_keeps_ok c c' : card_keeps c c' → card_ok c → card_ok c'.
Proof. intros (E1 & E2 & O & _) [? ? ?]. split; rewrite ?E1, ?E2; auto. Qed.
Lemma card_keeps_refl c : card_keeps c c.
Proof. by split_and!. Qed.

Lemma card_keeps_trans c1 c2 c3 : card_keeps c1 c2 → card_keeps c2 c3 → card_keeps c1 c3.
Proof.
  intros (? & ? & ? & S1 & ?) (? & ? & ? & S2 & ?). split_and!; [congruence..|auto| |congruence]. intros k Hk. by rewrite S2, S1.
Qed.

(** [m'] is [m0] with the check symbols of the first [len] bytes, the stale
    byte of card [c0] taken for one more data disk. *)
Context (c0 : card).
Record writes_rs (len : Z) (m' : mem) : Prop := {
  wr_frame : ∀ b, (∀ z, (H ≤ z < H + C)%nat → dptrs !! z ≠ Some b) → m' !! b = m0 !! b;
  wr_ok : ∀ b l, buf_ok m0 l b → buf_ok m' l b;
  wr_row : ∀ r b k, (r < C)%nat → dptrs !! (H + r)%nat = Some b → Z.of_nat k < len →
    is_row r (column m0 dptrs H k ++ [stale H c0 (Z.to_nat (Z.of_nat k mod DMA_BLOCKSIZE))]) (peek m' b k);
  wr_rest : ∀ b k, len ≤ Z.of_nat k → peek m' b k = peek m0 b k
}.

Lemma writes_rs_0 : writes_rs 0 m0.
Proof. split; try done. intros. lia. Qed.

Lemma writes_rs_data len m i b k : writes_rs len m → (i < H)%nat → dptrs !! i = Some b → peek m b k = peek m0 b k.
Proof.
  intros Hw Hi Hb. unfold peek. rewrite (wr_frame _ _ Hw); [done|]. intros z Hz Hzb.
  pose proof (array_inj Ha i z b ltac:(lia) ltac:(lia) Hb Hzb). lia.
Qed.

Lemma writes_rs_array len m : writes_rs len m → array_ok m dptrs (H + C) bytes.
Proof. intros Hw. eapply array_ok_frame; [|exact Ha]. intros b. apply Hw. Qed.

(** The data blocks after the copies. *)
Definition loaded (dm : mem) (DP : loc) (off : Z) (z : nat) : Prop :=
  ∀ b k, dptrs !! z = Some b → Z.of_nat k < DMA_BLOCKSIZE → peek dm DP (pos z k) = peek m0 b (Z.to_nat off + k).

Lemma copy_in_ok len m c off : writes_rs len m → card_ok c → 0 ≤ off → off + DMA_BLOCKSIZE ≤ bytes →
  ∃ c', for_lt 0 (disks - Z.of_nat C) 1 (copy_to dptrs off) (m, c) = Ok (m, c') ∧ card_keeps c c' ∧
    ∀ z, (z < H)%nat → loaded (cd_mem c') (DEVICE_DP c) off z.
Proof.
  intros Hw Hc Hoff Hb. pose proof rs_DMA_eq as HD. pose proof (writes_rs_array _ _ Hw) as Ham.
  destruct (for_lt_inv (λ i (s : mem * card), s.1 = m ∧ card_keeps c s.2 ∧
      ∀ z, Z.of_nat z < i → loaded (cd_mem s.2) (DEVICE_DP c) off z)
    (copy_to dptrs off) 0 (disks - Z.of_nat C) 1) with (s := (m, c))
    as ([m' c'] & E & Hm & Hk & Hl); [lia|done|unfold INT_MAX; lia| | |].
  - intros i [m1 c1] Hi _ (Hm & Hk & Hl). cbn in Hm, Hk, Hl. subst m1. unfold copy_to.
    run int_mul_ok by (unfold INT_MIN, INT_MAX; nia).
    destruct (array_disk Ham (Z.to_nat i)) as (b & Hbi & Hbo); [lia|].
    run (nth_ptr_nat dptrs i (Z.to_nat i) b) by (done || lia). pose proof (card_keeps_ok _ _ Hk Hc) as Hc1.
    destruct (cuda_copy_spec (cd_mem c1) (DEVICE_DP c1) (i * DMA_BLOCKSIZE) (DMA_BLOCKSIZE * 256) m b off bytes DMA_BLOCKSIZE)
      as (dm & E & [F _ O P]); [apply Hc1|done|lia|nia|nia|done|done|].
    run E. eexists. split; [done|]. cbn [fst snd]. split; [done|].
    destruct Hk as (K1 & K2 & K3 & K4 & K5). rewrite length_slice in P. rewrite K1 in P.
    split.
    { split_and!; [done|done|auto| |done]. intros k Hk. rewrite <-K4 by done. unfold stale. cbn [cd_mem DEVICE_DP set_cd_mem].
      rewrite K1, P. by rewrite decide_False by (unfold pos; nia). }
    intros z Hz b' k Hb' Hk. cbn [cd_mem set_cd_mem]. rewrite P.
    assert (Z.to_nat (i * DMA_BLOCKSIZE) = pos (Z.to_nat i) 0) as -> by (unfold pos; nia).
    destruct (decide (z = Z.to_nat i)) as [->|Hne].
    + rewrite decide_True by (unfold pos; lia). rewrite Hbi in Hb'. injection Hb' as <-.
      rewrite slice_lookup by (unfold pos; lia). simp_default.
      rewrite (writes_rs_data len m (Z.to_nat i) b) by (done || lia). f_equal. unfold pos. lia.
    + rewrite decide_False by (unfold pos; nia). apply Hl; [lia|done|done].
  - split; [done|]. split; [by split_and!|]. intros; lia.
  - cbn in Hm, Hk, Hl. subst m'. rewrite (loop_end_unique _ _ _ (Z.of_nat H) (Z.of_nat H)) in Hl by lia.
    exists c'. split; [done|]. split; [done|]. intros z Hz. apply Hl. lia.
Qed.

Lemma launch_rows len m c grid off : writes_rs len m → card_ok c → (∀ z, (z < H)%nat → loaded (cd_mem c) (DEVICE_DP c) off z) →
  grid * THREAD_BLOCKSIZE * 8 = DMA_BLOCKSIZE →
  ∃ c', launch (Z.of_nat C) grid disks c = Ok c' ∧ card_keeps c c' ∧
    ∀ r k, (r < C)%nat → Z.of_nat k < DMA_BLOCKSIZE →
      is_row r (column m0 dptrs H (Z.to_nat off + k) ++ [stale H c k]) (peek (cd_mem c') (DEVICE_CS c) (pos r k)).
Proof.
  intros Hw Hc Hl Hg. unfold launch. pose proof (launch_order_ok (cd_launches c) (grid * THREAD_BLOCKSIZE)) as Hord.
  destruct (run_threads_inv (launch_ok C H (DEVICE_DP c) (DEVICE_CS c) (cd_mem c))
    (rs_kernel (Z.of_nat C) (cd_launches c) (DEVICE_DP c) (DEVICE_CS c) disks) (λ t, 0 ≤ t < grid * THREAD_BLOCKSIZE))
    with (ths := launch_order (cd_launches c) (grid * THREAD_BLOCKSIZE)) (m := cd_mem c) as (dm & E & [F O D]).
  - intros ths th m' Hths Hth Hm. apply (rs_launch_step (cd_launches c) C H (DEVICE_DP c) (DEVICE_CS c) grid); try done;
      [lia|by apply Hc|by apply Hc|by apply Hc].
  - intros t. rewrite Hord, elem_of_seqZ. lia.
  - split; [done|done|]. intros r k _ Hk. by apply elem_of_nil in Hk.
  - run E. eexists. split; [done|]. split.
    { split_and!; [done|done|done| |done]. intros k _. unfold stale, peek. cbn [cd_mem DEVICE_DP]. rewrite F; [done|]. apply Hc. }
    intros r k Hr Hk. cbn [cd_mem].
    assert (card_column (cd_mem c) (DEVICE_DP c) (S H) k =
      column m0 dptrs H (Z.to_nat off + k) ++ [stale H c k]) as <-.
    { unfold card_column. rewrite seq_S, fmap_app. f_equal. pose proof (array_length Ha).
      apply list_eq_default with (d := 0); [rewrite length_column, length_fmap, length_seq; lia|].
      rewrite length_fmap, length_seq. intros i Hi. destruct (lookup_lt_is_Some_2 dptrs i) as [b Hb]; [lia|].
      rewrite (column_lookup m0 dptrs H _ i b), list_lookup_fmap, lookup_seq_lt by done. simp_default.
      by apply Hl. }
    apply D; [done|]. rewrite Hord, elem_of_seqZ. Z.to_euclidean_division_equations. lia.
Qed.

Definition fetched (m : mem) (c : card) (off : Z) (n : nat) (m' : mem) : Prop :=
  (∀ b, (∀ r, (r < n)%nat → dptrs !! (H + r)%nat ≠ Some b) → m' !! b = m !! b) ∧
  (∀ b l, buf_ok m l b → buf_ok m' l b) ∧
  ∀ r b k, (r < n)%nat → dptrs !! (H + r)%nat = Some b → peek m' b k =
    if decide (off ≤ Z.of_nat k < off + DMA_BLOCKSIZE) then peek (cd_mem c) (DEVICE_CS c) (pos r (k - Z.to_nat off))
    else peek m b k.

Lemma copy_out_ok m c off : array_ok m dptrs (H + C) bytes → card_ok c → 0 ≤ off → off + DMA_BLOCKSIZE ≤ bytes →
  ∃ m', for_lt 0 (Z.of_nat C) 1 (copy_from (Z.of_nat C) dptrs disks off) (m, c) = Ok (m', c) ∧ fetched m c off C m'.
Proof.
  intros Ham Hc Hoff Hb. pose proof rs_DMA_eq as HD.
  destruct (for_lt_inv (λ i (s : mem * card), s.2 = c ∧ fetched m c off (Z.to_nat i) s.1)
    (copy_from (Z.of_nat C) dptrs disks off) 0 (Z.of_nat C) 1) with (s := (m, c))
    as ([m' c'] & E & Hc' & Hf); [lia|done|unfold INT_MAX; lia| | |].
  - intros i [m1 c1] Hi _ (Hc1 & F & O & P). cbn in Hc1, F, O, P. subst c1. unfold copy_from.
    run int_mul_ok by (unfold INT_MIN, INT_MAX; nia). set (r0 := Z.to_nat i) in *.
    destruct (array_disk Ham (H + r0)) as (b & Hbi & Hbo); [lia|].
    run (nth_ptr_nat dptrs (disks - Z.of_nat C + i) (H + r0) b) by (done || lia).
    destruct (cuda_copy_spec m1 b off bytes (cd_mem c) (DEVICE_CS c) (i * DMA_BLOCKSIZE) (DMA_BLOCKSIZE * 256) DMA_BLOCKSIZE)
      as (m2 & E & [F2 _ O2 P2]); [by apply O|apply Hc|lia|done|done|nia|nia|].
    run E. eexists. split; [done|]. cbn [fst snd]. split; [done|]. rewrite length_slice in P2.
    replace (Z.to_nat (i + 1)) with (S r0) by lia. split_and!.
    + intros b' Hb'. rewrite F2; [apply F; intros; apply Hb'; lia|]. intros ->. by apply (Hb' r0 ltac:(lia)).
    + intros b' n Hb'. by apply O2, O.
    + intros r b' k Hr Hb'. destruct (decide (b' = b)) as [->|Hne].
      * pose proof (array_inj Ham (H + r) (H + r0) b ltac:(lia) ltac:(lia) Hb' Hbi) as Er.
        assert (r = r0) as -> by lia. rewrite P2. case_decide as Hd1.
        -- rewrite decide_True by lia. rewrite slice_lookup by lia. simp_default. f_equal. unfold pos. nia.
        -- rewrite decide_False by lia. unfold peek. rewrite F; [done|]. intros r Hr' Hb2.
           pose proof (array_inj Ham (H + r) (H + r0) b ltac:(lia) ltac:(lia) Hb2 Hbi). lia.
      * unfold peek at 1. rewrite F2 by done. apply P; [|done].
        assert (r ≠ r0) by (intros ->; congruence). lia.
  - split; [done|]. split_and!; [done|done|]. intros; lia.
  - rewrite (loop_end_unique _ _ _ (Z.of_nat C) (Z.of_nat C)), Nat2Z.id in Hf by lia. cbn in Hc', Hf. subst c'. by exists m'.
Qed.

Lemma rs_block_ok len m c grid : writes_rs len m → card_ok c → card_keeps c0 c → 0 ≤ len → len + DMA_BLOCKSIZE ≤ bytes →
  len mod DMA_BLOCKSIZE = 0 → grid * THREAD_BLOCKSIZE * 8 = DMA_BLOCKSIZE →
  ∃ m' c', rs_block (Z.of_nat C) disks dptrs grid len (m, c) = Ok (m', c') ∧ card_ok c' ∧ card_keeps c0 c' ∧
    writes_rs (len + DMA_BLOCKSIZE) m'.
Proof.
  intros Hw Hc Hk0 Hlen Hb Hmod Hg. unfold rs_block. pose proof rs_DMA_eq as HD.
  destruct (copy_in_ok len m c len Hw Hc Hlen Hb) as (c1 & E1 & K1 & Hl). run E1.
  pose proof (card_keeps_ok _ _ K1 Hc) as Hc1. rewrite <-(proj1 K1) in Hl.
  destruct (launch_rows len m c1 grid len Hw Hc1 Hl Hg) as (c2 & E2 & K2 & Hrow). cbn [snd fst]. run E2.
  pose proof (card_keeps_ok _ _ K2 Hc1) as Hc2. pose proof (card_keeps_trans _ _ _ Hk0 K1) as (_ & _ & _ & Hst & _).
  destruct (copy_out_ok m c2 len (writes_rs_array _ _ Hw) Hc2 Hlen Hb) as (m' & E3 & F & O & P). rewrite E3.
  rewrite (proj1 (proj2 K2)) in P. exists m', c2. split; [done|]. split; [done|].
  split; [by eapply card_keeps_trans; [|exact K2]; eapply card_keeps_trans|]. split.
  - intros b Hz. rewrite F; [by apply Hw|]. intros r Hr. apply Hz. lia.
  - intros b n Hbo. by apply O, Hw.
  - intros r b k Hr Hbr Hk. rewrite (P r b k Hr Hbr). case_decide as Hin; [|apply Hw; [done|done|lia]].
    pose proof (Hrow r (k - Z.to_nat len)%nat Hr ltac:(lia)) as Hrw. rewrite Hst in Hrw by lia.
    replace (Z.to_nat len + (k - Z.to_nat len))%nat with k in Hrw by lia.
    replace (Z.to_nat (Z.of_nat k mod DMA_BLOCKSIZE)) with (k - Z.to_nat len)%nat; [done|].
    rewrite HD in *. Z.to_euclidean_division_equations. lia.
  - intros b k Hk. rewrite <-(wr_rest _ _ Hw b k) by lia.
    destruct (decide (b ∈ take C (drop H dptrs))) as [(r & Hbr)%list_elem_of_lookup|Hno].
    + apply lookup_take_Some in Hbr as [Hbr Hr]. rewrite lookup_drop in Hbr.
      rewrite (P r b k) by done. by rewrite decide_False by lia.
    + unfold peek. rewrite F; [done|]. intros r Hr Hbr. apply Hno, list_elem_of_lookup. exists r.
      apply lookup_take_Some. by rewrite lookup_drop.
Qed.

Lemma rs_run c : card_ok c0 → get_card_mem c = Some c0 → 0 ≤ bytes ≤ INT_MAX → bytes mod DMA_BLOCKSIZE = 0 →
  ∃ m' c', multi_rs_cuda_gen_syndrome (Z.of_nat C) disks bytes dptrs (m0, c) = Ok (Some (m', c')) ∧
    card_ok c' ∧ card_keeps c0 c' ∧ writes_rs bytes m'.
Proof.
  intros Hc E Hb Hm. unfold multi_rs_cuda_gen_syndrome. cbn [fst snd]. pose proof rs_DMA_eq as HD. rewrite E.
  set (runs := bytes / DMA_BLOCKSIZE).
  assert (0 ≤ runs ∧ bytes = runs * DMA_BLOCKSIZE) as [Hr0 Hbr]
    by (unfold runs; rewrite HD in *; Z.to_euclidean_division_equations; lia).
  destruct (for_lt_inv (λ j (s : mem * card), card_ok s.2 ∧ card_keeps c0 s.2 ∧ writes_rs (j * DMA_BLOCKSIZE) s.1)
    (λ j s, off ← int_mul j DMA_BLOCKSIZE; rs_block (Z.of_nat C) disks dptrs (DMA_BLOCKSIZE / (THREAD_BLOCKSIZE * 8)) off s)
    0 runs 1) with (s := (m0, c0)) as ([m2 c2] & E2 & Hc2 & Hk2 & Hw2); [lia|done|unfold INT_MAX in *; lia| | |].
  - intros j [m1 c3] Hj _ (Hc3 & Hk3 & Hw). cbn in Hc3, Hk3, Hw. run int_mul_ok by (unfold INT_MIN, INT_MAX in *; nia).
    destruct (rs_block_ok (j * DMA_BLOCKSIZE) m1 c3 (DMA_BLOCKSIZE / (THREAD_BLOCKSIZE * 8)) Hw Hc3 Hk3)
      as (m4 & c4 & E4 & Hc4 & Hk4 & Hw4); [lia|nia|apply Z.mod_mul; lia|by rewrite HD|].
    exists (m4, c4). split; [done|]. split; [done|]. split; [done|].
    cbn. by replace ((j + 1) * DMA_BLOCKSIZE) with (j * DMA_BLOCKSIZE + DMA_BLOCKSIZE) by lia.
  - split; [done|]. split; [apply card_keeps_refl|]. apply writes_rs_0.
  - run E2. rewrite <-Hbr, Z.sub_diag. cbn [Z.ltb Z.compare]. exists m2, c2. split; [done|]. split; [done|].
    split; [done|]. rewrite (loop_end_unique _ _ _ runs runs) in Hw2 by lia. by rewrite Hbr.
Qed.
End host_proofs.

(** ** The theorems *)
Section theorems.
Context {R : CudaRuntime} {L : CudaLaws R}.

(** A copy from beyond the source. *)
Lemma cuda_copy_short dm d doff sm s soff n buf : sm !! s = Some buf → Z.of_nat (length buf) < soff + n → 0 ≤ n →
  cuda_copy dm d doff sm s soff n = Err OutOfBounds.
Proof.
  intros Hs Hl Hn. unfold cuda_copy, load_bytes. rewrite Hs. cbn [of_option]. bind_step.
  assert (in_range soff (Z.of_nat (Z.to_nat n)) (Z.of_nat (length buf)) = false) as ->; [|done].
  apply not_true_iff_false. rewrite in_range_true. lia.
Qed.

(** C21: whatever the order of a block's threads and the contents of its shared
    memory, the tables of its [rs_kernel] give [mult_gf_shader] the host's
    products for all factors but 255, for which the host reads past its
    tables and the card takes some byte. *)
Theorem gpu_mult_equiv l th a b : is_byte a → is_byte b →
  let gl := block_table gflog_init 0 l th in
  let gi := block_table gfilog_init 1 l th in
  (a ≠ 255 → b ≠ 255 → mult_gf_shader gl gi a b = mult_gf a b) ∧
  (a ≠ 0 → b ≠ 0 → a = 255 ∨ b = 255 →
     mult_gf a b = Err OutOfBounds ∧ ∃ r, is_byte r ∧ mult_gf_shader gl gi a b = Ok r).
Proof.
  intros Ha Hb gl gi.
  pose proof (block_table_ok l gflog gflog_init 0 th gflog_writes_right ltac:(lia)) as Hgl.
  pose proof (block_table_ok l gfilog gfilog_init 1 th gfilog_writes_right ltac:(lia)) as Hgi.
  split.
  - intros Ha' Hb'. pose proof (mult_gf_eq a b Ha Hb Ha' Hb') as E. rewrite E. by apply (shader_host gl gi Hgl Hgi).
  - intros Ha0 Hb0 H255. split; [by apply mult_gf_255|]. exists (shader_val gl gi a b).
    split; [by apply is_byte_shader|by apply shader_ok].
Qed.

Lemma rs_check_symbols m dptrs C H bytes c c0 : (1 ≤ C ≤ 255)%nat → (1 ≤ H ≤ 255)%nat →
  array_ok m dptrs (H + C) bytes → 0 ≤ bytes ≤ INT_MAX → bytes mod DMA_BLOCKSIZE = 0 →
  card_inv c → get_card_mem c = Some c0 →
  ∃ m' c', multi_rs_cuda_gen_syndrome (Z.of_nat C) (Z.of_nat (H + C)) bytes dptrs (m, c) = Ok (Some (m', c')) ∧
    card_inv c' ∧ mem_tag c' = true ∧ (∀ k, Z.of_nat k < DMA_BLOCKSIZE → stale H c' k = stale H c0 k) ∧
    (∀ b, (∀ z, (H ≤ z < H + C)%nat → dptrs !! z ≠ Some b) → m' !! b = m !! b) ∧
    (∀ b l, buf_ok m l b → buf_ok m' l b) ∧ (∀ b k, bytes ≤ Z.of_nat k → peek m' b k = peek m b k) ∧
    ∀ r b k v, (r < C)%nat → dptrs !! (H + r)%nat = Some b → Z.of_nat k < bytes →
      rs_row (Z.of_nat r + 1) (Z.of_nat r + 1) 0 (column m dptrs H k) = Ok v →
      peek m' b k = v ↔ stale H c0 (Z.to_nat (Z.of_nat k mod DMA_BLOCKSIZE)) = 0.
Proof.
  intros HC HH Ha Hb Hm Hc E. pose proof (rs_card_mem_ok c c0 Hc E) as Hc0.
  destruct (rs_run m dptrs C H bytes HC HH Ha c0 c Hc0 E Hb Hm) as (m' & c' & Er & Hc' & Hk & [F O Hrow Hrest]).
  exists m', c'. split; [exact Er|]. split; [by intros _|].
  split; [destruct Hk as (_ & _ & _ & _ & ->); by eapply get_card_mem_tag|]. split; [apply Hk|]. split; [exact F|]. split; [exact O|]. split; [exact Hrest|].
  assert (∀ k, Forall is_byte (column m dptrs H k)) as Hcol.
  { intros k. apply (Forall_byte_column _ _ _ bytes). eapply array_ok_mono; [|done..]. lia. }
  intros r b k v Hr Hbr Hkb Hv. destruct (Hrow r b k Hr Hbr Hkb) as (gl & gi & Hgl & Hgi & ->).
  rewrite gpu_row_snoc. rewrite (gpu_row_host gl gi Hgl Hgi _ _ _ _ v) by (done || unfold is_byte; lia).
  set (e := stale _ _ _). split; [|intros ->; by rewrite Z.lxor_0_r].
  intros Ex. assert (shader_val gl gi e (coef_at gl gi (Z.of_nat r + 1) (Z.of_nat r + 1) (length (column m dptrs H k))) = 0) as Hz.
  { apply (f_equal (Z.lxor v)) in Ex. by rewrite <-Z.lxor_assoc, !Z.lxor_nilpotent, Z.lxor_0_l in Ex. }
  apply shader_val_zero in Hz as [?|Hz]; [done| |exact Hgi]. apply coef_at_zero in Hz; [done|exact Hgi|lia|lia].
Qed.


(** A call with less than [DMA_BLOCKSIZE] bytes copies [DMA_BLOCKSIZE]
    bytes all the same, and so reads past the end of the first disk. *)
Theorem gpu_small_size C disks bytes dptrs m c c0 b buf : 0 < bytes < DMA_BLOCKSIZE → C < disks ≤ INT_MAX → 0 ≤ C →
  get_card_mem c = Some c0 → dptrs !! 0%nat = Some b → m !! b = Some buf → Z.of_nat (length buf) = bytes →
  multi_rs_cuda_gen_syndrome C disks bytes dptrs (m, c) = Err OutOfBounds.
Proof.
  intros Hb Hd HC E Hp Hm Hl. unfold multi_rs_cuda_gen_syndrome. cbn [fst snd]. rewrite E.
  rewrite (Z.div_small bytes DMA_BLOCKSIZE) by lia. rewrite Z.mul_0_l, Z.sub_0_r.
  rewrite for_lt_done by done. bind_step. rewrite (proj2 (Z.ltb_lt 0 bytes)) by lia. unfold rs_block.
  erewrite for_lt_err; [done|lia|]. unfold copy_to.
  run int_mul_ok by (unfold INT_MIN, INT_MAX; lia). run (nth_ptr_nat dptrs 0 0 b) by done.
  rewrite (cuda_copy_short _ _ _ m b (0 * bytes) DMA_BLOCKSIZE buf) by (done || lia). done.
Qed.
End theorems.

(** ** Witnesses: two data disks and four check disks of [n] ones *)
#[local] Existing Instance plain_runtime.
#[local] Existing Instance plain_laws.

Definition rs_disks_of (n : nat) : mem := list_to_map ((λ b, (b, replicate n 1)) <$> rs_ptrs).

Lemma rs_disks_of_ok n : array_ok (rs_disks_of n) rs_ptrs 6 (Z.of_nat n).
Proof.
  split; [done|]. split; [by_decide|]. unfold rs_disks_of, rs_ptrs. cbn [take fmap list_fmap].
  repeat (apply Forall_cons; split); [..|by apply Forall_nil];
    (apply buf_ok_Some; exists (replicate n 1); split; [done|]; rewrite length_replicate; split; [lia|];
     apply Forall_byte_replicate; unfold is_byte; lia).
Qed.

Lemma plain_card : ∃ c0, get_card_mem card_start = Some c0.
Proof.
  unfold get_card_mem. cbn [mem_tag card_start]. pose proof rs_DMA_eq.
  destruct (plain_malloc (cd_mem card_start) (DMA_BLOCKSIZE * 256)) as [[dp m1] ->]; [lia|]. cbn [mbind option_bind].
  destruct (plain_malloc m1 (DMA_BLOCKSIZE * 256)) as [[cs m2] ->]; [lia|]. cbn [mbind option_bind]. by eexists.
Qed.

Lemma rs_start_inv : card_inv card_start.
Proof. by intros [=]. Qed.

Lemma gpu_mult_equiv_witness :
  let gl := block_table gflog_init 0 7 300 in
  let gi := block_table gfilog_init 1 7 300 in
  (9 ≠ 255 → 200 ≠ 255 → mult_gf_shader gl gi 9 200 = mult_gf 9 200) ∧
  (9 ≠ 0 → 200 ≠ 0 → 9 = 255 ∨ 200 = 255 →
     mult_gf 9 200 = Err OutOfBounds ∧ ∃ r, is_byte r ∧ mult_gf_shader gl gi 9 200 = Ok r).
Proof. apply (gpu_mult_equiv 7 300 9 200); by_decide. Defined.


Lemma gpu_small_size_witness : ∃ c0, get_card_mem card_start = Some c0 ∧
  multi_rs_cuda_gen_syndrome 4 6 1 rs_ptrs (rs_sample 9, card_start) = Err OutOfBounds.
Proof.
  destruct plain_card as [c0 E]. exists c0. split; [exact E|]. pose proof rs_DMA_eq as HD.
  apply (gpu_small_size 4 6 1 rs_ptrs (rs_sample 9) card_start c0 1%positive [0]);
    [lia|unfold INT_MAX; lia|lia|exact E|reflexivity|reflexivity|reflexivity].
Defined.
