(* ===== verification/TypesGpu.v ===== *)
(** * Type safety of the GPU generators

    The promise of Types.v for the generators that run on the card, with the
    memory of the card next to that of the host: every run that succeeds,
    whatever its arguments and in whatever order threads and streams run, keeps
    both well typed and the shape of the host's buffers. *)
From S2P Require Import Prelude GF256 Word Memory Syndrome MultiRs Types CudaApi Cuda CudaAsync RsKernel.
Local Open Scope Z_scope.

(** Relate the ends of a chain of steps by the lemmas on the steps. *)
Ltac keep_chain :=
  repeat match goal with
  | |- _ ?s ?s => reflexivity
  | E : _ ?s = Ok ?s' |- _ ?s ?s' => solve [eauto with types]
  | E : _ ?s = Ok ?s1 |- _ ?s _ => etrans; [solve [eauto with types]|]; clear E
  | E : _ ?s ?s1 |- _ ?s _ => etrans; [exact E|]; clear E
  end.
(** A loop that is one of these steps, by the lemma [L] for loops. *)
Ltac loop_types L :=
  match goal with E : for_lt _ _ _ _ _ = Ok _ |- _ =>
    apply L in E; [|intros; cbn beta in *; inv_ok; keep_chain] end.

(** ** Host and card *)
Record keeps_both (s s' : mem * mem) : Prop := {
  kb_host : well_typed s'.1;
  kb_card : well_typed s'.2;
  kb_shape : ∀ b, shape s'.1 b = shape s.1 b
}.
Definition both_types (s s' : mem * mem) : Prop := well_typed s.1 → well_typed s.2 → keeps_both s s'.

#[export] Instance both_types_preorder : PreOrder both_types.
Proof.
  split; [by intros s|]. intros s1 s2 s3 H12 H23 Hh Hc. destruct (H12 Hh Hc) as [Hh2 Hc2 S2].
  destruct (H23 Hh2 Hc2) as [Hh3 Hc3 S3]. split; [done..|]. intros b. by rewrite S3, S2.
Qed.

Lemma both_card m dm dm' : (well_typed m → keeps_types dm dm') → both_types (m, dm) (m, dm').
Proof. intros H Hm Hdm. cbn in *. split; [done|by apply H|done]. Qed.

Lemma both_host m m' dm : (well_typed dm → keeps_types m m') → both_types (m, dm) (m', dm).
Proof. intros H Hm Hdm. cbn in *. destruct (H Hdm Hm). by split. Qed.

Section runtime.
Context {R : CudaRuntime} {L : CudaLaws R}.

Lemma cuda_copy_types dm d doff sm s soff n dm' : cuda_copy dm d doff sm s soff n = Ok dm' → well_typed sm →
  keeps_types dm dm'.
Proof using L.
  unfold cuda_copy. intros (bs & El & (dm1 & Es & [= <-])%bind_Ok)%bind_Ok Hsm.
  rewrite (cudaMemcpy_ok _ _ _ _ _ _ _ _ _ El Es). eapply store_bytes_types; [|exact Es]. intros _.
  unfold load_bytes in El. inv_ok. subst bs. by apply Forall_take, Forall_drop, (Hsm _ _ E).
Qed.

Lemma cuda_copy_same m d doff s soff n m' : cuda_copy m d doff m s soff n = Ok m' → keeps_types m m'.
Proof using L. intros E Hm. by eapply cuda_copy_types. Qed.

Lemma run_threads_keeps {T S} (K : S → S → Prop) `{!PreOrder K} (f : T → S → result S) ths s s' :
  (∀ t s s', f t s = Ok s' → K s s') → run_threads f ths s = Ok s' → K s s'.
Proof using Type.
  intros Hf. revert s. induction ths as [|t ths IH]; intros s E; cbn [run_threads] in E; [by injection E as ->|].
  apply bind_Ok in E as (s1 & E1 & E). etrans; [by eapply Hf|by apply IH].
Qed.

Lemma cudaMalloc_types m n b m' : cudaMalloc m n = Some (b, m') → well_typed m → well_typed m'.
Proof using L. intros (_ & x & -> & _ & Hx)%cudaMalloc_ok Hm. by apply map_Forall_insert_2. Qed.
End runtime.

(** ** raid6cuda.cu *)
Definition cuda_view (s : mem * Cuda.card) : mem * mem := (s.1, Cuda.cd_mem s.2).
Abbreviation cuda_types := (on_mem cuda_view both_types).

Section cuda.
Context {R : CudaRuntime} {L : CudaLaws R}.

Lemma cuda_to_types dptrs DP i off n s s' : Cuda.copy_to dptrs DP i off n s = Ok s' → cuda_types s s'.
Proof using L.
  destruct s as [m c]. unfold Cuda.copy_to. intros E. inv_ok. subst s'.
  apply both_card. intros Hm. by eapply cuda_copy_types.
Qed.

Lemma cuda_from_types dptrs PQ poff i off n s s' : Cuda.copy_from dptrs PQ poff i off n s = Ok s' → cuda_types s s'.
Proof using L.
  destruct s as [m c]. unfold Cuda.copy_from. intros E. inv_ok. subst s'.
  apply both_host. intros Hm. by eapply cuda_copy_types.
Qed.

Lemma syndrome_block_types DP PQ z0 w th m m' : Cuda.syndrome_block DP PQ z0 w th m = Ok m' → keeps_types m m'.
Proof using Type.
  unfold Cuda.syndrome_block. intros E. inv_ok. split_pairs. etrans; eauto with types.
Qed.

Lemma cuda_launch_types grid DP PQ z0 c c' : Cuda.launch grid DP PQ z0 c = Ok c' →
  keeps_types (Cuda.cd_mem c) (Cuda.cd_mem c').
Proof using Type.
  unfold Cuda.launch. intros E. inv_ok. subst c'. eapply run_threads_keeps; [apply _| |exact E0].
  intros th m1 m2 E1. cbn beta in E1. eapply syndrome_block_types, E1.
Qed.

Lemma on_card_types f s s' : (∀ c c', f c = Ok c' → keeps_types (Cuda.cd_mem c) (Cuda.cd_mem c')) →
  Cuda.on_card f s = Ok s' → cuda_types s s'.
Proof using Type.
  destruct s as [m c]. unfold Cuda.on_card. intros Hf E. inv_ok. subst s'. apply both_card. intros _. by apply Hf.
Qed.

(** What the steps of the host code keep, for chaining. *)
Lemma cuda_on_launch_types grid DP PQ z0 s s' :
  Cuda.on_card (λ c, Cuda.launch grid (DP c) (PQ c) z0 c) s = Ok s' → cuda_types s s'.
Proof using Type. apply on_card_types. intros. by eapply cuda_launch_types. Qed.

#[local] Hint Resolve cuda_to_types cuda_from_types cuda_on_launch_types : types.

Lemma cuda_loop_types body start stop step s s' : (∀ i s s', body i s = Ok s' → cuda_types s s') →
  for_lt start stop step body s = Ok s' → cuda_types s s'.
Proof using Type. apply for_lt_keeps, _. Qed.

Lemma two_blocks_types disks dptrs j s s' : two_blocks disks dptrs j s = Ok s' → cuda_types s s'.
Proof using L.
  unfold two_blocks. intros E. inv_ok. loop_types cuda_loop_types. keep_chain.
Qed.

Lemma one_block_types disks dptrs grid off n s s' : one_block disks dptrs grid off n s = Ok s' → cuda_types s s'.
Proof using L.
  unfold one_block. intros E. inv_ok. loop_types cuda_loop_types. keep_chain.
Qed.

#[local] Hint Resolve two_blocks_types one_block_types : types.

Lemma get_card_mem_types c c' : Cuda.get_card_mem c = Some c' → well_typed (Cuda.cd_mem c) → well_typed (Cuda.cd_mem c').
Proof using L.
  unfold Cuda.get_card_mem. destruct (Cuda.mem_tag c); [by intros [= <-]|].
  destruct (cudaMalloc (Cuda.cd_mem c) _) as [[b1 m1]|] eqn:E1; [cbn|done].
  destruct (cudaMalloc m1 _) as [[b2 m2]|] eqn:E2; [cbn|done].
  destruct (cudaMalloc m2 _) as [[b3 m3]|] eqn:E3; [cbn|done].
  destruct (cudaMalloc m3 _) as [[b4 m4]|] eqn:E4; [cbn|done]. intros [= <-] Hm. eauto using cudaMalloc_types.
Qed.

Lemma synccopy_types disks bytes ptrs m c m' c' :
  raid6_cuda_gen_syndrome disks bytes ptrs (m, c) = Ok (Some (m', c')) → well_typed m → well_typed (Cuda.cd_mem c) →
  keeps_both (m, Cuda.cd_mem c) (m', Cuda.cd_mem c').
Proof using L.
  unfold raid6_cuda_gen_syndrome, raid6_cuda_gen_syndrome_synccopy. intros E Hm Hc.
  destruct (Cuda.get_card_mem _) as [c1|] eqn:E1; [|done]. apply get_card_mem_types in E1; [|done].
  apply bind_Ok in E as (s1 & E2 & E). apply bind_Ok in E as ([[j n] s2] & E3 & E). apply bind_Ok in E as (s3 & E4 & E).
  injection E as ->.
  assert (cuda_types (m, c1) (m', c')) as Hk; [|by destruct (Hk Hm E1) as [H1 H2 H3]; split].
  apply cuda_loop_types in E2; [|intros; by eapply two_blocks_types]. etrans; [exact E2|].
  assert (cuda_types s1 s2) as H12 by (revert E3; unfold async_single_block; intros E3; destruct (_ <=? _); inv_ok; simplify_eq; [keep_chain|reflexivity]).
  etrans; [exact H12|]. destruct (_ <? _); inv_ok; subst; [keep_chain|reflexivity].
Qed.
End cuda.

(** ** The asynchronous variant *)
Definition async_view (s : mem * acard) : mem * mem := (s.1, Cuda.cd_mem (ac_card s.2)).
Abbreviation async_types := (on_mem async_view both_types).

Section async.
Context {R : CudaRuntime} {L : CudaLaws R} {T : CudaStreams} {TL : StreamLaws T}.

Lemma run_op_types o s s' : run_op o s = Ok s' → async_types s s'.
Proof using L.
  destruct s as [m a], o; cbn [run_op]; intros E; inv_ok; subst s'.
  - apply both_card. intros Hm. by eapply cuda_copy_types.
  - apply both_host. intros Hm. by eapply cuda_copy_types.
Qed.

Lemma sync_types s s' : cudaThreadSynchronize s = Ok s' → async_types s s'.
Proof using L.
  destruct s as [m a]. unfold cudaThreadSynchronize. intros E.
  apply (run_threads_keeps async_types) in E; [exact E|]. intros. by eapply run_op_types.
Qed.

Lemma async_launch_types grid DP PQ z0 s s' : async_launch grid DP PQ z0 s = Ok s' → async_types s s'.
Proof using L.
  unfold async_launch. intros ([m a] & E1 & E2)%bind_Ok. apply sync_types in E1. etrans; [exact E1|].
  unfold exec_kernel in E2. destruct (shared_accepts _); inv_ok; subst; [|reflexivity].
  apply both_card. intros _. by eapply cuda_launch_types.
Qed.

Lemma host_in_types dptrs H i off m m' : host_copy_in dptrs H i off m = Ok m' → keeps_types m m'.
Proof using L. unfold host_copy_in. intros E. inv_ok. by eapply cuda_copy_same. Qed.
Lemma host_out_types dptrs H hoff i off m m' : host_copy_out dptrs H hoff i off m = Ok m' → keeps_types m m'.
Proof using L. unfold host_copy_out. intros E. inv_ok. by eapply cuda_copy_same. Qed.
#[local] Hint Resolve sync_types async_launch_types host_in_types host_out_types : types.

Lemma host_loop_types body start stop step m m' : (∀ i m m', body i m = Ok m' → keeps_types m m') →
  for_lt start stop step body m = Ok m' → keeps_types m m'.
Proof using Type. apply for_lt_keeps, _. Qed.

(** Host memory changes, the card is where it was. *)
Lemma async_host m m' a a' : keeps_types m m' → Cuda.cd_mem (ac_card a') = Cuda.cd_mem (ac_card a) →
  async_types (m, a) (m', a').
Proof using Type. intros K E. unfold on_mem, async_view. cbn. rewrite E. by apply both_host. Qed.

Lemma async_two_blocks_types disks dptrs j s s' : async_two_blocks disks dptrs j s = Ok s' → async_types s s'.
Proof using L.
  destruct s as [m a]. unfold async_two_blocks. cbv zeta. intros E. inv_ok. split_pairs. subst s'.
  loop_types host_loop_types. apply async_launch_types in E4, E5. apply sync_types in E6.
  etrans; [apply (async_host _ _ a a E2); done|]. etrans; [exact E4|]. etrans; [exact E5|]. etrans; [exact E6|].
  apply async_host; [|done]. keep_chain.
Qed.

Lemma async_one_block_types disks dptrs grid j off s s' : async_one_block disks dptrs grid j off s = Ok s' →
  async_types s s'.
Proof using L.
  destruct s as [m a]. unfold async_one_block. cbv zeta. intros E. inv_ok. split_pairs. subst s'.
  loop_types host_loop_types. apply async_launch_types in E2. apply sync_types in E3.
  etrans; [apply (async_host _ _ a a E0); done|]. etrans; [exact E2|]. etrans; [exact E3|].
  apply async_host; [|done]. keep_chain.
Qed.

Lemma get_card_mem_async_types m a m1 a1 : get_card_mem_async (m, a) = Some (m1, a1) → well_typed m →
  well_typed (Cuda.cd_mem (ac_card a)) →
  well_typed m1 ∧ well_typed (Cuda.cd_mem (ac_card a1)) ∧ ∀ b, is_Some (m !! b) → m1 !! b = m !! b.
Proof using L TL.
  unfold get_card_mem_async. destruct (Cuda.mem_tag _); [by intros [= <- <-]|].
  destruct (Cuda.get_card_mem (ac_card a)) as [c|] eqn:Ec; [cbn|done].
  destruct (cudaMallocHost m _) as [[b1 m2]|] eqn:E1; [cbn|done].
  destruct (cudaMallocHost m2 _) as [[b2 m3]|] eqn:E2; [cbn|done].
  destruct (cudaMallocHost m3 _) as [[b3 m4]|] eqn:E3; [cbn|done].
  destruct (cudaMallocHost m4 _) as [[b4 m5]|] eqn:E4; [cbn|done]. intros [= <- <-] Hm Hc.
  apply get_card_mem_types in Ec; [|done].
  apply cudaMallocHost_ok in E1 as (N1 & x1 & -> & _ & X1). apply cudaMallocHost_ok in E2 as (N2 & x2 & -> & _ & X2).
  apply cudaMallocHost_ok in E3 as (N3 & x3 & -> & _ & X3). apply cudaMallocHost_ok in E4 as (N4 & x4 & -> & _ & X4).
  rewrite !lookup_insert_None in *. split; [by repeat apply map_Forall_insert_2|]. split; [done|].
  intros b [x Hb]. rewrite !lookup_insert_ne; naive_solver congruence.
Qed.

Lemma async_loop_types body start stop step s s' : (∀ i s s', body i s = Ok s' → async_types s s') →
  for_lt start stop step body s = Ok s' → async_types s s'.
Proof using Type. apply for_lt_keeps, _. Qed.
#[local] Hint Resolve async_two_blocks_types async_one_block_types : types.

Lemma asynccopy_types disks bytes ptrs m a m' a' :
  raid6_cuda_gen_syndrome_asynccopy disks bytes ptrs (m, a) = Ok (Some (m', a')) → well_typed m →
  well_typed (Cuda.cd_mem (ac_card a)) →
  well_typed m' ∧ well_typed (Cuda.cd_mem (ac_card a')) ∧ ∀ b, is_Some (m !! b) → shape m' b = shape m b.
Proof using L TL.
  unfold raid6_cuda_gen_syndrome_asynccopy. intros E Hm Hc.
  destruct (get_card_mem_async _) as [[m1 a1]|] eqn:E1; [|done].
  apply get_card_mem_async_types in E1 as (Hm1 & Hc1 & Hfr); [|done..].
  apply bind_Ok in E as (s1 & E2 & E). apply bind_Ok in E as ([[j n] s2] & E3 & E). apply bind_Ok in E as (s3 & E4 & E).
  injection E as ->.
  assert (async_types (m1, a1) (m', a')) as Hk.
  { apply async_loop_types in E2; [|intros; by eapply async_two_blocks_types]. etrans; [exact E2|].
    assert (async_types s1 s2) as H12 by (revert E3; unfold async_single_block; intros E3; destruct (_ <=? _); inv_ok; simplify_eq; [keep_chain|reflexivity]).
    etrans; [exact H12|]. destruct (_ <? _); inv_ok; subst; [keep_chain|reflexivity]. }
  destruct (Hk Hm1 Hc1) as [H1 H2 H3]. split_and!; [done..|]. intros b Hb. specialize (H3 b). cbn in H3. rewrite H3.
  unfold shape. cbn. by rewrite Hfr.
Qed.
End async.

(** ** raid6multrs.cu *)
Definition rs_view (s : mem * RsKernel.card) : mem * mem := (s.1, RsKernel.cd_mem s.2).
Abbreviation rs_types := (on_mem rs_view both_types).

Section rs.
Context {R : CudaRuntime} {L : CudaLaws R} (C : Z).

Lemma rs_to_types dptrs off i s s' : RsKernel.copy_to dptrs off i s = Ok s' → rs_types s s'.
Proof using L.
  destruct s as [m c]. unfold RsKernel.copy_to. intros E. inv_ok. subst s'.
  apply both_card. intros Hm. by eapply cuda_copy_types.
Qed.

Lemma rs_from_types dptrs disks off i s s' : RsKernel.copy_from C dptrs disks off i s = Ok s' → rs_types s s'.
Proof using L.
  destruct s as [m c]. unfold RsKernel.copy_from. intros E. inv_ok. subst s'.
  apply both_host. intros Hm. by eapply cuda_copy_types.
Qed.

Lemma table_entry_byte host t i v : table_ok host t → entry t i = Ok v → is_byte v.
Proof using Type.
  intros (_ & Ht & _) E%of_option_Ok. by eapply Forall_lookup_1 in Ht.
Qed.

Section thread.
Context (gl gi : list Z) (Hgi : table_ok gfilog gi).

Lemma shader_byte a b v : mult_gf_shader gl gi a b = Ok v → is_byte v.
Proof using Hgi.
  unfold mult_gf_shader. destruct (_ || _); [intros [= <-]; auto with bcu|]. cbv zeta. intros E.
  apply bind_Ok in E as (la & _ & E). apply bind_Ok in E as (lb & _ & E). by eapply table_entry_byte.
Qed.

Lemma xor_products_bytes accu fetch mult out : Forall is_byte accu →
  xor_products gl gi accu fetch mult = Ok out → Forall is_byte out.
Proof using Hgi.
  intros Ha. revert fetch out. induction Ha as [|a accu Ha _ IH]; intros [|f fetch] out E; cbn [xor_products] in E;
    inv_ok; subst; try apply Forall_nil_2.
  apply Forall_cons. split; [|by eapply IH]. apply is_byte_lxor; [done|]. by eapply shader_byte.
Qed.

Lemma rs_thread_types DP PQ disks th m m' : rs_thread C gl gi DP PQ disks th m = Ok m' → keeps_types m m'.
Proof using Hgi.
  unfold rs_thread. apply for_lt_keeps; [apply _|]. intros j m1 m2 ([accu mult] & E1 & E2)%bind_Ok.
  eapply store_bytes_types; [|exact E2]. intros _.
  assert (PreOrder (λ s s' : list Z * Z, Forall is_byte s.1 → Forall is_byte s'.1)) as Hpre
    by (split; [by intros ?|intros ???; auto]).
  refine (for_lt_keeps (λ s s' : list Z * Z, Forall is_byte s.1 → Forall is_byte s'.1) _ _ _ _ _ _ _ E1 _);
    [|by apply Forall_byte_replicate, is_byte_0].
  intros i [acc mu] [acc' mu'] E Hacc. unfold rs_disk_step in E. inv_ok. simplify_eq. by eapply xor_products_bytes.
Qed.
End thread.

Lemma rs_launch_types grid disks c c' : RsKernel.launch C grid disks c = Ok c' →
  keeps_types (RsKernel.cd_mem c) (RsKernel.cd_mem c').
Proof using L.
  unfold RsKernel.launch. intros E. inv_ok. subst c'. eapply run_threads_keeps; [apply _| |exact E0].
  intros th m1 m2 E1. unfold rs_kernel in E1. eapply rs_thread_types, E1.
  apply block_table_ok; [apply gfilog_writes_right|lia].
Qed.

Lemma rs_loop_types body start stop step s s' : (∀ i s s', body i s = Ok s' → rs_types s s') →
  for_lt start stop step body s = Ok s' → rs_types s s'.
Proof using Type. apply for_lt_keeps, _. Qed.
#[local] Hint Resolve rs_to_types rs_from_types : types.

Lemma rs_block_types disks dptrs grid off s s' : rs_block C disks dptrs grid off s = Ok s' → rs_types s s'.
Proof using L.
  destruct s as [m c]. unfold rs_block. intros (s1 & E1 & (c2 & E2 & E3)%bind_Ok)%bind_Ok.
  apply rs_loop_types in E1; [|intros; by eapply rs_to_types]. apply rs_loop_types in E3; [|intros; by eapply rs_from_types].
  etrans; [exact E1|]. etrans; [|exact E3]. destruct s1 as [m1 c1].
  apply both_card. intros _. by eapply rs_launch_types.
Qed.

Lemma rs_card_types c c' : RsKernel.get_card_mem c = Some c' → well_typed (RsKernel.cd_mem c) →
  well_typed (RsKernel.cd_mem c').
Proof using L.
  unfold RsKernel.get_card_mem. destruct (RsKernel.mem_tag c); [by intros [= <-]|].
  destruct (cudaMalloc (RsKernel.cd_mem c) _) as [[b1 m1]|] eqn:E1; [cbn|done].
  destruct (cudaMalloc m1 _) as [[b2 m2]|] eqn:E2; [cbn|done]. intros [= <-] Hm. eauto using cudaMalloc_types.
Qed.

Lemma rs_gen_types disks bytes dptrs m c m' c' :
  multi_rs_cuda_gen_syndrome C disks bytes dptrs (m, c) = Ok (Some (m', c')) → well_typed m →
  well_typed (RsKernel.cd_mem c) → keeps_both (m, RsKernel.cd_mem c) (m', RsKernel.cd_mem c').
Proof using L.
  unfold multi_rs_cuda_gen_syndrome. intros E Hm Hc. cbn [fst snd] in E.
  destruct (RsKernel.get_card_mem c) as [c1|] eqn:E1; [|done]. apply rs_card_types in E1; [|done].
  apply bind_Ok in E as (s1 & E2 & E).
  assert (rs_types (m, c1) (m', c')) as Hk; [|by destruct (Hk Hm E1) as [H1 H2 H3]; split].
  apply rs_loop_types in E2; [|intros i s s' Hb; inv_ok; by eapply rs_block_types]. etrans; [exact E2|].
  destruct (_ <? _); inv_ok; subst; [by eapply rs_block_types|reflexivity].
Qed.
End rs.

(** ** All three *)
(** The memory of the host and that of the card. *)
Definition both_typed (s : mem * mem) : Prop := well_typed s.1 ∧ well_typed s.2.
#[export] Instance both_typed_dec s : Decision (both_typed s).
Proof. apply _. Defined.


(** ** Witness: a call on five small disks *)
Lemma ones_typed : both_typed (cuda_view (ones_mem, Cuda.card_start)).
Proof. by_decide. Qed.

