(* ===== verification/RsEncoder.v ===== *)
(** * prototypes/multi_rs_cuda/rs_encoder.cu: the prototype of the multi-failure code

    A program of its own, with three check symbols: with GEN it prints the
    logarithm tables, otherwise it times the CPU and the GPU generator on an
    array of nine disks.  Tables, product, kernel and host code are those of
    MultiRs.v and RsKernel.v. *)
From S2P Require Import Prelude GF256 Word Memory Syndrome Service MultiRs CudaApi RsKernel.
Local Open Scope Z_scope.

Definition DISKS : Z := 9.
Definition CHECK_SYMBOLS : Z := 3.
Definition BYTES : Z := 524288.

(** ** The generators *)
Definition gflog : list Z := MultiRs.gflog.
Definition gfilog : list Z := MultiRs.gfilog.
Definition mult_gf : Z → Z → result Z := MultiRs.mult_gf.
Definition multi_rs_soft_gen_syndrome : syndrome_func := MultiRs.rs_soft CHECK_SYMBOLS.

Definition gflog_init : Z → list (Z * Z) := RsKernel.gflog_init.
Definition gfilog_init : Z → list (Z * Z) := RsKernel.gfilog_init.
Definition mult_gf_shader : list Z → list Z → Z → Z → result Z := RsKernel.mult_gf_shader.
Definition rs_thread : list Z → list Z → loc → loc → Z → Z → mem → result mem := RsKernel.rs_thread CHECK_SYMBOLS.
Definition rs_kernel `{CudaRuntime} : nat → loc → loc → Z → Z → mem → result mem := RsKernel.rs_kernel CHECK_SYMBOLS.
Definition get_card_mem `{CudaRuntime} : card → option card := RsKernel.get_card_mem.
Definition release_card_memory `{CudaRuntime} : card → card := RsKernel.release_cuda_memory.
Definition multi_rs_cuda_gen_syndrome `{CudaRuntime} : Z → Z → list loc → mem * card → result (option (mem * card)) :=
  RsKernel.multi_rs_cuda_gen_syndrome CHECK_SYMBOLS.

(** ** [setup_tables] *)
(** What it prints: text, a number in the form %u followed by a comma, an
    assignment to an entry of a table. *)
Inductive item := Str (s : string) | Entry (v : Z) | Assign (table : string) (i v : Z).

Definition set_entry (t : list Z) (i v : Z) : result (list Z) :=
  require (in_range i 1 (Z.of_nat (length t))) OutOfBounds;;
  Ok (<[Z.to_nat i := v]> t).

Definition x_to_w : Z := 256.
Definition prim_poly : Z := 285.

(** The loop that fills the tables: [b], [gflog2] and [gfilog2]. *)
Definition setup_step (log : Z) (s : Z * list Z * list Z) : result (Z * list Z * list Z) :=
  let '(b, gflog2, gfilog2) := s in
  gflog2 ← set_entry gflog2 b (log mod 2 ^ 16);
  gfilog2 ← set_entry gfilog2 log (b mod 2 ^ 16);
  let b := Z.shiftl b 1 mod 2 ^ 32 in
  let b := if Z.land b x_to_w =? 0 then b else Z.lxor b prim_poly in
  Ok (b, gflog2, gfilog2).

(** A loop that prints the entries of a table. *)
Definition print_table (f : Z → Z → item) (t : list Z) (out : list item) : result (list item) :=
  for_lt 0 (x_to_w - 1) 1 (λ log out, v ← entry t log; Ok (out ++ [f log v])) out.

Definition newline : string := String (Ascii.ascii_of_nat 10) EmptyString.

(** [u1] and [u2] are what malloc leaves in the two tables. *)
Definition setup_tables (u1 u2 : nat → Z) : result (list Z * list Z * list item) :=
  let gflog2 := u1 <$> seq 0 (Z.to_nat x_to_w) in
  let gfilog2 := u2 <$> seq 0 (Z.to_nat x_to_w) in
  '(b, gflog2, gfilog2) ← for_lt 0 (x_to_w - 1) 1 setup_step (1, gflog2, gfilog2);
  out ← print_table (λ _, Entry) gflog2 [Str ("gflog[] :" +:+ newline)];
  out ← print_table (Assign "k_gflog") gflog2 (out ++ [Str (newline +:+ "gflog[] :" +:+ newline)]);
  out ← print_table (λ _, Entry) gfilog2 (out ++ [Str (newline +:+ newline +:+ "gfilog[] :" +:+ newline)]);
  out ← print_table (Assign "k_gfilog") gfilog2 (out ++ [Str (newline +:+ "gflog[] :" +:+ newline)]);
  Ok (gflog2, gfilog2, out).

(** The assignments of all threads of a block, in the order of the source. *)
Definition all_writes (init : Z → list (Z * Z)) : list (Z * Z) := concat (init <$> seqZ 0 8).

Lemma setup_tables_value (u1 u2 : nat → Z) : setup_tables u1 u2 = Ok (
  u1 0%nat :: tail gflog ++ [175], gfilog ++ [u2 255%nat],
  [Str ("gflog[] :" +:+ newline)] ++ (Entry <$> u1 0%nat :: tail gflog) ++
  [Str (newline +:+ "gflog[] :" +:+ newline)] ++
  ((λ w, Assign "k_gflog" w.1 w.2) <$> (0, u1 0%nat) :: tail (all_writes gflog_init)) ++
  [Str (newline +:+ newline +:+ "gfilog[] :" +:+ newline)] ++ (Entry <$> gfilog) ++
  [Str (newline +:+ "gflog[] :" +:+ newline)] ++
  ((λ w, Assign "k_gfilog" w.1 w.2) <$> all_writes gfilog_init)).
Proof. vm_compute. reflexivity. Qed.

(** C23: the loop of [setup_tables] never leaves its tables and computes the
    logarithms of all 255 elements and their powers.  What it prints are the
    tables of the source and the assignments of [rs_kernel], in their order:
    the printing loops stop before entry 255 of the logarithms, which is why
    all of these lack it.  Entry 0 is what malloc has left there. *)
Theorem setup_tables_generates (u1 u2 : nat → Z) : ∃ gl gi out, setup_tables u1 u2 = Ok (gl, gi, out) ∧
  (∀ a, is_byte a → a ≠ 0 → gl !! Z.to_nat a = Some (Z.of_nat (glog a))) ∧
  (∀ k, (k < 255)%nat → gi !! k = Some (xpow k 1)) ∧
  (u1 0%nat = 0 →
    out = [Str ("gflog[] :" +:+ newline)] ++ (Entry <$> gflog) ++
      [Str (newline +:+ "gflog[] :" +:+ newline)] ++ ((λ w, Assign "k_gflog" w.1 w.2) <$> all_writes gflog_init) ++
      [Str (newline +:+ newline +:+ "gfilog[] :" +:+ newline)] ++ (Entry <$> gfilog) ++
      [Str (newline +:+ "gflog[] :" +:+ newline)] ++ ((λ w, Assign "k_gfilog" w.1 w.2) <$> all_writes gfilog_init)).
Proof.
  do 3 eexists. split; [apply setup_tables_value|]. split_and!.
  - apply (forall_byte (λ a, a ≠ 0 → (u1 0%nat :: tail gflog ++ [175]) !! Z.to_nat a = Some (Z.of_nat (glog a)))).
    vm_compute. reflexivity.
  - intros k Hk. rewrite lookup_app_l by done. pose proof (gfilog_entry k Hk) as E. unfold entry in E.
    rewrite Nat2Z.id in E. by apply of_option_Ok in E.
  - intros ->. by vm_compute.
Qed.

(** ** [main], built without GEN *)
Section timing.
(** Reading [k] of [gtd_second], in microseconds. *)
Context (clock : nat → Z).

(** [while(timer < 2)] around a call of a generator; the state is [timer], [j],
    the number of readings so far and what the call works on, which is gone if
    the call has ended the program. *)
Fixpoint timed {S} (fuel : nat) (call : S → result (option S)) (timer j : Z) (tick : nat) (s : S) :
    result (option (Z * nat * S)) :=
  match fuel with
  | O => Err OutOfFuel
  | Datatypes.S fuel =>
      if timer <? 2000000 then
        r ← call s;
        match r with
        | None => Ok None
        | Some s =>
            let tmp_timer := clock (tick + 1)%nat - clock tick in
            j ← int_add j 1;
            timed fuel call (timer + tmp_timer) j (tick + 2) s
        end
      else Ok (Some (j, tick, s))
  end.

Context {R : CudaRuntime} (junk : loc → nat → Z).

Definition soft_call (dptrs : list loc) (s : mem * card) : result (option (mem * card)) :=
  m ← multi_rs_soft_gen_syndrome DISKS BYTES dptrs s.1;
  Ok (Some (m, s.2)).

(** The two measurements; each prints the bandwidth, for which it multiplies
    [BYTES*j] as an [int]. *)
Definition measure (fuel : nat) (dptrs : list loc) (s : mem * card) : result (option (mem * card)) :=
  r ← timed fuel (soft_call dptrs) 0 0 0 s;
  match r with
  | None => Ok None
  | Some (j, tick, s) =>
      _ ← int_mul BYTES j;
      r ← timed fuel (multi_rs_cuda_gen_syndrome DISKS BYTES dptrs) 0 0 tick s;
      match r with
      | None => Ok None
      | Some (j, _, s) =>
          _ ← int_mul BYTES j;
          Ok (Some s)
      end
  end.

(** [memset(dptrs[i], i, BYTES)] for all disks *)
Definition fill (dptrs : list loc) (m : mem) : result mem :=
  for_lt 0 DISKS 1 (λ i m, b ← nth_ptr dptrs i; memset m b i BYTES) m.

Definition main (fuel : nat) (s : mem * card) : result (option mem) :=
  let '(dptrs, m) := Service.alloc_disks junk BYTES (Z.to_nat DISKS) s.1 in
  m ← fill dptrs m;
  r ← measure fuel dptrs (m, s.2);
  match r with
  | None => Ok None
  | Some s =>
      m ← for_lt 0 DISKS 1 (λ i m, b ← nth_ptr dptrs i; free m b) s.1;
      Ok (Some m)
  end.
End timing.

(** *** The measuring loop *)
(** How long the [k]-th measured call takes. *)
Definition lasts (clock : nat → Z) (k : nat) : Z := clock (2 * k + 1)%nat - clock (2 * k)%nat.

(** Calls that keep an invariant and last at least [d] microseconds each are
    repeated at most [2000000 / d + 1] times, at least once, and until two
    seconds have been measured. *)
Lemma timed_ok {S} (clock : nat → Z) (call : S → result (option S)) (I J : S → Prop) (d : Z) (fuel tick : nat) (s : S) :
  0 < d → (∀ k, d ≤ lasts clock k) → (∃ k, tick = 2 * k)%nat →
  (∀ s, I s → ∃ s', call s = Ok (Some s') ∧ I s' ∧ J s') → I s → 2000000 / d + 1 < Z.of_nat fuel →
  ∃ j tick' s', timed clock fuel call 0 0 tick s = Ok (Some (j, tick', s')) ∧
    1 ≤ j ≤ 2000000 / d + 1 ∧ (∀ e, (∀ k, lasts clock k ≤ e) → 2000000 ≤ j * e) ∧
    (∃ k, tick' = 2 * k)%nat ∧ I s' ∧ J s'.
Proof.
  intros Hd Hclk Htick Hcall HI Hfuel. set (top := 2000000 / d + 1) in *.
  assert (top ≤ 2000001 ∧ 2000000 ≤ top * d) as [Htop Htopd]
    by (unfold top; split; Z.to_euclidean_division_equations; nia).
  assert (∀ fuel timer j tick s, 0 ≤ j ≤ top → j * d ≤ timer → top - j < Z.of_nat fuel → (∃ k, tick = 2 * k)%nat →
    I s → (0 < j → J s) → (∀ e, (∀ k, lasts clock k ≤ e) → timer ≤ j * e) →
    ∃ j' tick' s', timed clock fuel call timer j tick s = Ok (Some (j', tick', s')) ∧ j ≤ j' ≤ top ∧
      (timer < 2000000 → j < j') ∧ (∀ e, (∀ k, lasts clock k ≤ e) → 2000000 ≤ j' * e) ∧
      (∃ k, tick' = 2 * k)%nat ∧ I s' ∧ (0 < j' → J s')) as Hall.
  { clear fuel tick s Htick HI Hfuel. induction fuel as [|fuel IH]; intros timer j tick s Hj Ht Hf [k Hk] HI HJ He; [lia|].
    cbn [timed]. destruct (Z.ltb_spec timer 2000000) as [Hl|Hl].
    2:{ exists j, tick, s. split_and!; try done; try lia; [|by exists k]. intros e Hle. specialize (He e Hle). lia. }
    destruct (Hcall s HI) as (s' & E & HI' & HJ'). run E. cbn beta iota.
    run int_add_ok by (unfold INT_MIN, INT_MAX; lia). pose proof (Hclk k) as Hk1. subst tick. fold (lasts clock k).
    destruct (IH (timer + lasts clock k) (j + 1) (2 * k + 2)%nat s')
      as (j' & tick' & s2 & E2 & Hj2 & _ & He2 & Hk2 & HI2 & HJ2);
      [nia|nia|lia|by exists (Datatypes.S k); lia|done|done|intros e Hle; specialize (He e Hle); specialize (Hle k); nia|].
    exists j', tick', s2. split; [exact E2|]. split_and!; done || lia. }
  destruct (Hall fuel 0 0 tick s) as (j' & tick' & s' & E & Hj & Hlt & He & Hk & HI' & HJ');
    [lia|lia|lia|done|done|lia|intros; lia|].
  exists j', tick', s'. split; [exact E|]. split_and!; [lia|lia|done|done|done|apply HJ'; lia].
Qed.

(** *** The two measurements *)
(** Check symbol [r] of a column of the test array. *)
Definition check_symbol (r : nat) : Z :=
  match rs_row (Z.of_nat r + 1) (Z.of_nat r + 1) 0 [0; 1; 2; 3; 4; 5] with Ok v => v | Err _ => 0 end.

Lemma check_symbol_ok r : (r < 3)%nat →
  rs_row (Z.of_nat r + 1) (Z.of_nat r + 1) 0 [0; 1; 2; 3; 4; 5] = Ok (check_symbol r).
Proof. intros Hr. destruct r as [|[|[|]]]; [vm_compute; reflexivity..|lia]. Qed.

#[local] Set Default Proof Using "All".
Section measured.
Context {R : CudaRuntime} {L : CudaLaws R}.
Context (clock : nat → Z) (fuel : nat) (dptrs : list loc) (m0 : mem) (c0 : card) (d : Z).
Context (Hlen : length dptrs = 9%nat) (Hd : 0 < d) (Hclk : ∀ k, d ≤ lasts clock k) (Hfuel : 2000000 / d + 1 < Z.of_nat fuel).

(** The test array with its data. *)
Record filled (m : mem) : Prop := {
  fl_array : array_ok m dptrs 9 BYTES;
  fl_frame : ∀ b, b ∉ dptrs → m !! b = m0 !! b;
  fl_data : ∀ i b k, (i < 6)%nat → dptrs !! i = Some b → Z.of_nat k < BYTES → peek m b k = Z.of_nat i
}.

Lemma test_column m k : filled m → Z.of_nat k < BYTES → column m dptrs 6 k = [0; 1; 2; 3; 4; 5].
Proof.
  intros [Ha _ Hdata] Hk. apply list_eq_default with (d := 0); [rewrite length_column by lia; done|].
  intros i Hi. rewrite length_column in Hi by lia. destruct (array_disk Ha i) as (b & Hb & _); [lia|].
  rewrite (column_lookup m dptrs 6 k i b) by done. simp_default. rewrite (Hdata i b k) by done.
  by destruct i as [|[|[|[|[|[|]]]]]]; [..|lia].
Qed.

(** A call that keeps all but the check disks keeps the array. *)
Lemma filled_keeps m m' : filled m → (∀ b l, buf_ok m l b → buf_ok m' l b) →
  (∀ b, (∀ z, (6 ≤ z < 9)%nat → dptrs !! z ≠ Some b) → m' !! b = m !! b) → filled m'.
Proof.
  intros [Ha Hf Hdata] Hok Hfr. split.
  - eapply array_ok_frame; [|exact Ha]. auto.
  - intros b Hb. rewrite Hfr; [by apply Hf|]. intros z _ Hz. apply Hb. by eapply list_elem_of_lookup_2.
  - intros i b k Hi Hb Hk. rewrite <-(Hdata i b k) by done. unfold peek. rewrite Hfr; [done|].
    intros z Hz Hzb. pose proof (array_inj Ha i z b ltac:(lia) ltac:(lia) Hb Hzb). lia.
Qed.

(** Check disk [r] against the CPU's symbol. *)
Definition checks (P : Z → nat → nat → Prop) (m : mem) : Prop :=
  ∀ r b k, (r < 3)%nat → dptrs !! (6 + r)%nat = Some b → Z.of_nat k < BYTES → P (peek m b k) r k.

Lemma soft_call_ok s : filled s.1 → ∃ s', soft_call dptrs s = Ok (Some s') ∧ (filled s'.1 ∧ s'.2 = s.2) ∧
  checks (λ v r _, v = check_symbol r) s'.1.
Proof.
  intros Hs. destruct (rs_soft_ok s.1 dptrs 3 6 BYTES) as (m' & E & F & Hok & _ & Hrow);
    [lia|lia|unfold INT_MAX; lia|done|unfold BYTES, INT_MAX; lia|apply Hs| |].
  { intros k y Hk Hy. rewrite test_column by done. assert (y = 1 ∨ y = 2 ∨ y = 3) as Hc by lia.
    by destruct_or! Hc; subst; vm_compute. }
  assert (filled m') as Hm'.
  { apply (filled_keeps s.1); [done|done|]. intros b Hb. apply F. intros (z & Hz & Hzb). by apply (Hb z). }
  exists (m', s.2). split; [|split; [done|]].
  - unfold soft_call, multi_rs_soft_gen_syndrome. change (Z.of_nat (6 + 3)) with DISKS in E.
    change (Z.of_nat 3) with CHECK_SYMBOLS in E. by run E.
  - intros r b k Hr Hb Hk. pose proof (Hrow (6 + r)%nat k ltac:(lia) Hk b Hb) as Hv.
    rewrite test_column in Hv by done. replace (Z.of_nat (6 + r - 6 + 1)) with (Z.of_nat r + 1) in Hv by lia.
    rewrite check_symbol_ok in Hv by done. by injection Hv.
Qed.

(** The card after [c0] was allocated. *)
Definition card_after (c : card) : Prop :=
  card_inv c ∧ ∃ c1, get_card_mem c = Some c1 ∧ ∀ k, Z.of_nat k < BYTES → stale 6 c1 k = stale 6 c0 k.

Lemma gpu_call_ok s : filled s.1 ∧ card_after s.2 →
  ∃ s', multi_rs_cuda_gen_syndrome DISKS BYTES dptrs s = Ok (Some s') ∧ (filled s'.1 ∧ card_after s'.2) ∧
  checks (λ v r k, v = check_symbol r ↔ stale 6 c0 k = 0) s'.1.
Proof.
  destruct s as [m c]. cbn [fst snd]. intros (Hm & Hc & c1 & E1 & Hst). pose proof rs_DMA_eq as HD.
  destruct (rs_check_symbols m dptrs 3 6 BYTES c c1) as (m' & c' & E & Hc' & Ht & Hst' & F & Hok & _ & Hrow);
    [lia|lia|apply Hm|unfold BYTES, INT_MAX; lia|by rewrite HD|done|done|].
  change (Z.of_nat (6 + 3)) with DISKS in E. change (Z.of_nat 3) with CHECK_SYMBOLS in E.
  exists (m', c'). split; [exact E|]. cbn [fst snd]. split; [split|].
  - by apply (filled_keeps m).
  - split; [done|]. exists c'. split; [by apply get_card_mem_again|]. intros k Hk.
    rewrite Hst' by (rewrite HD; unfold BYTES in Hk; lia). by apply Hst.
  - intros r b k Hr Hb Hk. rewrite <-Hst by done.
    rewrite (Hrow r b k (check_symbol r) Hr Hb Hk) by (rewrite test_column by done; by apply check_symbol_ok).
    rewrite Z.mod_small, Nat2Z.id by (rewrite HD; unfold BYTES in Hk; lia). done.
Qed.
(** The measurement of the CPU. *)
Lemma soft_timed m c : filled m → ∃ j tick m',
  timed clock fuel (soft_call dptrs) 0 0 0 (m, c) = Ok (Some (j, tick, (m', c))) ∧ 1 ≤ j ≤ 2000000 / d + 1 ∧
  (∀ e, (∀ k, lasts clock k ≤ e) → 2000000 ≤ j * e) ∧ (∃ k, tick = 2 * k)%nat ∧ filled m'.
Proof.
  intros Hm. destruct (timed_ok clock (soft_call dptrs) (λ s, filled s.1 ∧ s.2 = c) (λ _, True) d fuel 0 (m, c))
    as (j & t & [m1 c1] & E & Hj & He & Ht & [Hm1 Hc1] & _); [done|done|by exists 0%nat| |done|done|].
  { intros s [Hs <-]. destruct (soft_call_ok s Hs) as (s' & E & [Hs' Hc'] & _). eauto. }
  cbn [fst snd] in Hm1, Hc1. subst c1. eauto 10.
Qed.

Lemma measure_ok m c : 2000000 / d + 1 ≤ 4095 → filled m → card_inv c → get_card_mem c = Some c0 →
  ∃ m' c', measure clock fuel dptrs (m, c) = Ok (Some (m', c')) ∧ filled m' ∧
    checks (λ v r k, v = check_symbol r ↔ stale 6 c0 k = 0) m'.
Proof.
  intros Hmax Hm Hc E0. unfold measure. destruct (soft_timed m c Hm) as (j & t & m1 & E & Hj & _ & Ht & Hm1).
  run E. cbn beta iota. run int_mul_ok by (unfold BYTES, INT_MIN, INT_MAX; lia).
  destruct (timed_ok clock (multi_rs_cuda_gen_syndrome DISKS BYTES dptrs) (λ s, filled s.1 ∧ card_after s.2)
    (λ s, checks (λ v r k, v = check_symbol r ↔ stale 6 c0 k = 0) s.1) d fuel t (m1, c))
    as (j2 & t2 & [m2 c2] & E2 & Hj2 & _ & _ & [Hm2 _] & Hch); [done|done|done|apply gpu_call_ok| |done|].
  { split; [done|]. split; [done|]. by exists c0. }
  run E2. cbn beta iota. run int_mul_ok by (unfold BYTES, INT_MIN, INT_MAX; lia). by exists m2, c2.
Qed.

Lemma measure_overflow m c e : (∀ k, lasts clock k ≤ e) → e ≤ 488 → filled m →
  measure clock fuel dptrs (m, c) = Err IntOverflow.
Proof.
  intros He Hle Hm. unfold measure. destruct (soft_timed m c Hm) as (j & t & m1 & E & Hj & He' & _).
  run E. cbn beta iota. specialize (He' e He). unfold int_mul, int_ok.
  assert (4096 ≤ j) by nia. rewrite (proj2 (Z.leb_gt (BYTES * j) INT_MAX)) by (unfold BYTES, INT_MAX; lia).
  by rewrite andb_false_r.
Qed.
End measured.

(** *** [main] *)
Lemma test_fill_ok dptrs m : length dptrs = 9%nat → array_ok m dptrs 9 BYTES → ∃ m', fill dptrs m = Ok m' ∧ filled dptrs m m'.
Proof.
  intros Hlen Ha. unfold fill.
  destruct (for_lt_inv (λ i m', array_ok m' dptrs 9 BYTES ∧ (∀ b, b ∉ dptrs → m' !! b = m !! b) ∧
      ∀ z b k, (Z.of_nat z < i) → dptrs !! z = Some b → Z.of_nat k < BYTES → peek m' b k = Z.of_nat z)
    (λ i m, b ← nth_ptr dptrs i; memset m b i BYTES) 0 DISKS 1) with (s := m) as (m' & E & Ha' & Hf & Hdata);
    [unfold DISKS; lia|done|unfold DISKS, INT_MAX; lia| | |].
  - intros i m1 Hi _ (Ha1 & Hf & Hdata). unfold DISKS in Hi.
    destruct (array_disk Ha1 (Z.to_nat i)) as (b & Hb & Hbo); [lia|].
    run (nth_ptr_nat dptrs i (Z.to_nat i) b) by (done || lia).
    destruct (memset_spec m1 b i BYTES BYTES) as (m2 & E & [F _ O P]); [done|unfold BYTES; lia|].
    exists m2. split; [exact E|]. split_and!.
    + eapply array_ok_frame; [|exact Ha1]. auto.
    + intros b' Hb'. rewrite F; [by apply Hf|]. intros ->. apply Hb'. by eapply list_elem_of_lookup_2.
    + intros z b' k Hz Hzb Hk. destruct (decide (b' = b)) as [->|Hne].
      * rewrite P, length_replicate, decide_True by lia. rewrite Nat.sub_0_r, lookup_replicate_2 by lia. simp_default.
        assert (z = Z.to_nat i) as -> by (apply (array_inj Ha1 z (Z.to_nat i) b); [lia|lia|done|done]).
        rewrite Z2Nat.id by lia. apply Z.mod_small. lia.
      * unfold peek. rewrite F by done. apply Hdata; [|done|done]. assert (z ≠ Z.to_nat i) by congruence. lia.
  - split; [done|]. split; [done|]. intros. lia.
  - exists m'. split; [exact E|]. rewrite (loop_end_unique _ _ _ DISKS DISKS) in Hdata by (unfold DISKS; lia).
    split; [done|done|]. intros i b k Hi. apply Hdata. unfold DISKS. lia.
Qed.

(** The array is freed whatever was measured. *)
Lemma array_freed junk m dptrs m1 m3 : Service.alloc_disks junk BYTES (Z.to_nat DISKS) m = (dptrs, m1) →
  filled dptrs m1 m3 →
  for_lt 0 DISKS 1 (λ i m, b ← nth_ptr dptrs i; free m b) m3 = Ok m.
Proof.
  intros E H3. assert (0 ≤ BYTES) as Hb0 by done.
  destruct (alloc_disks_spec junk BYTES _ m dptrs m1 Hb0 E) as (Hl & _ & Hnone & _ & Hf).
  destruct (dealloc_alloc junk BYTES (Z.to_nat DISKS) m dptrs m1 m3 Hb0) as (m4 & E4 & Hin & Hout);
    [unfold DISKS, INT_MAX; lia|done| |].
  { intros b [x Hx]. destruct (decide (b ∈ dptrs)) as [Hb|Hb].
    - apply list_elem_of_lookup in Hb as [i Hi]. pose proof (lookup_lt_Some _ _ _ Hi) as Hlt.
      rewrite Hl in Hlt. change (Z.to_nat DISKS) with 9%nat in Hlt.
      pose proof (array_ptr (fl_array _ _ _ H3) i b Hlt Hi) as Hbo. apply buf_ok_Some in Hbo as (c & -> & _). done.
    - rewrite (fl_frame _ _ _ H3) by done. by eexists. }
  change (Z.of_nat (Z.to_nat DISKS)) with DISKS in E4. etrans; [exact E4|]. f_equal. apply map_eq. intros b.
  destruct (decide (b ∈ dptrs)) as [Hb|Hb].
  - rewrite Hin by done. rewrite Forall_forall in Hnone. symmetry. by apply Hnone.
  - by rewrite Hout, (fl_frame _ _ _ H3), Hf by done.
Qed.

(** The program up to the measurements. *)
Lemma main_filled junk m dptrs m1 : Service.alloc_disks junk BYTES (Z.to_nat DISKS) m = (dptrs, m1) →
  length dptrs = 9%nat ∧ ∃ m2, fill dptrs m1 = Ok m2 ∧ filled dptrs m1 m2.
Proof.
  intros E. destruct (alloc_disks_spec junk BYTES _ m dptrs m1 ltac:(done) E) as (Hl & _).
  split; [done|]. apply test_fill_ok; [done|]. by eapply (alloc_array_ok junk BYTES _ m).
Qed.

Section theorems.
Context {R : CudaRuntime} {L : CudaLaws R}.

(** When every measured call lasts at least 489 microseconds and the card
    has memory, the prototype runs to its end, gives back its memory, and has
    left behind, before it frees them, check disks with the symbols of the CPU
    exactly where the card has 0 in the block behind the six data blocks. *)
Theorem rs_encoder_main (clock : nat → Z) junk fuel m c c0 : (∀ k, 489 ≤ lasts clock k) → 4090 < Z.of_nat fuel →
  card_inv c → get_card_mem c = Some c0 →
  main clock junk fuel (m, c) = Ok (Some m) ∧
  ∃ dptrs m1 m2 m3 c3, Service.alloc_disks junk BYTES (Z.to_nat DISKS) m = (dptrs, m1) ∧ fill dptrs m1 = Ok m2 ∧
    measure clock fuel dptrs (m2, c) = Ok (Some (m3, c3)) ∧
    ∀ r b k, (r < 3)%nat → dptrs !! (6 + r)%nat = Some b → Z.of_nat k < BYTES →
      peek m3 b k = check_symbol r ↔ stale 6 c0 k = 0.
Proof.
  intros Hclk Hfuel Hc E0. unfold main. cbn [fst snd].
  destruct (Service.alloc_disks junk BYTES (Z.to_nat DISKS) m) as [dptrs m1] eqn:Ea.
  destruct (main_filled _ _ _ _ Ea) as (Hlen & m2 & Ef & H2). run Ef.
  destruct (measure_ok clock fuel dptrs m1 c0 489 Hlen ltac:(done) Hclk Hfuel m2 c ltac:(done) H2 Hc E0)
    as (m3 & c3 & Em & H3 & Hch). run Em. cbn beta iota. cbn [fst].
  split; [by run (array_freed _ _ _ _ _ Ea H3)|]. exists dptrs, m1, m2, m3, c3. done.
Qed.

(** When every call lasts at most 488 microseconds, there are so many of
    them in two seconds that the product [BYTES*j] overflows its [int]. *)
Theorem rs_encoder_overflow (clock : nat → Z) junk fuel m c : (∀ k, 1 ≤ lasts clock k ≤ 488) → 2000001 < Z.of_nat fuel →
  main clock junk fuel (m, c) = Err IntOverflow.
Proof.
  intros Hclk Hfuel. unfold main. cbn [fst snd].
  destruct (Service.alloc_disks junk BYTES (Z.to_nat DISKS) m) as [dptrs m1] eqn:Ea.
  destruct (main_filled _ _ _ _ Ea) as (Hlen & m2 & Ef & H2). run Ef.
  rewrite (measure_overflow clock fuel dptrs m1 card_start 1 Hlen ltac:(done) ltac:(intros; by apply Hclk) Hfuel m2 c 488);
    [done|intros; by apply Hclk|done|done].
Qed.
End theorems.

(** ** Witnesses *)
#[local] Existing Instance plain_runtime.
#[local] Existing Instance plain_laws.

Lemma setup_tables_generates_witness : ∃ gl gi out, setup_tables (λ _, 0) (λ _, 0) = Ok (gl, gi, out) ∧
  (∀ a, is_byte a → a ≠ 0 → gl !! Z.to_nat a = Some (Z.of_nat (glog a))) ∧
  (∀ k, (k < 255)%nat → gi !! k = Some (xpow k 1)) ∧
  (0 = 0 →
    out = [Str ("gflog[] :" +:+ newline)] ++ (Entry <$> gflog) ++
      [Str (newline +:+ "gflog[] :" +:+ newline)] ++ ((λ w, Assign "k_gflog" w.1 w.2) <$> all_writes gflog_init) ++
      [Str (newline +:+ newline +:+ "gfilog[] :" +:+ newline)] ++ (Entry <$> gfilog) ++
      [Str (newline +:+ "gflog[] :" +:+ newline)] ++ ((λ w, Assign "k_gfilog" w.1 w.2) <$> all_writes gfilog_init)).
Proof. apply (setup_tables_generates (λ _, 0) (λ _, 0)). Defined.

(** A clock of one millisecond per reading. *)
Definition slow_clock (k : nat) : Z := 1000 * Z.of_nat k.

Lemma rs_encoder_main_witness : ∃ c0, get_card_mem card_start = Some c0 ∧
  main slow_clock (λ _ _, 0) (Z.to_nat 4091) (∅, card_start) = Ok (Some ∅).
Proof.
  destruct plain_card as [c0 E]. exists c0. split; [exact E|].
  apply (rs_encoder_main slow_clock (λ _ _, 0) (Z.to_nat 4091) ∅ card_start c0);
    [unfold lasts, slow_clock; lia|lia|apply rs_start_inv|exact E].
Defined.

Lemma rs_encoder_overflow_witness :
  main Z.of_nat (λ _ _, 0) (Z.to_nat 2000002) (∅, card_start) = Err IntOverflow.
Proof. apply (rs_encoder_overflow Z.of_nat (λ _ _, 0) (Z.to_nat 2000002) ∅ card_start); [unfold lasts; lia|lia]. Defined.
