(* ===== verification/PingProc.v ===== *)
(** * prototypes/ping_pong_proc: the handshake over a proc file

    ping.c is a kernel module whose thread sends 30 times 1000 pings; pong.c
    answers them.  A ping publishes a buffer, lowers [wq_flag] and sleeps until
    a write to the proc file raises it; a read of the file sleeps until it is
    lowered. *)
From S2P Require Import Prelude.
Local Open Scope Z_scope.

Definition RUNS : nat := Z.to_nat 1000.
Definition rounds : nat := 30.

(** Where the thread is: in [ping], at one of its statements, with [i] calls of
    [procfs_test] and [j] rounds of [thread_code] behind it, or gone. *)
Inductive ping_at := PDown | PSet | PWait | PUp.
Inductive thread_pc := TPing (at_ : ping_at) (i j : nat) | TExit.

(** Where pong is: in a call of [proc_read], [k] more of which belong to its
    fread, or before the fwrite. *)
Inductive read_at := RDown | RWait | RCopy.
Inductive pong_pc := URead (at_ : read_at) (k : nat) | UWrite.

(** What is seen from outside. *)
Inductive event := Publish | ReadAddress | Pong | PingReturns.

Record state := {
  wq_flag : Z;
  ping_mutex : bool;            (* true: free *)
  read_mutex : bool;
  global_buffer : string;
  on_exit : bool;
  thread : thread_pc;
  pong : pong_pc;
  trace : list event
}.

(** [ping("ping")], one statement; [None] while it sleeps. *)
Definition ping (at_ : ping_at) (s : state) : option (option ping_at * state) :=
  let '{| wq_flag := f; ping_mutex := pm; read_mutex := rm; global_buffer := g; on_exit := e;
          thread := t; pong := u; trace := tr |} := s in
  match at_ with
  | PDown => if pm then Some (Some PSet, {| wq_flag := f; ping_mutex := false; read_mutex := rm; global_buffer := g;
      on_exit := e; thread := t; pong := u; trace := tr |}) else None
  | PSet => Some (Some PWait, {| wq_flag := 0; ping_mutex := pm; read_mutex := rm; global_buffer := "ping";
      on_exit := e; thread := t; pong := u; trace := tr ++ [Publish] |})
  | PWait => if f =? 2 then Some (Some PUp, s) else None
  | PUp => Some (None, {| wq_flag := f; ping_mutex := true; read_mutex := rm; global_buffer := g;
      on_exit := e; thread := t; pong := u; trace := tr ++ [PingReturns] |})
  end.

(** [proc_read], one statement. *)
Definition proc_read (at_ : read_at) (s : state) : option (option read_at * state) :=
  let '{| wq_flag := f; ping_mutex := pm; read_mutex := rm; global_buffer := g; on_exit := e;
          thread := t; pong := u; trace := tr |} := s in
  match at_ with
  | RDown => if rm then Some (Some RWait, {| wq_flag := f; ping_mutex := pm; read_mutex := false; global_buffer := g;
      on_exit := e; thread := t; pong := u; trace := tr |}) else None
  | RWait => if f =? 0 then Some (Some RCopy, s) else None
  | RCopy => Some (None, {| wq_flag := f; ping_mutex := pm; read_mutex := true; global_buffer := g;
      on_exit := e; thread := t; pong := u; trace := tr ++ [ReadAddress] |})
  end.

Definition write_proc (s : state) : state :=
  {| wq_flag := 2; ping_mutex := ping_mutex s; read_mutex := read_mutex s; global_buffer := global_buffer s;
     on_exit := on_exit s; thread := thread s; pong := pong s; trace := trace s ++ [Pong] |}.

Definition set_thread (t : thread_pc) (s : state) : state :=
  {| wq_flag := wq_flag s; ping_mutex := ping_mutex s; read_mutex := read_mutex s; global_buffer := global_buffer s;
     on_exit := on_exit s; thread := t; pong := pong s; trace := trace s |}.
Definition set_pong (u : pong_pc) (s : state) : state :=
  {| wq_flag := wq_flag s; ping_mutex := ping_mutex s; read_mutex := read_mutex s; global_buffer := global_buffer s;
     on_exit := on_exit s; thread := thread s; pong := u; trace := trace s |}.
Definition complete_and_exit (s : state) : state :=
  {| wq_flag := wq_flag s; ping_mutex := ping_mutex s; read_mutex := read_mutex s; global_buffer := global_buffer s;
     on_exit := true; thread := TExit; pong := pong s; trace := trace s |}.

(** The loops of [procfs_test] and [thread_code] after a ping has returned. *)
Definition next_ping (i j : nat) (s : state) : state :=
  if decide (S i < RUNS)%nat then set_thread (TPing PDown (S i) j) s
  else if decide (S j < rounds)%nat then set_thread (TPing PDown 0 (S j)) s
  else complete_and_exit s.

Definition thread_code (s : state) : option state :=
  match thread s with
  | TPing at_ i j =>
      '(next, s) ← ping at_ s;
      Some (match next with Some at_ => set_thread (TPing at_ i j) s | None => next_ping i j s end)
  | TExit => None
  end.

(** The loop of pong.c; [reads] is the number of calls of [proc_read] that one
    fread makes. *)
Definition pong_main (reads : nat) (s : state) : option state :=
  match pong s with
  | URead at_ k =>
      '(next, s) ← proc_read at_ s;
      Some (set_pong (match next with
        | Some at_ => URead at_ k
        | None => match k with S k => URead RDown k | O => UWrite end
        end) s)
  | UWrite => Some (set_pong (URead RDown (pred reads)) (write_proc s))
  end.

(** Thread and pong run in any order. *)
Inductive step (reads : nat) : state → state → Prop :=
  | step_thread s s' : thread_code s = Some s' → step reads s s'
  | step_pong s s' : pong_main reads s = Some s' → step reads s s'.

(** The module just loaded, pong at its first read. *)
Definition start (reads : nat) : state :=
  {| wq_flag := 2; ping_mutex := true; read_mutex := true; global_buffer := ""; on_exit := false;
     thread := TPing PDown 0 0; pong := URead RDown (pred reads); trace := [] |}.

(** ** Loading and unloading *)
(** The proc entries that exist. *)
Record entries := { proc_directory : bool; proc_file : bool; thread_id : Z }.

(** [mod_init]; the arguments say whether the kernel's services succeed. *)
Definition mod_init (mkdir_ok entry_ok : bool) (tid : Z) : bool * entries :=
  if negb mkdir_ok then (false, {| proc_directory := false; proc_file := false; thread_id := 0 |}) else
  if negb entry_ok then (false, {| proc_directory := true; proc_file := false; thread_id := 0 |}) else
  if tid =? 0 then (false, {| proc_directory := true; proc_file := true; thread_id := 0 |}) else
  (true, {| proc_directory := true; proc_file := true; thread_id := tid |}).

(** [mod_exit]: sleeps until the thread has completed, then removes the
    entries. *)
Definition mod_exit (s : state) (e : entries) : option entries :=
  if on_exit s then Some {| proc_directory := false; proc_file := false; thread_id := thread_id e |} else None.

(** ** The order of what is seen *)
#[local] Set Default Proof Using "All".
Section proofs.
Context (reads : nat) (Hreads : (1 ≤ reads)%nat).

(** A ping and its answer, and [n] of them. *)
Definition answered : list event := Publish :: replicate reads ReadAddress ++ [Pong].
Definition ideal (n : nat) : list event := concat (replicate n (answered ++ [PingReturns])).
Definition total : nat := (rounds * RUNS)%nat.

Lemma proc_ideal_S n : ideal (S n) = ideal n ++ answered ++ [PingReturns].
Proof. unfold ideal. rewrite replicate_S_end, concat_app. cbn [concat]. by rewrite app_nil_r. Qed.

Lemma proc_ideal_prefix n k : (n ≤ k)%nat → ideal n `prefix_of` ideal k.
Proof.
  intros Hn. exists (ideal (k - n)). unfold ideal. rewrite <-concat_app, <-replicate_add. do 2 f_equal. lia.
Qed.

(** How many pings are behind the thread. *)
Definition pinged (t : thread_pc) : nat :=
  match t with TPing _ i j => (j * RUNS + i)%nat | TExit => total end.

(** pong at the start of a fread that no ping has reached yet. *)
Definition fresh (s : state) : Prop :=
  wq_flag s = 2 ∧ (pong s = URead RDown (pred reads) ∧ read_mutex s = true ∨
                   pong s = URead RWait (pred reads) ∧ read_mutex s = false).

(** pong after [q] reads of the published address. *)
Definition reading (q : nat) (s : state) : Prop :=
  wq_flag s = 0 ∧ match pong s with
  | URead at_ k => (q + S k = reads)%nat ∧ read_mutex s = match at_ with RDown => true | _ => false end
  | UWrite => q = reads ∧ read_mutex s = true
  end.

Definition inv (s : state) : Prop :=
  match thread s with
  | TPing at_ i j =>
      (i < RUNS)%nat ∧ (j < rounds)%nat ∧ on_exit s = false ∧
      ping_mutex s = (match at_ with PDown => true | _ => false end) ∧
      let n := (j * RUNS + i)%nat in
      match at_ with
      | PDown | PSet => fresh s ∧ trace s = ideal n
      | PWait => (∃ q, reading q s ∧ trace s = ideal n ++ Publish :: replicate q ReadAddress) ∨
          fresh s ∧ trace s = ideal n ++ answered
      | PUp => fresh s ∧ trace s = ideal n ++ answered
      end
  | TExit => on_exit s = true ∧ ping_mutex s = true ∧ fresh s ∧ trace s = ideal total
  end.

(** What the thread and pong have left to do. *)
Definition thread_left (t : thread_pc) : nat :=
  match t with
  | TPing PDown _ _ => 3 * reads + 5
  | TPing PSet _ _ => 3 * reads + 4
  | TPing PWait _ _ => 2
  | TPing PUp _ _ => 1
  | TExit => 0
  end.
Definition pong_left (f : Z) (u : pong_pc) : nat :=
  match u with
  | URead at_ k => (if f =? 0 then 3 * k + 4 else 0) + match at_ with RDown => 1 | _ => 0 end -
      (if f =? 0 then match at_ with RCopy => 1 | _ => 0 end else 0)
  | UWrite => 2
  end.
Definition left (s : state) : nat :=
  (total - pinged (thread s)) * (3 * reads + 5) + thread_left (thread s) + pong_left (wq_flag s) (pong s).

Lemma proc_RUNS_pos : (0 < RUNS)%nat.
Proof. unfold RUNS. lia. Qed.
#[local] Opaque RUNS rounds.

Lemma proc_thread_inv s s' : inv s → thread_code s = Some s' → inv s' ∧ (left s' < left s)%nat.
Proof.
  destruct s as [f pm rm g e t u tr]. pose proof proc_RUNS_pos. unfold thread_code, inv, left. cbn [thread].
  destruct t as [[] i j|]; cbn [ping thread pinged thread_left]; intros Hinv E; [..|done].
  - destruct Hinv as (Hi & Hj & He & Hpm & Hf & Ht). cbn in Hpm. subst pm. injection E as <-. cbn.
    split; [done|]. lia.
  - destruct Hinv as (Hi & Hj & He & Hpm & (Hf & Hu) & Ht). injection E as <-. cbn in *. subst f tr.
    split; [|destruct Hu as [[-> _]|[-> _]]; cbn; lia].
    split_and!; [done..|]. left. exists 0%nat. split; [|done]. split; [done|]. cbn.
    destruct Hu as [[-> ->]|[-> ->]]; (split; [lia|done]).
  - destruct Hinv as (Hi & Hj & He & Hpm & [(q & [Hf _] & _)|((Hf & Hu) & Ht)]); cbn in Hf; subst f; [done|].
    injection E as <-. cbn in *. split; [done|lia].
  - destruct Hinv as (Hi & Hj & He & Hpm & (Hf & Hu) & Ht). injection E as <-. cbn in *. subst f tr. unfold next_ping.
    rewrite <-app_assoc. rewrite (app_assoc (ideal _)), <-app_assoc, <-proc_ideal_S.
    destruct (decide (S i < RUNS)%nat); [|destruct (decide (S j < rounds)%nat)]; cbn.
    + assert (j * RUNS + S i ≤ total)%nat by (unfold total; nia). split; [|nia].
      rewrite Nat.add_succ_r. by split_and!.
    + replace (RUNS + j * RUNS + 0)%nat with (S (j * RUNS + i)) by nia.
      assert (S (j * RUNS + i) ≤ total)%nat by (unfold total; nia). split; [|nia]. by split_and!.
    + assert (ideal (S (j * RUNS + i)) = ideal total) as Ht by (f_equal; unfold total; assert (S j = rounds) by lia; nia).
      split; [by split_and!|]. unfold total. assert (S j = rounds) by lia. nia.
Qed.

Lemma proc_pong_inv s s' : inv s → pong_main reads s = Some s' → inv s' ∧ (left s' < left s)%nat.
Proof.
  intros Hinv E.
  assert (thread s' = thread s ∧ on_exit s' = on_exit s ∧ ping_mutex s' = ping_mutex s) as (Et & Ee & Em).
  { destruct s as [f pm rm g e t [[] k|] tr]; cbn in E; repeat case_match; try discriminate E;
      injection E as <-; simplify_eq; done. }
  assert (fresh s → fresh s' ∧ trace s' = trace s ∧ (pong_left (wq_flag s') (pong s') < pong_left (wq_flag s) (pong s))%nat) as Hfresh.
  { destruct s as [f pm rm g e t u tr]. intros [Hf Hu]. cbn in Hf, Hu. subst f.
    destruct Hu as [[-> ->]|[-> ->]]; cbn in E; [injection E as <-|discriminate E]. cbn.
    split; [split; [done|by right]|]. split; [done|lia]. }
  assert (∀ q pre, reading q s → trace s = pre ++ Publish :: replicate q ReadAddress →
    ((∃ q', reading q' s' ∧ trace s' = pre ++ Publish :: replicate q' ReadAddress) ∨
      fresh s' ∧ trace s' = pre ++ answered) ∧
    (pong_left (wq_flag s') (pong s') < pong_left (wq_flag s) (pong s))%nat) as Hreading.
  { clear Hfresh Hinv. destruct s as [f pm rm g e t u tr]. intros q pre [Hf Hu] Ht. cbn in Hf, Hu, Ht. subst f tr.
    destruct u as [[] k|]; cbn in E.
    - destruct Hu as [Hq ->]. injection E as <-. cbn. split; [|lia]. left. exists q. done.
    - destruct Hu as [Hq ->]. injection E as <-. cbn. split; [|lia]. left. exists q. done.
    - destruct Hu as [Hq _]. injection E as <-. split; [|destruct k; cbn; lia]. left. exists (S q).
      rewrite replicate_S_end, app_comm_cons, app_assoc.
      destruct k as [|k]; cbn; (split; [|done]; split; [done|]; cbn; split; [lia|done]).
    - destruct Hu as [-> Hu]. injection E as <-. cbn. split; [|lia]. right. rewrite <-app_assoc. cbn.
      split; [split; [done|by left]|done]. }
  unfold inv, left in *. rewrite Et, Ee, Em. destruct (thread s) as [[] i j|].
  1-4: destruct Hinv as (Hi & Hj & He & Hpm & Hrest).
  - destruct Hrest as [Hf Ht]. destruct (Hfresh Hf) as (Hf' & -> & Hl). split; [by split_and!|lia].
  - destruct Hrest as [Hf Ht]. destruct (Hfresh Hf) as (Hf' & -> & Hl). split; [by split_and!|lia].
  - destruct Hrest as [(q & Hr & Ht)|[Hf Ht]].
    + destruct (Hreading q _ Hr Ht) as [H Hl]. split; [by split_and!|lia].
    + destruct (Hfresh Hf) as (Hf' & -> & Hl). split; [|lia]. split_and!; [done..|]. by right.
  - destruct Hrest as [Hf Ht]. destruct (Hfresh Hf) as (Hf' & -> & Hl). split; [by split_and!|lia].
  - destruct Hinv as (He & Hpm & Hf & Ht). destruct (Hfresh Hf) as (Hf' & -> & Hl). split; [by split_and!|lia].
Qed.

Lemma proc_step_inv s s' : inv s → step reads s s' → inv s' ∧ (left s' < left s)%nat.
Proof. intros Hinv Hs. destruct Hs; [by apply proc_thread_inv|by apply proc_pong_inv]. Qed.

Lemma proc_start_inv : inv (start reads).
Proof. cbn. pose proof proc_RUNS_pos. split_and!; [done| |done|done| |done]; [|by split; [done|left]]. Transparent rounds. unfold rounds. lia. Qed.

(** A run is as long as its measure falls. *)
Lemma proc_run_inv k s s' : inv s → nsteps (step reads) k s s' → inv s' ∧ (k + left s' ≤ left s)%nat.
Proof. intros. eapply nsteps_lowers; [apply proc_step_inv|done|done]. Qed.

(** Only the thread at its end and pong waiting for a ping stand still. *)
Lemma proc_stuck_done s : inv s → (∀ s', ¬ step reads s s') → thread s = TExit ∧ pong s = URead RWait (pred reads).
Proof.
  intros Hinv Hstuck.
  assert (thread_code s = None) as Et by (destruct (thread_code s) eqn:E; [exfalso; eapply Hstuck; by constructor|done]).
  assert (pong_main reads s = None) as Eu
    by (destruct (pong_main reads s) eqn:E; [exfalso; eapply Hstuck; by apply step_pong|done]).
  destruct s as [f pm rm g e t u tr]. unfold inv, thread_code in *. cbn in *.
  destruct t as [[] i j|].
  - destruct Hinv as (_ & _ & _ & -> & _). done.
  - done.
  - destruct Hinv as (_ & _ & _ & _ & [(q & [Hf Hu] & _)|[[Hf _] _]]); cbn in *; subst f; [|done].
    destruct u as [[] k|]; cbn in *; [destruct Hu as [_ ->]|..]; done.
  - done.
  - destruct Hinv as (_ & _ & [Hf Hu] & _). cbn in *. by destruct Hu as [[-> ->]|[-> ->]].
Qed.
Lemma proc_inside_prefix n l k : (S n ≤ k)%nat → l `prefix_of` answered → ideal n ++ l `prefix_of` ideal k.
Proof.
  intros Hk Hl. etrans; [|by apply (proc_ideal_prefix (S n))]. rewrite proc_ideal_S. apply prefix_app.
  etrans; [exact Hl|]. by apply prefix_app_r.
Qed.

Lemma proc_reading_prefix q s : reading q s → Publish :: replicate q ReadAddress `prefix_of` answered.
Proof.
  intros [_ Hq]. assert (q ≤ reads)%nat as Hle by (destruct (pong s) as [a k|]; lia).
  unfold answered. apply prefix_cons. exists (replicate (reads - q) ReadAddress ++ [Pong]).
  rewrite app_assoc, <-replicate_add. do 2 f_equal. lia.
Qed.

Lemma proc_trace_prefix s : inv s → trace s `prefix_of` ideal total.
Proof.
  unfold inv. intros Hinv. pose proof proc_RUNS_pos.
  assert (∀ i j, (i < RUNS)%nat → (j < rounds)%nat → (S (j * RUNS + i) ≤ total)%nat) as Hle by (unfold total; nia).
  destruct (thread s) as [[] i j|].
  1-4: destruct Hinv as (Hi & Hj & _ & _ & Hrest); specialize (Hle i j Hi Hj).
  - destruct Hrest as [_ ->]. apply proc_ideal_prefix. lia.
  - destruct Hrest as [_ ->]. apply proc_ideal_prefix. lia.
  - destruct Hrest as [(q & Hq & ->)|[_ ->]]; apply proc_inside_prefix; try done. by eapply proc_reading_prefix.
  - destruct Hrest as [_ ->]. by apply proc_inside_prefix.
  - by destruct Hinv as (_ & _ & _ & ->).
Qed.
End proofs.

Lemma proc_total_eq : Z.of_nat total = 30000.
Proof. unfold total, rounds, RUNS. lia. Qed.

(** C32: the handshake works, however many reads a fread makes and
    in whatever order the thread and pong run: all of the 30 times 1000 pings are
    published, read, answered and returned one after the other; every execution
    ends, with the thread gone and pong waiting for a further ping, and only
    then can the module be unloaded. *)
Theorem ping_pong_proc reads : (1 ≤ reads)%nat →
  Z.of_nat total = 30000 ∧
  (∀ k s, nsteps (step reads) k (start reads) s → Z.of_nat k ≤ 30001 * (3 * Z.of_nat reads + 5) + 1) ∧
  ∀ s, rtc (step reads) (start reads) s →
    trace s `prefix_of` ideal reads total ∧
    ((∀ s', ¬ step reads s s') →
       thread s = TExit ∧ pong s = URead RWait (pred reads) ∧ trace s = ideal reads total) ∧
    (∀ e, is_Some (mod_exit s e) ↔ thread s = TExit).
Proof.
  intros Hr. pose proof (proc_start_inv reads Hr) as H0. split; [apply proc_total_eq|]. split.
  - intros k s Hk. destruct (proc_run_inv reads Hr k _ s H0 Hk) as [_ Hl]. pose proof proc_total_eq.
    unfold left, start in Hl. cbn [thread wq_flag pong pinged thread_left pong_left] in Hl.
    change (2 =? 0) with false in Hl. cbn iota in Hl. nia.
  - intros s Hs. apply rtc_nsteps in Hs as [k Hk]. destruct (proc_run_inv reads Hr k _ s H0 Hk) as [Hinv _].
    split; [by apply proc_trace_prefix|]. split.
    + intros Hstuck. destruct (proc_stuck_done reads Hr s Hinv Hstuck) as [Et Eu]. split; [done|]. split; [done|].
      unfold inv in Hinv. rewrite Et in Hinv. apply Hinv.
    + intros e. unfold mod_exit, inv in *. destruct (thread s) as [a i j|].
      * destruct Hinv as (_ & _ & -> & _). split; [by intros [? [=]]|done].
      * destruct Hinv as (-> & _). split; [done|by eexists].
Qed.

(** Kernel_thread reports a failure as a negative number, which
    [mod_init] takes for a thread: the module loads, and can never be unloaded,
    for there is no thread to complete.  A load that is refused leaves its
    proc entries behind. *)
Theorem proc_thread_failure tid : tid < 0 →
  (mod_init true true tid).1 = true ∧
  (∀ s e, on_exit s = false → mod_exit s e = None) ∧
  (mod_init true false tid).1 = false ∧ proc_directory (mod_init true false tid).2 = true.
Proof.
  intros Ht. unfold mod_init. cbn [negb]. rewrite (proj2 (Z.eqb_neq tid 0)) by lia.
  split; [done|]. split; [|done]. intros s e He. unfold mod_exit. by rewrite He.
Qed.

(** ** Witnesses *)
Lemma ping_pong_proc_witness : Z.of_nat total = 30000 ∧
  (∀ k s, nsteps (step 2) k (start 2) s → Z.of_nat k ≤ 30001 * 11 + 1) ∧
  ∀ s, rtc (step 2) (start 2) s → trace s `prefix_of` ideal 2 total ∧
    ((∀ s', ¬ step 2 s s') → thread s = TExit ∧ pong s = URead RWait 1 ∧ trace s = ideal 2 total) ∧
    (∀ e, is_Some (mod_exit s e) ↔ thread s = TExit).
Proof. apply (ping_pong_proc 2). lia. Defined.

Lemma proc_thread_failure_witness : (mod_init true true (-11)).1 = true ∧
  (∀ s e, on_exit s = false → mod_exit s e = None) ∧
  (mod_init true false (-11)).1 = false ∧ proc_directory (mod_init true false (-11)).2 = true.
Proof. apply (proc_thread_failure (-11)). lia. Defined.
