(* ===== verification/PingIoctl.v ===== *)
(** * prototypes/ping_pong_ioctl: the handshake over ioctl

    The thread of ping.c sends 30 times 1000 pings through a kernel buffer of
    six bytes; pong.c answers with the argument of an ioctl that returns with
    the next ping.  strcpy and copy_to_user are single steps. *)
From S2P Require Import Prelude.
Local Open Scope Z_scope.

Definition RUNS : nat := Z.to_nat 1000.
Definition rounds : nat := 30.
Definition MAJOR_NUM : Z := 240.

(** The strings with their terminating zeros. *)
Definition ping_bytes : list Z := [112; 105; 110; 103; 0].
Definition pong_bytes : list Z := [112; 111; 110; 103; 0].

Inductive ping_at := PDown | PCopy | PFlag | PWait | PUp.
Inductive thread_pc := TPing (at_ : ping_at) (i j : nat) | TExit.
Inductive pong_pc := UCopy | UFlag | UUp | UDown | UWait | UToUser.

Record state := {
  wq_flag : Z;
  ping_mutex : bool;             (* true: free *)
  callback_mutex : Z;            (* the count of the semaphore *)
  global_buffer : list Z;
  on_exit : bool;
  thread : thread_pc;
  pong : pong_pc;
  buffer : list Z;               (* the array of pong.c *)
  above : Z;                     (* the byte of its stack behind it *)
  answers : list (list Z);       (* what ping has returned with *)
  received : list (list Z)       (* what the ioctls have returned with *)
}.

(** [strcpy] of five bytes *)
Definition strcpy (dst src : list Z) : list Z := src ++ drop (length src) dst.

(** [ping("ping")], one statement; [None] while it sleeps. *)
Definition ping (at_ : ping_at) (s : state) : option (option ping_at * state) :=
  let '{| wq_flag := f; ping_mutex := pm; callback_mutex := cm; global_buffer := g; on_exit := e; thread := t;
          pong := u; buffer := b; above := ab; answers := an; received := re |} := s in
  match at_ with
  | PDown => if pm then Some (Some PCopy, {| wq_flag := f; ping_mutex := false; callback_mutex := cm; global_buffer := g;
      on_exit := e; thread := t; pong := u; buffer := b; above := ab; answers := an; received := re |}) else None
  | PCopy => Some (Some PFlag, {| wq_flag := f; ping_mutex := pm; callback_mutex := cm; global_buffer := strcpy g ping_bytes;
      on_exit := e; thread := t; pong := u; buffer := b; above := ab; answers := an; received := re |})
  | PFlag => Some (Some PWait, {| wq_flag := 0; ping_mutex := pm; callback_mutex := cm; global_buffer := g;
      on_exit := e; thread := t; pong := u; buffer := b; above := ab; answers := an; received := re |})
  | PWait => if f =? 1 then Some (Some PUp, s) else None
  | PUp => Some (None, {| wq_flag := f; ping_mutex := true; callback_mutex := cm; global_buffer := g;
      on_exit := e; thread := t; pong := u; buffer := b; above := ab; answers := an ++ [g]; received := re |})
  end.

(** The statement of pong.c's loop behind its ioctl. *)
Definition pong_loop (buffer : list Z) : list Z := strcpy buffer pong_bytes.

(** [ioctl_callback], one statement; after the last one pong.c fills its array
    again and makes the next call. *)
Definition ioctl_callback (s : state) : option state :=
  let '{| wq_flag := f; ping_mutex := pm; callback_mutex := cm; global_buffer := g; on_exit := e; thread := t;
          pong := u; buffer := b; above := ab; answers := an; received := re |} := s in
  match u with
  | UCopy => Some {| wq_flag := f; ping_mutex := pm; callback_mutex := cm; global_buffer := strcpy g b;
      on_exit := e; thread := t; pong := UFlag; buffer := b; above := ab; answers := an; received := re |}
  | UFlag => Some {| wq_flag := 1; ping_mutex := pm; callback_mutex := cm; global_buffer := g;
      on_exit := e; thread := t; pong := UUp; buffer := b; above := ab; answers := an; received := re |}
  | UUp => Some {| wq_flag := f; ping_mutex := pm; callback_mutex := cm + 1; global_buffer := g;
      on_exit := e; thread := t; pong := UDown; buffer := b; above := ab; answers := an; received := re |}
  | UDown => if 0 <? cm then Some {| wq_flag := f; ping_mutex := pm; callback_mutex := cm - 1; global_buffer := g;
      on_exit := e; thread := t; pong := UWait; buffer := b; above := ab; answers := an; received := re |} else None
  | UWait => if f =? 0 then Some {| wq_flag := f; ping_mutex := pm; callback_mutex := cm; global_buffer := g;
      on_exit := e; thread := t; pong := UToUser; buffer := b; above := ab; answers := an; received := re |} else None
  | UToUser => Some {| wq_flag := f; ping_mutex := pm; callback_mutex := cm; global_buffer := g; on_exit := e; thread := t;
      pong := UCopy; buffer := pong_loop (take 5 g); above := nth 5 g 0; answers := an; received := re ++ [g] |}
  end.

Definition set_thread (t : thread_pc) (e : bool) (s : state) : state :=
  {| wq_flag := wq_flag s; ping_mutex := ping_mutex s; callback_mutex := callback_mutex s; global_buffer := global_buffer s;
     on_exit := e; thread := t; pong := pong s; buffer := buffer s; above := above s; answers := answers s;
     received := received s |}.

(** The loops of [ioctl_test] and [thread_code] after a ping has returned. *)
Definition next_ping (i j : nat) (s : state) : state :=
  if decide (S i < RUNS)%nat then set_thread (TPing PDown (S i) j) (on_exit s) s
  else if decide (S j < rounds)%nat then set_thread (TPing PDown 0 (S j)) (on_exit s) s
  else set_thread TExit true s.

Definition thread_code (s : state) : option state :=
  match thread s with
  | TPing at_ i j =>
      '(next, s) ← ping at_ s;
      Some (match next with Some at_ => set_thread (TPing at_ i j) (on_exit s) s | None => next_ping i j s end)
  | TExit => None
  end.

Inductive step : state → state → Prop :=
  | step_thread s s' : thread_code s = Some s' → step s s'
  | step_pong s s' : ioctl_callback s = Some s' → step s s'.

(** The module loaded, with [junk] in the buffer kmalloc gave it; pong about to
    make its first call. *)
Definition start (junk : list Z) (ab : Z) : state :=
  {| wq_flag := 1; ping_mutex := true; callback_mutex := 1; global_buffer := junk; on_exit := false;
     thread := TPing PDown 0 0; pong := UCopy; buffer := pong_bytes; above := ab; answers := []; received := [] |}.

(** ** Loading and unloading *)
(** The character devices of the kernel by their major numbers, and the result
    [major] of register_chrdev, which registers under it unless it is
    negative. *)
Definition mod_init (major tid : Z) (devices : list Z) : bool * list Z :=
  if 0 <=? major then
    if tid =? 0 then (false, major :: devices) else (true, major :: devices)
  else (false, devices).

(** [unregister_chrdev] of a number *)
Definition unregister_chrdev (m : Z) (devices : list Z) : list Z := filter (λ d, d ≠ m) devices.

(** [mod_exit], once the thread has completed *)
Definition mod_exit (s : state) (devices : list Z) : option (list Z) :=
  if on_exit s then Some (unregister_chrdev MAJOR_NUM devices) else None.

(** ** What goes over *)
#[local] Set Default Proof Using "All".
Section proofs.
Context (junk : Z).

Definition total : nat := (rounds * RUNS)%nat.
Definition pinged (t : thread_pc) : nat :=
  match t with TPing _ i j => (j * RUNS + i)%nat | TExit => total end.

(** The kernel buffer with a string and the byte kmalloc left behind it. *)
Definition holds (msg : list Z) : list Z := msg ++ [junk].

(** The buffer is always filled by one of the two strings; after the first
    ping, [n = 0], it is known by which. *)
Definition content (n : nat) (msg : list Z) (g : list Z) : Prop :=
  length g = 6%nat ∧ drop 5 g = [junk] ∧ ((0 < n)%nat → g = holds msg).

(** Messages of one kind, apart from the first. *)
Definition all_but_first (msg : list Z) (l : list (list Z)) : Prop := Forall (λ x, x = holds msg) (tail l).

(** pong between its answer and the next ping; the count of its semaphore. *)
Definition answered (u : pong_pc) (cm : Z) : Prop := u = UUp ∧ cm = 1 ∨ u = UDown ∧ cm = 2 ∨ u = UWait ∧ cm = 1.

(** [lost] of the first deliveries did not happen.  With the flag raised it is
    the thread's turn, with the flag lowered pong's. *)
Definition turn (lost n : nat) (a : ping_at) (s : state) : Prop :=
  let d := length (received s) in
  match a with
  | PDown | PCopy | PFlag => wq_flag s = 1 ∧ (a = PFlag → content n ping_bytes (global_buffer s)) ∧
      (answered (pong s) (callback_mutex s) ∧ (d + lost = n)%nat ∨
       (pong s = UCopy ∨ pong s = UFlag) ∧ callback_mutex s = 1 ∧ n = 0%nat ∧ d = 0%nat ∧ lost = 0%nat)
  | PWait => (wq_flag s = 1 ∧ answered (pong s) (callback_mutex s) ∧ (d + lost = S n)%nat ∧ content n pong_bytes (global_buffer s)) ∨
      wq_flag s = 0 ∧
      ((answered (pong s) (callback_mutex s) ∨ pong s = UToUser ∧ callback_mutex s = 1) ∧ (d + lost = n)%nat ∧
         content n ping_bytes (global_buffer s) ∨
       (pong s = UCopy ∨ pong s = UFlag) ∧ callback_mutex s = 1 ∧ (d + lost = S n)%nat ∧
         (pong s = UFlag → content n pong_bytes (global_buffer s)))
  | PUp => wq_flag s = 1 ∧ answered (pong s) (callback_mutex s) ∧ (d + lost = S n)%nat ∧ content n pong_bytes (global_buffer s)
  end.

Record common (s : state) : Prop := {
  cm_len : length (global_buffer s) = 6%nat;
  cm_junk : drop 5 (global_buffer s) = [junk];
  cm_buffer : buffer s = pong_bytes;
  cm_answers : all_but_first pong_bytes (answers s);
  cm_received : all_but_first ping_bytes (received s);
  cm_above : received s ≠ [] → above s = junk
}.

Definition inv (s : state) : Prop := common s ∧ ∃ lost, (lost ≤ 1)%nat ∧
  match thread s with
  | TPing a i j => (i < RUNS)%nat ∧ (j < rounds)%nat ∧ on_exit s = false ∧
      ping_mutex s = (match a with PDown => true | _ => false end) ∧
      length (answers s) = (j * RUNS + i)%nat ∧ turn lost (j * RUNS + i) a s
  | TExit => on_exit s = true ∧ ping_mutex s = true ∧ length (answers s) = total ∧ turn lost total PDown s
  end.

Definition thread_left (t : thread_pc) : nat :=
  match t with
  | TPing PDown _ _ => 11 | TPing PCopy _ _ => 10 | TPing PFlag _ _ => 9
  | TPing PWait _ _ => 2 | TPing PUp _ _ => 1 | TExit => 0
  end.
Definition pong_left (f : Z) (u : pong_pc) : nat :=
  (match u with UToUser => 5 | UCopy => 4 | UFlag => 3 | UUp => 2 | UDown => 1 | UWait => 0 end) +
  (if f =? 0 then match u with UUp | UDown | UWait => 6 | _ => 0 end else 0).
Definition left (s : state) : nat :=
  (total - pinged (thread s)) * 11 + thread_left (thread s) + pong_left (wq_flag s) (pong s).

Lemma ioctl_strcpy_holds g msg : length g = 6%nat → drop 5 g = [junk] → length msg = 5%nat → strcpy g msg = holds msg.
Proof. intros _ Hd Hm. unfold strcpy, holds. by rewrite Hm, Hd. Qed.

Lemma ioctl_holds_content n msg : length msg = 5%nat → content n msg (holds msg).
Proof.
  intros Hm. unfold content, holds. rewrite length_app, Hm. split; [done|]. split; [|done].
  rewrite <-Hm. apply drop_app_length.
Qed.

Lemma ioctl_all_but_first_snoc msg l x : all_but_first msg l → ((0 < length l)%nat → x = holds msg) → all_but_first msg (l ++ [x]).
Proof.
  unfold all_but_first. intros Hl Hx. destruct l as [|y l]; [constructor|]. cbn in *.
  apply Forall_app. split; [done|]. constructor; [apply Hx; lia|constructor].
Qed.

Lemma ioctl_RUNS_pos : (0 < RUNS)%nat.
Proof. unfold RUNS. lia. Qed.
Lemma ioctl_rounds_pos : (0 < rounds)%nat.
Proof. unfold rounds. lia. Qed.
#[local] Opaque RUNS rounds.

Lemma ioctl_common_thread s t e : common s → common (set_thread t e s).
Proof. intros [? ? ? ? ? ?]. by split. Qed.

Lemma ioctl_thread_inv s s' : inv s → thread_code s = Some s' → inv s' ∧ (left s' < left s)%nat.
Proof.
  intros [Hc (lost & Hlost & Hinv)] E. pose proof ioctl_RUNS_pos. unfold thread_code in E.
  destruct s as [f pm cm g e t u b ab an re]. cbn [thread] in *.
  destruct t as [[] i j|]; cbn [ping] in E; [..|done]; destruct Hinv as (Hi & Hj & He & Hpm & Han & Ht); cbn in He, Hpm, Han; subst.
  - injection E as <-. split; [|unfold left; cbn; lia]. split; [by destruct Hc|]. exists lost. split; [done|].
    destruct Ht as (Hf & _ & Hu). do 5 (split; [done|]). split; [exact Hf|]. split; [by intros [=]|exact Hu].
  - injection E as <-. destruct Hc as [Hl Hd Hb Ha Hr Hab]. cbn in Hl, Hd.
    assert (strcpy g ping_bytes = holds ping_bytes) as Hg by by apply ioctl_strcpy_holds.
    pose proof (ioctl_holds_content (j * RUNS + i) ping_bytes eq_refl) as Hh. rewrite <-Hg in Hh.
    split; [|unfold left; cbn; lia]. split; [split; cbn; try done; apply Hh|].
    exists lost. split; [done|]. cbn in *. destruct Ht as (Hf & _ & Hu). split_and!; done.
  - injection E as <-. destruct Ht as (Hf & Hg & Hu). cbn in Hf, Hu. subst f. specialize (Hg eq_refl).
    assert (common {| wq_flag := 0; ping_mutex := false; callback_mutex := cm; global_buffer := g; on_exit := false;
      thread := TPing PWait i j; pong := u; buffer := b; above := ab; answers := an; received := re |}) as Hc' by by destruct Hc.
    destruct Hu as [[Hu Hd]|(Hu & Hcm & Hn & Hd & Hl0)].
    + split; [|destruct Hu as [[-> _]|[[-> _]|[-> _]]]; unfold left; cbn; lia]. split; [exact Hc'|].
      exists lost. split; [done|]. cbn. split_and!; [done..|]. right. split; [done|]. left. split; [by left|]. done.
    + split; [|destruct Hu as [-> | ->]; unfold left; cbn; lia]. split; [exact Hc'|].
      exists 1%nat. split; [done|]. cbn. split_and!; [done..|]. right. split; [done|]. right. split_and!; [done|done|lia|].
      intros _. rewrite Hn in *. destruct Hg as (G1 & G2 & _). split_and!; [done|done|lia].
  - destruct Ht as [(Hf & Hu & Hd & Hg)|[Hf _]]; cbn in *; subst f; [|done]. injection E as <-.
    split; [|unfold left; cbn; lia]. split; [by destruct Hc|]. exists lost. by split_and!.
  - injection E as <-. destruct Ht as (Hf & Hu & Hd & Hg). cbn in Hf, Hu, Hd, Hg. subst f.
    destruct Hc as [Hl Hdr Hb Ha Hr Hab]. cbn in *.
    set (s1 := {| wq_flag := 1; ping_mutex := true; callback_mutex := cm; global_buffer := g; on_exit := false;
      thread := TPing PUp i j; pong := u; buffer := b; above := ab; answers := an ++ [g]; received := re |}).
    assert (common s1) as Hc1.
    { split; cbn; try done. apply ioctl_all_but_first_snoc; [done|]. intros Hlen. apply Hg. lia. }
    assert (length (an ++ [g]) = S (j * RUNS + i)) as Hlen by (rewrite length_app; cbn; lia).
    assert (∀ a e, turn lost (S (j * RUNS + i)) PDown (set_thread a e s1)) as Hturn by (intros a e; split_and!; try done; by left).
    unfold next_ping. cbn [on_exit s1].
    destruct (decide (S i < RUNS)%nat); [|destruct (decide (S j < rounds)%nat)].
    + assert (j * RUNS + S i ≤ total)%nat by (unfold total; nia).
      split; [|unfold left; cbn; nia]. split; [by apply ioctl_common_thread|]. exists lost. cbn [thread set_thread].
      rewrite Nat.add_succ_r. by split_and!.
    + assert (S (j * RUNS + i) ≤ total)%nat by (unfold total; nia).
      split; [|unfold left; cbn; nia]. split; [by apply ioctl_common_thread|]. exists lost. cbn [thread set_thread].
      replace (S j * RUNS + 0)%nat with (S (j * RUNS + i)) by nia. split_and!; done || lia.
    + assert (S (j * RUNS + i) = total) as Htot by (unfold total; assert (S j = rounds) by lia; nia).
      split; [|unfold left; cbn; nia]. split; [by apply ioctl_common_thread|]. exists lost. cbn [thread set_thread].
      rewrite <-Htot. by split_and!.
Qed.

Lemma ioctl_content_common n msg s : common s → n = 0%nat → content n msg (global_buffer s).
Proof. intros [? ? _ _ _ _] ->. split_and!; [done|done|lia]. Qed.

(** pong keeps the turns; [lost] and [n] stay. *)
Lemma ioctl_pong_turn lost n a s s' : (length (answers s) = n) → common s → turn lost n a s → ioctl_callback s = Some s' →
  common s' ∧ thread s' = thread s ∧ on_exit s' = on_exit s ∧ ping_mutex s' = ping_mutex s ∧ answers s' = answers s ∧
  turn lost n a s' ∧ (pong_left (wq_flag s') (pong s') < pong_left (wq_flag s) (pong s))%nat.
Proof.
  intros Hn Hc Ht E. pose proof Hc as [Hl Hd Hb Ha Hr Hab].
  destruct s as [f pm cm g e t u b ab an re]. cbn in Hl, Hd, Hb, Ha, Hr, Hab, Hn. subst b.
  pose proof (ioctl_holds_content n pong_bytes eq_refl) as Hpong. rewrite <-(ioctl_strcpy_holds g pong_bytes) in Hpong by done.
  assert (∀ msg, n = 0%nat → content n msg (strcpy g pong_bytes)) as Hzero by (intros msg ->; split_and!; [apply Hpong|apply Hpong|lia]).
  destruct u; cbn in E.
  - injection E as <-. split; [split; cbn; try done; apply Hpong|]. do 4 (split; [done|]). split; [|cbn; lia].
    unfold turn, answered in *. cbn in *. destruct a; naive_solver.
  - injection E as <-. split; [by split|]. do 4 (split; [done|]).
    split; [|destruct a, (f =? 0) eqn:Ef; cbn; lia].
    unfold turn, answered in *. cbn in *. destruct a; naive_solver lia.
  - injection E as <-. split; [by split|]. do 4 (split; [done|]).
    split; [|destruct (f =? 0); cbn; lia].
    unfold turn, answered in *. cbn in *. destruct a; naive_solver lia.
  - destruct (0 <? cm) eqn:Ecm; [|done]. injection E as <-. split; [by split|]. do 4 (split; [done|]).
    split; [|destruct (f =? 0); cbn; lia].
    unfold turn, answered in *. cbn in *. destruct a; naive_solver lia.
  - destruct (Z.eqb_spec f 0) as [->|]; [|done]. injection E as <-. split; [by split|]. do 4 (split; [done|]).
    split; [|cbn; lia].
    unfold turn, answered in *. cbn in *. destruct a; naive_solver lia.
  - injection E as <-.
    assert (a = PWait ∧ f = 0 ∧ cm = 1 ∧ (length re + lost = n)%nat ∧ content n ping_bytes g) as (-> & -> & -> & Hlen & Hg)
      by (unfold turn, answered in *; cbn in *; destruct a; naive_solver).
    split; [split; cbn; try done|].
    + unfold pong_loop, strcpy. rewrite (drop_ge (take 5 g)); [apply (app_nil_r pong_bytes)|]. rewrite length_take. lia.
    + apply ioctl_all_but_first_snoc; [done|]. intros Hp. apply Hg. lia.
    + intros _. destruct g as [|g0 [|g1 [|g2 [|g3 [|g4 [|g5 g]]]]]]; try discriminate. cbn in Hd |- *. by injection Hd.
    + do 4 (split; [done|]). split; [|cbn; lia]. unfold turn. cbn. right. split; [done|]. right.
      split; [by left|]. split; [done|]. split; [rewrite length_app; cbn; lia|done].
Qed.

Lemma ioctl_pong_inv s s' : inv s → ioctl_callback s = Some s' → inv s' ∧ (left s' < left s)%nat.
Proof.
  intros [Hc (lost & Hlost & Hinv)] E. unfold inv, left. destruct (thread s) as [a i j|] eqn:Et.
  - destruct Hinv as (Hi & Hj & He & Hpm & Han & Ht).
    destruct (ioctl_pong_turn lost _ a s s' Han Hc Ht E) as (Hc' & -> & -> & -> & -> & Ht' & Hl). rewrite Et.
    split; [|lia]. split; [done|]. exists lost. by split_and!.
  - destruct Hinv as (He & Hpm & Han & Ht).
    destruct (ioctl_pong_turn lost _ PDown s s' Han Hc Ht E) as (Hc' & -> & -> & -> & -> & Ht' & Hl). rewrite Et.
    split; [|lia]. split; [done|]. exists lost. by split_and!.
Qed.

Lemma ioctl_step_inv s s' : inv s → step s s' → inv s' ∧ (left s' < left s)%nat.
Proof. intros Hinv Hs. destruct Hs; [by apply ioctl_thread_inv|by apply ioctl_pong_inv]. Qed.

Lemma ioctl_run_inv k s s' : inv s → nsteps step k s s' → inv s' ∧ (k + left s' ≤ left s)%nat.
Proof. intros. eapply nsteps_lowers; [apply ioctl_step_inv|done|done]. Qed.

Lemma ioctl_start_inv l ab : length l = 6%nat → drop 5 l = [junk] → inv (start l ab).
Proof.
  intros Hl Hd. pose proof ioctl_RUNS_pos. split; [split; try done; by constructor|]. exists 0%nat. cbn.
  split; [lia|]. split; [done|]. split; [apply ioctl_rounds_pos|]. do 3 (split; [done|]). split; [done|].
  split; [by intros [=]|]. right. split_and!; try done. by left.
Qed.

(** Only the thread at its end and pong waiting for a ping stand still. *)
Lemma ioctl_stuck_done s : inv s → (∀ s', ¬ step s s') → thread s = TExit ∧ pong s = UWait.
Proof.
  intros [Hc (lost & Hlost & Hinv)] Hstuck.
  assert (thread_code s = None) as Et by (destruct (thread_code s) eqn:E; [exfalso; eapply Hstuck; by constructor|done]).
  assert (ioctl_callback s = None) as Eu
    by (destruct (ioctl_callback s) eqn:E; [exfalso; eapply Hstuck; by apply step_pong|done]).
  destruct s as [f pm cm g e t u b ab an re]. unfold thread_code in Et. cbn in Et, Eu, Hinv.
  assert (u = UDown ∧ cm ≤ 0 ∨ u = UWait ∧ f ≠ 0) as Hu.
  { destruct u; try done; [left; destruct (Z.ltb_spec 0 cm)|right; destruct (Z.eqb_spec f 0)]; done. }
  destruct t as [[] i j|]; cbn in Et; try done.
  - by destruct Hinv as (_ & _ & _ & -> & _).
  - destruct Hinv as (_ & _ & _ & _ & _ & Ht). destruct (Z.eqb_spec f 1); [done|].
    unfold turn, answered in Ht. cbn in Ht. naive_solver lia.
  - destruct Hinv as (_ & _ & _ & Ht). unfold turn, answered in Ht. cbn in Ht. naive_solver lia.
Qed.
End proofs.

(** Schedules: [true] is the thread's turn. *)
Fixpoint run (sched : list bool) (s : state) : option state :=
  match sched with
  | [] => Some s
  | b :: sched => s ← (if b then thread_code s else ioctl_callback s); run sched s
  end.

Lemma ioctl_run_rtc sched s s' : run sched s = Some s' → rtc step s s'.
Proof.
  revert s. induction sched as [|b sched IH]; intros s E; [injection E as <-; apply rtc_refl|]. cbn [run] in E.
  destruct b; [destruct (thread_code s) as [s1|] eqn:E1|destruct (ioctl_callback s) as [s1|] eqn:E1]; try done;
    (eapply rtc_l; [|by apply IH]); [by apply step_thread|by apply step_pong].
Qed.

Lemma ioctl_total_eq : Z.of_nat total = 30000.
Proof. unfold total, rounds, RUNS. lia. Qed.

(** In whatever order the thread and pong run, every execution ends, with
    30000 answered pings; from the second message on, every ping is
    answered by "pong" and every ioctl returns with "ping".  What is copied to
    pong is one byte longer than its array, and that byte is one kmalloc has
    left uninitialised. *)
Theorem ping_pong_ioctl l ab : length l = 6%nat →
  Z.of_nat total = 30000 ∧
  (∀ k s, nsteps step k (start l ab) s → Z.of_nat k ≤ 30001 * 11 + 4) ∧
  ∀ s, rtc step (start l ab) s →
    Forall (λ x, x = pong_bytes ++ [nth 5 l 0]) (tail (answers s)) ∧
    Forall (λ x, x = ping_bytes ++ [nth 5 l 0]) (tail (received s)) ∧
    (received s ≠ [] → above s = nth 5 l 0) ∧
    ((∀ s', ¬ step s s') → thread s = TExit ∧ pong s = UWait ∧ length (answers s) = total ∧
       (total ≤ length (received s) + 1)%nat).
Proof.
  intros Hl. assert (drop 5 l = [nth 5 l 0]) as Hd
    by (destruct l as [|g0 [|g1 [|g2 [|g3 [|g4 [|g5 [|]]]]]]]; done).
  pose proof (ioctl_start_inv (nth 5 l 0) l ab Hl Hd) as H0. split; [apply ioctl_total_eq|]. split.
  - intros k s Hk. destruct (ioctl_run_inv (nth 5 l 0) k _ s H0 Hk) as [_ Hle]. pose proof ioctl_total_eq.
    unfold left, start in Hle. cbn [thread wq_flag pong pinged thread_left] in Hle.
    change (pong_left 1 UCopy) with 4%nat in Hle. nia.
  - intros s Hs. apply rtc_nsteps in Hs as [k Hk]. destruct (ioctl_run_inv (nth 5 l 0) k _ s H0 Hk) as [Hinv _].
    pose proof Hinv as [[_ _ _ Ha Hr Hab] (lost & Hlost & Hrest)].
    split; [exact Ha|]. split; [exact Hr|]. split; [exact Hab|].
    intros Hstuck. destruct (ioctl_stuck_done (nth 5 l 0) s Hinv Hstuck) as [Et Eu]. rewrite Et in Hrest.
    destruct Hrest as (_ & _ & Han & _ & _ & Hu). split_and!; [done..|]. unfold answered in Hu. rewrite Eu in Hu.
    naive_solver lia.
Qed.

(** The first message can be wrong either way, for the first call of pong
    is not an answer: it can overwrite the first ping before it is read, and it
    can raise the flag for a ping it has not seen. *)
Theorem ioctl_first_message l ab : length l = 6%nat →
  (∃ s, rtc step (start l ab) s ∧ received s = [pong_bytes ++ [nth 5 l 0]]) ∧
  (∃ s, rtc step (start l ab) s ∧ answers s = [ping_bytes ++ [nth 5 l 0]]).
Proof.
  intros Hl. destruct l as [|g0 [|g1 [|g2 [|g3 [|g4 [|g5 [|]]]]]]]; try done. split.
  - eexists. split; [apply (ioctl_run_rtc [true; true; false; false; true; false; false; false; false]); reflexivity|done].
  - eexists. split; [apply (ioctl_run_rtc [false; true; true; true; false; true; true]); reflexivity|done].
Qed.

(** The module registers under the number the kernel gives it and
    unregisters number 240: unless the two agree, its operations stay
    registered after it is gone. *)
Theorem ioctl_stays_registered major tid devices s d : (mod_init major tid devices).1 = true → major ≠ MAJOR_NUM →
  mod_exit s (mod_init major tid devices).2 = Some d → major ∈ d.
Proof.
  unfold mod_init, mod_exit. intros Hload Hne. destruct (0 <=? major); [|done]. destruct (tid =? 0); [done|].
  destruct (on_exit s); [|done]. intros [= <-]. unfold unregister_chrdev. apply list_elem_of_filter. split; [done|]. by left.
Qed.

(** ** Witnesses *)
Lemma ping_pong_ioctl_witness :
  Z.of_nat total = 30000 ∧
  (∀ k s, nsteps step k (start [0; 0; 0; 0; 0; 77] 1) s → Z.of_nat k ≤ 30001 * 11 + 4) ∧
  ∀ s, rtc step (start [0; 0; 0; 0; 0; 77] 1) s →
    Forall (λ x, x = pong_bytes ++ [77]) (tail (answers s)) ∧
    Forall (λ x, x = ping_bytes ++ [77]) (tail (received s)) ∧
    (received s ≠ [] → above s = 77) ∧
    ((∀ s', ¬ step s s') → thread s = TExit ∧ pong s = UWait ∧ length (answers s) = total ∧
       (total ≤ length (received s) + 1)%nat).
Proof. apply (ping_pong_ioctl [0; 0; 0; 0; 0; 77] 1). reflexivity. Defined.

Lemma ioctl_first_message_witness :
  (∃ s, rtc step (start [0; 0; 0; 0; 0; 77] 1) s ∧ received s = [pong_bytes ++ [77]]) ∧
  (∃ s, rtc step (start [0; 0; 0; 0; 0; 77] 1) s ∧ answers s = [ping_bytes ++ [77]]).
Proof. apply (ioctl_first_message [0; 0; 0; 0; 0; 77] 1). reflexivity. Defined.

Lemma ioctl_stays_registered_witness : ∃ s d, mod_exit s (mod_init 254 7 [1; 240]).2 = Some d ∧ 254 ∈ d.
Proof.
  exists (set_thread TExit true (start [] 0)), [254; 1]. split; [reflexivity|].
  apply (ioctl_stays_registered 254 7 [1; 240] (set_thread TExit true (start [] 0)) [254; 1]);
    [reflexivity|unfold MAJOR_NUM; lia|reflexivity].
Defined.
