(* ===== verification/PingNlKsp.v ===== *)
(** * prototypes/ping_pong_nl_ksp: the handshake over netlink, started by the kernel

    The thread of ping.c receives a first packet and sends 1000 pings, again
    and again until the module is unloaded; pong.c sends the first packet and
    answers the pings, 30 times.  nl_data_ready runs inside the sendmsg of
    pong.c. *)
From S2P Require Import Prelude GF256 Word Memory Syndrome Marshal Driver.
Local Open Scope Z_scope.

Definition RUNS : nat := Z.to_nat 1000.
Definition rounds : nat := 30.
Definition MAX_PAYLOAD : nat := 1024.

(** ** Packets *)
(** What NLMSG_DATA of a container of pong.c holds. *)
Definition gen_message_container : list Z := replicate MAX_PAYLOAD 0.
Definition add_payload (msg payload : list Z) : result (list Z) := strcpy msg payload.
Definition get_payload (msg payload : list Z) : result (list Z) := strcpy payload msg.

Definition init_string : list Z := [105; 110; 105; 116; 0].
Definition pong_string : list Z := [112; 111; 110; 103; 0].
(** nlmsg_put makes room for [strlen("ping")] bytes: the packet has no zero. *)
Definition ping_packet : list Z := [112; 105; 110; 103].

(** ** The handshake *)
(** The thread: at the loop condition, in [nl_recv_pkg] for packet [k] of round
    [j] before and while it sleeps, or about to send the ping after packet
    [k]. *)
Inductive thread_pc := TLoop (j : nat) | TRecv (j k : nat) | TWait (j k : nat) | TSend (j k : nat) | TExit.

(** pong.c: in nl_data_ready with packet [k] of round [j], asleep, before the
    copy and before it raises the flag; or about to receive the ping after
    packet [k]. *)
Inductive pong_pc := UWait (j k : nat) | UPut (j k : nat) | UFlag (j k : nat) | URecv (j k : nat) | UExit.

(** rmmod: not called, waiting for the thread, done. *)
Inductive exit_pc := ENone | EWait | EDone.

Record state := {
  wq_flag : Z;
  skb_global : option (list Z);     (* [None]: freed *)
  queue : list (list Z);            (* what the socket of pong.c holds *)
  thread_flag : bool;
  on_exit : bool;
  socket : bool;                    (* the kernel's socket exists *)
  thread : thread_pc;
  pong : pong_pc;
  rmmod : exit_pc;
  server : list Z;                  (* msg_server *)
  client : list Z;                  (* msg_client *)
  buffer : list Z
}.

Definition upd (s : state) (f : Z) (skb : option (list Z)) (q : list (list Z)) (t : thread_pc) (u : pong_pc) : state :=
  {| wq_flag := f; skb_global := skb; queue := q; thread_flag := thread_flag s; on_exit := on_exit s; socket := socket s;
     thread := t; pong := u; rmmod := rmmod s; server := server s; client := client s; buffer := buffer s |}.

(** [thread_code], [netlink_test] and [nl_recv_pkg], one statement; [None]
    while it sleeps. *)
Definition thread_code (s : state) : option (result state) :=
  let go f skb q t := Some (Ok (upd s f skb q t (pong s))) in
  match thread s with
  | TLoop j =>
      if thread_flag s then
        Some (Ok {| wq_flag := wq_flag s; skb_global := skb_global s; queue := queue s; thread_flag := true; on_exit := true;
                    socket := socket s; thread := TExit; pong := pong s; rmmod := rmmod s; server := server s;
                    client := client s; buffer := buffer s |})
      else go (wq_flag s) (skb_global s) (queue s) (TRecv j 0)
  | TRecv j k => go 0 (skb_global s) (queue s) (TWait j k)
  | TWait j k =>
      if wq_flag s =? 1 then
        match skb_global s with
        | None => Some (Err NullDeref)
        | Some _ => go 1 None (queue s) (if decide (k < RUNS)%nat then TSend j k else TLoop (S j))
        end
      else None
  | TSend j k => go (wq_flag s) (skb_global s) (queue s ++ [ping_packet]) (TRecv j (S k))
  | TExit => None
  end.

(** [msg_server] with a string in it *)
Definition with_payload (s : state) (payload : list Z) (u : pong_pc) : result state :=
  server ← add_payload (server s) payload;
  Ok {| wq_flag := wq_flag s; skb_global := skb_global s; queue := queue s; thread_flag := thread_flag s;
        on_exit := on_exit s; socket := socket s; thread := thread s; pong := u; rmmod := rmmod s; server := server;
        client := client s; buffer := buffer s |}.

(** recvmsg of a packet overwrites the start of [msg_client]. *)
Definition recvmsg (msg packet : list Z) : list Z := packet ++ drop (length packet) msg.

(** [main] of pong.c and [nl_data_ready], one statement. *)
Definition pong_main (s : state) : option (result state) :=
  match pong s with
  | UWait j k => if wq_flag s =? 0 then Some (Ok (upd s (wq_flag s) (skb_global s) (queue s) (thread s) (UPut j k))) else None
  | UPut j k => Some (Ok (upd s (wq_flag s) (Some (server s)) (queue s) (thread s) (UFlag j k)))
  | UFlag j k =>
      let s u := upd s 1 (skb_global s) (queue s) (thread s) u in
      if decide (k < RUNS)%nat then Some (Ok (s (URecv j k)))
      else if decide (S j < rounds)%nat then Some (with_payload (s UExit) init_string (UWait (S j) 0))
      else Some (Ok (s UExit))
  | URecv j k =>
      match queue s with
      | [] => None
      | p :: q => Some (
          let client := recvmsg (client s) p in
          buffer ← get_payload client (buffer s);
          with_payload {| wq_flag := wq_flag s; skb_global := skb_global s; queue := q; thread_flag := thread_flag s;
             on_exit := on_exit s; socket := socket s; thread := thread s; pong := pong s; rmmod := rmmod s;
             server := server s; client := client; buffer := buffer |} pong_string (UWait j (S k)))
      end
  | UExit => None
  end.

(** [mod_exit] *)
Definition mod_exit (s : state) : option state :=
  match rmmod s with
  | ENone => Some {| wq_flag := wq_flag s; skb_global := skb_global s; queue := queue s; thread_flag := true;
      on_exit := on_exit s; socket := socket s; thread := thread s; pong := pong s; rmmod := EWait; server := server s;
      client := client s; buffer := buffer s |}
  | EWait => if on_exit s then
      Some {| wq_flag := wq_flag s; skb_global := skb_global s; queue := queue s; thread_flag := thread_flag s;
      on_exit := on_exit s; socket := false; thread := thread s; pong := pong s; rmmod := EDone; server := server s;
      client := client s; buffer := buffer s |} else None
  | EDone => None
  end.

Inductive step : state → state → Prop :=
  | step_thread s s' : thread_code s = Some (Ok s') → step s s'
  | step_pong s s' : pong_main s = Some (Ok s') → step s s'
  | step_rmmod s s' : mod_exit s = Some s' → step s s'.

Definition faults (s : state) : Prop := ∃ f, thread_code s = Some (Err f) ∨ pong_main s = Some (Err f).

(** [mod_init] has returned; pong.c has put its first payload into a packet
    and sends it. *)
Definition start : state :=
  {| wq_flag := 2; skb_global := None; queue := []; thread_flag := false; on_exit := false; socket := true;
     thread := TLoop 0; pong := UWait 0 0; rmmod := ENone;
     server := init_string ++ drop 5 gen_message_container; client := gen_message_container;
     buffer := replicate MAX_PAYLOAD 0 |}.

(** [mod_init] where the socket can be had; [tid] is what kernel_thread
    returns, which is negative when there is no thread. *)
Definition no_thread : state :=
  {| wq_flag := 2; skb_global := None; queue := []; thread_flag := false; on_exit := false; socket := true;
     thread := TExit; pong := UWait 0 0; rmmod := ENone;
     server := init_string ++ drop 5 gen_message_container; client := gen_message_container;
     buffer := replicate MAX_PAYLOAD 0 |}.
Definition mod_init (tid : Z) : Z * state :=
  let s := if 0 <? tid then start else no_thread in
  if tid =? 0 then (- EIO, s) else (0, s).

(** ** Payloads *)
#[local] Set Default Proof Using "All".
Lemma nl_add_payload_ok msg s : length msg = MAX_PAYLOAD → s = init_string ∨ s = pong_string →
  ∃ msg', add_payload msg s = Ok msg' ∧ length msg' = MAX_PAYLOAD ∧ take 5 msg' = s.
Proof.
  intros Hl Hs. exists (list_inserts 0 s msg). unfold add_payload, MAX_PAYLOAD in *.
  assert (length s = 5%nat ∧ list_find (λ b, b = 0) s = Some (4%nat, 0)) as [Hs5 Hf] by (by destruct Hs as [-> | ->]).
  split; [|split].
  - rewrite (strcpy_ok msg s 4) by (done || lia). by rewrite take_ge by lia.
  - by rewrite length_inserts.
  - rewrite inserts_prefix by lia. by rewrite <-Hs5, take_app_length.
Qed.

(** The packets end in the zeros [msg_client] was initialised with. *)
Lemma nl_receive_ok client buffer : drop 4 client = replicate 1020 0 → length buffer = MAX_PAYLOAD →
  drop 4 (recvmsg client ping_packet) = replicate 1020 0 ∧
  ∃ buffer', get_payload (recvmsg client ping_packet) buffer = Ok buffer' ∧ length buffer' = MAX_PAYLOAD ∧
    take 5 buffer' = ping_packet ++ [0].
Proof.
  intros Hc Hb. unfold MAX_PAYLOAD in *. assert (recvmsg client ping_packet = ping_packet ++ replicate 1020 0) as ->
    by (unfold recvmsg; change (length ping_packet) with 4%nat; by rewrite Hc).
  split; [done|]. set (src := ping_packet ++ replicate 1020 0).
  assert (list_find (λ b, b = 0) src = Some (4%nat, 0)) as Hf by reflexivity.
  exists (list_inserts 0 (take 5 src) buffer). split; [by apply (strcpy_ok buffer src 4); [|lia]|].
  split; [by rewrite length_inserts|]. rewrite inserts_prefix by (change (length (take 5 src)) with 5%nat; lia). reflexivity.
Qed.

(** ** Who is where *)
Section proofs.
(** pong's containers *)
Record containers (s : state) : Prop := {
  cn_server : length (server s) = MAX_PAYLOAD;
  cn_client : drop 4 (client s) = replicate 1020 0;
  cn_buffer : length (buffer s) = MAX_PAYLOAD
}.

(** What pong's packet [k] carries, and what it has received before. *)
Definition carries (k : nat) (s : state) : Prop :=
  take 5 (server s) = (match k with O => init_string | S _ => pong_string end) ∧
  (k ≠ 0%nat → take 5 (buffer s) = ping_packet ++ [0]).

(** pong at the start of round [j], or gone after the last one. *)
Definition at_start (j : nat) (s : state) : Prop :=
  queue s = [] ∧ ((j < rounds)%nat ∧ pong s = UWait j 0 ∧ carries 0 s ∨ j = rounds ∧ pong s = UExit).

(** pong behind its packet [k] of round [j]. *)
Definition behind (j k : nat) (s : state) : Prop :=
  if decide (k < RUNS)%nat then queue s = [] ∧ pong s = URecv j k else at_start (S j) s.

Definition place (s : state) : Prop :=
  match thread s with
  | TLoop j => (j ≤ rounds)%nat ∧ wq_flag s ≠ 0 ∧ at_start j s
  | TRecv j k => wq_flag s ≠ 0 ∧
      match k with
      | O => (j ≤ rounds)%nat ∧ at_start j s
      | S k => (j < rounds)%nat ∧ (k < RUNS)%nat ∧
          (pong s = URecv j k ∧ queue s = [ping_packet] ∨ pong s = UWait j (S k) ∧ queue s = [] ∧ carries (S k) s)
      end
  | TWait j k =>
      wq_flag s = 0 ∧
        ((j < rounds)%nat ∧ (k ≤ RUNS)%nat ∧ queue s = [] ∧ carries k s ∧
           (pong s = UWait j k ∨ pong s = UPut j k ∨ pong s = UFlag j k ∧ skb_global s ≠ None) ∨
         (∃ k', k = S k' ∧ (j < rounds)%nat ∧ (k' < RUNS)%nat ∧ pong s = URecv j k' ∧ queue s = [ping_packet]) ∨
         j = rounds ∧ k = 0%nat ∧ at_start j s) ∨
      wq_flag s = 1 ∧ (j < rounds)%nat ∧ (k ≤ RUNS)%nat ∧ behind j k s ∧ skb_global s ≠ None
  | TSend j k => wq_flag s = 1 ∧ (j < rounds)%nat ∧ (k < RUNS)%nat ∧ queue s = [] ∧ pong s = URecv j k
  | TExit => wq_flag s ≠ 0 ∧ ∃ j, at_start j s
  end.

Definition unloading (s : state) : Prop :=
  on_exit s = (match thread s with TExit => true | _ => false end) ∧
  match rmmod s with
  | ENone => thread_flag s = false ∧ on_exit s = false ∧ socket s = true
  | EWait => thread_flag s = true ∧ socket s = true
  | EDone => thread_flag s = true ∧ on_exit s = true ∧ socket s = false
  end.

Definition inv (s : state) : Prop := containers s ∧ place s ∧ unloading s.

(** How far the three are. *)
Definition packets (j k : nat) : nat := (j * S RUNS + k)%nat.
Definition total_packets : nat := packets rounds 0.
Definition thread_done (t : thread_pc) : nat :=
  match t with
  | TLoop j => 4 * packets j 0 | TRecv j k => 4 * packets j k + 1 | TWait j k => 4 * packets j k + 2
  | TSend j k => 4 * packets j k + 3 | TExit => 4 * total_packets + 3
  end.
Definition pong_done (u : pong_pc) : nat :=
  match u with
  | UWait j k => 4 * packets j k | UPut j k => 4 * packets j k + 1 | UFlag j k => 4 * packets j k + 2
  | URecv j k => 4 * packets j k + 3 | UExit => 4 * total_packets
  end.
Definition rmmod_done (e : exit_pc) : nat := match e with ENone => 0 | EWait => 1 | EDone => 2 end.
Definition progress (s : state) : nat := thread_done (thread s) + pong_done (pong s) + rmmod_done (rmmod s).

Lemma nl_RUNS_pos : (0 < RUNS)%nat.
Proof. unfold RUNS. lia. Qed.
Lemma nl_rounds_pos : (0 < rounds)%nat.
Proof. unfold rounds. lia. Qed.
#[local] Opaque RUNS rounds MAX_PAYLOAD.

Lemma nl_thread_inv s : inv s → ∀ r, thread_code s = Some r → ∃ s', r = Ok s' ∧ inv s' ∧ (progress s < progress s')%nat.
Proof.
  intros (Hc & Hp & Hu) r E. pose proof nl_RUNS_pos as HR.
  assert (∀ f skb q t u, containers (upd s f skb q t u)) as Hcu by (intros; by destruct Hc).
  assert (∀ f skb q t, thread s ≠ TExit → t ≠ TExit → unloading (upd s f skb q t (pong s))) as Huu.
  { intros f skb q t Ht Ht'. unfold unloading, upd in *. cbn. destruct (thread s), t; done. }
  unfold thread_code in E. unfold place in Hp. unfold inv, progress.
  destruct (thread s) as [j|j k|j k|j k|] eqn:Et; [..|done].
  - destruct Hp as (Hj & Hf & Hst). destruct (thread_flag s) eqn:Etf; injection E as <-; eexists; (split; [done|]).
    + split; [|cbn; unfold packets, total_packets, packets; nia]. split; [by destruct Hc|]. split.
      * split; [done|]. by exists j.
      * unfold unloading in *. rewrite Et in Hu. cbn. rewrite Etf in Hu. destruct (rmmod s); naive_solver.
    + split; [|cbn; lia]. split; [apply Hcu|]. split; [|by apply Huu]. by split_and!.
  - injection E as <-. eexists. split; [done|]. split; [|cbn; lia]. split; [apply Hcu|]. split; [|by apply Huu].
    cbn. left. split; [done|]. destruct Hp as [Hf Hk]. destruct k as [|k].
    + destruct Hk as [Hj [Hq Hst]]. destruct Hst as [(Hj' & Hpo & Hca)|[-> Hpo]].
      * left. split; [done|]. split; [lia|]. split; [done|]. split; [exact Hca|by left].
      * right. right. split; [done|]. split; [done|]. split; [done|by right].
    + destruct Hk as (Hj & Hk & [[Hpo Hq]|(Hpo & Hq & Hca)]).
      * right. left. exists k. done.
      * left. split; [done|]. split; [lia|]. split; [done|]. split; [exact Hca|by left].
  - destruct (Z.eqb_spec (wq_flag s) 1) as [Hf|]; [|done].
    destruct Hp as [[Hf' _]|(_ & Hj & Hk & Hb & Hskb)]; [congruence|].
    destruct (skb_global s) as [skb|]; [|done]. injection E as <-. eexists. split; [done|]. unfold behind in Hb.
    destruct (decide (k < RUNS)%nat) as [Hlt|Hge].
    + split; [|cbn; lia]. split; [apply Hcu|]. split; [|by apply Huu]. unfold place. cbn. naive_solver.
    + split; [|cbn; unfold packets; nia]. split; [apply Hcu|]. split; [|by apply Huu]. split_and!; [lia|done|exact Hb].
  - destruct Hp as (Hf & Hj & Hk & Hq & Hpo). injection E as <-. eexists. split; [done|].
    split; [|cbn; unfold packets; lia]. split; [apply Hcu|]. split; [|by apply Huu]. cbn. rewrite Hf.
    split; [done|]. split_and!; [done|done|]. left. by rewrite Hq.
Qed.

(** A payload for the next packet. *)
Lemma nl_with_payload_ok s p u : containers s → p = init_string ∨ p = pong_string → ∃ s', with_payload s p u = Ok s' ∧
  containers s' ∧ take 5 (server s') = p ∧ buffer s' = buffer s ∧ wq_flag s' = wq_flag s ∧ skb_global s' = skb_global s ∧
  queue s' = queue s ∧ thread s' = thread s ∧ pong s' = u ∧ rmmod s' = rmmod s ∧ (unloading s → unloading s').
Proof.
  intros [Hs Hc Hb] Hp. destruct (nl_add_payload_ok (server s) p Hs Hp) as (m & E & Hm & Ht). unfold with_payload. run E.
  eexists. split; [done|]. by split_and!.
Qed.

(** Where the thread is while pong's packet is being taken. *)
Lemma nl_serving s j k : place s → pong s = UPut j k ∨ pong s = UFlag j k →
  thread s = TWait j k ∧ wq_flag s = 0 ∧ (j < rounds)%nat ∧ (k ≤ RUNS)%nat ∧ queue s = [] ∧ carries k s ∧
  (pong s = UFlag j k → skb_global s ≠ None).
Proof.
  unfold place, behind, at_start. intros Hp Hpo. destruct (thread s) as [j'|j' k'|j' k'|j' k'|].
  1, 4, 5: naive_solver congruence.
  - destruct k'; naive_solver congruence.
  - destruct Hp as [[Hf Hp]|(_ & _ & _ & Hb & _)]; [|destruct (decide _); naive_solver congruence].
    destruct Hp as [(Hj & Hk & Hq & Hca & Hpo')|[Hp|Hp]]; [|naive_solver congruence..].
    assert (j' = j ∧ k' = k) as [-> ->] by (destruct Hpo, Hpo' as [?|[?|[? _]]]; split; congruence).
    split_and!; try done; try apply Hca. intros ?. destruct Hpo' as [?|[?|[_ ?]]]; [congruence..|done].
Qed.

(** ... and while pong has a ping to receive. *)
Lemma nl_receiving s j k p q : place s → pong s = URecv j k → queue s = p :: q →
  p = ping_packet ∧ q = [] ∧ (j < rounds)%nat ∧ (k < RUNS)%nat ∧
  (thread s = TRecv j (S k) ∧ wq_flag s ≠ 0 ∨ thread s = TWait j (S k) ∧ wq_flag s = 0).
Proof.
  unfold place, behind, at_start. intros Hp Hpo Hq. destruct (thread s) as [j'|j' k'|j' k'|j' k'|].
  1, 4, 5: naive_solver congruence.
  - destruct k'; naive_solver congruence.
  - destruct Hp as [[Hf Hp]|(_ & _ & _ & Hb & _)]; [naive_solver congruence|].
    destruct (decide _); naive_solver congruence.
Qed.

(** What the invariant says of the thread holds whatever pong does. *)
Lemma nl_pong_inv s : inv s → ∀ r, pong_main s = Some r → ∃ s', r = Ok s' ∧ inv s' ∧ (progress s < progress s')%nat.
Proof.
  intros (Hc & Hp & Hu) r E. pose proof nl_RUNS_pos as HR.
  assert (∀ f skb q u, containers (upd s f skb q (thread s) u)) as Hcu by (intros; by destruct Hc).
  assert (∀ f skb q u, unloading (upd s f skb q (thread s) u)) as Huu by done.
  unfold pong_main in E. unfold inv, progress.
  destruct (pong s) as [j k|j k|j k|j k|] eqn:Epo; [..|done].
  - destruct (Z.eqb_spec (wq_flag s) 0) as [Hf|]; [|done]. injection E as <-. eexists. split; [done|].
    split; [|cbn; lia]. split; [apply Hcu|]. split; [|apply Huu].
    unfold place in *. cbn. destruct (thread s) as [j'|j' k'|j' k'|j' k'|]; try (exfalso; naive_solver congruence).
    destruct Hp as [[_ Hp]|[Hf' _]]; [|congruence]. left. split; [done|].
    destruct Hp as [(Hj & Hk & Hq & Hca & Hpo)|[(k0 & _ & _ & _ & Hpo & _)|(-> & -> & _ & Hst)]];
      [|congruence|exfalso; destruct Hst as [[? _]|[_ ?]]; [lia|congruence]].
    assert (j' = j ∧ k' = k) as [-> ->] by (destruct Hpo as [?|[?|[? _]]]; split; congruence).
    left. split_and!; try done; try apply Hca. right. by left.
  - injection E as <-. destruct (nl_serving s j k Hp ltac:(by left)) as (Et & Hf & Hj & Hk & Hq & Hca & _).
    eexists. split; [done|]. split; [|cbn; lia]. split; [apply Hcu|]. split; [|apply Huu].
    unfold place. cbn. rewrite Et. left. split; [done|]. left. split_and!; try done; try apply Hca. right. by right.
  - destruct (nl_serving s j k Hp ltac:(by right)) as (Et & Hf & Hj & Hk & Hq & Hca & Hskb). specialize (Hskb Epo).
    destruct (decide (k < RUNS)%nat) as [Hlt|Hge]; [|destruct (decide (S j < rounds)%nat) as [Hlt|Hlast]].
    + injection E as <-. eexists. split; [done|]. split; [|cbn; lia]. split; [apply Hcu|]. split; [|apply Huu].
      unfold place, behind. cbn. rewrite Et. right. rewrite decide_True by done. by split_and!.
    + injection E as <-. destruct (nl_with_payload_ok (upd s 1 (skb_global s) (queue s) (thread s) UExit) init_string (UWait (S j) 0))
        as (s' & E & Hc' & Htk & _ & Ef & Es & Eq & Eth & Epo' & Er & Hun); [apply Hcu|by left|].
      exists s'. split; [exact E|]. split; [|rewrite Eth, Epo', Er; cbn; unfold packets; nia].
      split; [done|]. split; [|by apply Hun].
      unfold place, behind, at_start, carries. rewrite Eth, Ef, Es, Eq, Epo', Htk. cbn. rewrite Et. right.
      rewrite decide_False by done. split_and!; try done. by left.
    + injection E as <-. eexists. split; [done|]. split; [|cbn; unfold total_packets, packets; nia].
      split; [apply Hcu|]. split; [|apply Huu]. unfold place, behind, at_start. cbn. rewrite Et. right.
      rewrite decide_False by done. split_and!; try done. right. split; [lia|done].
  - destruct (queue s) as [|p q] eqn:Eq0; [done|]. destruct (nl_receiving s j k p q Hp Epo Eq0) as (-> & -> & Hj & Hk & Hth).
    injection E as <-. destruct (nl_receive_ok (client s) (buffer s) (cn_client _ Hc) (cn_buffer _ Hc))
      as (Hcl & b & Eb & Hb & Htb). rewrite Eb. cbn [mbind result_bind].
    match goal with |- ∃ s', with_payload ?x _ _ = _ ∧ _ => destruct (nl_with_payload_ok x pong_string (UWait j (S k)))
      as (s' & E & Hc' & Htk & Ebf & Ef & Es & Eq & Eth & Epo' & Er & Hun) end; [split; [apply Hc|done|done]|by right|].
    cbn in Ebf, Ef, Es, Eq, Eth, Er. exists s'. split; [exact E|].
    split; [|rewrite Eth, Epo', Er; cbn; unfold packets; lia]. split; [done|]. split; [|by apply Hun].
    assert (carries (S k) s') as Hca by (split; [exact Htk|intros _; by rewrite Ebf]).
    unfold place. rewrite Eth, Ef, Es, Eq, Epo'. destruct Hth as [[-> Hf]|[-> Hf]].
    + split; [done|]. split; [done|]. split; [done|]. by right.
    + left. split; [done|]. left. split; [done|]. split; [lia|]. split; [done|]. split; [done|by left].
Qed.

Lemma nl_rmmod_inv s s' : inv s → mod_exit s = Some s' → inv s' ∧ (progress s < progress s')%nat.
Proof.
  intros (Hc & Hp & Hu) E. unfold mod_exit in E. unfold unloading in Hu.
  destruct (rmmod s) eqn:Er; [injection E as <-|destruct (on_exit s) eqn:Eo; [injection E as <-|done]|done];
    (split; [|unfold progress; cbn; rewrite Er; cbn; lia]); (split; [by destruct Hc|]); (split; [exact Hp|]);
    unfold unloading; cbn; naive_solver.
Qed.

Lemma nl_step_inv s s' : inv s → step s s' → inv s' ∧ (progress s < progress s')%nat.
Proof.
  intros Hinv Hs. destruct Hs as [s s' E|s s' E|s s' E].
  - destruct (nl_thread_inv s Hinv _ E) as (s2 & [= ->] & H). exact H.
  - destruct (nl_pong_inv s Hinv _ E) as (s2 & [= ->] & H). exact H.
  - by apply nl_rmmod_inv.
Qed.

Lemma nl_run_inv k s s' : inv s → nsteps step k s s' → inv s' ∧ (k + progress s ≤ progress s')%nat.
Proof. intros. eapply nsteps_raises; [apply nl_step_inv|done|done]. Qed.

Lemma nl_start_inv : inv start.
Proof.
  pose proof nl_rounds_pos. Transparent MAX_PAYLOAD.
  split; [by split|]. split; [|by split_and!]. unfold place, at_start, carries. cbn [thread start]. split; [lia|]. split; [done|].
  split; [done|]. left. by split_and!.
Qed.

Lemma nl_inv_progress s : inv s → (progress s ≤ 8 * total_packets + 5)%nat.
Proof.
  intros (_ & Hp & _). pose proof nl_RUNS_pos as HR.
  assert (∀ j, at_start j s → (j ≤ rounds)%nat ∧ (pong_done (pong s) = 4 * packets j 0)%nat) as Hst.
  { intros j (_ & [(? & -> & _)|[-> ->]]); cbn; [lia|by unfold total_packets]. }
  assert (∀ j k, (j < rounds)%nat → (k ≤ RUNS)%nat → (4 * packets j k + 4 ≤ 4 * total_packets)%nat) as Hle
    by (unfold total_packets, packets; nia).
  assert (∀ j, (j ≤ rounds)%nat → (4 * packets j 0 ≤ 4 * total_packets)%nat) as Hle0
    by (unfold total_packets, packets; nia).
  assert (pong_done (pong s) ≤ 4 * total_packets)%nat as Hpo.
  { unfold place in Hp. destruct (thread s) as [j|j k|j k|j k|].
    - destruct Hp as (_ & _ & Hs). destruct (Hst j Hs) as [? ->]. by apply Hle0.
    - destruct k as [|k].
      + destruct Hp as (_ & _ & Hs). destruct (Hst j Hs) as [? ->]. by apply Hle0.
      + destruct Hp as (_ & Hj & Hk & Hp). pose proof (Hle j k Hj ltac:(lia)). pose proof (Hle j (S k) Hj ltac:(lia)).
        destruct Hp as [[-> _]|[-> _]]; cbn; lia.
    - destruct Hp as [[_ [Hp|[Hp|Hp]]]|(_ & Hj & Hk & Hb & _)].
      + destruct Hp as (Hj & Hk & _ & _ & Hp). pose proof (Hle j k Hj Hk). destruct Hp as [-> |[-> |[-> _]]]; cbn; lia.
      + destruct Hp as (k' & -> & Hj & Hk & -> & _). pose proof (Hle j k' Hj ltac:(lia)). cbn. lia.
      + destruct Hp as (_ & _ & Hs). destruct (Hst j Hs) as [? ->]. by apply Hle0.
      + unfold behind in Hb. destruct (decide _).
        * destruct Hb as [_ ->]. pose proof (Hle j k Hj Hk). cbn. lia.
        * destruct (Hst _ Hb) as [? ->]. by apply Hle0.
    - destruct Hp as (_ & Hj & Hk & _ & ->). pose proof (Hle j k Hj ltac:(lia)). cbn. lia.
    - destruct Hp as (_ & j & Hs). destruct (Hst j Hs) as [? ->]. by apply Hle0. }
  assert (thread_done (thread s) ≤ 4 * total_packets + 3)%nat as Hth.
  { unfold place in Hp. destruct (thread s) as [j|j k|j k|j k|]; cbn.
    - destruct Hp as (Hj & _). specialize (Hle0 j Hj). lia.
    - destruct k as [|k]; destruct Hp as (_ & Hj & Hp); [specialize (Hle0 j Hj); lia|].
      destruct Hp as [Hk _]. pose proof (Hle j (S k) Hj ltac:(lia)). lia.
    - destruct Hp as [[_ [Hp|[Hp|Hp]]]|(_ & Hj & Hk & _)].
      + destruct Hp as (Hj & Hk & _). pose proof (Hle j k Hj Hk). lia.
      + destruct Hp as (k' & -> & Hj & Hk & _). pose proof (Hle j (S k') Hj ltac:(lia)). lia.
      + destruct Hp as (-> & -> & _). specialize (Hle0 rounds ltac:(lia)). lia.
      + pose proof (Hle j k Hj Hk). lia.
    - destruct Hp as (_ & Hj & Hk & _). pose proof (Hle j k Hj ltac:(lia)). lia.
    - lia. }
  unfold progress. assert (rmmod_done (rmmod s) ≤ 2)%nat by (destruct (rmmod s); cbn; lia). lia.
Qed.

(** The thread and pong stand still only when the thread is gone, or when it
    waits for a packet of a round pong does not have. *)
Lemma nl_handshake_stuck s : inv s → thread_code s = None → pong_main s = None →
  thread s = TExit ∨ thread s = TWait rounds 0 ∧ pong s = UExit ∧ wq_flag s = 0.
Proof.
  intros (_ & Hp & _) Et Eu. unfold thread_code, pong_main, place, at_start in *.
  destruct (thread s) as [j|j k|j k|j k|]; [by destruct (thread_flag s)|done| |done|by left].
  right. destruct (Z.eqb_spec (wq_flag s) 1); [by destruct (skb_global s)|].
  destruct Hp as [[Hf [Hp|[Hp|Hp]]]|[? _]]; [| | |done].
  - rewrite Hf in Eu. exfalso. destruct Hp as (_ & _ & _ & _ & [Epo|[Epo|[Epo _]]]); rewrite Epo in Eu; [done|done|].
    repeat (destruct (decide _) in Eu); discriminate Eu.
  - exfalso. destruct Hp as (k' & _ & _ & _ & Epo & Eq). by rewrite Epo, Eq in Eu.
  - destruct Hp as (-> & -> & _ & [[? _]|[_ ?]]); [lia|done].
Qed.
End proofs.

(** As long as nobody unloads the module, the handshake goes on to its end. *)
Lemma nl_handshake_ends n s : inv s → rmmod s = ENone → (8 * total_packets + 5 - progress s ≤ n)%nat →
  ∃ s', rtc step s s' ∧ thread s' = TWait rounds 0 ∧ pong s' = UExit ∧ rmmod s' = ENone.
Proof.
  revert s. induction n as [|n IH]; intros s Hinv Hr Hn.
  all: destruct (thread_code s) as [r|] eqn:Et;
    [destruct (nl_thread_inv s Hinv r Et) as (s1 & -> & Hinv1 & Hlt); pose proof (nl_inv_progress s1 Hinv1)|].
  all: try (destruct (pong_main s) as [r|] eqn:Eu;
    [destruct (nl_pong_inv s Hinv r Eu) as (s1 & -> & Hinv1 & Hlt); pose proof (nl_inv_progress s1 Hinv1)|]).
  all: try lia.
  all: try (destruct (nl_handshake_stuck s Hinv Et Eu) as [Hx|(Hx & Hy & _)];
    [exfalso; destruct Hinv as (_ & _ & Ho & Hu); rewrite Hr in Hu; rewrite Hx in Ho; destruct Hu as (_ & Hu & _); congruence|
     exists s; split; [apply rtc_refl|done]]).
  - destruct (IH s1 Hinv1) as (s2 & Hs2 & Hend); [|lia|].
    { unfold thread_code in Et. repeat case_match; simplify_eq; done. }
    exists s2. split; [by eapply rtc_l; [apply step_thread|]|done].
  - destruct (IH s1 Hinv1) as (s2 & Hs2 & Hend); [|lia|].
    { unfold pong_main, with_payload in Eu. repeat case_match; simplify_eq; try done; inv_ok; simplify_eq; try done; cbn in *;
        repeat match goal with H : _ ≫= _ = Ok _ |- _ => apply bind_Ok in H as (? & ? & H) end; by simplify_eq. }
    exists s2. split; [by eapply rtc_l; [apply step_pong|]|done].
Qed.

(** A thread that waits for a round pong does not have waits for ever. *)
Lemma nl_waits_for_ever s s' : inv s → thread s = TWait rounds 0 → pong s = UExit → socket s = true → rtc step s s' →
  thread s' = TWait rounds 0 ∧ socket s' = true.
Proof.
  intros Hinv Et Eu Hso Hs. revert Hinv Et Eu Hso. induction Hs as [s|s1 s2 s3 H12 _ IH]; intros Hinv Et Eu Hso; [done|].
  destruct (nl_step_inv _ _ Hinv H12) as [Hinv2 _]. apply IH; [done|..];
    (destruct H12 as [s s' E|s s' E|s s' E];
      [exfalso; destruct Hinv as (_ & Hp & _); unfold thread_code, place in *; rewrite Et in E, Hp;
       destruct (Z.eqb_spec (wq_flag s) 1); [destruct Hp as [[? _]|(_ & ? & _)]; [congruence|lia]|done]
      |unfold pong_main in E; by rewrite Eu in E
      |destruct Hinv as (_ & _ & Ho & _); rewrite Et in Ho; unfold mod_exit in E; destruct (rmmod s);
       [injection E as <-; done|by rewrite Ho in E|done]]).
Qed.

(** Whatever the order of the thread, pong and rmmod, no step faults, every
    execution ends after at most [8 * 30 * 1001 + 5] steps, and pong's packets
    carry "init" first and then "pong", each after a received "ping". *)
Theorem ping_pong_nl_ksp :
  Z.of_nat total_packets = 30030 ∧
  (∀ k s, nsteps step k start s → (k ≤ 8 * total_packets + 5)%nat) ∧
  ∀ s, rtc step start s → ¬ faults s ∧
    ∀ j k, pong s = UPut j k →
      take 5 (server s) = (match k with O => init_string | S _ => pong_string end) ∧
      (k ≠ 0%nat → take 5 (buffer s) = ping_packet ++ [0]).
Proof.
  split; [unfold total_packets, packets, rounds, RUNS; lia|]. split.
  - intros k s Hk. destruct (nl_run_inv k _ s nl_start_inv Hk) as [Hinv Hl]. pose proof (nl_inv_progress s Hinv). lia.
  - intros s Hs. apply rtc_nsteps in Hs as [n Hn]. destruct (nl_run_inv n _ s nl_start_inv Hn) as [Hinv _]. split.
    + intros [f [E|E]]; [by destruct (nl_thread_inv s Hinv _ E) as (? & ? & _)|by destruct (nl_pong_inv s Hinv _ E) as (? & ? & _)].
    + intros j k Epo. destruct Hinv as (_ & Hp & _). apply (nl_serving s j k Hp). by left.
Qed.


(** A loaded module whose thread never was. *)
Definition dead (s : state) : Prop := on_exit s = false ∧ socket s = true ∧ thread s = TExit ∧ rmmod s ≠ EDone.

Lemma dead_step s s' : dead s → step s s' → dead s'.
Proof.
  intros (Ho & Hs & Ht & Hr) H. destruct H as [s s' E|s s' E|s s' E].
  - unfold thread_code in E. by rewrite Ht in E.
  - unfold pong_main, with_payload in E.
    destruct (pong s); repeat case_match; try discriminate E; injection E as E; inv_ok; by subst.
  - unfold mod_exit in E. rewrite Ho in E. destruct (rmmod s); try discriminate E. by injection E as <-.
Qed.

(** The check of mod_init is for 0, which kernel_thread does not return: without
    a thread the module is loaded all the same, no packet is ever answered, and
    rmmod waits for a completion that never comes.  A refused load would leave the
    socket behind. *)
Theorem nl_ksp_thread_failure :
  (∀ tid, 0 < tid → mod_init tid = (0, start)) ∧
  (mod_init 0).1 = - EIO ∧ socket (mod_init 0).2 = true ∧
  ∀ tid, tid < 0 → (mod_init tid).1 = 0 ∧
    ∀ s, rtc step (mod_init tid).2 s → socket s = true ∧ rmmod s ≠ EDone ∧ thread_code s = None.
Proof.
  split_and!; [|done|done|].
  - intros tid Ht. unfold mod_init. rewrite (proj2 (Z.ltb_lt 0 tid)) by lia. by rewrite (proj2 (Z.eqb_neq tid 0)) by lia.
  - intros tid Ht. unfold mod_init. rewrite (proj2 (Z.eqb_neq tid 0)), (proj2 (Z.ltb_ge 0 tid)) by lia. split; [done|].
    cbn [snd]. intros s H.
    enough (dead s) as (_ & ? & Et & ?) by (split_and!; [done|done|unfold thread_code; by rewrite Et]).
    revert H. apply (rtc_ind_r dead); [done|]. intros s1 s2 _ H Hd. by eapply dead_step.
Qed.
