(* ===== verification/PingNlUsp.v ===== *)
(** * prototypes/ping_pong_nl_usp: the handshake over netlink, started by the user

    ping.c is a kernel module that answers every packet with "pong"; pong.c
    sends 30 times 1000 packets and receives the answer to each. *)
From S2P Require Import Prelude GF256 Word Memory Syndrome Marshal Driver.
Local Open Scope Z_scope.

Definition RUNS : nat := Z.to_nat 1000.
Definition rounds : nat := 30.
Definition MAX_PAYLOAD : nat := 1024.

Definition gen_message_container : list Z := replicate MAX_PAYLOAD 0.
Definition add_payload (msg payload : list Z) : result (list Z) := strcpy msg payload.
Definition get_payload (msg payload : list Z) : result (list Z) := strcpy payload msg.

Definition ping_string : list Z := [112; 105; 110; 103; 0].
(** nlmsg_put makes room for [strlen("pong")] bytes: the packet has no zero. *)
Definition pong_packet : list Z := [112; 111; 110; 103].

(** ** The kernel module *)
(** A header: [nlmsg_len], [nlmsg_pid], [nlmsg_seq]. *)
Record nlmsghdr := { nlmsg_len : Z; nlmsg_pid : Z; nlmsg_seq : Z }.
(** nlmsg_len of a packet with four bytes of data *)
Definition NLMSG_LENGTH4 : Z := 20.

(** What the kernel's memory is like during a call: whether nlmsg_new and
    nlmsg_put succeed (the latter returns NULL if not), and the distance from
    the header of the request to the end of the answer. *)
Record kernel := { new_ok : bool; put_ok : bool; distance : Z }.

(** [reed_solomon_netlink_server] of a request [nlh]: the header of the request
    afterwards, and the answer, if any, with its receiver and its header. *)
Definition reed_solomon_netlink_server (k : kernel) (nlh : nlmsghdr) : result (nlmsghdr * option (Z * nlmsghdr * list Z)) :=
  let pid := nlmsg_pid nlh in
  if negb (new_ok k) then Ok (nlh, None) else
  if negb (put_ok k) then Err NullDeref else
  let hdr := {| nlmsg_len := NLMSG_LENGTH4; nlmsg_pid := 0; nlmsg_seq := nlmsg_seq nlh |} in
  (* nlmsg_end(ret_skb, nlh) *)
  let nlh := {| nlmsg_len := distance k; nlmsg_pid := nlmsg_pid nlh; nlmsg_seq := nlmsg_seq nlh |} in
  Ok (nlh, Some (pid, hdr, pong_packet)).

(** [mod_init] loads whatever netlink_kernel_create returns; [mod_exit] releases
    the socket if there is one. *)
Definition mod_init (created : bool) : Z * bool := (0, created).
Definition mod_exit (nl_sk : bool) : result bool := if nl_sk then Ok false else Ok nl_sk.

(** ** pong.c *)
Record pong_state := { server : list Z; client : list Z; buffer : list Z; received : nat }.

(** One exchange: the answer of the kernel arrives in the socket of the process
    it is addressed to.  [None]: recvmsg waits for an answer that is not sent. *)
Definition exchange (getpid : Z) (k : kernel) (s : pong_state) : result (option pong_state) :=
  server ← add_payload (server s) ping_string;
  '(_, answer) ← reed_solomon_netlink_server k {| nlmsg_len := 1040; nlmsg_pid := getpid; nlmsg_seq := 0 |};
  match answer with
  | None => Ok None
  | Some (pid, _, p) =>
      if pid =? getpid then
        let client := p ++ drop (length p) (client s) in
        buffer ← get_payload client (buffer s);
        Ok (Some {| server := server; client := client; buffer := buffer; received := S (received s) |})
      else Ok None
  end.

(** The [n] exchanges left; [kern] is the kernel's memory in each of them.  The
    number of answers received, and whether pong came to its end. *)
Fixpoint exchanges (getpid : Z) (kern : nat → kernel) (n : nat) (s : pong_state) : result (bool * pong_state) :=
  match n with
  | O => Ok (true, s)
  | S n =>
      r ← exchange getpid (kern (received s)) s;
      match r with
      | None => Ok (false, s)
      | Some s => exchanges getpid kern n s
      end
  end.

Definition main (getpid : Z) (kern : nat → kernel) : result (bool * pong_state) :=
  exchanges getpid kern (rounds * RUNS)
    {| server := gen_message_container; client := gen_message_container; buffer := replicate MAX_PAYLOAD 0; received := 0 |}.

(** ** What holds *)
Definition ready (s : pong_state) : Prop :=
  length (server s) = MAX_PAYLOAD ∧ drop 4 (client s) = replicate 1020 0 ∧ length (buffer s) = MAX_PAYLOAD ∧
  (received s ≠ 0%nat → take 5 (buffer s) = pong_packet ++ [0]).

(** The kernel's memory serves a request. *)
Definition serves (k : kernel) : Prop := new_ok k = true ∧ put_ok k = true.

(** A string of five bytes, its zero included, gets into a container. *)
Lemma nlu_put_string dst src : length dst = MAX_PAYLOAD → list_find (λ b, b = 0) src = Some (4%nat, 0) →
  ∃ dst', strcpy dst src = Ok dst' ∧ length dst' = MAX_PAYLOAD ∧ take 5 dst' = take 5 src.
Proof.
  unfold MAX_PAYLOAD. intros Hl Hf. exists (list_inserts 0 (take 5 src) dst).
  assert (length (take 5 src) = 5%nat) as H5.
  { apply list_find_Some in Hf as (Hlk & _). apply lookup_lt_Some in Hlk. rewrite length_take. lia. }
  split; [by apply (strcpy_ok dst src 4); [|lia]|]. split; [by rewrite length_inserts|].
  rewrite inserts_prefix by lia. rewrite take_app_le by lia. by rewrite take_take.
Qed.

Lemma nlu_exchange_ok getpid k s : ready s → serves k →
  ∃ s', exchange getpid k s = Ok (Some s') ∧ ready s' ∧ received s' = S (received s).
Proof.
  intros (Hs & Hc & Hb & _) [Hn Hp]. unfold exchange, add_payload.
  destruct (nlu_put_string (server s) ping_string Hs eq_refl) as (sv & E1 & Hsv & _). run E1.
  unfold reed_solomon_netlink_server. rewrite Hn, Hp. cbn [negb mbind result_bind nlmsg_pid].
  rewrite Z.eqb_refl. change (length pong_packet) with 4%nat. rewrite Hc.
  destruct (nlu_put_string (buffer s) (pong_packet ++ replicate 1020 0) Hb eq_refl) as (b & E2 & Hb2 & Ht). unfold get_payload. run E2.
  eexists. split; [done|]. by split.
Qed.

Lemma nlu_exchange_refused getpid k s : ready s → new_ok k = false → exchange getpid k s = Ok None.
Proof.
  intros (Hs & _) Hn. unfold exchange, add_payload. destruct (nlu_put_string (server s) ping_string Hs eq_refl) as (sv & E1 & _). run E1.
  unfold reed_solomon_netlink_server. by rewrite Hn.
Qed.

Lemma nlu_exchanges_ok getpid kern n s : ready s → (∀ i, (received s ≤ i < received s + n)%nat → serves (kern i)) →
  ∃ s', exchanges getpid kern n s = Ok (true, s') ∧ ready s' ∧ received s' = (received s + n)%nat.
Proof.
  revert s. induction n as [|n IH]; intros s Hs Hk; cbn [exchanges]; [exists s; by rewrite Nat.add_0_r|].
  destruct (nlu_exchange_ok getpid (kern (received s)) s Hs) as (s1 & E & Hs1 & Hr); [apply Hk; lia|]. run E.
  destruct (IH s1 Hs1) as (s' & E' & Hs' & Hr'); [intros i Hi; apply Hk; lia|]. exists s'. split; [exact E'|]. split; [done|lia].
Qed.

Lemma nlu_exchanges_refused getpid kern n m s : ready s → (n < m)%nat →
  (∀ i, (received s ≤ i < received s + n)%nat → serves (kern i)) → new_ok (kern (received s + n)%nat) = false →
  ∃ s', exchanges getpid kern m s = Ok (false, s') ∧ received s' = (received s + n)%nat.
Proof.
  revert m s. induction n as [|n IH]; intros m s Hs Hm Hk Hn; (destruct m as [|m]; [lia|]); cbn [exchanges].
  - rewrite Nat.add_0_r in *. run (nlu_exchange_refused getpid (kern (received s)) s Hs Hn). by exists s.
  - destruct (nlu_exchange_ok getpid (kern (received s)) s Hs) as (s1 & E & Hs1 & Hr); [apply Hk; lia|]. run E.
    destruct (IH m s1 Hs1) as (s' & E' & Hr'); [lia|intros i Hi; apply Hk; lia|by rewrite Hr, Nat.add_succ_comm|].
    exists s'. split; [exact E'|lia].
Qed.

Lemma nlu_start_ready : ready {| server := gen_message_container; client := gen_message_container;
  buffer := replicate MAX_PAYLOAD 0; received := 0 |}.
Proof. by split_and!. Qed.

(** As long as the kernel has memory, pong gets through its 30000
    exchanges, with "pong" in its buffer; the first refused allocation leaves
    it waiting for ever, for the request is dropped without an answer.  The
    answer is sent with the right length, though nlmsg_end is given the header
    of the request, whose length it overwrites. *)
Theorem ping_pong_nl_usp getpid kern :
  ((∀ i, (i < rounds * RUNS)%nat → serves (kern i)) →
     ∃ s, main getpid kern = Ok (true, s) ∧ Z.of_nat (received s) = 30000 ∧ take 5 (buffer s) = pong_packet ++ [0]) ∧
  (∀ n, (n < rounds * RUNS)%nat → (∀ i, (i < n)%nat → serves (kern i)) → new_ok (kern n) = false →
     ∃ s, main getpid kern = Ok (false, s) ∧ received s = n) ∧
  (∀ k nlh nlh' pid hdr p, reed_solomon_netlink_server k nlh = Ok (nlh', Some (pid, hdr, p)) →
     nlmsg_len hdr = 16 + Z.of_nat (length p) ∧ nlmsg_len nlh' = distance k).
Proof.
  assert (Z.of_nat (rounds * RUNS) = 30000) as HN by (unfold rounds, RUNS; lia).
  unfold main. generalize dependent (rounds * RUNS)%nat. intros N HN. split; [|split].
  - intros Hk. destruct (nlu_exchanges_ok getpid kern N _ nlu_start_ready) as (s & E & (_ & _ & _ & Hb) & Hr); [cbn; intros; apply Hk; lia|].
    cbn in Hr. exists s. split; [exact E|]. split; [lia|]. apply Hb. lia.
  - intros n Hn Hk Hf. destruct (nlu_exchanges_refused getpid kern n N _ nlu_start_ready) as (s & E & Hr);
      [done|cbn; intros; apply Hk; lia|done|]. by exists s.
  - intros k nlh nlh' pid hdr p E. unfold reed_solomon_netlink_server in E.
    destruct (new_ok k), (put_ok k); try discriminate E. injection E as <- <- <- <-. done.
Qed.

(** The check of nlmsg_put does not catch its failure: it looks for an error
    pointer and the function returns NULL, which is then written through. *)
Theorem nl_usp_put_fails getpid k s : ready s → new_ok k = true → put_ok k = false → exchange getpid k s = Err NullDeref.
Proof.
  intros (Hs & _) Hn Hp. unfold exchange, add_payload. destruct (nlu_put_string (server s) ping_string Hs eq_refl) as (sv & E1 & _). run E1.
  unfold reed_solomon_netlink_server. by rewrite Hn, Hp.
Qed.

(** ** Witnesses *)
Lemma ping_pong_nl_usp_witness :
  ∃ s, main 4711 (λ _, {| new_ok := true; put_ok := true; distance := -64 |}) = Ok (true, s) ∧
    Z.of_nat (received s) = 30000 ∧ take 5 (buffer s) = pong_packet ++ [0].
Proof. apply (ping_pong_nl_usp 4711 (λ _, {| new_ok := true; put_ok := true; distance := -64 |})). by intros i _. Defined.

Lemma nl_usp_put_fails_witness : exchange 1 {| new_ok := true; put_ok := false; distance := 0 |}
  {| server := gen_message_container; client := gen_message_container; buffer := replicate MAX_PAYLOAD 0; received := 0 |} =
  Err NullDeref.
Proof. apply (nl_usp_put_fails 1); [apply nlu_start_ready|reflexivity|reflexivity]. Defined.
