(* ===== verification/MemCheck.v ===== *)
(** * tools/cuda_memcheck/cuda_memcheck.cu: the memory test

    The card under test is an interface, [Card]: a memory that may be faulty.
    The program fills all memory it can get with a byte and reads it back. *)
From S2P Require Import Prelude GF256 Word Memory Cstring.
Local Open Scope string_scope.
Local Open Scope list_scope.
Local Open Scope Z_scope.

(** What cudaMalloc returns: success with the address, no memory, or another
    error. *)
Inductive cudaError := cudaSuccess (p : Z) | cudaErrorMemoryAllocation | cudaErrorOther.

(** The CUDA devices and the heap of the process.  [host_to_device] and
    [device_to_host] are cudaMemcpy with the state of the device; the latter
    gives what the [n] bytes of host memory hold afterwards. *)
Class Card (state : Type) := {
  device_memory : nat → Z;                           (* cuDeviceTotalMem *)
  cudaSetDevice : nat → state → state;
  card_malloc : Z → state → cudaError * state;       (* on the device that is set *)
  card_free : Z → state → state;
  host_to_device : Z → list Z → state → state;
  device_to_host : Z → list Z → state → list Z;
  host_malloc : Z → bool
}.

Definition MB : Z := 1024 * 1024.
Definition u32 (z : Z) : Z := z mod 2 ^ 32.
(** The argument of malloc: an [int] converted to [size_t]. *)
Definition size_of_int (z : Z) : Z := z mod 2 ^ 64.
Definition patterns : list Z := [85; 170; 255; 0].

Section memcheck.
Context {state : Type} {C : Card state}.

(** ** gen_pattern *)
(** The comparison, from byte [i]: the first bad address. *)
Fixpoint compare (i : Z) (pattern : Z) (pattern_pointer : list Z) : option Z :=
  match pattern_pointer with
  | [] => None
  | b :: bs => if b =? pattern then compare (i + 1) pattern bs else Some i
  end.

(** The 30 rounds; [n] are left.  The first result is 1 after a bad byte. *)
Fixpoint pattern_rounds (n : nat) (pattern : Z) (DEVICE_PQ : Z) (freemem : nat) (s : state) : Z * state :=
  match n with
  | O => (0, s)
  | S n =>
      let s := host_to_device DEVICE_PQ (replicate freemem pattern) s in
      match compare 0 pattern (device_to_host DEVICE_PQ (replicate freemem 0) s) with
      | Some _ => (1, card_free DEVICE_PQ s)
      | None => pattern_rounds n pattern DEVICE_PQ freemem s
      end
  end.

Definition gen_pattern (pattern DEVICE_PQ freemem : Z) (s : state) : result (Z * state) :=
  require (host_malloc (size_of_int freemem)) NullDeref;;
  let pattern := if pattern =? 0 then 255 else pattern in
  Ok (pattern_rounds 30 pattern DEVICE_PQ (Z.to_nat freemem) s).

(** ** main *)
(** The loop that asks for less and less memory. *)
Fixpoint get_memory (fuel : nat) (freemem DEVICE_PQ : Z) (result_ : cudaError) (s : state) : result (option (Z * Z) * state) :=
  match result_ with
  | cudaErrorMemoryAllocation =>
      match fuel with
      | O => Err OutOfFuel
      | S fuel =>
          let freemem := u32 (freemem - MB) in
          let '(r, s) := card_malloc freemem s in
          if freemem <? MB then Ok (None, s) else get_memory fuel freemem DEVICE_PQ r s
      end
  | cudaSuccess p => Ok (Some (freemem, p), s)
  | cudaErrorOther => Ok (Some (freemem, DEVICE_PQ), s)
  end.
Definition memory_fuel : nat := Z.to_nat 4097.

(** The patterns of one round, in order; [true]: none failed. *)
Fixpoint run_patterns (ps : list Z) (DEVICE_PQ freemem : Z) (s : state) : result (bool * state) :=
  match ps with
  | [] => Ok (true, s)
  | p :: ps =>
      '(ret, s) ← gen_pattern p DEVICE_PQ freemem s;
      if ret =? 1 then Ok (false, s) else run_patterns ps DEVICE_PQ freemem s
  end.

Fixpoint durations_loop (durations : nat) (DEVICE_PQ freemem : Z) (s : state) : result (bool * state) :=
  match durations with
  | O => Ok (true, s)
  | S durations =>
      '(good, s) ← run_patterns patterns DEVICE_PQ freemem s;
      if good : bool then durations_loop durations DEVICE_PQ freemem s else Ok (false, s)
  end.

(** One device; DEVICE_PQ is what the one before it left. *)
Definition check_device (durations : nat) (device : nat) (DEVICE_PQ : Z) (s : state) : result (bool * Z * state) :=
  let s := cudaSetDevice device s in
  let total := u32 (device_memory device) in
  let '(r, s) := card_malloc total s in
  '(got, s) ← get_memory memory_fuel total DEVICE_PQ r s;
  match got with
  | None => Ok (false, DEVICE_PQ, s)
  | Some (freemem, DEVICE_PQ) =>
      '(good, s) ← durations_loop durations DEVICE_PQ (to_int freemem) s;
      Ok (good, DEVICE_PQ, if good : bool then card_free DEVICE_PQ s else s)
  end.

Fixpoint devices (durations : nat) (n device : nat) (DEVICE_PQ : Z) (s : state) : result (Z * state) :=
  match n with
  | O => Ok (0, s)
  | S n =>
      '(good, DEVICE_PQ, s) ← check_device durations device DEVICE_PQ s;
      if good : bool then devices durations n (S device) DEVICE_PQ s else Ok (1, s)
  end.

(** [main]: the exit code.  [junk] is the uninitialised DEVICE_PQ. *)
Definition main (argv : list string) (deviceCount : nat) (junk : Z) (s : state) : result (Z * state) :=
  match argv with
  | _ :: arg :: _ =>
      let durations := atoi arg in
      if (durations <? 1) || (durations >? 20) then Ok (1, s)
      else devices (Z.to_nat durations) deviceCount 0 junk s
  | _ => devices 1 deviceCount 0 junk s
  end.
End memcheck.

(** ** Getting memory *)
Section get_memory.
Context {state : Type} {C : Card state}.

Lemma u32_small z : 0 ≤ z < 2 ^ 32 → u32 z = z.
Proof. intros. unfold u32. by rewrite Z.mod_small. Qed.

Lemma u32_range z : 0 ≤ u32 z < 2 ^ 32.
Proof. unfold u32. apply Z.mod_pos_bound. lia. Qed.

(** From [f] bytes on, at most [f / MB] requests fail before the loop gives up;
    with less than a megabyte the first subtraction wraps around. *)
Lemma get_memory_ends fuel f p r s : 0 ≤ f < 2 ^ 32 →
  (if f <? MB then 4096 else f / MB) ≤ Z.of_nat fuel → ∃ out, get_memory fuel f p r s = Ok out.
Proof using Type.
  revert f r s. induction fuel as [|fuel IH]; intros f r s Hf Hfuel.
  - destruct (Z.ltb_spec f MB); [lia|]. assert (1 ≤ f / MB) by (apply Z.div_le_lower_bound; unfold MB in *; lia). lia.
  - cbn [get_memory]. destruct r; [by eexists| |by eexists].
    destruct (card_malloc (u32 (f - MB)) s) as [r s1]. destruct (Z.ltb_spec (u32 (f - MB)) MB) as [|Hge]; [by eexists|].
    apply IH; [apply u32_range|]. destruct (Z.ltb_spec (u32 (f - MB)) MB); [lia|].
    destruct (Z.ltb_spec f MB) as [Hl|Hl].
    + unfold u32. rewrite <-(Z.mod_add _ 1), Z.mod_small by (unfold MB in *; lia).
      assert ((f - MB + 1 * 2 ^ 32) / MB < 4096) by (apply Z.div_lt_upper_bound; unfold MB in *; lia). lia.
    + rewrite u32_small by (unfold MB in *; lia). replace (f - MB) with (f + (-1) * MB) by lia.
      rewrite Z.div_add by done. lia.
Qed.

(** The search for memory ends on every card, also where the request
    wraps around below zero, and the whole test ends with an exit code unless
    the host's malloc fails. *)
Theorem memcheck_terminates argv deviceCount junk s : (∀ n, host_malloc n = true) →
  ∃ code s', main argv deviceCount junk s = Ok (code, s') ∧ (code = 0 ∨ code = 1).
Proof using Type.
  intros Hm.
  assert (∀ pat p f s, ∃ out, gen_pattern pat p f s = Ok out) as Hgen.
  { intros. unfold gen_pattern. rewrite Hm. bind_step. by eexists. }
  assert (∀ ps p f s, ∃ out, run_patterns ps p f s = Ok out) as Hps.
  { induction ps as [|pat ps IH]; intros p f s1; cbn [run_patterns]; [by eexists|].
    destruct (Hgen pat p f s1) as ([ret s2] & ->). bind_step. destruct (ret =? 1); [by eexists|apply IH]. }
  assert (∀ n p f s, ∃ out, durations_loop n p f s = Ok out) as Hdur.
  { induction n as [|n IH]; intros p f s1; cbn [durations_loop]; [by eexists|].
    destruct (Hps patterns p f s1) as ([[] s2] & ->); bind_step; [apply IH|by eexists]. }
  assert (∀ dur d p s, ∃ out, check_device dur d p s = Ok out) as Hdev.
  { intros dur d p s1. unfold check_device. pose proof (u32_range (device_memory d)) as Hr.
    destruct (card_malloc _ _) as [r s2]. destruct (get_memory_ends memory_fuel (u32 (device_memory d)) p r s2 Hr)
      as ([[[f q]|] s3] & ->).
    - unfold memory_fuel. destruct (_ <? _); [lia|].
      assert (u32 (device_memory d) / MB < 4096); [apply Z.div_lt_upper_bound; unfold MB in *; lia|lia].
    - bind_step. destruct (Hdur dur q (to_int f) s3) as ([good s4] & ->). bind_step. by eexists.
    - bind_step. by eexists. }
  assert (∀ n dur d p s, ∃ code s', devices dur n d p s = Ok (code, s') ∧ (code = 0 ∨ code = 1)) as Hall.
  { induction n as [|n IH]; intros dur d p s1; cbn [devices]; [eexists _, _; split; [done|by left]|].
    destruct (Hdev dur d p s1) as ([[[] q] s2] & ->); bind_step; [apply IH|eexists _, _; split; [done|by right]]. }
  unfold main. destruct argv as [|a [|b argv]]; [apply Hall..|].
  destruct (_ || _); [eexists _, _; split; [done|by right]|apply Hall].
Qed.
End get_memory.

(** ** The verdict

    Cards whose answers depend on what was written last only: [current] is the
    device that is set, [fits] what can be allocated on it, and [reads] what it
    makes of the bytes it is given. *)
Class CardLaws (state : Type) {C : Card state} (current : state → nat) (fits : nat → Z → bool) (reads : nat → list Z → list Z) := {
  cudaSetDevice_ok d s : current (cudaSetDevice d s) = d;
  card_malloc_ok n s : ∃ p s', current s' = current s ∧
    card_malloc n s = (if fits (current s) n then cudaSuccess p else cudaErrorMemoryAllocation, s');
  card_free_ok p s : current (card_free p s) = current s;
  host_to_device_ok p bs s : current (host_to_device p bs s) = current s;
  device_to_host_ok p bs buf s : length buf = length bs →
    device_to_host p buf (host_to_device p bs s) = reads (current s) bs;
  reads_length d bs : length (reads d bs) = length bs
}.

Section verdict.
Context {state : Type} {C : Card state} (current : state → nat) (fits : nat → Z → bool) (reads : nat → list Z → list Z).
Context {L : CardLaws state current fits reads}.

(** Device [d] gives back [n] bytes [b] as they are. *)
Definition keeps (d : nat) (n : nat) (b : Z) : Prop := reads d (replicate n b) = replicate n b.
#[local] Instance keeps_dec d n b : Decision (keeps d n b) := decide (_ = _).

(** The size that is tested: the largest of [total], [total - MB], ... that
    the card has free. *)
Definition granted (fits : Z → bool) (total f : Z) : Prop := ∃ k, 0 ≤ k ∧ f = total - k * MB ∧ fits f = true ∧
  (0 < k → MB ≤ f) ∧ ∀ j, 0 ≤ j < k → fits (total - j * MB) = false.

Definition good_device (d : nat) : Prop := ∃ f, granted (fits d) (device_memory d) f ∧
  Forall (keeps d (Z.to_nat f)) [85; 170; 255].

Lemma compare_spec i b l : compare i b l = None ↔ l = replicate (length l) b.
Proof using Type.
  revert i. induction l as [|x l IH]; intros i; [done|]. cbn [compare length replicate].
  destruct (Z.eqb_spec x b) as [->|Hne]; [rewrite IH; split; congruence|split; congruence].
Qed.

Lemma compare_keeps d f b : compare 0 b (reads d (replicate f b)) = None ↔ keeps d f b.
Proof using L. rewrite compare_spec, reads_length, length_replicate. done. Qed.

(** One round: what is compared is what the card reads. *)
Lemma round_reads p f b s :
  device_to_host p (replicate f 0) (host_to_device p (replicate f b) s) = reads (current s) (replicate f b).
Proof using L. apply device_to_host_ok. by rewrite !length_replicate. Qed.

Lemma pattern_rounds_spec n b p f s : ∃ s', current s' = current s ∧
  pattern_rounds (S n) b p f s = (if decide (keeps (current s) f b) then 0 else 1, s').
Proof using L.
  revert s. induction n as [|n IH]; intros s; cbn [pattern_rounds]; rewrite round_reads;
    pose proof (compare_keeps (current s) f b) as Hc; destruct (compare _ _ _) as [i|] eqn:E.
  1, 3: rewrite decide_False by (intros Hk%Hc; done); eexists; split; [|done]; by rewrite card_free_ok, host_to_device_ok.
  - rewrite decide_True by by apply Hc. eexists. split; [|done]. apply host_to_device_ok.
  - destruct (IH (host_to_device p (replicate f b) s)) as (s' & Hs & E'). rewrite host_to_device_ok in Hs, E'.
    exists s'. by split.
Qed.

Context (Hmalloc : ∀ n, 0 ≤ n < 2 ^ 31 → host_malloc n = true).

Lemma gen_pattern_spec b p f s : 0 ≤ f < 2 ^ 31 → ∃ s', current s' = current s ∧
  gen_pattern b p f s = Ok (if decide (keeps (current s) (Z.to_nat f) (if b =? 0 then 255 else b)) then 0 else 1, s').
Proof using L Hmalloc.
  intros Hf. unfold gen_pattern, size_of_int. rewrite Z.mod_small, Hmalloc by lia. bind_step.
  destruct (pattern_rounds_spec 29 (if b =? 0 then 255 else b) p (Z.to_nat f) s) as (s' & Hs & E).
  exists s'. split; [done|]. by rewrite E.
Qed.

Lemma run_patterns_spec ps p f s : 0 ≤ f < 2 ^ 31 → ∃ s', current s' = current s ∧
  run_patterns ps p f s = Ok (bool_decide (Forall (λ b, keeps (current s) (Z.to_nat f) (if b =? 0 then 255 else b)) ps), s').
Proof using L Hmalloc.
  intros Hf. revert s. induction ps as [|b ps IH]; intros s; cbn [run_patterns].
  { exists s. split; [done|]. by rewrite bool_decide_true. }
  destruct (gen_pattern_spec b p f s Hf) as (s1 & Hs1 & ->). bind_step. case_decide as Hk; cbn [Z.eqb].
  - destruct (IH s1) as (s2 & Hs2 & E). exists s2. split; [congruence|]. rewrite E, Hs1. repeat f_equal.
    apply bool_decide_ext. rewrite Forall_cons. naive_solver.
  - exists s1. split; [done|]. rewrite bool_decide_false; [done|]. by intros [? _]%Forall_cons.
Qed.

(** A second round of the same patterns tells nothing new. *)
Lemma durations_spec n p f s : 0 ≤ f < 2 ^ 31 → ∃ s', current s' = current s ∧
  durations_loop (S n) p f s = Ok (bool_decide (Forall (keeps (current s) (Z.to_nat f)) [85; 170; 255]), s').
Proof using L Hmalloc.
  intros Hf. assert (∀ s, bool_decide (Forall (λ b, keeps (current s) (Z.to_nat f) (if b =? 0 then 255 else b)) patterns) =
    bool_decide (Forall (keeps (current s) (Z.to_nat f)) [85; 170; 255])) as Hp.
  { intros s1. apply bool_decide_ext. unfold patterns. rewrite !Forall_cons, !Forall_nil. cbn. naive_solver. }
  revert s. induction n as [|n IH]; intros s; cbn [durations_loop];
    destruct (run_patterns_spec patterns p f s Hf) as (s1 & Hs1 & ->); bind_step; rewrite Hp.
  - exists s1. split; [done|]. by case_bool_decide.
  - case_bool_decide as Hk; [|by exists s1].
    destruct (IH s1) as (s2 & Hs2 & E). exists s2. split; [congruence|]. rewrite Hs1, bool_decide_true in E by done. exact E.
Qed.

(** The loop finds the granted size, or gives up because there is none. *)
Lemma get_memory_spec total p : 0 ≤ total < 2 ^ 32 → ∀ fuel k s out s', 0 ≤ k → 0 ≤ total - k * MB → (0 < k → MB ≤ total - k * MB) →
  (∀ j, 0 ≤ j < k → fits (current s) (total - j * MB) = false) → MB ≤ total →
  (let '(r, s) := card_malloc (total - k * MB) s in get_memory fuel (total - k * MB) p r s) = Ok (out, s') →
  current s' = current s ∧
  match out with
  | Some (f, _) => granted (fits (current s)) total f
  | None => ∀ f, ¬ granted (fits (current s)) total f
  end.
Proof using L.
  intros Ht. induction fuel as [|fuel IH]; intros k s out s' Hk Hpos Hmb Hno Htotal;
    destruct (card_malloc_ok (total - k * MB) s) as (q & s1 & Hs1 & ->);
    destruct (fits (current s) (total - k * MB)) eqn:Ef; cbn [get_memory].
  1, 3: intros [= <- <-]; split; [done|]; by exists k.
  { done. }
  assert (∀ j, 0 ≤ j < k + 1 → fits (current s) (total - j * MB) = false) as Hno'.
  { intros j Hj. destruct (decide (j = k)) as [->|]; [done|]. apply Hno. lia. }
  assert (MB ≤ total - k * MB) as Hge. { destruct (decide (k = 0)) as [->|]; [lia|]. apply Hmb. lia. }
  rewrite u32_small by (unfold MB in *; lia). replace (total - k * MB - MB) with (total - (k + 1) * MB) by lia.
  destruct (Z.ltb_spec (total - (k + 1) * MB) MB) as [Hlt|Hge'].
  - destruct (card_malloc_ok (total - (k + 1) * MB) s1) as (q2 & s2 & Hs2 & ->). intros [= <- <-].
    split; [congruence|]. intros f (j & Hj & -> & Hf & Hfj & Hjs).
    destruct (decide (j < k + 1)) as [Hjk|Hjk]; [by rewrite Hno' in Hf|]. specialize (Hfj ltac:(lia)). unfold MB in *. lia.
  - intros E. destruct (IH (k + 1) s1 out s') as [H1 H2]; [lia..|by rewrite Hs1|done| |by rewrite <-Hs1].
    by destruct (card_malloc _ s1).
Qed.

Lemma granted_unique (ok : Z → bool) total f1 f2 : granted ok total f1 → granted ok total f2 → f1 = f2.
Proof using Type.
  intros (k1 & H1 & -> & Hf1 & _ & Hno1) (k2 & H2 & -> & Hf2 & _ & Hno2).
  destruct (Z.lt_trichotomy k1 k2) as [Hk|[->|Hk]]; [|done|].
  - by rewrite Hno2 in Hf1 by lia.
  - by rewrite Hno1 in Hf2 by lia.
Qed.

Lemma granted_range (ok : Z → bool) total f : granted ok total f → 0 ≤ total → 0 ≤ f ≤ total.
Proof using Type.
  intros (k & Hk & -> & _ & Hmb & _) Ht. destruct (decide (k = 0)) as [->|]; [lia|].
  specialize (Hmb ltac:(lia)). unfold MB in *. lia.
Qed.

Context (Hmem : ∀ d, MB ≤ device_memory d < 2 ^ 31).

Lemma check_device_spec n d p s :
  ∃ g q s', check_device (S n) d p s = Ok (g, q, s') ∧ (g = true ↔ good_device d).
Proof using L Hmalloc Hmem.
  unfold check_device. pose proof (Hmem d) as Hd. unfold MB in Hd. rewrite u32_small by lia. set (s0 := cudaSetDevice d s).
  assert (current s0 = d) as Hs0 by apply cudaSetDevice_ok. set (total := device_memory d) in *.
  pose proof (λ r s, get_memory_ends memory_fuel total p r s) as Hends.
  pose proof (λ out s', get_memory_spec total p ltac:(lia) memory_fuel 0 s0 out s') as Hget.
  rewrite Z.mul_0_l, Z.sub_0_r in Hget. destruct (card_malloc total s0) as [r s1].
  destruct (Hends r s1) as ([out s2] & E); [lia| |].
  { unfold memory_fuel. destruct (_ <? _); [lia|].
    assert (total / MB < 4096); [apply Z.div_lt_upper_bound; unfold MB; lia|lia]. }
  destruct (Hget out s2) as [Hs2 Hout]; [unfold MB; lia..|done|]. run E. rewrite Hs0 in Hs2, Hout.
  destruct out as [[f q]|].
  - pose proof (granted_range _ _ _ Hout ltac:(lia)) as Hf. rewrite to_int_small by (unfold INT_MIN, INT_MAX; lia).
    destruct (durations_spec n q f s2) as (s3 & Hs3 & ->); [lia|]. bind_step. eexists _, _, _. split; [done|].
    rewrite bool_decide_eq_true, Hs2. split; [intros H; by exists f|].
    intros (f' & Hf' & H). by rewrite (granted_unique _ _ _ _ Hout Hf').
  - bind_step. eexists _, _, _. split; [done|]. split; [done|]. intros (f & Hf & _). by apply Hout in Hf.
Qed.

Lemma devices_spec dur n d p s :
  ∃ code s', devices (S dur) n d p s = Ok (code, s') ∧ (code = 0 ∨ code = 1) ∧
    (code = 0 ↔ ∀ i, (d ≤ i < d + n)%nat → good_device i).
Proof using L Hmalloc Hmem.
  revert d p s. induction n as [|n IH]; intros d p s; cbn [devices].
  { eexists _, _. split_and!; [done|by left|]. split; [lia|done]. }
  destruct (check_device_spec dur d p s) as (g & q & s1 & -> & Hg). bind_step. destruct g.
  - destruct (IH (S d) q s1) as (code & s2 & -> & Hc & Hall). eexists _, _. split_and!; [done|done|].
    rewrite Hall. split; intros H i Hi; [|apply H; lia]. destruct (decide (i = d)) as [->|]; [by apply Hg|apply H; lia].
  - eexists _, _. split_and!; [done|by right|]. split; [done|]. intros H. assert (false = true) as [=].
    apply Hg, H. lia.
Qed.

Lemma memcheck_main_spec argv deviceCount junk s : (∀ a b l, argv = a :: b :: l → 1 ≤ atoi b ≤ 20) →
  ∃ code s', main argv deviceCount junk s = Ok (code, s') ∧ (code = 0 ∨ code = 1) ∧
    (code = 0 ↔ ∀ d, (d < deviceCount)%nat → good_device d).
Proof using L Hmalloc Hmem.
  intros Harg. assert (∀ n, ∃ code s', devices (S n) deviceCount 0 junk s = Ok (code, s') ∧ (code = 0 ∨ code = 1) ∧
    (code = 0 ↔ ∀ d, (d < deviceCount)%nat → good_device d)) as Hall.
  { intros n. destruct (devices_spec n deviceCount 0 junk s) as (code & s' & E & Hc & Hg). exists code, s'.
    split_and!; [done|done|]. rewrite Hg. split; intros H i Hi; apply H; lia. }
  unfold main. destruct argv as [|a [|b argv]]; [apply (Hall 0%nat)..|]. specialize (Harg a b argv eq_refl).
  rewrite (proj2 (Z.ltb_ge _ _)), Z.gtb_ltb, (proj2 (Z.ltb_ge _ _)) by lia. cbn [orb].
  destruct (Z.to_nat (atoi b)) as [|n] eqn:E; [lia|apply Hall].
Qed.


(** What the verdict is worth, for a device whose cells answer one by
    one: a bit that is stuck is always found, since 85 and 170 ask for both of
    its values; *)
Lemma stuck_bit_found d n i bit v (cell : nat → Z → Z) : (∀ bs, reads d bs = imap cell bs) →
  (i < n)%nat → 0 ≤ bit < 8 → (∀ b, Z.testbit (cell i b) bit = v) → ¬ (keeps d n 85 ∧ keeps d n 170).
Proof using Type.
  intros Hr Hi Hbit Hv [H1 H2]. unfold keeps in H1, H2. rewrite Hr in H1, H2.
  assert (∀ b, imap cell (replicate n b) = replicate n b → cell i b = b) as Hc.
  { intros b E%(f_equal (lookup i)). rewrite list_lookup_imap, !lookup_replicate_2 in E by done. by injection E. }
  pose proof (Hv 85) as V1. pose proof (Hv 170) as V2. rewrite Hc in V1, V2 by done.
  assert (bit = 0 ∨ bit = 1 ∨ bit = 2 ∨ bit = 3 ∨ bit = 4 ∨ bit = 5 ∨ bit = 6 ∨ bit = 7) as Hb by lia.
  destruct_or! Hb; subst bit; cbn in V1, V2; congruence.
Qed.

(** ... a device that cannot keep a zero passes; and so does one that has a
    single byte behind all its addresses. *)
Lemma zero_missed d n : (∀ bs, reads d bs = (λ b, if b =? 0 then 1 else b) <$> bs) → Forall (keeps d n) [85; 170; 255].
Proof using Type. intros Hr. unfold keeps. repeat constructor; by rewrite Hr, fmap_replicate. Qed.

Lemma aliasing_missed d n : (∀ bs, reads d bs = replicate (length bs) (default 0 (last bs))) → Forall (keeps d n) [85; 170; 255].
Proof using Type.
  intros Hr. unfold keeps. assert (∀ b, replicate (length (replicate n b)) (default 0 (last (replicate n b))) = replicate n b) as Hb.
  { intros b. rewrite length_replicate. destruct n as [|n]; [done|]. f_equal. by rewrite replicate_S_end, last_snoc. }
  repeat constructor; by rewrite Hr, Hb.
Qed.

Definition stuck (d n : nat) : Prop := ∃ i bit v cell, (i < n)%nat ∧ 0 ≤ bit < 8 ∧ (∀ bs, reads d bs = imap cell bs) ∧
  ∀ b, Z.testbit (cell i b) bit = v.
Definition blind_to_zero (d : nat) : Prop := ∀ bs, reads d bs = (λ b, if b =? 0 then 1 else b) <$> bs.
Definition single_byte (d : nat) : Prop := ∀ bs, reads d bs = replicate (length bs) (default 0 (last bs)).

(** A bit that is stuck anywhere in the tested memory of any device is
    found; but devices that cannot keep a zero, or have a single byte behind all
    their addresses, pass. *)
Theorem memcheck_coverage argv deviceCount junk s : (∀ a b l, argv = a :: b :: l → 1 ≤ atoi b ≤ 20) →
  ∃ code s', main argv deviceCount junk s = Ok (code, s') ∧
    ((∃ d f, (d < deviceCount)%nat ∧ granted (fits d) (device_memory d) f ∧ stuck d (Z.to_nat f)) → code = 1) ∧
    ((∀ d, (d < deviceCount)%nat → (∃ f, granted (fits d) (device_memory d) f) ∧ (blind_to_zero d ∨ single_byte d)) → code = 0).
Proof using L Hmalloc Hmem.
  intros Harg. destruct (memcheck_main_spec argv deviceCount junk s Harg) as (code & s' & E & Hc & Hg).
  exists code, s'. split_and!; [done|..].
  - intros (d & f & Hd & Hf & i & bit & v & cell & Hi & Hbit & Hr & Hv). destruct Hc as [Hc|Hc]; [|done].
    destruct (proj1 Hg Hc d Hd) as (f' & Hf' & Hk). rewrite (granted_unique _ _ _ _ Hf' Hf) in Hk.
    rewrite !Forall_cons in Hk. destruct Hk as (H1 & H2 & _). by destruct (stuck_bit_found d (Z.to_nat f) i bit v cell).
  - intros H. apply Hg. intros d Hd. destruct (H d Hd) as ((f & Hf) & [Hz|Ha]); exists f; (split; [done|]);
      [by apply zero_missed|by apply aliasing_missed].
Qed.
End verdict.

(** The size is an [int] and the memory an [unsigned]: from 2 GiB on
    the host buffer is not allocated and the program dies in memset, and only the
    remainder modulo 4 GiB is ever asked for. *)
Theorem memcheck_large_cards {state} {C : Card state} durations d junk s p s' :
  let total := device_memory d mod 2 ^ 32 in
  (∀ n, 2 ^ 63 ≤ n → host_malloc n = false) → 2 ^ 31 ≤ total →
  card_malloc total (cudaSetDevice d s) = (cudaSuccess p, s') →
  check_device (S durations) d junk s = Err NullDeref.
Proof.
  intros total Hm Ht E. unfold check_device. change (u32 (device_memory d)) with total. rewrite E.
  assert (∀ fuel f, get_memory fuel f junk (cudaSuccess p) s' = Ok (Some (f, p), s')) as Hget by (intros []; done).
  run Hget. cbn [durations_loop]. unfold patterns. cbn [run_patterns]. unfold gen_pattern.
  assert (total < 2 ^ 32) by (apply Z.mod_pos_bound; lia).
  assert (to_int total = total - 2 ^ 32) as ->.
  { unfold to_int. rewrite <-(Z.mod_add _ (-1)), Z.mod_small by lia. lia. }
  unfold size_of_int. rewrite <-(Z.mod_add _ 1), Z.mod_small by lia. run Hm by lia. done.
Qed.

(** ** A card, and witnesses *)
(** A healthy device with [size] bytes free: the state is the device that is
    set and what was written last. *)
Definition one_card (size : Z) : Card (nat * list Z) := {|
  device_memory _ := 2 * MB;
  cudaSetDevice d s := (d, s.2);
  card_malloc n s := (if n <=? size then cudaSuccess 0 else cudaErrorMemoryAllocation, s);
  card_free _ s := s;
  host_to_device _ bs s := (s.1, bs);
  device_to_host _ _ s := s.2;
  host_malloc n := n <? 2 ^ 63
|}.

Lemma one_card_laws size : CardLaws (nat * list Z) (C := one_card size) fst (λ _ n, n <=? size) (λ _ bs, bs).
Proof. split; try done. intros n s. by exists 0, s. Qed.

Lemma memcheck_terminates_witness :
  let C := {| device_memory _ := 10; cudaSetDevice d s := s; card_malloc n s := (cudaErrorMemoryAllocation, s);
              card_free _ s := s; host_to_device _ _ s := s; device_to_host _ _ s := []; host_malloc _ := true |} : Card unit in
  ∃ code s', main (C := C) ["cuda_memcheck"] 1 0 tt = Ok (code, s') ∧ (code = 0 ∨ code = 1).
Proof. intros C. apply (memcheck_terminates (C := C)). done. Defined.


Lemma memcheck_coverage_witness : ∃ code s',
  main (C := one_card MB) ["cuda_memcheck"; "3"] 1 0 (0%nat, []) = Ok (code, s') ∧
    ((∃ d f, (d < 1)%nat ∧ granted (λ n, n <=? MB) (2 * MB) f ∧ stuck (λ _ bs, bs) d (Z.to_nat f)) → code = 1) ∧
    ((∀ d, (d < 1)%nat → (∃ f, granted (λ n, n <=? MB) (2 * MB) f) ∧
       (blind_to_zero (λ _ bs, bs) d ∨ single_byte (λ _ bs, bs) d)) → code = 0).
Proof.
  apply (memcheck_coverage (L := one_card_laws MB) fst (λ _ n, n <=? MB) (λ _ bs, bs)).
  - intros n Hn. apply Z.ltb_lt. lia.
  - done.
  - intros a b l [= <- <- <-]. cbn. done.
Defined.

Lemma memcheck_large_cards_witness :
  let C := {| device_memory _ := 3 * 1024 * MB; cudaSetDevice d s := s; card_malloc n s := (cudaSuccess 0, s);
              card_free _ s := s; host_to_device _ _ s := s; device_to_host _ _ s := []; host_malloc n := n <? 2 ^ 63 |} : Card unit in
  check_device (C := C) 1 0 0 tt = Err NullDeref.
Proof.
  intros C. apply (memcheck_large_cards (C := C) 0 0 0 tt 0 tt); [|done..]. intros n Hn. apply Z.ltb_ge. done.
Defined.
