(* ===== verification/Benchmarks.v ===== *)
(** * barracuda_deamon/bench: what the daemon's benchmarks run

    gen_syndrome_test.cu times one implementation, cuda_xor_test.cu and
    cuda_shift_test.cu time the XOR and shift of the GPU and the CPU.  The
    clocks are parameters: a reading for every call of gettimeofday. *)
From S2P Require Import Prelude GF256 Word Memory Syndrome Vanilla Cstring Service Deamon CudaApi.
Local Open Scope Z_scope.

(** ** gen_syndrome_test.cu *)
(** [PAGE_SIZE] of definitions.h *)
Definition PAGE_SIZE : Z := 2097152.
Definition dur : Z := 1000.

Definition mill (t : Z * Z) : Z := t.1 * 1000 + t.2 / 1000.

(** The line of one run, from its readings [t1] and [t2] of the clock in
    milliseconds: [ticks], and what [%u] shows of it. *)
Definition speed (t1 t2 : Z) : result Z :=
  let t1 := t1 mod 2 ^ 32 in
  let t2 := t2 mod 2 ^ 32 in
  let t2 := (t2 - t1) mod 2 ^ 32 in
  work ← int_mul PAGE_SIZE dur;
  require (negb (t2 =? 0)) DivByZero;;
  Ok (work / t2 * 1000).
Definition shown (ticks : Z) : Z := ticks mod 2 ^ 32.

Record dry := { memory : mem; readings : nat; printed : list (Z * Z) }.

Section dryrun.
Context (junk : loc → nat → Z) (clock : nat → Z * Z).

Definition compare_all_implementations_one_run (local_gen_syndrome : syndrome_func) (number_of_disks : Z) (dptrs : list loc)
    (s : dry) : result dry :=
  let t1 := mill (clock (readings s)) in
  m ← for_lt 0 dur 1 (λ _ m, local_gen_syndrome number_of_disks PAGE_SIZE dptrs m) (memory s);
  let t2 := mill (clock (S (readings s))) in
  ticks ← speed t1 t2;
  Ok {| memory := m; readings := S (S (readings s)); printed := printed s ++ [(number_of_disks, shown ticks)] |}.

(** [number_of_implementations] is the index of the one to run. *)
Definition compare_all_implementations (gen_syndrome_list : list syndrome_func) (number_of_implementations : Z) (m : mem)
    : result (list (Z * Z) * mem) :=
  local_gen_syndrome ← (if 0 <=? number_of_implementations then
    of_option OutOfBounds (gen_syndrome_list !! Z.to_nat number_of_implementations) else Err OutOfBounds);
  let '(dptrs, m) := allocate_host_example_dpointer junk PAGE_SIZE 66 m in
  s ← for_lt 5 65 1 (λ j s, for_lt 0 10 1 (λ _ s, compare_all_implementations_one_run local_gen_syndrome j dptrs s) s)
        {| memory := m; readings := 0; printed := [] |};
  m ← deallocate_host_example_dpointer 66 dptrs (memory s);
  Ok (printed s, m).
End dryrun.

(** ** cuda_xor_test.cu and cuda_shift_test.cu *)
Definition BL_SIZE : Z := 10000000.
Definition THREAD_BLOCKSIZE : Z := 256.

(** [unsigned long i] below a bound that fits: [n] iterations from [i]. *)
Fixpoint for_ulong {S} (n : nat) (i : Z) (body : Z → S → result S) (s : S) : result S :=
  match n with
  | O => Ok s
  | Datatypes.S n => s ← body i s; for_ulong n (i + 1) body s
  end.

(** [while (time_all < 1)], in microseconds: the body between two readings of
    the clock, from reading [k] on; the number of runs. *)
Fixpoint timed {S} (fuel : nat) (clock : nat → Z) (k : nat) (time_all : Z) (runs : Z) (body : S → result S) (s : S)
    : result (Z * Z * nat * S) :=
  if time_all <? 1000000 then
    match fuel with
    | O => Err OutOfFuel
    | Datatypes.S fuel =>
        s ← body s;
        timed fuel clock (k + 2) (time_all + (clock (k + 1)%nat - clock k)) (runs + 1) body s
    end
  else Ok (runs, time_all, k, s).

Section kernels.
Context {N : Native}.

Definition word_off (i : Z) : Z := Z.of_nat NSIZE * i.
Definition load_ulong (m : mem) (b : loc) (i : Z) : result Z := load_word m b (word_off i).
Definition store_ulong (m : mem) (b : loc) (i w : Z) : result mem := store_word m b (word_off i) w.
Definition words (bl_size : Z) : nat := Z.to_nat (bl_size / Z.of_nat NSIZE).

Definition xor_it_cpu (A B C : loc) (bl_size : Z) (m : mem) : result mem :=
  for_ulong (words bl_size) 0 (λ i m,
    a ← load_ulong m A i;
    b ← load_ulong m B i;
    store_ulong m C i (Z.lxor a b)) m.

Definition shift_it_cpu (A C : loc) (bl_size : Z) (m : mem) : result mem :=
  for_ulong (words bl_size) 0 (λ i m,
    a ← load_ulong m A i;
    store_ulong m C i (wshl a 1)) m.

(** [x_stream[tx]] of arrays of 8; an element is used by its thread only. *)
Definition shared_at (tx : Z) : result unit := require (in_range tx 1 8) OutOfBounds.
(** A device pointer that cudaMalloc did not set is wild. *)
Definition device_ptr (p : option loc) : result loc := of_option OutOfBounds p.

(** Thread [th] of the launch: [bx] and [tx] are quotient and remainder. *)
Definition thread_x (th : Z) : Z := th mod THREAD_BLOCKSIZE.
Definition thread_d (th : Z) : Z := th / THREAD_BLOCKSIZE * THREAD_BLOCKSIZE + thread_x th.

Definition xor_it_cuda (A B C : option loc) (th : Z) (m : mem) : result mem :=
  let tx := thread_x th in
  let d := thread_d th in
  tmp_c ← device_ptr C; c ← load_ulong m tmp_c d; shared_at tx;;
  tmp_b ← device_ptr B; b ← load_ulong m tmp_b d; shared_at tx;;
  tmp_a ← device_ptr A; store_ulong m tmp_a d (Z.lxor c b).

Definition shift_it_cuda (A C : option loc) (th : Z) (m : mem) : result mem :=
  let tx := thread_x th in
  let d := thread_d th in
  tmp_c ← device_ptr C; c ← load_ulong m tmp_c d; shared_at tx;;
  tmp_a ← device_ptr A; store_ulong m tmp_a d (wshl c 1).

(** [dimGrid.x] *)
Definition grid (bl_size : Z) : Z := bl_size / (THREAD_BLOCKSIZE * 8).
End kernels.

Section testers.
Context {N : Native} {R : CudaRuntime} (junk : loc → nat → Z) (clock : nat → Z).

Definition device_malloc (dm : mem) (n : Z) : option loc * mem :=
  match cudaMalloc dm n with Some (b, dm) => (Some b, dm) | None => (None, dm) end.

(** The launch of a kernel on the grid. *)
Definition launch_grid (l : nat) (bl_size : Z) (kernel : Z → mem → result mem) (dm : mem) : result mem :=
  run_threads kernel (launch_order l (grid bl_size * THREAD_BLOCKSIZE)) dm.

(** The two measurements of a tester: the runs of the GPU and of the CPU. *)
Definition measure (fuel k : nat) (bl_size : Z) (gpu : Z → mem → result mem) (cpu : mem → result mem) (dm m : mem)
    : result (Z * Z * nat * mem * mem) :=
  '(gruns, _, k, (_, dm)) ← timed fuel clock k 0 0 (λ '(l, dm), dm ← launch_grid l bl_size gpu dm; Ok (S l, dm)) (O, dm);
  '(cruns, _, k, m) ← timed fuel clock k 0 0 cpu m;
  Ok (gruns, cruns, k, dm, m).

Definition tester_xor (fuel k : nat) (bl_size : Z) (dm m : mem) : result (Z * Z * nat * mem) :=
  let '(DEVICE_A, dm) := device_malloc dm bl_size in
  let '(DEVICE_B, dm) := device_malloc dm bl_size in
  let '(DEVICE_C, dm) := device_malloc dm bl_size in
  let '(A, m) := malloc junk m bl_size in
  let '(B, m) := malloc junk m bl_size in
  let '(C, m) := malloc junk m bl_size in
  '(gruns, cruns, k, _, m) ← measure fuel k bl_size (xor_it_cuda DEVICE_A DEVICE_B DEVICE_C) (xor_it_cpu A B C bl_size) dm m;
  m ← free m A; m ← free m B; m ← free m C;
  Ok (gruns, cruns, k, m).

Definition tester_shift (fuel k : nat) (bl_size : Z) (dm m : mem) : result (Z * Z * nat * mem) :=
  let '(DEVICE_A, dm) := device_malloc dm bl_size in
  let '(DEVICE_C, dm) := device_malloc dm bl_size in
  let '(A, m) := malloc junk m bl_size in
  let '(C, m) := malloc junk m bl_size in
  '(gruns, cruns, k, _, m) ← measure fuel k bl_size (shift_it_cuda DEVICE_A DEVICE_C) (shift_it_cpu A C bl_size) dm m;
  m ← free m A; m ← free m C;
  Ok (gruns, cruns, k, m).

(** 31 and 30 testers in a row. *)
Definition test_cuda_xor_perf (fuel : nat) (dm m : mem) : result (nat * mem) :=
  for_ulong 31 0 (λ _ '(k, m), '(_, _, k, m) ← tester_xor fuel k BL_SIZE dm m; Ok (k, m)) (O, m).
Definition test_cuda_shift_perf (fuel : nat) (dm m : mem) : result (nat * mem) :=
  for_lt 0 30 1 (λ _ '(k, m), '(_, _, k, m) ← tester_shift fuel k BL_SIZE dm m; Ok (k, m)) (O, m).
End testers.

(** ** The dry run *)
Lemma speed_ok t1 t2 : 0 < t2 - t1 < 2 ^ 32 → speed t1 t2 = Ok (PAGE_SIZE * dur / (t2 - t1) * 1000).
Proof.
  intros H. unfold speed. run (int_mul_ok PAGE_SIZE dur) by done. rewrite <-Zminus_mod, Z.mod_small by lia.
  destruct (Z.eqb_spec (t2 - t1) 0); [lia|done].
Qed.

Lemma speed_zero t : speed t t = Err DivByZero.
Proof. unfold speed. run (int_mul_ok PAGE_SIZE dur) by done. by rewrite Z.sub_diag. Qed.

Lemma PAGE_SIZE_range : 0 ≤ PAGE_SIZE ∧ PAGE_SIZE + 7 ≤ INT_MAX.
Proof. done. Qed.
#[local] Opaque PAGE_SIZE alloc_disks.

(** The line of run [r]: its number of disks, the milliseconds it took. *)
Definition disks_of (r : Z) : Z := 5 + r / 10.
Definition elapsed (clock : nat → Z * Z) (r : Z) : Z :=
  mill (clock (Z.to_nat (2 * r + 1))) - mill (clock (Z.to_nat (2 * r))).
Definition line (clock : nat → Z * Z) (r : Z) : Z * Z :=
  (disks_of r, shown (PAGE_SIZE * dur / elapsed clock r * 1000)).

Section dryrun_results.
Context (junk : loc → nat → Z) (clock : nat → Z * Z) (gen : syndrome_func) (pad : Z → Z) {G : PqGenerator gen pad}.
Context (Hpad : pad PAGE_SIZE ≤ PAGE_SIZE).
Context (dptrs : list loc) (m0 : mem).

Record on_array (m : mem) : Prop := {
  oa_array : array_ok m dptrs 66 PAGE_SIZE;
  oa_rest : ∀ b, b ∉ dptrs → m !! b = m0 !! b
}.

Lemma one_call j m : 5 ≤ j < 65 → on_array m → ∃ m', gen j PAGE_SIZE dptrs m = Ok m' ∧ on_array m'.
Proof using G Hpad.
  intros Hj [Ha Hr]. destruct (pq_run m dptrs (Z.to_nat j) PAGE_SIZE) as (m' & E & Hw);
    [lia|unfold INT_MAX; lia|apply PAGE_SIZE_range..|eapply array_ok_mono; [| |exact Ha]; lia|].
  rewrite Z2Nat.id in E by lia. exists m'. split; [done|]. split; [by eapply array_ok_writes|].
  intros b Hb. rewrite <-Hr by done.
  apply (cpq_frame _ _ _ _ _ (wpq_computes _ _ _ _ _ Hw)); intros H; by apply list_elem_of_lookup_2 in H.
Qed.

Lemma one_run_ok r s : 0 ≤ r < 600 → 0 < elapsed clock r < 2 ^ 32 →
  on_array (memory s) → readings s = Z.to_nat (2 * r) → printed s = line clock <$> seqZ 0 r →
  ∃ s', compare_all_implementations_one_run clock gen (disks_of r) dptrs s = Ok s' ∧
    on_array (memory s') ∧ readings s' = Z.to_nat (2 * (r + 1)) ∧ printed s' = line clock <$> seqZ 0 (r + 1).
Proof using G Hpad.
  intros Hr He Hm Hk Hp. unfold compare_all_implementations_one_run.
  destruct (for_lt_inv (λ _, on_array) (λ _ m, gen (disks_of r) PAGE_SIZE dptrs m) 0 dur 1 ltac:(lia) ltac:(done) ltac:(done))
    with (s := memory s) as (m' & -> & Hm'); [|done|].
  { intros _ m _ _ Hm1. apply one_call; [|done]. unfold disks_of. Z.to_euclidean_division_equations; lia. }
  bind_step. unfold elapsed in He. rewrite Hk. replace (S (Z.to_nat (2 * r))) with (Z.to_nat (2 * r + 1)) by lia.
  run speed_ok by done. eexists. split; [done|]. cbn. split_and!; [done|lia|].
  rewrite seqZ_app, fmap_app, <-Hp by lia. by rewrite Z.add_0_l.
Qed.

Lemma dry_loop_ok : (∀ r, 0 ≤ r < 600 → 0 < elapsed clock r < 2 ^ 32) → on_array m0 →
  ∃ s, for_lt 5 65 1 (λ j s, for_lt 0 10 1 (λ _ s, compare_all_implementations_one_run clock gen j dptrs s) s)
        {| memory := m0; readings := 0; printed := [] |} = Ok s ∧
    on_array (memory s) ∧ printed s = line clock <$> seqZ 0 600.
Proof using G Hpad.
  intros Hclock H0. set (I r s := on_array (memory s) ∧ readings s = Z.to_nat (2 * r) ∧ printed s = line clock <$> seqZ 0 r).
  destruct (for_lt_inv (λ j, I (10 * (j - 5)))
    (λ j s, for_lt 0 10 1 (λ _ s, compare_all_implementations_one_run clock gen j dptrs s) s) 5 65 1 ltac:(lia) ltac:(done) ltac:(done))
    with (s := {| memory := m0; readings := 0; printed := [] |}) as (s & E & Hs).
  - intros j s Hj _ HI.
    destruct (for_lt_inv (λ i, I (10 * (j - 5) + i)) (λ _ s, compare_all_implementations_one_run clock gen j dptrs s)
      0 10 1 ltac:(lia) ltac:(done) ltac:(done)) with (s := s) as (s' & -> & Hs').
    + intros i s1 Hi _ (Hm & Hk & Hp). replace j with (disks_of (10 * (j - 5) + i)).
      * destruct (one_run_ok (10 * (j - 5) + i) s1) as (s2 & E & H2); [lia|apply Hclock; lia|done..|].
        unfold disks_of in E |- *. replace (5 + (10 * (j - 5) + i) / 10) with j in * by (Z.to_euclidean_division_equations; lia).
        exists s2. split; [done|]. by rewrite Z.add_assoc.
      * unfold disks_of. Z.to_euclidean_division_equations; lia.
    + by rewrite Z.add_0_r.
    + exists s'. split; [done|]. rewrite (loop_end_unique 0 10 1 10 10) in Hs' by lia.
      by replace (10 * (j + 1 - 5)) with (10 * (j - 5) + 10) by lia.
  - done.
  - exists s. rewrite (loop_end_unique 5 65 1 65 60) in Hs by lia. destruct Hs as (Hm & _ & Hp). by split_and!.
Qed.
End dryrun_results.

(** C29: the dry run of an implementation that keeps its contract, with a
    clock that advances by less than 49 days in each run: 600 lines, ten for every
    number of disks from 5 to 64, each with the bytes per second of one disk as
    far as 32 bits show them; afterwards the memory is what it was. *)
Theorem dryrun_correct junk clock gens i gen pad (G : PqGenerator gen pad) m :
  pad PAGE_SIZE ≤ PAGE_SIZE → 0 ≤ i → gens !! Z.to_nat i = Some gen →
  (∀ r, 0 ≤ r < 600 → 0 < elapsed clock r < 2 ^ 32) →
  compare_all_implementations junk clock gens i m = Ok (line clock <$> seqZ 0 600, m).
Proof.
  intros Hpad Hi Hgen Hclock. unfold compare_all_implementations. rewrite (proj2 (Z.leb_le 0 i)), Hgen by done. cbn [of_option]. bind_step. pose proof PAGE_SIZE_range as [HP _].
  unfold allocate_host_example_dpointer. destruct (alloc_disks junk PAGE_SIZE (Z.to_nat 66) m) as [dptrs m1] eqn:E.
  destruct (alloc_disks_spec junk PAGE_SIZE (Z.to_nat 66) m dptrs m1 HP E) as (Hl & _ & Hnone & Hok & Hf).
  pose proof (alloc_array_ok junk PAGE_SIZE (Z.to_nat 66) m dptrs m1 HP E) as Ha.
  assert (Hb0 : on_array dptrs m1 m1) by (split; [exact Ha|reflexivity]).
  destruct (dry_loop_ok clock gen pad Hpad dptrs m1 Hclock Hb0) as (s & -> & [Ha' Hr'] & Hp). bind_step.
  destruct (dealloc_alloc junk PAGE_SIZE (Z.to_nat 66) m dptrs m1 (memory s) HP ltac:(done) E)
    as (m3 & E3 & Hin & Hout).
  { intros b Hb. destruct (decide (b ∈ dptrs)) as [Hbd|Hbd]; [|by rewrite Hr'].
    destruct Ha' as (_ & _ & Ha'). rewrite take_ge in Ha' by lia. rewrite Forall_forall in Ha'.
    apply Ha', buf_ok_Some in Hbd as (buf & -> & _). done. }
  change (Z.of_nat (Z.to_nat 66)) with 66 in E3. run E3. rewrite Hp. do 2 f_equal.
  apply map_eq. intros b. destruct (decide (b ∈ dptrs)) as [Hbd|Hbd].
  - rewrite Hin by done. rewrite Forall_forall in Hnone. symmetry. by apply Hnone.
  - by rewrite Hout, Hr', Hf.
Qed.

(** What the dry run does when it goes wrong: a first run within one
    millisecond divides by zero, and a number past the table of implementations
    calls what lies behind it.  A build without CUDA, asked to measure the CUDA
    implementation, is such a case: the mode falls back to the software
    implementation, the number of the benchmark does not. *)
Theorem dryrun_errors junk clock gens i m :
  (∀ gen pad, PqGenerator gen pad → pad PAGE_SIZE ≤ PAGE_SIZE → 0 ≤ i → gens !! Z.to_nat i = Some gen →
     mill (clock 0%nat) = mill (clock 1%nat) → compare_all_implementations junk clock gens i m = Err DivByZero) ∧
  (Z.of_nat (length gens) ≤ i → compare_all_implementations junk clock gens i m = Err OutOfBounds) ∧
  (∀ env, Deamon.main true env ["barracuda"; "-m"; "CUDA"; "-B"; "DRYRUN"] =
     Ok (EXIT_SUCCESS, [Bench (BenchDryrun 4); Foreground IVanilla 0])) ∧
  length (gen_syndrome_list true) = 4%nat ∧
  ∀ NOCUDA n g, (n, g) ∈ zip (implementation_names NOCUDA) (gen_syndrome_list NOCUDA) →
    gen_syndrome_list NOCUDA !! Z.to_nat (rs_mode_of n 0) = Some g.
Proof.
  split_and!; [..|done|done|].
  - intros gen pad G Hpad Hi Hgen Hclock. unfold compare_all_implementations. rewrite (proj2 (Z.leb_le 0 i)), Hgen by done.
    cbn [of_option]. bind_step. pose proof PAGE_SIZE_range as [HP _]. unfold allocate_host_example_dpointer.
    destruct (alloc_disks junk PAGE_SIZE (Z.to_nat 66) m) as [dptrs m1] eqn:E.
    pose proof (alloc_array_ok junk PAGE_SIZE (Z.to_nat 66) m dptrs m1 HP E) as Ha.
    rewrite (for_lt_err _ 5 65 1 _ DivByZero); [reflexivity|lia|]. apply for_lt_err; [lia|]. unfold compare_all_implementations_one_run.
    cbn [readings memory].
    destruct (for_lt_inv (λ _, on_array dptrs m1) (λ _ m, gen 5 PAGE_SIZE dptrs m) 0 dur 1 ltac:(lia) ltac:(done) ltac:(done))
      with (s := m1) as (m' & -> & _); [|by split|].
    { intros _ m2 _ _ Hm2. apply (one_call gen pad Hpad dptrs m1 5); [lia|exact Hm2]. }
    bind_step. rewrite <-Hclock. by rewrite speed_zero.
  - intros Hi. unfold compare_all_implementations. rewrite (proj2 (Z.leb_le 0 i)) by lia. by rewrite lookup_ge_None_2 by lia.
  - intros NOCUDA n g Hin. destruct NOCUDA; cbn in Hin; repeat (apply elem_of_cons in Hin as [[= -> ->]|Hin]; [done|]);
      by apply elem_of_nil in Hin.
Qed.

(** ** The CPU kernels *)
Lemma for_ulong_inv {S} (Inv : nat → S → Prop) (body : Z → S → result S) n s :
  (∀ k s, (k < n)%nat → Inv k s → ∃ s', body (Z.of_nat k) s = Ok s' ∧ Inv (Datatypes.S k) s') →
  Inv O s → ∃ s', for_ulong n 0 body s = Ok s' ∧ Inv n s'.
Proof.
  intros Hb. assert (∀ j k s, (k + j = n)%nat → Inv k s → ∃ s', for_ulong j (Z.of_nat k) body s = Ok s' ∧ Inv n s') as H.
  { induction j as [|j IH]; intros k s1 Hk HI; cbn [for_ulong].
    - exists s1. split; [done|]. by replace n with k by lia.
    - destruct (Hb k s1) as (s2 & -> & HI2); [lia|done|]. bind_step. replace (Z.of_nat k + 1) with (Z.of_nat (Datatypes.S k)) by lia.
      apply IH; [lia|done]. }
  intros HI. apply (H n O); [lia|done].
Qed.

Lemma for_ulong_ext {S} (f g : Z → S → result S) n i s : (∀ i s, f i s = g i s) → for_ulong n i f s = for_ulong n i g s.
Proof.
  intros H. revert i s. induction n as [|n IH]; intros i s; [done|]. cbn [for_ulong]. rewrite H.
  destruct (g i s); [apply IH|done].
Qed.

Lemma lxor_range a b n : 0 ≤ n → 0 ≤ a < 2 ^ n → 0 ≤ b < 2 ^ n → 0 ≤ Z.lxor a b < 2 ^ n.
Proof.
  intros Hn Ha Hb. split; [apply Z.lxor_nonneg; lia|].
  apply (Z.bounded_iff_bits_nonneg n); [done|apply Z.lxor_nonneg; lia|]. intros i Hi. rewrite Z.lxor_spec.
  rewrite (proj1 (Z.bounded_iff_bits_nonneg n a Hn (proj1 Ha)) (proj2 Ha)), (proj1 (Z.bounded_iff_bits_nonneg n b Hn (proj1 Hb)) (proj2 Hb)) by done.
  done.
Qed.

Section cpu.
Context {N : Native}.

(** Word [k] of a buffer. *)
Definition word_at (m : mem) (b : loc) (k : nat) : Z := LE (slice m b (word_off (Z.of_nat k)) NSIZE).

(** [m'] is [m] with the words [f k] below [n] in [C]. *)
Record filled (m : mem) (C : loc) (f : nat → Z) (n : nat) (m' : mem) : Prop := {
  fl_frame : ∀ b, b ≠ C → m' !! b = m !! b;
  fl_len : ∀ b, buf_len m' b = buf_len m b;
  fl_ok : ∀ b l, buf_ok m l b → buf_ok m' l b;
  fl_done : ∀ k, (k < n)%nat → word_at m' C k = f k;
  fl_rest : ∀ k, (NSIZE * n ≤ k)%nat → peek m' C k = peek m C k
}.

Lemma slice_ext m m' b off n : (∀ k, (Z.to_nat off ≤ k < Z.to_nat off + n)%nat → peek m' b k = peek m b k) →
  slice m' b off n = slice m b off n.
Proof using Type.
  intros H. unfold slice. apply list_fmap_ext. intros i k Hk%lookup_seq. apply H. lia.
Qed.

Lemma word_at_frame m m' b k : m' !! b = m !! b → word_at m' b k = word_at m b k.
Proof using Type. intros E. unfold word_at. f_equal. apply slice_ext. intros j _. unfold peek. by rewrite E. Qed.

Lemma load_ulong_ok m b k n len : buf_ok m len b → (k < n)%nat → word_off (Z.of_nat n) ≤ len →
  load_ulong m b (Z.of_nat k) = Ok (word_at m b k).
Proof using Type. intros Hb Hk Hn. unfold word_off in *. apply (load_word_ok _ _ _ len); unfold word_off; [done|lia|nia]. Qed.

Lemma fill_step m C f n len m1 : buf_ok m len C → word_off (Z.of_nat (S n)) ≤ len → 0 ≤ f n < 2 ^ word_bits →
  filled m C f n m1 → ∃ m2, store_ulong m1 C (Z.of_nat n) (f n) = Ok m2 ∧ filled m C f (S n) m2.
Proof using Type.
  intros HC Hlen Hf [H1 H2 H3 H4 H5]. pose proof NSIZE_pos as HN. unfold store_ulong, store_word. set (bs := Z_to_little_endian _ 8 (f n)).
  assert (length bs = NSIZE) as Hl by (apply Nat2Z.inj, length_Z_to_little_endian; lia).
  assert (Forall is_byte bs) as Hbs by (apply (Z_to_little_endian_bound (Z.of_nat NSIZE) 8); lia).
  unfold word_off in *.
  destruct (store_bytes_spec m1 C (Z.of_nat NSIZE * Z.of_nat n) bs len) as (m2 & E & [S1 S2 S3 S4]);
    [by apply H3|lia|rewrite Hl; nia|done|].
  exists m2. split; [done|]. rewrite Hl in S4. replace (Z.to_nat (Z.of_nat NSIZE * Z.of_nat n)) with (NSIZE * n)%nat in S4 by lia. split.
  - intros b Hb. by rewrite S1, H1.
  - intros b. by rewrite S2, H2.
  - intros b l Hb. by apply S3, H3.
  - intros k Hk. destruct (decide (k = n)) as [->|Hne].
    + unfold word_at. assert (slice m2 C (word_off (Z.of_nat n)) NSIZE = bs) as ->.
      * apply list_eq_same_length with NSIZE; [by rewrite Hl|apply length_slice|]. intros i x y Hi Hx Hy.
        rewrite slice_lookup in Hx by done. rewrite S4, decide_True in Hx by (unfold word_off; lia).
        unfold word_off in Hx. replace (Z.to_nat (Z.of_nat NSIZE * Z.of_nat n) + i - NSIZE * n)%nat with i in Hx by lia.
        rewrite Hy in Hx. by injection Hx.
      * unfold bs. rewrite little_endian_to_Z_to_little_endian by lia. rewrite Z.mul_comm, Z.mod_small; [done|].
        unfold word_bits in Hf. lia.
    + rewrite <-H4 by lia. unfold word_at. f_equal. apply slice_ext. intros j Hj. unfold word_off in Hj.
      rewrite S4, decide_False; [done|]. nia.
  - intros k Hk. rewrite S4, decide_False by lia. apply H5. lia.
Qed.

(** [fill] of a loop that computes each word from others. *)
Lemma fill_loop m C f n len (rd : Z → mem → result Z) : buf_ok m len C → word_off (Z.of_nat n) ≤ len →
  (∀ k, (k < n)%nat → 0 ≤ f k < 2 ^ word_bits) →
  (∀ k m', (k < n)%nat → filled m C f k m' → rd (Z.of_nat k) m' = Ok (f k)) →
  ∃ m', for_ulong n 0 (λ i m, w ← rd i m; store_ulong m C i w) m = Ok m' ∧ filled m C f n m'.
Proof using Type.
  intros HC Hlen Hf Hrd. apply (for_ulong_inv (filled m C f)).
  - intros k m1 Hk Hm1. run Hrd by done. eapply fill_step; [done| |by apply Hf|done]. unfold word_off in *. nia.
  - split; try done. intros k Hk. lia.
Qed.

Lemma word_at_range m b k n len : buf_ok m len b → (k < n)%nat → word_off (Z.of_nat n) ≤ len → 0 ≤ word_at m b k < 2 ^ word_bits.
Proof using Type.
  intros Hb Hk Hn. unfold word_at, word_bits. pose proof (LE_bound (slice m b (word_off (Z.of_nat k)) NSIZE)) as H.
  rewrite length_slice in H. apply H. by eapply Forall_byte_slice.
Qed.

Lemma words_fit bl_size : 0 ≤ bl_size → word_off (Z.of_nat (words bl_size)) ≤ bl_size.
Proof using Type.
  intros H. pose proof NSIZE_posZ. unfold word_off, words. rewrite Z2Nat.id by (apply Z.div_pos; lia). apply Z.mul_div_le. lia.
Qed.

(** The CPU kernels do what they are named after, word by word: all
    whole words of C are the XOR of the words of A and B, and twice the words of
    A; bytes behind the last whole word and all other buffers stay as they are. *)
Theorem cpu_kernels m A B C bl_size : 0 ≤ bl_size → A ≠ C → B ≠ C →
  buf_ok m bl_size A → buf_ok m bl_size B → buf_ok m bl_size C →
  (∃ m', xor_it_cpu A B C bl_size m = Ok m' ∧
     filled m C (λ k, Z.lxor (word_at m A k) (word_at m B k)) (words bl_size) m') ∧
  (∃ m', shift_it_cpu A C bl_size m = Ok m' ∧
     filled m C (λ k, (2 * word_at m A k) mod 2 ^ word_bits) (words bl_size) m').
Proof using Type.
  intros Hs HA HB HAo HBo HCo. pose proof (words_fit bl_size Hs) as Hw.
  assert (∀ b k, buf_ok m bl_size b → (k < words bl_size)%nat → 0 ≤ word_at m b k < 2 ^ word_bits) as Hr.
  { intros. by eapply word_at_range. }
  assert (∀ b k n f m', b ≠ C → buf_ok m bl_size b → (k < words bl_size)%nat → filled m C f n m' →
    load_ulong m' b (Z.of_nat k) = Ok (word_at m b k)) as Hld.
  { intros b k n f m' Hne Hb Hk Hm'. rewrite (load_ulong_ok m' b k (words bl_size) bl_size); [|by eapply fl_ok|done|done].
    f_equal. by eapply word_at_frame, fl_frame. }
  split; unfold xor_it_cpu, shift_it_cpu.
  - destruct (fill_loop m C (λ k, Z.lxor (word_at m A k) (word_at m B k)) (words bl_size) bl_size
      (λ i m, a ← load_ulong m A i; b ← load_ulong m B i; Ok (Z.lxor a b))) as (m' & E & Hm'); [done|done|..].
    + intros k Hk. apply lxor_range; [unfold word_bits; lia|by apply Hr..].
    + intros k m' Hk Hm'. rewrite (Hld A k k _ m' HA HAo Hk Hm'). bind_step. by rewrite (Hld B k k _ m' HB HBo Hk Hm').
    + exists m'. split; [|done]. rewrite <-E. apply for_ulong_ext. intros i m1.
      destruct (load_ulong m1 A i); [|done]. bind_step. by destruct (load_ulong m1 B i).
  - apply (fill_loop m C (λ k, (2 * word_at m A k) mod 2 ^ word_bits) (words bl_size) bl_size
      (λ i m, a ← load_ulong m A i; Ok (wshl a 1))) in Hw as (m' & E & Hm'); [|done|..].
    + exists m'. split; [|done]. rewrite <-E. apply for_ulong_ext. intros i m1. by destruct (load_ulong m1 A i).
    + intros k Hk. apply Z.mod_pos_bound. unfold word_bits. lia.
    + intros k m' Hk Hm'. rewrite (Hld A k k _ m' HA HAo Hk Hm'). bind_step. unfold wshl, wwrap.
      by rewrite Z.shiftl_mul_pow2, Z.mul_comm by done.
Qed.

(** ** The GPU kernels *)
(** Computations whose only fault is an access out of bounds. *)
Definition oob {A} (r : result A) : Prop := ∀ e, r = Err e → e = OutOfBounds.

Lemma oob_bind {A B} (r : result A) (k : A → result B) : oob r → (∀ a, oob (k a)) → oob (r ≫= k).
Proof using Type. intros Hr Hk e. destruct r; bind_step; [apply Hk|intros [= <-]; by apply Hr]. Qed.
Lemma oob_require b : oob (require b OutOfBounds).
Proof using Type. intros e. destruct b; [done|]. by intros [= <-]. Qed.
Lemma oob_option {A} (o : option A) : oob (of_option OutOfBounds o).
Proof using Type. intros e. destruct o; [done|]. by intros [= <-]. Qed.
Lemma oob_ok {A} (a : A) : oob (Ok a).
Proof using Type. by intros e. Qed.
Lemma oob_load m b i : oob (load_ulong m b i).
Proof using Type.
  unfold load_ulong, load_word. intros e. destruct (load_bytes _ _ _ _) as [|e'] eqn:E; [done|]. intros [= <-]. revert e' E. fold (oob (load_bytes m b (word_off i) NSIZE)).
  apply oob_bind; [apply oob_option|]. intros buf. apply oob_bind; [apply oob_require|]. intros _. apply oob_ok.
Qed.
Lemma oob_store m b i w : oob (store_ulong m b i w).
Proof using Type.
  apply oob_bind; [apply oob_option|]. intros buf. apply oob_bind; [apply oob_require|]. intros _. apply oob_ok.
Qed.

Lemma xor_cuda_err A B C th m : oob (xor_it_cuda A B C th m).
Proof using Type.
  repeat first [apply oob_store|apply oob_bind; [first [apply oob_option|apply oob_load|apply oob_require]|intros ?]].
Qed.
Lemma shift_cuda_err A C th m : oob (shift_it_cuda A C th m).
Proof using Type.
  repeat first [apply oob_store|apply oob_bind; [first [apply oob_option|apply oob_load|apply oob_require]|intros ?]].
Qed.

(** From the ninth thread of a block on. *)
Lemma xor_cuda_shared A B C th m : 8 ≤ thread_x th → xor_it_cuda A B C th m = Err OutOfBounds.
Proof using Type.
  intros H. destruct (xor_it_cuda A B C th m) as [m'|e] eqn:E; [|f_equal; by eapply xor_cuda_err].
  unfold xor_it_cuda, shared_at in E. inv_ok.
  match goal with Hr : in_range (thread_x _) _ _ = true |- _ => apply in_range_true in Hr end. lia.
Qed.
Lemma shift_cuda_shared A C th m : 8 ≤ thread_x th → shift_it_cuda A C th m = Err OutOfBounds.
Proof using Type.
  intros H. destruct (shift_it_cuda A C th m) as [m'|e] eqn:E; [|f_equal; by eapply shift_cuda_err].
  unfold shift_it_cuda, shared_at in E. inv_ok.
  match goal with Hr : in_range (thread_x _) _ _ = true |- _ => apply in_range_true in Hr end. lia.
Qed.

(** A launch faults with its first faulting thread, in whatever order. *)
Lemma run_threads_fault (f : Z → mem → result mem) ths m e : (∀ th m e', f th m = Err e' → e' = e) →
  (∃ th, th ∈ ths ∧ ∀ m, f th m = Err e) → run_threads f ths m = Err e.
Proof using Type.
  intros He (th & Hth & Hf). revert m. induction ths as [|t ths IH]; intros m; [by apply elem_of_nil in Hth|].
  cbn [run_threads]. destruct (f t m) as [m1|e'] eqn:E; bind_step; [|f_equal; by eapply He].
  apply elem_of_cons in Hth as [<-|Hth]; [congruence|by apply IH].
Qed.
End cpu.

Section gpu.
Context {N : Native} {R : CudaRuntime} {L : CudaLaws R}.

Lemma launch_faults l bl_size (f : Z → mem → result mem) dm : THREAD_BLOCKSIZE * 8 ≤ bl_size →
  (∀ th m e, f th m = Err e → e = OutOfBounds) → (∀ th m, 8 ≤ thread_x th → f th m = Err OutOfBounds) →
  launch_grid l bl_size f dm = Err OutOfBounds.
Proof using L.
  intros Hb He Hf. apply run_threads_fault; [by apply He|]. exists 8. split; [|intros m; by apply Hf].
  rewrite launch_order_ok. apply elem_of_seqZ. unfold grid, THREAD_BLOCKSIZE in *.
  assert (1 ≤ bl_size / (256 * 8)) by (apply Z.div_le_lower_bound; lia). lia.
Qed.

(** The grid covers whole blocks only: what is left is less than a block. *)
Lemma grid_cover bl_size : 0 ≤ bl_size →
  grid bl_size * THREAD_BLOCKSIZE * 8 ≤ bl_size < grid bl_size * THREAD_BLOCKSIZE * 8 + THREAD_BLOCKSIZE * 8.
Proof using Type. intros H. unfold grid, THREAD_BLOCKSIZE. Z.to_euclidean_division_equations; lia. Qed.

Lemma measure_faults clock fuel k bl_size gpu cpu dm m : THREAD_BLOCKSIZE * 8 ≤ bl_size →
  (∀ th m e, gpu th m = Err e → e = OutOfBounds) → (∀ th m, 8 ≤ thread_x th → gpu th m = Err OutOfBounds) →
  measure clock (S fuel) k bl_size gpu cpu dm m = Err OutOfBounds.
Proof using L.
  intros Hb He Hf. unfold measure. cbn [timed]. change (0 <? 1000000) with true. cbv iota.
  by rewrite launch_faults.
Qed.

(** The kernels index shared arrays of 8 elements with thread numbers up to
    255: every launch on at least one block faults, in every order of its
    threads, so neither GPU benchmark gets to a result.  The grid of the
    benchmarks would leave out 1664 bytes at the end. *)
Theorem gpu_benchmarks_fault junk clock fuel k bl_size dm m :
  (THREAD_BLOCKSIZE * 8 ≤ bl_size →
     tester_xor junk clock (S fuel) k bl_size dm m = Err OutOfBounds ∧
     tester_shift junk clock (S fuel) k bl_size dm m = Err OutOfBounds) ∧
  test_cuda_xor_perf junk clock (S fuel) dm m = Err OutOfBounds ∧
  test_cuda_shift_perf junk clock (S fuel) dm m = Err OutOfBounds ∧
  BL_SIZE - grid BL_SIZE * THREAD_BLOCKSIZE * 8 = 1664.
Proof using L.
  assert (∀ k bl_size m, THREAD_BLOCKSIZE * 8 ≤ bl_size → tester_xor junk clock (S fuel) k bl_size dm m = Err OutOfBounds) as Hx.
  { intros k1 bl m1 Hb. unfold tester_xor. repeat case_match. simplify_eq.
    rewrite measure_faults; [done|done|intros; by eapply xor_cuda_err|intros; by apply xor_cuda_shared]. }
  assert (∀ k bl_size m, THREAD_BLOCKSIZE * 8 ≤ bl_size → tester_shift junk clock (S fuel) k bl_size dm m = Err OutOfBounds) as Hs.
  { intros k1 bl m1 Hb. unfold tester_shift. repeat case_match. simplify_eq.
    rewrite measure_faults; [done|done|intros; by eapply shift_cuda_err|intros; by apply shift_cuda_shared]. }
  split; [intros; split; [by apply Hx|by apply Hs]|]. split; [|split; [|done]].
  - unfold test_cuda_xor_perf. cbn [for_ulong]. by rewrite Hx by done.
  - unfold test_cuda_shift_perf. apply for_lt_err; [done|]. by rewrite Hs by done.
Qed.
End gpu.

(** ** The measuring loop *)
Section timed.
Context {S : Type} (clock : nat → Z) (body : S → result S) (Inv Done : S → Prop).
Hypothesis Hbody : ∀ s, Inv s → ∃ s', body s = Ok s' ∧ Inv s' ∧ Done s'.

Lemma bench_timed_ok fuel k t runs s : (∀ k, clock k < clock (k + 1)%nat) → 1000000 - t ≤ Z.of_nat fuel → Inv s → (0 < runs → Done s) →
  0 ≤ runs → t < 1000000 ∨ 0 < runs →
  ∃ runs' t' k' s', timed fuel clock k t runs body s = Ok (runs', t', k', s') ∧
    1000000 ≤ t' ∧ runs' ≤ runs + Z.of_nat fuel ∧ Inv s' ∧ Done s'.
Proof using Hbody.
  intros Hclock. revert k t runs s. induction fuel as [|fuel IH]; intros k t runs s Hf HI HD Hr Ht; cbn [timed].
  - destruct (Z.ltb_spec t 1000000); [lia|]. eexists _, _, _, _. split_and!; [done|lia|lia|done|apply HD; lia].
  - destruct (Z.ltb_spec t 1000000).
    + destruct (Hbody s HI) as (s1 & -> & HI1 & HD1). bind_step. pose proof (Hclock k).
      destruct (IH (k + 2)%nat (t + (clock (k + 1)%nat - clock k)) (runs + 1) s1) as (r' & t' & k' & s' & E & H1 & H2 & H3 & H4);
        [lia|done|done|lia|lia|]. exists r', t', k', s'. split_and!; [done|done|lia|done|done].
    + eexists _, _, _, _. split_and!; [done|done|lia|done|apply HD; lia].
Qed.

Lemma timed_stuck fuel k runs s : (∀ k, clock (k + 1)%nat = clock k) → Inv s → timed fuel clock k 0 runs body s = Err OutOfFuel.
Proof using Hbody.
  intros Hclock. revert k runs s. induction fuel as [|fuel IH]; intros k runs s HI; cbn [timed]; change (0 <? 1000000) with true; [done|].
  cbv iota. destruct (Hbody s HI) as (s1 & -> & HI1 & _). bind_step. rewrite Hclock, Z.sub_diag. by apply IH.
Qed.
End timed.

Section cpu_measurement.
Context {N : Native}.

Lemma filled_again m C f g n m1 m2 : (∀ k, (k < n)%nat → g k = f k) → filled m C f n m1 → filled m1 C g n m2 → filled m C f n m2.
Proof using Type.
  intros Hg [A1 A2 A3 A4 A5] [B1 B2 B3 B4 B5]. split.
  - intros b Hb. by rewrite B1, A1.
  - intros b. by rewrite B2, A2.
  - intros b l Hb. by apply B3, A3.
  - intros k Hk. rewrite B4, Hg by done. done.
  - intros k Hk. by rewrite B5, A5.
Qed.

(** The measurement of the CPU ends after at most a million rounds if
    every round takes a microsecond, and C holds the XOR of A and B however often
    it was computed; with a clock that stands still it never ends. *)
Theorem xor_measurement m A B C bl_size clock k : 0 ≤ bl_size → A ≠ C → B ≠ C →
  buf_ok m bl_size A → buf_ok m bl_size B → buf_ok m bl_size C →
  ((∀ k, clock k < clock (k + 1)%nat) → ∃ runs time k' m',
     timed (Z.to_nat 1000000) clock k 0 0 (xor_it_cpu A B C bl_size) m = Ok (runs, time, k', m') ∧
     1000000 ≤ time ∧ runs ≤ 1000000 ∧
     filled m C (λ k, Z.lxor (word_at m A k) (word_at m B k)) (words bl_size) m') ∧
  ((∀ k, clock (k + 1)%nat = clock k) → ∀ fuel, timed fuel clock k 0 0 (xor_it_cpu A B C bl_size) m = Err OutOfFuel).
Proof using Type.
  intros Hs HA HB HAo HBo HCo. set (f k := Z.lxor (word_at m A k) (word_at m B k)).
  set (Inv m1 := m1 = m ∨ filled m C f (words bl_size) m1).
  assert (Hbody : ∀ m1, Inv m1 → ∃ m2, xor_it_cpu A B C bl_size m1 = Ok m2 ∧ Inv m2 ∧ filled m C f (words bl_size) m2).
  { intros m1 [->|Hm1].
    - destruct (cpu_kernels m A B C bl_size Hs HA HB HAo HBo HCo) as [(m' & E & Hm') _]. exists m'. split_and!; [done|by right|done].
    - destruct (cpu_kernels m1 A B C bl_size Hs HA HB) as [(m' & E & Hm') _]; [by eapply fl_ok..|]. exists m'.
      assert (filled m C f (words bl_size) m') as Hf.
      { eapply filled_again; [|exact Hm1|exact Hm']. intros j Hj. unfold f. f_equal; by eapply word_at_frame, fl_frame. }
      split_and!; [done|by right|done]. }
  split.
  - intros Hclock. destruct (bench_timed_ok clock _ Inv (filled m C f (words bl_size)) Hbody (Z.to_nat 1000000) k 0 0 m)
      as (runs & t & k' & m' & E & H1 & H2 & _ & H3); [done|lia|by left|lia|lia|lia|].
    exists runs, t, k', m'. split_and!; [done|done|lia|done].
  - intros Hclock fuel. apply (timed_stuck clock _ Inv (filled m C f (words bl_size)) Hbody); [done|by left].
Qed.
End cpu_measurement.

(** ** Witnesses *)
#[local] Transparent PAGE_SIZE.
Lemma dryrun_correct_witness :
  compare_all_implementations (λ _ _, 7) (λ r, (Z.of_nat r, 0)) [raid6_vanilla_gen_syndrome (N := native64)] 0 ∅ =
    Ok (line (λ r, (Z.of_nat r, 0)) <$> seqZ 0 600, ∅).
Proof.
  apply (dryrun_correct _ _ _ _ _ _ (vanilla_pq (N := native64))).
  - apply Z.leb_le. vm_compute. reflexivity.
  - done.
  - done.
  - intros r Hr. unfold elapsed, mill. cbn [fst snd]. rewrite !Z2Nat.id by lia. change (0 / 1000) with 0. lia.
Defined.

Lemma cpu_kernels_witness :
  let m := {[ 1%positive := replicate 16 3; 2%positive := replicate 16 5; 3%positive := replicate 16 0 ]} in
  ∃ m', xor_it_cpu (N := native64) 1 2 3 16 m = Ok m' ∧
    filled (N := native64) m 3 (λ k, Z.lxor (word_at (N := native64) m 1 k) (word_at (N := native64) m 2 k)) 2 m'.
Proof.
  intros m. apply (cpu_kernels (N := native64) m 1 2 3 16); [done|done|done|by_decide..].
Defined.

Lemma xor_measurement_witness :
  let m := {[ 1%positive := replicate 16 3; 2%positive := replicate 16 5; 3%positive := replicate 16 0 ]} in
  (∀ fuel, timed fuel (λ _, 0) 0 0 0 (xor_it_cpu (N := native64) 1 2 3 16) m = Err OutOfFuel).
Proof.
  intros m. apply (xor_measurement (N := native64) m 1 2 3 16 (λ _, 0) 0); [done|done|done|by_decide..|done].
Defined.

#[local] Existing Instance plain_runtime.
#[local] Existing Instance plain_laws.
Lemma gpu_benchmarks_fault_witness :
  test_cuda_xor_perf (N := native64) (λ _ _, 0) (λ _, 0) 1 ∅ ∅ = Err OutOfBounds.
Proof. exact (proj1 (proj2 (gpu_benchmarks_fault (N := native64) (λ _ _, 0) (λ _, 0) 0 0 0 ∅ ∅))). Defined.

Lemma dryrun_errors_witness :
  compare_all_implementations (λ _ _, 7) (λ _, (0, 0)) [raid6_vanilla_gen_syndrome (N := native64)] 4 ∅ = Err OutOfBounds.
Proof.
  apply (proj1 (proj2 (dryrun_errors (λ _ _, 7) (λ _, (0, 0)) [raid6_vanilla_gen_syndrome (N := native64)] 4 ∅))). cbn. lia.
Defined.
