(* ===== verification/CopyMarshal.v ===== *)
(** * Copying a request instead of mapping it

    With COPY_MARSHALLING the daemon (barracuda_deamon/userspace_driver.cu)
    copies the data disks of the request into buffers of its own, computes
    there, and copies the check disks back, through read and write of the device
    file (barracuda_kernel_module/raid6cuda.c).  Here the two sides are put
    together: the result is that of the mapping variant. *)
From S2P Require Import Prelude GF256 Word Memory Syndrome Cstring Service Vanilla Conf Marshal Driver.
Local Open Scope Z_scope.

Section copy.
Context (junk : loc → nat → Z).

(** The body of the server loops under COPY_MARSHALLING. *)
Definition serve_copy (gen_syndrome : syndrome_func) (k : kdata) (m : mem) : result mem :=
  '(act_container, m) ← copy_act_syndrome_block junk k m;
  m ← gen_syndrome (uc_disks act_container) (uc_bytes act_container) (uc_ptrs act_container) m;
  copyback_act_syndrome_block k act_container m.

(** ** Copies through the device *)
Lemma memcpy_stored m dst src n len : buf_ok m len dst → buf_ok m len src → 0 ≤ n ≤ len →
  ∃ m', memcpy m dst src n = Ok m' ∧ stored m dst 0 (slice m src 0 (Z.to_nat n)) m'.
Proof using Type.
  intros Hd Hs Hn. unfold memcpy. run (load_bytes_ok m src 0 (Z.to_nat n) len) by (done || lia).
  apply (store_bytes_spec m dst 0 _ len); [done|done|rewrite length_slice; lia|by eapply Forall_byte_slice].
Qed.

Lemma stored_slice m dst src n m' i : stored m dst 0 (slice m src 0 n) m' →
  peek m' dst i = if decide (i < n)%nat then peek m src i else peek m dst i.
Proof using Type.
  intros [_ _ _ Hp]. rewrite Hp, length_slice. destruct (decide (i < n)%nat).
  - rewrite decide_True by lia. rewrite slice_lookup by lia. simp_default. f_equal. lia.
  - by rewrite decide_False by lia.
Qed.

Section request.
Context (k : kdata) (l : list loc) (bytes : Z) (m : mem).
Context (Hpub : published k l) (Hbytes : sc_bytes (actual_snc k) = bytes).
Context (Hlen : (3 ≤ length l ≤ 255)%nat) (H0 : 0 ≤ bytes) (Hmax : bytes + 7 ≤ INT_MAX).
Context (Ha : array_ok m l (length l) bytes).

Lemma request_disk i b : l !! i = Some b → buf_ok m bytes b.
Proof using Ha. intros Hb. apply (array_ptr Ha i b); [by eapply lookup_lt_Some|done]. Qed.

Lemma request_ptr i b : l !! i = Some b → snc_ptr k (to_int (Z.of_nat i)) = Ok b.
Proof using Hpub Hlen.
  intros Hb. pose proof (lookup_lt_Some _ _ _ Hb). rewrite to_int_small by (unfold INT_MIN, INT_MAX; lia).
  by eapply published_ptr.
Qed.

(** The buffers of the daemon, apart from those of the kernel. *)
Record buffers (dptrs : list loc) (m1 : mem) : Prop := {
  bf_length : length dptrs = length l;
  bf_array : array_ok m1 dptrs (length l) bytes;
  bf_size : ∀ b, b ∈ dptrs → buf_len m1 b = bytes;
  bf_new : ∀ b, b ∈ dptrs → m !! b = None;
  bf_rest : ∀ b, b ∉ dptrs → m1 !! b = m !! b
}.

Lemma buffers_apart dptrs m1 i j b d : buffers dptrs m1 → l !! i = Some b → dptrs !! j = Some d → b ≠ d.
Proof using Ha.
  intros [_ _ _ Hn _] Hb Hd ->. pose proof (request_disk i d Hb) as Hok. apply list_elem_of_lookup_2, Hn in Hd.
  apply buf_ok_Some in Hok as (buf & E & _). congruence.
Qed.

Lemma buffers_disk dptrs m1 i b : buffers dptrs m1 → l !! i = Some b → m1 !! b = m !! b.
Proof using Ha.
  intros HB Hb. apply (bf_rest _ _ HB). intros (j & Hj)%list_elem_of_lookup_1.
  by eapply buffers_apart in HB.
Qed.

Lemma buffers_ok dptrs m1 i b : buffers dptrs m1 → l !! i = Some b → buf_ok m1 bytes b.
Proof using Ha. intros HB Hb. unfold buf_ok. rewrite (buffers_disk _ _ _ _ HB Hb). by eapply request_disk. Qed.

(** Disk [j] has been copied. *)
Definition copied (dptrs : list loc) (j : nat) (m1 : mem) : Prop := ∀ b d i,
  l !! j = Some b → dptrs !! j = Some d → Z.of_nat i < bytes → peek m1 d i = peek m b i.

Lemma buffers_dptr dptrs m1 j : buffers dptrs m1 → (j < length l)%nat → ∃ d, dptrs !! j = Some d ∧ buf_ok m1 bytes d.
Proof using Type.
  intros HB Hj. destruct (array_disk (bf_array _ _ HB) j Hj) as (d & Hd & Hok). by exists d.
Qed.

(** Stores to the buffers of the daemon leave them the buffers. *)
Lemma buffers_stored dptrs m1 m2 d off bs : buffers dptrs m1 → d ∈ dptrs → stored m1 d off bs m2 → buffers dptrs m2.
Proof using Type.
  intros [H1 H2 Hs H3 H4] Hd [S1 S2 S3 _]. split; [done| | |done|].
  - eapply array_ok_frame; [|exact H2]. intros b. apply S3.
  - intros b Hb. by rewrite S2, Hs.
  - intros b Hb. rewrite <-H4 by done. apply S1. by intros ->.
Qed.

(** ** Taking the request *)
Lemma copy_act_ok : ∃ c m1, copy_act_syndrome_block junk k m = Ok (c, m1) ∧
  uc_disks c = Z.of_nat (length l) ∧ uc_bytes c = bytes ∧ buffers (uc_ptrs c) m1 ∧
  ∀ j, (j < length l - 2)%nat → copied (uc_ptrs c) j m1.
Proof using Hpub Hbytes Hlen H0 Ha.
  pose proof Hpub as (id & _ & _ & Hd). unfold copy_act_syndrome_block. rewrite Hd, Hbytes, Nat2Z.id. unfold global_dptrs_len.
  destruct (Z.leb_spec (Z.of_nat (length l)) 255); [|lia]. cbn [require]. bind_step.
  destruct (alloc_disks junk bytes (length l) m) as [dptrs m1] eqn:E.
  destruct (alloc_disks_spec junk bytes (length l) m dptrs m1 H0 E) as (Hl & Hnd & Hnone & Hsize & Hf).
  assert (buffers dptrs m1) as HB.
  { rewrite Forall_forall in Hnone, Hsize. split; [done|by eapply alloc_array_ok| |by apply Hnone|done].
    intros b Hb. by apply Hsize. }
  destruct (for_lt_inv (λ i m', 0 ≤ i ∧ buffers dptrs m' ∧ ∀ j, (j < Z.to_nat i)%nat → copied dptrs j m')
    (λ i m, d ← nth_ptr dptrs i; '(_, m) ← barracuda_read k d bytes i bytes m; Ok m)
    0 (Z.of_nat (length l) - 2) 1) with (s := m1) as (m2 & -> & _ & HB2 & Hc2).
  - lia.
  - done.
  - unfold INT_MAX. lia.
  - intros i m2 Hi _ (Hi0 & HB2 & Hc). set (n := Z.to_nat i).
    destruct (lookup_lt_is_Some_2 l n ltac:(unfold n; lia)) as [b Hb].
    destruct (buffers_dptr dptrs m2 n HB2 ltac:(unfold n; lia)) as (d & Hdn & Hdok).
    run (nth_ptr_nat dptrs i n d) by (done || (unfold n; lia)). unfold barracuda_read, copy_bytes.
    pose proof (request_ptr n b Hb) as Hp. replace (Z.of_nat n) with i in Hp by (unfold n; lia). run Hp.
    destruct (memcpy_stored m2 d b bytes bytes Hdok (buffers_ok _ _ _ _ HB2 Hb) ltac:(lia)) as (m3 & -> & Hst). bind_step.
    exists m3. split; [done|]. split_and!; [lia|eapply buffers_stored; [done|by eapply list_elem_of_lookup_2|done]|].
    intros j Hj b' d' x Hb' Hd' Hx. destruct (decide (j = n)) as [->|Hne].
    + simplify_eq. rewrite (stored_slice _ _ _ _ _ _ Hst), decide_True by lia. unfold peek. by rewrite (buffers_disk _ _ _ _ HB2 Hb).
    + rewrite (stored_peek_ne _ _ _ _ _ _ _ Hst).
      * apply (Hc j ltac:(unfold n in Hne; lia) b' d' x); done.
      * intros ->. destruct HB2 as [_ (_ & Hnd2 & _) _ _ _]. rewrite take_ge in Hnd2 by lia.
        by pose proof (NoDup_lookup _ _ _ _ Hnd2 Hd' Hdn).
  - split_and!; [done|done|lia].
  - bind_step. eexists _, m2. split; [done|]. cbn. split_and!; [done|done|done|].
    intros j Hj. apply Hc2. rewrite (loop_end_unique _ _ _ (Z.of_nat (length l) - 2) (Z.of_nat (length l) - 2)) by lia. lia.
Qed.

(** ** Computing *)
Lemma copied_column dptrs m1 i : buffers dptrs m1 → (∀ j, (j < length l - 2)%nat → copied dptrs j m1) → Z.of_nat i < bytes →
  column m1 dptrs (length l - 2) i = column m l (length l - 2) i.
Proof using Hlen.
  intros HB Hc Hi. pose proof (bf_length _ _ HB) as Hl. apply list_eq_same_length with (length l - 2)%nat.
  - apply length_column. lia.
  - apply length_column. lia.
  - intros j x y Hj Hx Hy. destruct (lookup_lt_is_Some_2 l j ltac:(lia)) as [b Hb].
    destruct (lookup_lt_is_Some_2 dptrs j ltac:(lia)) as [d Hd].
    rewrite (column_lookup _ _ _ _ j b) in Hy by done. rewrite (column_lookup _ _ _ _ j d) in Hx by done.
    rewrite (Hc j Hj b d i Hb Hd Hi) in Hx. congruence.
Qed.

Lemma gen_buffers gen pad (G : PqGenerator gen pad) dptrs m1 : pad bytes ≤ bytes → buffers dptrs m1 →
  (∀ j, (j < length l - 2)%nat → copied dptrs j m1) →
  ∃ m2, gen (Z.of_nat (length l)) bytes dptrs m1 = Ok m2 ∧ buffers dptrs m2 ∧
    (∀ d i, dptrs !! (length l - 2)%nat = Some d → Z.of_nat i < bytes → peek m2 d i = p_byte m l (length l) i) ∧
    (∀ d i, dptrs !! (length l - 1)%nat = Some d → Z.of_nat i < bytes → peek m2 d i = q_byte m l (length l) i).
Proof using H0 Hlen Hmax.
  intros Hpad HB Hc. destruct (pq_run m1 dptrs (length l) bytes) as (m2 & E & Hw);
    [lia|unfold INT_MAX; lia|lia|done|eapply array_ok_mono; [..|apply HB]; lia|].
  pose proof (pad_ge bytes H0 Hmax) as Hge. pose proof Hw as [[Hf Hsz HP HQ] _ _].
  exists m2. split; [done|]. split_and!.
  - destruct HB as [H1 H2 Hs H3 H4]. split; [done|by eapply array_ok_writes|intros b Hb; by rewrite Hsz, Hs|done|].
    intros b Hb. rewrite <-H4 by done. apply Hf; intros Hin; by apply list_elem_of_lookup_2 in Hin.
  - intros d i Hd Hi. rewrite (HP d i) by (done || lia). unfold p_byte. by rewrite copied_column.
  - intros d i Hd Hi. rewrite (HQ d i) by (done || lia). unfold q_byte. by rewrite copied_column.
Qed.

(** ** Giving it back *)
(** What the memory is after both check disks are copied back and the buffers
    of the daemon are freed. *)
Lemma given_back_writes c m2 m3 m4 m5 p q dp dq : buffers (uc_ptrs c) m2 →
  (∀ d i, uc_ptrs c !! (length l - 2)%nat = Some d → Z.of_nat i < bytes → peek m2 d i = p_byte m l (length l) i) →
  (∀ d i, uc_ptrs c !! (length l - 1)%nat = Some d → Z.of_nat i < bytes → peek m2 d i = q_byte m l (length l) i) →
  l !! (length l - 2)%nat = Some p → l !! (length l - 1)%nat = Some q → p ≠ q →
  uc_ptrs c !! (length l - 2)%nat = Some dp → uc_ptrs c !! (length l - 1)%nat = Some dq →
  stored m2 p 0 (slice m2 dp 0 (Z.to_nat bytes)) m3 → stored m3 q 0 (slice m3 dq 0 (Z.to_nat bytes)) m4 →
  (∀ b, b ∈ uc_ptrs c → m5 !! b = None) → (∀ b, b ∉ uc_ptrs c → m5 !! b = m4 !! b) →
  writes_pq m l (length l) bytes m5.
Proof using Ha Hlen.
  intros HB HP HQ Hp Hq Hpq Hdp Hdq S3 S4 Hin Hout.
  assert (∀ b, b ∉ uc_ptrs c → m2 !! b = m !! b) as H2 by apply HB.
  assert (∀ b, b ∈ uc_ptrs c → m !! b = None) as Hnew by apply HB.
  assert (p ∉ uc_ptrs c) as Hpn. { intros (j & Hj)%list_elem_of_lookup_1. by apply (buffers_apart _ _ _ _ _ _ HB Hp Hj). }
  assert (q ∉ uc_ptrs c) as Hqn. { intros (j & Hj)%list_elem_of_lookup_1. by apply (buffers_apart _ _ _ _ _ _ HB Hq Hj). }
  assert (q ≠ dq) as Hqdq by (intros ->; apply Hqn; by eapply list_elem_of_lookup_2).
  assert (∀ i, peek m5 p i = if decide (i < Z.to_nat bytes)%nat then peek m2 dp i else peek m p i) as Pp.
  { intros i. assert (peek m5 p i = peek m3 p i) as ->.
    { unfold peek. rewrite Hout by done. by rewrite (st_frame _ _ _ _ _ S4). }
    rewrite (stored_slice _ _ _ _ _ _ S3). case_decide; [done|]. unfold peek. by rewrite H2. }
  assert (∀ i, peek m5 q i = if decide (i < Z.to_nat bytes)%nat then peek m2 dq i else peek m q i) as Pq.
  { intros i. assert (peek m5 q i = peek m4 q i) as ->. { unfold peek. by rewrite Hout. }
    rewrite (stored_slice _ _ _ _ _ _ S4). case_decide.
    - apply (stored_peek_ne _ _ _ _ _ _ _ S3). intros <-. apply Hpn. by eapply list_elem_of_lookup_2.
    - rewrite (stored_peek_ne _ _ _ _ _ _ _ S3) by done. unfold peek. by rewrite H2. }
  assert (∀ b, b ≠ p → b ≠ q → m5 !! b = m !! b) as Hfr.
  { intros b Hbp Hbq. destruct (decide (b ∈ uc_ptrs c)) as [Hb|Hb]; [by rewrite Hin, Hnew|].
    rewrite Hout by done. rewrite (st_frame _ _ _ _ _ S4), (st_frame _ _ _ _ _ S3) by done. by apply H2. }
  split; [split|..].
  - intros b Hb1 Hb2. apply Hfr; congruence.
  - intros b. destruct (decide (b ∈ uc_ptrs c)) as [Hb|Hb]; [unfold buf_len; by rewrite Hin, Hnew|].
    assert (buf_len m5 b = buf_len m4 b) as -> by (unfold buf_len; by rewrite Hout).
    rewrite (st_len _ _ _ _ _ S4), (st_len _ _ _ _ _ S3). unfold buf_len. by rewrite H2.
  - intros b i Hb Hi. simplify_eq. rewrite Pp, decide_True by lia. by apply HP.
  - intros b i Hb Hi. simplify_eq. rewrite Pq, decide_True by lia. by apply HQ.
  - intros b i Hi. destruct (decide (b = p)) as [->|Hbp]; [by rewrite Pp, decide_False by lia|].
    destruct (decide (b = q)) as [->|Hbq]; [by rewrite Pq, decide_False by lia|]. unfold peek. by rewrite Hfr.
  - intros b x Hb. assert (b ∉ uc_ptrs c) as Hbn.
    { intros Hbi. apply buf_ok_Some in Hb as (buf & Hb & _). rewrite Hnew in Hb; done. }
    assert (buf_ok m4 x b) as Hb4.
    { apply (st_ok _ _ _ _ _ S4), (st_ok _ _ _ _ _ S3). unfold buf_ok in *. by rewrite H2. }
    unfold buf_ok in *. by rewrite Hout.
Qed.

Lemma copyback_ok c m2 : uc_disks c = Z.of_nat (length l) → uc_bytes c = bytes → buffers (uc_ptrs c) m2 →
  (∀ d i, uc_ptrs c !! (length l - 2)%nat = Some d → Z.of_nat i < bytes → peek m2 d i = p_byte m l (length l) i) →
  (∀ d i, uc_ptrs c !! (length l - 1)%nat = Some d → Z.of_nat i < bytes → peek m2 d i = q_byte m l (length l) i) →
  ∃ m', copyback_act_syndrome_block k c m2 = Ok m' ∧ writes_pq m l (length l) bytes m'.
Proof using Hpub Hlen H0 Ha.
  intros Hcd Hcb HB HP HQ. set (n := length l) in *.
  destruct (lookup_lt_is_Some_2 l (n - 2) ltac:(unfold n in *; lia)) as [p Hp].
  destruct (lookup_lt_is_Some_2 l (n - 1) ltac:(unfold n in *; lia)) as [q Hq].
  destruct (buffers_dptr _ _ (n - 2) HB ltac:(unfold n in *; lia)) as (dp & Hdp & Hdpo).
  destruct (buffers_dptr _ _ (n - 1) HB ltac:(unfold n in *; lia)) as (dq & Hdq & Hdqo).
  assert (p ≠ q) as Hpq. { intros ->. pose proof (array_inj Ha (n - 2) (n - 1) q ltac:(unfold n in *; lia) ltac:(unfold n in *; lia) Hp Hq). lia. }
  unfold copyback_act_syndrome_block. rewrite Hcd, Hcb.
  run (nth_ptr_nat (uc_ptrs c) (Z.of_nat n - 2) (n - 2) dp) by (done || (unfold n in *; lia)).
  unfold barracuda_write, copy_bytes.
  pose proof (request_ptr (n - 2) p Hp) as Ep. replace (Z.of_nat (n - 2)) with (Z.of_nat n - 2) in Ep by (unfold n in *; lia). run Ep.
  destruct (memcpy_stored m2 p dp bytes bytes (buffers_ok _ _ _ _ HB Hp) Hdpo ltac:(lia)) as (m3 & -> & S3). bind_step.
  run (nth_ptr_nat (uc_ptrs c) (Z.of_nat n - 1) (n - 1) dq) by (done || (unfold n in *; lia)).
  pose proof (request_ptr (n - 1) q Hq) as Eq. replace (Z.of_nat (n - 1)) with (Z.of_nat n - 1) in Eq by (unfold n in *; lia). run Eq.
  destruct (memcpy_stored m3 q dq bytes bytes (st_ok _ _ _ _ _ S3 _ _ (buffers_ok _ _ _ _ HB Hq)) (st_ok _ _ _ _ _ S3 _ _ Hdqo) ltac:(lia))
    as (m4 & -> & S4). bind_step.
  pose proof (bf_length _ _ HB) as Hl. pose proof (bf_array _ _ HB) as (_ & Hnd & Hlive). rewrite take_ge in Hnd, Hlive by lia.
  destruct (dealloc_spec (uc_ptrs c) m4) as (m5 & E5 & Hin & Hout); [rewrite Hl; unfold INT_MAX, n in *; lia|done| |].
  { eapply Forall_impl; [exact Hlive|]. cbn. intros d Hd. apply (st_ok _ _ _ _ _ S3), (st_ok _ _ _ _ _ S4), buf_ok_Some in Hd as (buf & -> & _). done. }
  exists m5. split; [by rewrite Hl in E5|].
  by apply (given_back_writes c m2 m3 m4 m5 p q dp dq).
Qed.
End request.

(** C16: serving a request by copies, with an implementation that keeps its
    contract within the bytes of the request, leaves P and Q in the check disks
    of the kernel and everything else, the heap of the daemon included, as it
    was; it is the memory that the mapping variant leaves, which computes on the
    buffers of the kernel. *)
Theorem copy_marshalling_equiv gen pad (G : PqGenerator gen pad) k l bytes m :
  published k l → sc_bytes (actual_snc k) = bytes → (3 ≤ length l ≤ 255)%nat → 0 ≤ bytes → bytes + 7 ≤ INT_MAX →
  array_ok m l (length l) bytes → pad bytes ≤ bytes →
  ∃ m', serve_copy gen k m = Ok m' ∧ writes_pq m l (length l) bytes m' ∧ gen (Z.of_nat (length l)) bytes l m = Ok m'.
Proof using Type.
  intros Hpub Hb Hlen H0 Hmax Ha Hpad.
  destruct (copy_act_ok k l bytes m Hpub Hb Hlen H0 Ha) as (c & m1 & E1 & Hcd & Hcb & HB & Hc).
  destruct (gen_buffers l bytes m Hlen H0 Hmax gen pad G (uc_ptrs c) m1 Hpad HB Hc) as (m2 & E2 & HB2 & HP & HQ).
  destruct (copyback_ok k l bytes m Hpub Hlen H0 Ha c m2 Hcd Hcb HB2 HP HQ) as (m' & E3 & Hw).
  exists m'. unfold serve_copy. run E1. rewrite Hcd, Hcb. run E2. split_and!; [done|done|].
  assert (pad bytes = bytes) as Hpb by (pose proof (pad_ge bytes H0 Hmax); lia).
  destruct (pq_run m l (length l) bytes) as (m'' & E & Hw');
    [lia|unfold INT_MAX; lia|done|done|by rewrite Hpb|]. rewrite Hpb in Hw'. rewrite E. f_equal.
  apply (writes_pq_unique m m'' m' l (length l) bytes); [lia|done..].
Qed.

(** The buffers of the daemon have exactly the bytes of the request: when these
    are no whole number of words, the vanilla implementation, which works on the
    pages of the mapping variant, runs past them. *)
Theorem copy_marshalling_unaligned {N : Native} k l bytes m : published k l → sc_bytes (actual_snc k) = bytes →
  (3 ≤ length l ≤ 255)%nat → 0 < bytes → bytes mod Z.of_nat NSIZE ≠ 0 → array_ok m l (length l) bytes →
  ∀ m', serve_copy Vanilla.raid6_vanilla_gen_syndrome k m ≠ Ok m'.
Proof using Type.
  intros Hpub Hb Hlen H0 Hmod Ha m' E. unfold serve_copy in E.
  destruct (copy_act_ok k l bytes m Hpub Hb Hlen ltac:(lia) Ha) as (c & m1 & E1 & Hcd & Hcb & HB & _).
  rewrite E1 in E. cbn [mbind result_bind] in E. apply bind_Ok in E as (m2 & E2 & _). rewrite Hcd, Hcb in E2.
  destruct (buffers_dptr l bytes m _ _ (length l - 2) HB ltac:(lia)) as (p & Hp & _).
  destruct (buffers_dptr l bytes m _ _ (length l - 1) HB ltac:(lia)) as (q & Hq & _).
  destruct (vanilla_padding m1 m2 (uc_ptrs c) (Z.of_nat (length l)) bytes p q H0 E2) as (Hpl & _ & Hlt).
  - apply (nth_ptr_nat _ _ (length l - 2)); [lia|done].
  - apply (nth_ptr_nat _ _ (length l - 1)); [lia|done].
  - assert (buf_len m1 p = bytes) as Hbl; [|specialize (Hlt Hmod); lia].
    by apply (bf_size _ _ _ _ _ HB), list_elem_of_lookup_2 with (length l - 2)%nat.
Qed.
End copy.

(** ** Witnesses *)
(** A published request for the five disks of the sample array. *)
Definition sample_request : kdata :=
  {| arrays := {[ 2%positive := sample_ptrs ]};
     actual_snc := {| sc_disks := 5; sc_bytes := 16; sc_ptrs := Some 2%positive |} |}.

Lemma sample_published bytes : published (set_snc {| sc_disks := 5; sc_bytes := bytes; sc_ptrs := Some 2%positive |} sample_request) sample_ptrs.
Proof. exists 2%positive. done. Qed.

Lemma copy_marshalling_equiv_witness : ∃ m',
  serve_copy (λ _ _, 7) (Vanilla.raid6_vanilla_gen_syndrome (N := native64)) sample_request sample_mem = Ok m' ∧
  writes_pq sample_mem sample_ptrs 5 16 m' ∧
  Vanilla.raid6_vanilla_gen_syndrome (N := native64) 5 16 sample_ptrs sample_mem = Ok m'.
Proof.
  apply (copy_marshalling_equiv (λ _ _, 7) _ _ (vanilla_pq (N := native64)) sample_request sample_ptrs 16 sample_mem);
    [apply (sample_published 16)|done|cbn; lia|done|done|by_decide|done].
Defined.

Lemma copy_marshalling_unaligned_witness : ∀ m',
  serve_copy (λ _ _, 7) (Vanilla.raid6_vanilla_gen_syndrome (N := native64))
    (set_snc {| sc_disks := 5; sc_bytes := 13; sc_ptrs := Some 2%positive |} sample_request) sample_mem ≠ Ok m'.
Proof.
  apply (copy_marshalling_unaligned (N := native64) (λ _ _, 7) _ sample_ptrs 13 sample_mem);
    [apply (sample_published 13)|done|cbn; lia|done|done|by_decide].
Defined.
